(* ===== verification/_CoqProject ===== *)
-Q . S2P
Prelude.v
J1939Type.v
Canary.v
Header.v
HeaderFacts.v
Name.v
NameFacts.v
Frame.v
FrameFacts.v
Network.v
NetworkFacts.v
NetworkSpec.v
NetworkSearch.v
NetworkLock.v
NetworkLockFacts.v
Sml.v
StateMachine.v
AddressClaimer.v
Logger.v
StateMachineFacts.v
ClaimerFacts.v
ClaimerBehaviour.v
ClaimerLimits.v
ClaimerBus.v
ClaimerView.v
ClaimerRaces.v
ClaimerNet.v
ClaimerExamples.v
RepoTests.v
Transport.v
TransportFacts.v
TransportFrame.v
TransportRoundTrip.v
TransportWindows.v
TransportInterleaving.v
TransportSafety.v
TransportTypes.v
TransportHistory.v
TransportNet.v
TransportNetFacts.v
TransportLimits.v
TransportExamples.v
Connection.v
ConnectionFacts.v
ConnectionExchange.v
ConnectionSafety.v
ConnectionLimits.v
ClaimerConnection.v
Node.v
Program.v
NodeFacts.v
ConnectionExamples.v
