(* ===== verification/Prelude.v ===== *)
(** * Jay: a verification of the J1939 library in Rocq

    [jay] is a header-only C++17 library for SAE J1939 on a raw CAN socket.  A
    process gets a bus address for its 64-bit NAME ([address_claimer], driven by
    [address_state_machine]), keeps a table of who has which address
    ([network]), and sends and receives messages through a [j1939_connection],
    which splits messages of more than eight bytes with [transport_protocol].
    [name], [frame_header], [frame] and [data] are the values they exchange.
    This library translates that code into executable definitions and proves
    what it does, and where it does not do what it means to.

    ** Files and the code they model (under src/include/jay unless noted)

    - [Prelude]: machine integers ([wrap], [is_uint]), bit fields ([fget],
      [fset]), lemmas on lists, the tactics [bitwise], [bit_cases], [bool_cases].
    - [J1939Type]: j1939_type.hpp, the constants.
    - [Canary]: the parameter [CanaryHeader] for canary::frame_header, its laws
      and an instance laid out as Linux's struct can_frame.
    - [Header], [HeaderFacts]: header.hpp.  The header is a 29-bit id with six
      fields; setters, getters and constructors against these fields.
    - [Name], [NameFacts]: name.hpp.  Fields, payload conversions, comparison
      and hash of NAMEs.
    - [Frame], [FrameFacts]: frame.hpp, data.hpp, filters.hpp.  Archetype frames
      and kernel filters ([CanaryFilter]).
    - [Network]: network.hpp, two maps with every operation and query.
      [NetworkFacts] has the invariant, [NetworkSpec] the abstract table and its
      refinement, [NetworkSearch] the search for an address.  [NetworkLock] has
      the operations again as sequences of single accesses under the shared
      mutex, and threads that interleave them; [NetworkLockFacts] relates the
      interleavings to the operations of [Network].
    - [Sml]: the parameter [Sml] for boost::sml, with the documented rule for
      running a transition table as its law ([SmlLaws]), and an instance.
    - [StateMachine], [StateMachineFacts]: address_state_machine.hpp.  Guards,
      actions and the 22 rows of the table; the table as a machine by cases.
    - [AddressClaimer]: address_claimer.hpp.  The io_context and its timer are
      inputs: [step] takes a frame, a start, the k-th queued task or the expiry
      of the timer, so every interleaving is a list of inputs.  [ClaimerFacts]
      has the invariant of all runs, [ClaimerBehaviour] the runs that succeed,
      [ClaimerLimits] those that do not, [ClaimerBus] what a claimer sends and
      two claimers that hear each other's frames, [ClaimerView] what one claimer
      knows of an address, [ClaimerRaces] interleavings of two claimers that go
      wrong, [ClaimerNet] any number of claimers on a bus, [ClaimerExamples]
      concrete inputs.  [Logger] is the claimer's logger.
    - [RepoTests]: the repository's tests of NAMEs, headers, frames, the table,
      the state machine and the claimer, run on these definitions.
    - [Transport]: transport_protocol.hpp.  A state and failure monad over the
      parameter [Bus]; undefined behaviour of the code is a [fault].
      [TransportFacts]; [TransportFrame], a logic for relations between the state
      before and after an operation, from which follows what it leaves alone;
      [TransportRoundTrip], [TransportWindows] (transfers in several windows),
      [TransportInterleaving] (several broadcasts at once), [TransportSafety],
      [TransportTypes] (machine widths), [TransportHistory] (where delivered
      messages come from), [TransportNet] and [TransportNetFacts] (stations with
      a queue of frames each, and their transfers to each other as stages),
      [TransportLimits], [TransportExamples] (the repository's tests, run on a
      mock bus).
    - [Connection]: j1939_connection.hpp over the parameter [RawSocket]; the bus
      of its transport is the record [adapter].  [ConnectionFacts] (addressing),
      [ConnectionExchange] (messages between two connections),
      [ConnectionSafety], [ConnectionLimits], [ConnectionExamples].
    - [ClaimerConnection]: the claimers of a bus and the connections of their
      nodes over the same tables.
    - [Node], [Program], [NodeFacts]: src/examples/main.cpp, the composition of a
      table, a connection and a claimer, what it prints and how it ends.

    ** What the theorems show

    - Values: every header the interface can build is a J1939 header; each
      setter writes one field, each getter reads one; payload conversions are
      inverse to each other; NAMEs are totally ordered up to [==]; archetype
      frames decode to what they were made from, and the kernel filters accept
      exactly the frames that the library recognises.
    - Table: an invariant of all operations, what [insert] does on each branch,
      a refinement of an abstract address table, and the search for an address
      with the end of its loops.  The class is thread safe: no data races, every
      interleaving has the results of a sequential run, and every run ends.
    - Claiming: the transition table is equivalent to a machine by cases; for
      every interleaving the machine and the table agree; an uncontested claim
      succeeds and an evicted holder claims again; any number of claimers on one
      bus do not settle on the same address, and the strongest keeps it and is
      known to the weaker ones, if expired timers are served at once.
    - Transport: broadcasts and transfers to a peer arrive exactly once and
      complete.  Of broadcasts sent at once on a bus that loses frames, exactly
      those arrive of which no frame is lost; of transfers between any number of
      stations, one for each sender and receiver, in any order of their steps, all
      arrive, and the exchange ends with stations that are ready for the next.
      Whatever frames other stations send, what is delivered was announced once
      and consists of the packets sent for it.  A sender follows consecutive
      windows of any sizes, and a receiver clears a message window by window; no well-formed
      frame makes a handler fault; every value keeps its C++ type; timeouts.
    - Connection: a message of one frame, and one of up to 1778 bytes, passes
      from one connection to another through socket, address check, transport
      and callbacks; a configured connection does not fault, unless a data frame
      has no data (its handler accesses an empty vector); which frames reach the user and how sent frames are addressed.  With claimers: what a node
      that holds an address sends to a stronger one arrives.
    - Example program: it gets its address on a quiet bus, and a signal ends it.
    - Limits: theorems that exhibit behaviour the code does not intend, such as
      a stale entry of the table, a claim cancelled by a request, a late
      cannot-claim message that lets two claimers share an address, a claimer
      that forgets the NAME from which it has taken its address, malformed
      frames that fault, broadcasts of 255 packets reported as failed, pauses that
      end a transfer, acknowledgements that miss their session, senders that
      acknowledge and abort in the name of their peer, broadcasts rejected by
      connections with a local name.

    ** Conventions

    A w-bit integer is a [Z] with its wrap-around written out.  Callbacks of the
    user are recorded as outputs at the point of the call, and do not call back
    into the object.
    Third-party code is a type class with its documented behaviour as laws;
    theorems are proved for all instances, and each law class has an instance on
    which the witnesses run.  There is no fuel.  The search loops ([search_loop],
    [search_loop_body]) are defined by well-founded recursion on the distance of
    the 8-bit counter from the end, with Equations; the loop of
    [send_data_packets] is bounded by its own counter [count], and the other loops
    go through a list.

    ** Not modelled

    The strands of the sockets (the handlers of one object run one at a time
    here), a callback that calls back into the table while this is locked (the
    code forbids it), the random delay of a cannot-claim message (the environment
    chooses when the timer expires), two tests that pass a frame through a kernel
    socket, and the build files.  What [boost::sml] reports to the logger, the
    text of error codes and the iteration orders of the unordered maps are
    parameters.

    ** To extend

    Connections that send while a claim is under way, timers whose handlers wait
    in the queue, where the promises of the bus do not hold as they stand, and
    simultaneous transfers through whole connections instead of transports. *)

From Stdlib Require Export ZArith Lia Bool.
From stdpp Require Export base decidable numbers list option.

Open Scope Z_scope.

(** ** Machine integers

    A [w]-bit unsigned integer of the C++ code is a [Z] in [[0, 2^w)].
    [wrap w] is the conversion to that width ([static_cast], an implicit
    narrowing, or the wrap-around of unsigned arithmetic); [bnot w] is the
    bitwise complement [~x] computed at width [w]. *)
Definition wrap (w z : Z) : Z := z mod 2 ^ w.

Definition bnot (w x : Z) : Z := wrap w (Z.lnot x).

Definition is_uint (w z : Z) : Prop := 0 <= z < 2 ^ w.

Declare Scope jay_scope.
Delimit Scope jay_scope with jay.
Open Scope jay_scope.

Notation u8 := (wrap 8).
Notation u16 := (wrap 16).
Notation u32 := (wrap 32).
Notation u64 := (wrap 64).
Infix ".&" := Z.land (at level 40, left associativity) : jay_scope.
Infix ".|" := Z.lor (at level 45, left associativity) : jay_scope.
Infix ".<<" := Z.shiftl (at level 38, left associativity) : jay_scope.
Infix ".>>" := Z.shiftr (at level 38, left associativity) : jay_scope.

(** [std::clamp(v, lo, hi)]. *)
Definition clamp (v lo hi : Z) : Z :=
  if v <? lo then lo else if hi <? v then hi else v.

(** ** Bit fields

    The reference description of the packed layouts of [frame_header] and
    [name]: field [len] bits wide starting at bit [lo]. *)
Definition fmask (lo len : Z) : Z := Z.ones len .<< lo.

Definition fget (lo len x : Z) : Z := (x .& fmask lo len) .>> lo.

Definition fset (w lo len x v : Z) : Z :=
  (x .& bnot w (fmask lo len)) .| ((v .<< lo) .& fmask lo len).

(** ** Tactics *)

(** Case analysis on the boolean integer comparisons of the goal. *)
Ltac bool_cases :=
  repeat match goal with
  | |- context [?a <=? ?b] => destruct (Z.leb_spec a b)
  | |- context [?a <? ?b] => destruct (Z.ltb_spec a b)
  | |- context [?a =? ?b] => destruct (Z.eqb_spec a b)
  end.

(** Boolean hypotheses to propositions. *)
Ltac bool_hyps :=
  repeat match goal with
  | H : _ && _ = true |- _ => apply andb_true_iff in H; destruct H
  | H : _ || _ = false |- _ => apply orb_false_iff in H; destruct H
  | H : negb _ = true |- _ => apply negb_true_iff in H
  | H : negb _ = false |- _ => apply negb_false_iff in H
  | H : (_ =? _) = true |- _ => apply Z.eqb_eq in H
  | H : (_ =? _) = false |- _ => apply Z.eqb_neq in H
  | H : (_ <? _) = true |- _ => apply Z.ltb_lt in H
  | H : (_ <? _) = false |- _ => apply Z.ltb_ge in H
  | H : (_ <=? _) = true |- _ => apply Z.leb_le in H
  | H : (_ <=? _) = false |- _ => apply Z.leb_gt in H
  end.

Create HintDb jay.
Create HintDb jaybits.

(** ** Lemmas on widths *)

Lemma wrap_range w z : 0 <= w -> is_uint w (wrap w z).
Proof. intros. unfold is_uint, wrap. apply Z.mod_pos_bound. lia. Qed.

Lemma wrap_small w z : is_uint w z -> wrap w z = z.
Proof. intros. unfold wrap. by apply Z.mod_small. Qed.

Lemma wrap_wrap w z : 0 <= w -> wrap w (wrap w z) = wrap w z.
Proof. intros. by apply wrap_small, wrap_range. Qed.

Lemma is_uint_mono w w' z : 0 <= w <= w' -> is_uint w z -> is_uint w' z.
Proof.
  unfold is_uint. intros Hw [Hl Hu].
  pose proof (Z.pow_le_mono_r 2 w w'). lia.
Qed.

Lemma testbit_wrap w z i : 0 <= w -> Z.testbit (wrap w z) i = (i <? w) && Z.testbit z i.
Proof.
  intros. unfold wrap. destruct (Z.ltb_spec i w).
  - by rewrite Z.mod_pow2_bits_low by lia.
  - by rewrite Z.mod_pow2_bits_high by lia.
Qed.

(** The bits of a [w]-bit value above [w] are zero. *)
Lemma testbit_uint w z i : is_uint w z -> w <= i -> 0 <= w -> Z.testbit z i = false.
Proof.
  intros Hz Hi Hw. rewrite <- (wrap_small w z Hz), testbit_wrap by lia.
  by destruct (Z.ltb_spec i w); [lia|].
Qed.

(** A non-negative value with no bit at or above [w] is a [w]-bit value. *)
Lemma is_uint_bits w z :
  0 <= w -> 0 <= z -> (forall i, w <= i -> Z.testbit z i = false) -> is_uint w z.
Proof.
  intros Hw Hz Hb. assert (z = wrap w z) as ->; [|by apply wrap_range].
  apply Z.bits_inj'. intros i Hi. rewrite testbit_wrap by lia.
  destruct (Z.ltb_spec i w); [done|]. by apply Hb.
Qed.

Lemma testbit_fmask lo len i :
  0 <= lo -> 0 <= len -> 0 <= i ->
  Z.testbit (fmask lo len) i = (lo <=? i) && (i <? lo + len).
Proof.
  intros. unfold fmask. rewrite Z.shiftl_spec by lia.
  destruct (Z.leb_spec lo i); simpl.
  - destruct (Z.ltb_spec i (lo + len)).
    + by rewrite Z.ones_spec_low by lia.
    + by rewrite Z.ones_spec_high by lia.
  - by rewrite Z.testbit_neg_r by lia.
Qed.

Lemma testbit_bnot w x i :
  0 <= w -> 0 <= i -> Z.testbit (bnot w x) i = (i <? w) && negb (Z.testbit x i).
Proof. intros. unfold bnot. rewrite testbit_wrap by lia. by rewrite Z.lnot_spec by lia. Qed.

#[export] Hint Rewrite Z.land_spec Z.lor_spec : jaybits.
#[export] Hint Rewrite Z.shiftl_spec Z.shiftr_spec testbit_fmask testbit_bnot testbit_wrap
  using lia : jaybits.

(** Equality of two integers bit by bit; leaves the boolean goal on a bit [i]. *)
Ltac bitwise i :=
  apply Z.bits_inj'; intros i ?; autorewrite with jaybits.

(** Finishes a bit goal by the position of [i] in the fields it mentions;
    bits at a negative position are zero. *)
Ltac bit_neg :=
  repeat match goal with
  | |- context [Z.testbit ?x ?k] =>
      lazymatch k with context [Z.sub] => rewrite (Z.testbit_neg_r x k) by lia end
  end.
Ltac bit_cases := bool_cases; simpl; try lia; bit_neg;
  rewrite ?andb_false_r, ?andb_true_r, ?orb_false_r, ?orb_true_r; simpl; try done;
  try (f_equal; lia).

Lemma land_is_uint w x y : 0 <= w -> is_uint w x -> 0 <= y -> is_uint w (x .& y).
Proof.
  intros Hw Hx Hy. apply is_uint_bits; [done|apply Z.land_nonneg; unfold is_uint in *; lia|].
  intros i Hi. by rewrite Z.land_spec, (testbit_uint w x) by done.
Qed.

Lemma lor_is_uint w x y : 0 <= w -> is_uint w x -> is_uint w y -> is_uint w (x .| y).
Proof.
  intros Hw Hx Hy. apply is_uint_bits; [done|apply Z.lor_nonneg; unfold is_uint in *; lia|].
  intros i Hi. by rewrite Z.lor_spec, (testbit_uint w x), (testbit_uint w y) by done.
Qed.

Lemma shiftl_is_uint w k x : 0 <= k -> 0 <= w -> is_uint w x -> is_uint (w + k) (x .<< k).
Proof.
  intros Hk Hw [Hl Hu]. unfold is_uint.
  rewrite Z.shiftl_mul_pow2, Z.pow_add_r by lia. nia.
Qed.

(** An [or] with a value below the shift is an addition. *)
Lemma shiftl_lor_add k x y : 0 <= k -> is_uint k y -> (x .<< k) .| y = x * 2 ^ k + y.
Proof.
  intros Hk Hy. rewrite <- Z.shiftl_mul_pow2 by lia. symmetry. apply Z.add_nocarry_lor.
  apply Z.bits_inj'. intros i Hi. rewrite Z.bits_0, Z.land_spec, Z.shiftl_spec by lia.
  destruct (Z.ltb_spec i k); [by rewrite Z.testbit_neg_r by lia|].
  by rewrite (testbit_uint k y), andb_false_r by done.
Qed.

Lemma lor_shiftl_add k x y : 0 <= k -> is_uint k y -> y .| (x .<< k) = x * 2 ^ k + y.
Proof. intros. rewrite Z.lor_comm. by apply shiftl_lor_add. Qed.

Lemma clamp_spec v lo hi : lo <= hi -> lo <= clamp v lo hi <= hi.
Proof. intros. unfold clamp. bool_cases; lia. Qed.

(** ** Lemmas on bit fields *)

Lemma testbit_fget lo len x i :
  0 <= lo -> 0 <= len -> 0 <= i ->
  Z.testbit (fget lo len x) i = (i <? len) && Z.testbit x (i + lo).
Proof.
  intros. unfold fget. rewrite Z.shiftr_spec, Z.land_spec, testbit_fmask by lia.
  bit_cases.
Qed.

Lemma testbit_fset w lo len x v i :
  0 <= lo -> 0 <= len -> lo + len <= w -> 0 <= i ->
  Z.testbit (fset w lo len x v) i =
    if (lo <=? i) && (i <? lo + len) then Z.testbit v (i - lo)
    else (i <? w) && Z.testbit x i.
Proof.
  intros. unfold fset.
  rewrite Z.lor_spec, !Z.land_spec, testbit_bnot, testbit_fmask, Z.shiftl_spec by lia.
  bool_cases; simpl; try lia; by rewrite ?andb_false_r, ?andb_true_r, ?orb_false_r.
Qed.

#[export] Hint Rewrite testbit_fget testbit_fset using lia : jaybits.

(** A field moved to bit [k]. *)
Lemma testbit_fget_shiftl lo len x k i :
  0 <= lo -> 0 <= len -> 0 <= k -> 0 <= i ->
  Z.testbit (fget lo len x .<< k) i =
    (k <=? i) && (i <? k + len) && Z.testbit x (i - k + lo).
Proof.
  intros. rewrite Z.shiftl_spec by lia. destruct (Z.leb_spec k i); simpl.
  - rewrite testbit_fget by lia. bit_cases.
  - by rewrite Z.testbit_neg_r by lia.
Qed.

(** Two adjacent fields make one wider field. *)
Lemma fget_join lo len len' x k :
  0 <= lo -> 0 <= len -> 0 <= len' -> 0 <= k ->
  (fget (lo + len) len' x .<< (k + len)) .| (fget lo len x .<< k) = fget lo (len + len') x .<< k.
Proof.
  intros. apply Z.bits_inj'. intros i Hi.
  rewrite Z.lor_spec, !testbit_fget_shiftl by lia.
  replace (i - (k + len) + (lo + len)) with (i - k + lo) by lia. bit_cases.
Qed.

Lemma fget_join_low len len' x :
  0 <= len -> 0 <= len' -> fget 0 len x .| (fget len len' x .<< len) = fget 0 (len + len') x.
Proof.
  intros. rewrite Z.lor_comm, <- (Z.shiftl_0_r (fget 0 len x)), <- (Z.shiftl_0_r (fget 0 (_ + _) x)).
  by apply (fget_join 0 len len' x 0).
Qed.

Lemma fget_all w x : 0 <= w -> is_uint w x -> fget 0 w x = x.
Proof.
  intros. bitwise i. rewrite Z.add_0_r. destruct (Z.ltb_spec i w); [done|].
  by rewrite (testbit_uint w x) by done.
Qed.

Lemma fget_div lo len x : 0 <= lo -> 0 <= len -> fget lo len x = (x / 2 ^ lo) mod 2 ^ len.
Proof.
  intros. bitwise i. change ((x / 2 ^ lo) mod 2 ^ len) with (wrap len (x / 2 ^ lo)).
  rewrite testbit_wrap, <- Z.shiftr_div_pow2, Z.shiftr_spec by lia. done.
Qed.

Lemma fget_range lo len x : 0 <= lo -> 0 <= len -> is_uint len (fget lo len x).
Proof. intros. rewrite fget_div by lia. by apply (wrap_range len). Qed.

Lemma wrap_fget w lo len x : 0 <= lo -> 0 <= len <= w -> wrap w (fget lo len x) = fget lo len x.
Proof. intros. apply wrap_small, (is_uint_mono len); [lia|]. apply fget_range; lia. Qed.

(** Reading the field that was just written. *)
Lemma fget_fset_same w lo len x v :
  0 <= lo -> 0 <= len -> lo + len <= w -> fget lo len (fset w lo len x v) = wrap len v.
Proof. intros. bitwise i. bit_cases. Qed.

Lemma fget_lor lo len x y : fget lo len (x .| y) = fget lo len x .| fget lo len y.
Proof. unfold fget. by rewrite Z.land_lor_distr_l, Z.shiftr_lor. Qed.

(** Writing a field leaves a disjoint field alone. *)
Lemma fget_fset_other w lo len lo' len' x v :
  0 <= lo -> 0 <= len -> lo + len <= w -> 0 <= lo' -> 0 <= len' -> lo' + len' <= w ->
  lo + len <= lo' \/ lo' + len' <= lo ->
  fget lo' len' (fset w lo len x v) = fget lo' len' x.
Proof. intros ?????? Hd. bitwise i. bit_cases. Qed.

Lemma fset_is_uint w lo len x v :
  0 <= lo -> 0 <= len -> lo + len <= w -> 0 <= x -> 0 <= v -> is_uint w (fset w lo len x v).
Proof.
  intros. apply is_uint_bits; [lia| |].
  - unfold fset. apply Z.lor_nonneg. split; apply Z.land_nonneg; [by left|].
    left. by apply Z.shiftl_nonneg.
  - intros i Hi. rewrite testbit_fset by lia. bit_cases.
Qed.

(** Writing back what a field holds changes nothing. *)
Lemma fset_fget w lo len x :
  0 <= lo -> 0 <= len -> lo + len <= w -> is_uint w x ->
  fset w lo len x (fget lo len x) = x.
Proof.
  intros ??? Hx. apply Z.bits_inj'. intros i Hi. rewrite testbit_fset by lia.
  destruct (Z.leb_spec lo i), (Z.ltb_spec i (lo + len)); simpl;
    [rewrite testbit_fget by lia; replace (i - lo + lo) with i by lia; bit_cases|..];
    destruct (Z.ltb_spec i w); simpl; try done; by rewrite (testbit_uint w x) by (done || lia).
Qed.

(** ** Lemmas on lists *)

Lemma Forall_sublist {A} (P : A -> Prop) l k : l `sublist_of` k -> Forall P k -> Forall P l.
Proof. intros Hl. rewrite !list.Forall_forall. intros Hk x Hx. by apply Hk, (elem_of_sublist l). Qed.

Lemma sublist_fmap_inv {A B} (f : A -> B) l k : l `sublist_of` f <$> k -> exists k', l = f <$> k' /\ k' `sublist_of` k.
Proof.
  revert l. induction k as [|x k IH]; intros l Hl.
  - apply sublist_nil_r in Hl as ->. by exists [].
  - rewrite fmap_cons in Hl. apply sublist_cons_r in Hl as [Hl|(l' & -> & Hl)].
    + destruct (IH l Hl) as (k' & -> & Hk). exists k'. split; [done|by apply sublist_cons].
    + destruct (IH l' Hl) as (k' & -> & Hk). exists (x :: k'). split; [done|by apply sublist_skip].
Qed.

(** One of the lists loses its head. *)
Lemma concat_insert {A} (os : list (list A)) i o1 o2 : os !! i = Some (o1 ++ o2) ->
  concat os ≡ₚ o1 ++ concat (<[i := o2]> os).
Proof.
  revert i. induction os as [|o os IH]; intros [|i] Hi; simplify_eq/=.
  - by rewrite (assoc_L app).
  - rewrite (IH i Hi), !(assoc_L app). f_equiv. apply (comm app).
Qed.
