(* ===== verification/J1939Type.v ===== *)
(** * Constants of [include/jay/j1939_type.hpp]

    The typedefs [priority_t], [address_t] (8 bits), [pgn_t] (32 bits) and
    [name_t] (64 bits) are [Z]; the width is written where a value is
    converted to it. *)

From S2P Require Import Prelude.

(** Largest PDU format of an addressable (PDU1) message. *)
Definition PF_PDU1_MAX : Z := 0xEF.
Definition PF_ADDRESS_CLAIM : Z := 0xEE.
Definition PF_REQUEST : Z := 0xEA.
Definition PF_ACKNOWLEDGE : Z := 0xE8.

(** Highest unicast address (253), idle address (254), broadcast / no address (255). *)
Definition J1939_MAX_UNICAST_ADDR : Z := 0xFD.
Definition J1939_IDLE_ADDR : Z := 0xFE.
Definition J1939_NO_ADDR : Z := 0xFF.
Definition J1939_NO_NAME : Z := 0.

Definition J1939_PGN_REQUEST : Z := 0x0EA00.
Definition J1939_PGN_ADDRESS_CLAIMED : Z := 0x0EE00.
Definition J1939_PGN_ADDRESS_COMMANDED : Z := 0x0FED8.
Definition J1939_PGN_PDU1_MAX : Z := 0x3FF00.
Definition J1939_PGN_MAX : Z := 0x3FFFF.

(** A usable unicast address. *)
Definition unicast (a : Z) : Prop := 0 <= a <= J1939_MAX_UNICAST_ADDR.

#[export] Instance unicast_dec a : Decision (unicast a).
Proof. unfold unicast. apply _. Defined.

Lemma unicast_uint a : unicast a -> is_uint 8 a.
Proof. unfold unicast, is_uint, J1939_MAX_UNICAST_ADDR. lia. Qed.

(** Unfolds the address constants for [lia]. *)
Ltac addr_lia :=
  unfold unicast, J1939_MAX_UNICAST_ADDR, J1939_IDLE_ADDR, J1939_NO_ADDR, is_uint in *; lia.

#[export] Hint Resolve unicast_uint : jay.
