(* ===== verification/Canary.v ===== *)
(** * The interface of the [canary] headers

    [canary] (the raw CAN socket library) is not part of this repository, so
    its [canary::frame_header] is a parameter: a type with the operations that
    [include/jay/header.hpp] calls ([CanaryHeader]) and the documented facts
    about them that the code relies on ([CanaryLaws]).  [linux_canary] is one
    concrete header with the layout of Linux's [struct can_frame] (a 32-bit
    word with the EFF, RTR and ERR flags above a 29-bit id, and a length
    byte); it satisfies the laws, so they are consistent, and it is what the
    witnesses and the concrete examples of the development run on. *)

From S2P Require Import Prelude.

(** The 29 id bits of an extended CAN frame ([CAN_EFF_MASK]). *)
Definition CAN_EFF_MASK : Z := 0x1FFFFFFF.

(** The operations of [canary::frame_header]. *)
Class CanaryHeader := {
  canary_header : Type;
  canary_init : canary_header;
  canary_id : canary_header -> Z;
  canary_set_id : Z -> canary_header -> canary_header;
  canary_extended : canary_header -> bool;
  canary_set_extended : bool -> canary_header -> canary_header;
  canary_error : canary_header -> bool;
  canary_set_error : bool -> canary_header -> canary_header;
  canary_rtr : canary_header -> bool;
  canary_set_rtr : bool -> canary_header -> canary_header;
  canary_length : canary_header -> Z;
  canary_set_length : Z -> canary_header -> canary_header
}.

(** What the code relies on: a value-initialised header has id 0; the id, the
    three flags and the length are independent; an extended header keeps the
    low 29 bits of the id it is given; payload lengths up to 8 are kept. *)
Class CanaryLaws `{CanaryHeader} : Prop := {
  canary_id_init b : canary_id (canary_set_extended b canary_init) = 0;
  canary_id_set_id v h :
    canary_extended h = true -> is_uint 32 v ->
    canary_id (canary_set_id v h) = v .& CAN_EFF_MASK;
  canary_id_range h : canary_extended h = true -> is_uint 29 (canary_id h);
  canary_id_set_error b h : canary_id (canary_set_error b h) = canary_id h;
  canary_id_set_rtr b h : canary_id (canary_set_rtr b h) = canary_id h;
  canary_id_set_length n h : canary_id (canary_set_length n h) = canary_id h;
  canary_extended_set_extended b h : canary_extended (canary_set_extended b h) = b;
  canary_extended_set_error b h : canary_extended (canary_set_error b h) = canary_extended h;
  canary_extended_set_rtr b h : canary_extended (canary_set_rtr b h) = canary_extended h;
  canary_extended_set_id v h : canary_extended (canary_set_id v h) = canary_extended h;
  canary_extended_set_length n h : canary_extended (canary_set_length n h) = canary_extended h;
  canary_error_set_error b h : canary_error (canary_set_error b h) = b;
  canary_error_set_rtr b h : canary_error (canary_set_rtr b h) = canary_error h;
  canary_error_set_id v h : canary_error (canary_set_id v h) = canary_error h;
  canary_error_set_length n h : canary_error (canary_set_length n h) = canary_error h;
  canary_rtr_set_rtr b h : canary_rtr (canary_set_rtr b h) = b;
  canary_rtr_set_id v h : canary_rtr (canary_set_id v h) = canary_rtr h;
  canary_rtr_set_length n h : canary_rtr (canary_set_length n h) = canary_rtr h;
  canary_length_set_length n h :
    0 <= n <= 8 -> canary_length (canary_set_length n h) = n;
  canary_length_set_id v h : canary_length (canary_set_id v h) = canary_length h
}.

#[export] Hint Rewrite @canary_id_set_error @canary_id_set_rtr @canary_id_set_length
  @canary_extended_set_extended @canary_extended_set_error @canary_extended_set_rtr
  @canary_extended_set_id @canary_extended_set_length
  @canary_error_set_error @canary_error_set_rtr @canary_error_set_id @canary_error_set_length
  @canary_rtr_set_rtr @canary_rtr_set_id @canary_rtr_set_length @canary_length_set_id
  using typeclasses eauto : canary.

(** ** A concrete header, laid out as [struct can_frame] *)
Record can_frame_header := CanFrameHeader {
  can_eff : bool;
  can_rtr : bool;
  can_err : bool;
  can_id : Z;
  can_dlc : Z
}.

#[export] Instance linux_canary : CanaryHeader := {|
  canary_header := can_frame_header;
  canary_init := CanFrameHeader false false false 0 0;
  canary_id h := if can_eff h then can_id h .& CAN_EFF_MASK else can_id h .& 0x7FF;
  canary_set_id v h :=
    CanFrameHeader (can_eff h) (can_rtr h) (can_err h) (v .& CAN_EFF_MASK) (can_dlc h);
  canary_extended := can_eff;
  canary_set_extended b h := CanFrameHeader b (can_rtr h) (can_err h) (can_id h) (can_dlc h);
  canary_error := can_err;
  canary_set_error b h := CanFrameHeader (can_eff h) (can_rtr h) b (can_id h) (can_dlc h);
  canary_rtr := can_rtr;
  canary_set_rtr b h := CanFrameHeader (can_eff h) b (can_err h) (can_id h) (can_dlc h);
  canary_length := can_dlc;
  canary_set_length n h := CanFrameHeader (can_eff h) (can_rtr h) (can_err h) (can_id h) (u8 n)
|}.

Lemma can_eff_mask_field : CAN_EFF_MASK = fmask 0 29.
Proof. reflexivity. Qed.

Lemma land_eff_mask v : v .& CAN_EFF_MASK = wrap 29 v.
Proof. rewrite can_eff_mask_field. bitwise i. bit_cases. Qed.

#[export] Instance linux_canary_laws : CanaryLaws.
Proof.
  split; simpl; try done.
  - by intros [].
  - intros v h -> Hv. by rewrite !land_eff_mask, wrap_wrap by lia.
  - intros h ->. rewrite land_eff_mask. by apply wrap_range.
  - intros n h Hn. apply wrap_small. unfold is_uint. lia.
Qed.
