(* ===== verification/Header.v ===== *)
(** * [jay::frame_header] ([include/jay/header.hpp])

    A J1939 header over a [canary] header: every constructor and setter with
    the bit arithmetic of the source at its width, every getter and
    predicate. *)

From S2P Require Import Prelude J1939Type Canary.

Definition prio_mask : Z := 0x1C000000.
Definition data_page_mask : Z := 0x01000000.
Definition pgn_mask : Z := 0x03FFFF00.
Definition pf_mask : Z := 0x00FF0000.
Definition ps_mask : Z := 0x0000FF00.
Definition ad_mask : Z := 0x000000FF.

Section Header.
Context `{CanaryHeader}.

Record frame_header := FrameHeader { header_ : canary_header }.

(** ** Construction *)

(** [frame_header()] *)
Definition frame_header_default : frame_header :=
  FrameHeader (canary_set_rtr false (canary_set_error false
    (canary_set_extended true canary_init))).

(** [frame_header(uint32_t header_data, uint8_t payload_length)] *)
Definition frame_header_of_id (header_data payload_length : Z) : frame_header :=
  FrameHeader (canary_set_length payload_length
    (canary_set_id header_data (header_ frame_header_default))).

(** [frame_header(priority, pgn, source_address, size_t payload_length)]: the
    length is narrowed to the [uint8_t] parameter of the constructor above. *)
Definition frame_header_of_pgn (priority pgn source_address payload_length : Z) : frame_header :=
  frame_header_of_id
    (u32 (u32 (clamp priority 0 7 .<< 26) .| u32 (pgn .<< 8) .| source_address))
    (u8 payload_length).

(** [frame_header(priority, data_page, pdu_format, pdu_specific, source_address, payload_length)] *)
Definition frame_header_of_fields (priority : Z) (data_page : bool)
    (pdu_format pdu_specific source_address payload_length : Z) : frame_header :=
  frame_header_of_pgn priority
    ((Z.b2z data_page .<< 16) .| (pdu_format .<< 8) .| pdu_specific)
    source_address payload_length.

(** ** Get functions *)

Definition id (h : frame_header) : Z := canary_id (header_ h).

Definition pdu_format (h : frame_header) : Z := u8 (id h .>> 16).

Definition pdu_specific (h : frame_header) : Z := u8 (id h .>> 8).

Definition source_address (h : frame_header) : Z := u8 (id h).

Definition priority (h : frame_header) : Z := u8 ((id h .& prio_mask) .>> 26).

Definition data_page (h : frame_header) : Z := u8 ((id h .& data_page_mask) .>> 24).

Definition payload_length (h : frame_header) : Z := canary_length (header_ h).

Definition is_broadcast (h : frame_header) : bool := PF_PDU1_MAX <? pdu_format h.

Definition pgn (h : frame_header) : Z :=
  let pgn := id h .& pgn_mask in
  let pgn := if negb (is_broadcast h) then pgn .& bnot 32 ps_mask else pgn in
  pgn .>> 8.

Definition is_request (h : frame_header) : bool :=
  (pgn h .& J1939_PGN_PDU1_MAX) =? J1939_PGN_REQUEST.

Definition is_claim (h : frame_header) : bool :=
  (pgn h .& J1939_PGN_PDU1_MAX) =? J1939_PGN_ADDRESS_CLAIMED.

(** ** Set functions *)

Definition set_id (v : Z) (h : frame_header) : frame_header :=
  FrameHeader (canary_set_id v (header_ h)).

Definition set_priority (p : Z) (h : frame_header) : frame_header :=
  set_id ((id h .& bnot 32 prio_mask) .| u32 (clamp p 0 7 .<< 26)) h.

Definition set_pgn (p : Z) (h : frame_header) : frame_header :=
  set_id ((id h .& bnot 32 pgn_mask) .| u32 ((p .& 0x3FFFF) .<< 8)) h.

Definition set_data_page (data_page_bit : bool) (h : frame_header) : frame_header :=
  set_id ((id h .& bnot 32 data_page_mask) .| u32 ((if data_page_bit then 1 else 0) .<< 24)) h.

Definition set_pdu_format (pf : Z) (h : frame_header) : frame_header :=
  set_id ((id h .& bnot 32 pf_mask) .| u32 (pf .<< 16)) h.

Definition set_pdu_specific (ps : Z) (h : frame_header) : frame_header :=
  set_id ((id h .& bnot 32 ps_mask) .| u32 (ps .<< 8)) h.

Definition set_source_address (sa : Z) (h : frame_header) : frame_header :=
  set_id ((id h .& bnot 32 ad_mask) .| sa) h.

Definition set_payload_length (n : Z) (h : frame_header) : frame_header :=
  FrameHeader (canary_set_length n (header_ h)).

End Header.
