(* ===== verification/HeaderFacts.v ===== *)
(** * Theorems about [frame_header]

    The header is a record of six bit fields: every getter reads one field,
    every setter writes one field and leaves the others, every header that
    the public interface can build carries the J1939 flags, and the PGN
    getter follows the PDU1/PDU2 rule. *)

From S2P Require Import Prelude J1939Type Canary Header.

(** ** The abstract header: its fields *)
Record fields := Fields {
  f_priority : Z;
  f_reserved : Z;
  f_data_page : Z;
  f_pf : Z;
  f_ps : Z;
  f_sa : Z
}.

(** The fields of a 29-bit id, by the layout of the class comment. *)
Definition fields_of_id (v : Z) : fields :=
  Fields (fget 26 3 v) (fget 25 1 v) (fget 24 1 v) (fget 16 8 v) (fget 8 8 v) (fget 0 8 v).

Definition pack (f : fields) : Z :=
  (f_priority f .<< 26) .| (f_reserved f .<< 25) .| (f_data_page f .<< 24) .|
  (f_pf f .<< 16) .| (f_ps f .<< 8) .| f_sa f.

Definition fields_ok (f : fields) : Prop :=
  is_uint 3 (f_priority f) /\ is_uint 1 (f_reserved f) /\ is_uint 1 (f_data_page f) /\
  is_uint 8 (f_pf f) /\ is_uint 8 (f_ps f) /\ is_uint 8 (f_sa f).

(** The PGN of a header by SAE J1939-21: R, DP, PF, and PS as group extension
    only when PF is 240 or more. *)
Definition pgn_of_fields (f : fields) : Z :=
  f_reserved f * 2 ^ 17 + f_data_page f * 2 ^ 16 + f_pf f * 2 ^ 8 +
  (if 240 <=? f_pf f then f_ps f else 0).

Lemma masks_are_fields :
  prio_mask = fmask 26 3 /\ data_page_mask = fmask 24 1 /\ pgn_mask = fmask 8 18 /\
  pf_mask = fmask 16 8 /\ ps_mask = fmask 8 8 /\ ad_mask = fmask 0 8.
Proof. by vm_compute. Qed.

Lemma fields_of_id_ok v : fields_ok (fields_of_id v).
Proof. unfold fields_ok, fields_of_id; simpl. repeat split_and; by apply fget_range. Qed.

(** The expression of the setters, [(id & ~mask) | (v << lo)], after the 29-bit
    truncation of [canary], is the field update. *)
Lemma setter_is_fset lo len x v :
  0 <= lo -> 0 <= len -> lo + len <= 29 -> is_uint 29 x -> is_uint len v ->
  ((x .& bnot 32 (fmask lo len)) .| u32 (v .<< lo)) .& CAN_EFF_MASK = fset 29 lo len x v.
Proof.
  intros ??? Hx Hv. rewrite land_eff_mask. bitwise i.
  destruct (Z.leb_spec lo i); [|bit_cases].
  destruct (Z.ltb_spec i (lo + len)); [bit_cases|].
  rewrite (testbit_uint len v) by (done || lia). bit_cases.
Qed.

Lemma setter_is_uint32 lo len x v :
  0 <= lo -> 0 <= len -> is_uint 29 x -> 0 <= v ->
  is_uint 32 ((x .& bnot 32 (fmask lo len)) .| u32 (v .<< lo)).
Proof.
  intros. apply lor_is_uint; [lia| |by apply wrap_range].
  apply land_is_uint; [lia|by apply (is_uint_mono 29)|].
  by destruct (wrap_range 32 (Z.lnot (fmask lo len))).
Qed.

Lemma u8_shiftr lo x : 0 <= lo -> u8 (x .>> lo) = fget lo 8 x.
Proof. intros. bitwise i. bit_cases. Qed.

Lemma u8_id x : u8 x = fget 0 8 x.
Proof. bitwise i. replace (i + 0) with i by lia. bit_cases. Qed.

Section HeaderFacts.
Context `{CanaryLaws}.

Definition header_fields (h : frame_header) : fields := fields_of_id (id h).

(** Extended, not an error frame, not a remote frame. *)
Definition j1939_flags (h : frame_header) : Prop :=
  canary_extended (header_ h) = true /\ canary_error (header_ h) = false /\
  canary_rtr (header_ h) = false.

(** Every header the public interface can produce. *)
Inductive built : frame_header -> Prop :=
| built_default : built frame_header_default
| built_of_id v n : is_uint 32 v -> is_uint 8 n -> built (frame_header_of_id v n)
| built_of_pgn p g a n : built (frame_header_of_pgn p g a n)
| built_of_fields p d f s a n : built (frame_header_of_fields p d f s a n)
| built_set_id v h : is_uint 32 v -> built h -> built (set_id v h)
| built_set_priority p h : built h -> built (set_priority p h)
| built_set_pgn g h : built h -> built (set_pgn g h)
| built_set_data_page b h : built h -> built (set_data_page b h)
| built_set_pdu_format f h : built h -> built (set_pdu_format f h)
| built_set_pdu_specific s h : built h -> built (set_pdu_specific s h)
| built_set_source_address a h : built h -> built (set_source_address a h)
| built_set_payload_length n h : built h -> built (set_payload_length n h).

Lemma default_flags : j1939_flags frame_header_default.
Proof. unfold j1939_flags. simpl. by autorewrite with canary. Qed.

Lemma id_default : id frame_header_default = 0.
Proof. unfold id. simpl. autorewrite with canary. apply canary_id_init. Qed.

Lemma set_id_flags v h : j1939_flags h -> j1939_flags (set_id v h).
Proof. unfold j1939_flags. simpl. by autorewrite with canary. Qed.

Lemma set_payload_length_flags n h : j1939_flags h -> j1939_flags (set_payload_length n h).
Proof. unfold j1939_flags. simpl. by autorewrite with canary. Qed.

Lemma of_id_flags v n : j1939_flags (frame_header_of_id v n).
Proof.
  unfold frame_header_of_id. apply (set_payload_length_flags n (set_id v frame_header_default)).
  apply set_id_flags, default_flags.
Qed.

Lemma id_range h : j1939_flags h -> is_uint 29 (id h).
Proof. intros [He _]. by apply canary_id_range. Qed.

Lemma id_set_id v h : j1939_flags h -> is_uint 32 v -> id (set_id v h) = v .& CAN_EFF_MASK.
Proof. intros [He _] Hv. by apply canary_id_set_id. Qed.

Lemma id_set_payload_length n h : id (set_payload_length n h) = id h.
Proof. unfold id. simpl. by autorewrite with canary. Qed.

Lemma id_of_id v n : is_uint 32 v -> id (frame_header_of_id v n) = v .& CAN_EFF_MASK.
Proof.
  intros. unfold frame_header_of_id.
  change (id (set_payload_length n (set_id v frame_header_default)) = v .& CAN_EFF_MASK).
  rewrite id_set_payload_length. apply id_set_id; [apply default_flags|done].
Qed.

(** A setter is a field update of the id. *)
Lemma id_setter lo len v h :
  0 <= lo -> 0 <= len -> lo + len <= 29 -> is_uint len v -> j1939_flags h ->
  id (set_id ((id h .& bnot 32 (fmask lo len)) .| u32 (v .<< lo)) h) = fset 29 lo len (id h) v.
Proof.
  intros ??? Hv Hh. pose proof (id_range h Hh). rewrite id_set_id; [|done|].
  - by apply setter_is_fset.
  - apply setter_is_uint32; try done. by destruct Hv.
Qed.

Lemma clamp_uint3 p : is_uint 3 (clamp p 0 7).
Proof. pose proof (clamp_spec p 0 7). unfold is_uint. lia. Qed.

Lemma land_pgn_max p : p .& 0x3FFFF = wrap 18 p.
Proof. change 0x3FFFF with (fmask 0 18). bitwise i. bit_cases. Qed.

Lemma id_set_priority p h :
  j1939_flags h -> id (set_priority p h) = fset 29 26 3 (id h) (clamp p 0 7).
Proof. intros. apply (id_setter 26 3); try done. apply clamp_uint3. Qed.

Lemma id_set_pgn g h : j1939_flags h -> id (set_pgn g h) = fset 29 8 18 (id h) (wrap 18 g).
Proof.
  intros. rewrite <- land_pgn_max. apply (id_setter 8 18); try done.
  rewrite land_pgn_max. by apply wrap_range.
Qed.

Lemma id_set_data_page b h :
  j1939_flags h -> id (set_data_page b h) = fset 29 24 1 (id h) (Z.b2z b).
Proof. intros. destruct b; by apply (id_setter 24 1). Qed.

Lemma id_set_pdu_format f h :
  j1939_flags h -> is_uint 8 f -> id (set_pdu_format f h) = fset 29 16 8 (id h) f.
Proof. intros. by apply (id_setter 16 8). Qed.

Lemma id_set_pdu_specific s h :
  j1939_flags h -> is_uint 8 s -> id (set_pdu_specific s h) = fset 29 8 8 (id h) s.
Proof. intros. by apply (id_setter 8 8). Qed.

Lemma id_set_source_address a h :
  j1939_flags h -> is_uint 8 a -> id (set_source_address a h) = fset 29 0 8 (id h) a.
Proof.
  intros Hh Ha. rewrite <- (id_setter 0 8) by done.
  rewrite Z.shiftl_0_r, wrap_small; [done|]. by apply (is_uint_mono 8).
Qed.

(** ** Getters as fields *)

Lemma priority_field h : priority h = fget 26 3 (id h).
Proof. by apply (wrap_fget 8 26 3). Qed.

Lemma data_page_field h : data_page h = fget 24 1 (id h).
Proof. by apply (wrap_fget 8 24 1). Qed.

Lemma pdu_format_field h : pdu_format h = fget 16 8 (id h).
Proof. by apply u8_shiftr. Qed.

Lemma pdu_specific_field h : pdu_specific h = fget 8 8 (id h).
Proof. by apply u8_shiftr. Qed.

Lemma source_address_field h : source_address h = fget 0 8 (id h).
Proof. apply u8_id. Qed.

Lemma pdu_format_range h : is_uint 8 (pdu_format h).
Proof. by apply wrap_range. Qed.

Lemma pdu_specific_range h : is_uint 8 (pdu_specific h).
Proof. by apply wrap_range. Qed.

Lemma source_address_range h : is_uint 8 (source_address h).
Proof. by apply wrap_range. Qed.

(** The PGN getter on the id: bits 25..8, with bits 15..8 cleared for PDU1. *)
Lemma pgn_bits h :
  pgn h = if is_broadcast h then fget 8 18 (id h) else fget 16 10 (id h) .<< 8.
Proof.
  unfold pgn. destruct (is_broadcast h); simpl; [done|].
  change pgn_mask with (fmask 8 18). change ps_mask with (fmask 8 8).
  bitwise i. destruct (Z.leb_spec 8 i); [|bit_cases].
  rewrite testbit_fget by lia. replace (i - 8 + 16) with (i + 8) by lia. bit_cases.
Qed.

Lemma fget_8_18 v :
  fget 8 18 v =
    fget 25 1 v * 2 ^ 17 + fget 24 1 v * 2 ^ 16 + fget 16 8 v * 2 ^ 8 + fget 8 8 v.
Proof. rewrite !fget_div by lia. Z.div_mod_to_equations. lia. Qed.

Lemma fget_16_10 v :
  fget 16 10 v .<< 8 = fget 25 1 v * 2 ^ 17 + fget 24 1 v * 2 ^ 16 + fget 16 8 v * 2 ^ 8.
Proof.
  rewrite Z.shiftl_mul_pow2, !fget_div by lia. Z.div_mod_to_equations. lia.
Qed.

Lemma pgn_range h : is_uint 18 (pgn h).
Proof.
  rewrite pgn_bits. destruct (is_broadcast h); [by apply fget_range|].
  apply (shiftl_is_uint 10 8); [lia..|]. by apply fget_range.
Qed.

Hint Rewrite id_set_priority id_set_pgn id_set_data_page id_set_pdu_format
  id_set_pdu_specific id_set_source_address using done : headerid.

(** Fields of an updated id; the side conditions are arithmetic. *)
Ltac fields_update :=
  unfold header_fields, fields_of_id; autorewrite with headerid; simpl;
  f_equal; first
    [ rewrite fget_fset_same by lia; try (apply wrap_small; done)
    | apply fget_fset_other; lia ].

Lemma fget_fset_inner lo len x g :
  8 <= lo -> 0 <= len -> lo + len <= 26 ->
  fget lo len (fset 29 8 18 x (wrap 18 g)) = fget (lo - 8) len g.
Proof.
  intros. bitwise i. replace (i + lo - 8) with (i + (lo - 8)) by lia. bit_cases.
Qed.

(** ** Properties *)

(** Every header that the constructors and setters of [frame_header] can
    produce, in any order, is an extended, non-error, non-remote frame header
    with a 29-bit id, which is what a J1939 header must be. *)
Theorem built_headers_are_j1939 h : built h -> j1939_flags h /\ is_uint 29 (id h).
Proof.
  intros Hb. assert (Hf : j1939_flags h); [|by split; [|apply id_range]].
  induction Hb; auto using default_flags, set_payload_length_flags;
    first [apply of_id_flags | by apply set_id_flags].
Qed.

(** C27.  Each setter writes exactly its own field and leaves every other field
    of the header unchanged; the priority is saturated at 7 and the PGN setter
    rewrites the four fields R, DP, PF and PS from its 18 bits. *)
Theorem setters_update_one_field h p b f s a g :
  j1939_flags h -> is_uint 8 f -> is_uint 8 s -> is_uint 8 a ->
  let x := header_fields h in
  header_fields (set_priority p h) =
    Fields (clamp p 0 7) (f_reserved x) (f_data_page x) (f_pf x) (f_ps x) (f_sa x) /\
  header_fields (set_data_page b h) =
    Fields (f_priority x) (f_reserved x) (Z.b2z b) (f_pf x) (f_ps x) (f_sa x) /\
  header_fields (set_pdu_format f h) =
    Fields (f_priority x) (f_reserved x) (f_data_page x) f (f_ps x) (f_sa x) /\
  header_fields (set_pdu_specific s h) =
    Fields (f_priority x) (f_reserved x) (f_data_page x) (f_pf x) s (f_sa x) /\
  header_fields (set_source_address a h) =
    Fields (f_priority x) (f_reserved x) (f_data_page x) (f_pf x) (f_ps x) a /\
  header_fields (set_pgn g h) =
    Fields (f_priority x) (fget 17 1 g) (fget 16 1 g) (fget 8 8 g) (fget 0 8 g) (f_sa x).
Proof.
  intros Hh Hf Hs Ha x. pose proof (clamp_uint3 p).
  assert (is_uint 1 (Z.b2z b)) by (by destruct b).
  repeat split_and; unfold x; try fields_update.
  unfold header_fields, fields_of_id. rewrite id_set_pgn by done.
  f_equal; first [apply fget_fset_other; lia | rewrite fget_fset_inner by lia; f_equal; lia].
Qed.

(** The PGN getter returns R, DP and PF, with PS as the low byte for a PDU2
    (PF >= 240) header and zero for a PDU1 header; the other getters return
    their field, and the six fields determine the id. *)
Theorem getters_read_the_fields h :
  j1939_flags h ->
  let x := header_fields h in
  pgn h = pgn_of_fields x /\ is_broadcast h = (240 <=? f_pf x) /\
  priority h = f_priority x /\ data_page h = f_data_page x /\ pdu_format h = f_pf x /\
  pdu_specific h = f_ps x /\ source_address h = f_sa x /\ id h = pack x.
Proof.
  intros Hh x. pose proof (id_range h Hh) as Hid.
  assert (is_broadcast h = (240 <=? f_pf x)) as Hb.
  { unfold is_broadcast, x, PF_PDU1_MAX. simpl. rewrite pdu_format_field. bool_cases; lia. }
  rewrite pgn_bits, Hb. unfold pgn_of_fields, x; simpl.
  split_and!; auto using priority_field, data_page_field, pdu_format_field,
    pdu_specific_field, source_address_field.
  - destruct (240 <=? _); [apply fget_8_18|rewrite fget_16_10; lia].
  - unfold pack; simpl. rewrite <- (Z.shiftl_0_r (fget 0 8 (id h))).
    rewrite (fget_join 25 1 3 _ 25), (fget_join 24 1 4 _ 24), (fget_join 16 8 5 _ 16),
      (fget_join 8 8 13 _ 8), (fget_join 0 8 21 _ 0), Z.shiftl_0_r by lia.
    symmetry. by apply fget_all.
Qed.
Lemma id_of_pgn p g a n :
  is_uint 18 g -> is_uint 8 a ->
  id (frame_header_of_pgn p g a n) = clamp p 0 7 * 2 ^ 26 + (g * 2 ^ 8 + a).
Proof.
  intros Hg Ha. unfold frame_header_of_pgn. pose proof (clamp_uint3 p) as Hp.
  assert (is_uint 26 (g * 2 ^ 8 + a)) as Hlow by (unfold is_uint in *; lia).
  assert (is_uint 29 (clamp p 0 7 * 2 ^ 26 + (g * 2 ^ 8 + a))) as Hall
    by (unfold is_uint in *; lia).
  rewrite id_of_id by (by apply wrap_range).
  rewrite (wrap_small 32 (clamp p 0 7 .<< 26)), (wrap_small 32 (g .<< 8))
    by (rewrite Z.shiftl_mul_pow2 by lia; unfold is_uint in *; lia).
  rewrite <- Z.lor_assoc, (shiftl_lor_add 8), (shiftl_lor_add 26) by (done || lia).
  rewrite (wrap_small 32) by (by apply (is_uint_mono 29)).
  rewrite land_eff_mask. by apply wrap_small.
Qed.

Lemma payload_length_of_pgn p g a n :
  0 <= n <= 8 -> payload_length (frame_header_of_pgn p g a n) = n.
Proof.
  intros Hn. unfold frame_header_of_pgn. rewrite (wrap_small 8 n) by (unfold is_uint; lia).
  by apply canary_length_set_length.
Qed.

(** A header constructed from its fields (priority, data page, PF, PS,
    source address, length) reads back those fields, with the priority
    saturated at 7 and the reserved bit clear. *)
Theorem constructor_round_trip p d f s a n :
  is_uint 8 f -> is_uint 8 s -> is_uint 8 a -> 0 <= n <= 8 ->
  let h := frame_header_of_fields p d f s a n in
  header_fields h = Fields (clamp p 0 7) 0 (Z.b2z d) f s a /\ payload_length h = n.
Proof.
  intros Hf Hs Ha Hn h. split; [|by apply payload_length_of_pgn].
  assert (Hg : (Z.b2z d .<< 16) .| (f .<< 8) .| s = Z.b2z d * 2 ^ 16 + (f * 2 ^ 8 + s)).
  { rewrite <- Z.lor_assoc, (shiftl_lor_add 8), (shiftl_lor_add 16)
      by (unfold is_uint in *; lia). done. }
  assert (Hd : is_uint 1 (Z.b2z d)) by (by destruct d).
  unfold header_fields, h, frame_header_of_fields. rewrite Hg, id_of_pgn;
    [|unfold is_uint in *; lia..].
  pose proof (clamp_uint3 p) as Hp. unfold fields_of_id. rewrite !fget_div by lia.
  unfold is_uint in *. f_equal; Z.div_mod_to_equations; lia.
Qed.
End HeaderFacts.

(** ** The theorems at the concrete header *)

Definition example_header : frame_header := frame_header_of_fields 3 false 0xEF 0x20 0x80 8.

Lemma example_flags : j1939_flags example_header.
Proof. by vm_compute. Qed.

Lemma built_headers_are_j1939_witness :
  let h := set_pdu_specific 0x55 (set_pgn 0x1FECA (set_priority 9 frame_header_default)) in
  j1939_flags h /\ is_uint 29 (id h).
Proof.
  apply (built_headers_are_j1939 (H := linux_canary)).
  apply built_set_pdu_specific, built_set_pgn, built_set_priority, built_default.
Defined.

Lemma setters_update_one_field_witness :
  header_fields (set_priority 9 example_header) = Fields 7 0 0 0xEF 0x20 0x80.
Proof.
  exact (proj1 (setters_update_one_field example_header 9 true 0xF0 0x10 0x11 0x1FECA
    example_flags ltac:(done) ltac:(done) ltac:(done))).
Defined.

Lemma getters_read_the_fields_witness : pgn example_header = 0xEF00.
Proof. exact (proj1 (getters_read_the_fields example_header example_flags)). Defined.

Lemma constructor_round_trip_witness :
  header_fields (frame_header_of_fields 9 true 0xFE 0xCA 0x21 8) = Fields 7 0 1 0xFE 0xCA 0x21.
Proof.
  exact (proj1 (constructor_round_trip (H := linux_canary) 9 true 0xFE 0xCA 0x21 8
    ltac:(done) ltac:(done) ltac:(done) ltac:(lia))).
Defined.
