(* ===== verification/Name.v ===== *)
(** * [jay::name] ([include/jay/name.hpp])

    The 64-bit J1939 NAME: constructors, the nine field setters and getters,
    the comparison operators (which ignore the self-configuration bit), the
    implicit conversion to [name_t] that the other comparisons fall back on,
    and the conversions to and from an 8-byte payload. *)

From stdpp Require Import countable.
From S2P Require Import Prelude J1939Type.

Definition slf_cfg_addr_mask : Z := 0x8000000000000000.
Definition ind_grp_mask : Z := 0x7000000000000000.
Definition dev_cls_inst_mask : Z := 0x0F00000000000000.
Definition dev_cls_mask : Z := 0x00FE000000000000.
Definition func_mask : Z := 0x0000FF0000000000.
Definition func_inst_mask : Z := 0x000000F800000000.
Definition ecu_inst_mask : Z := 0x0000000700000000.
Definition man_code_mask : Z := 0x00000000FFE00000.
Definition id_num_mask : Z := 0x00000000001FFFFF.

Definition slf_cfg_addr_start_bit : Z := 63.
Definition ind_grp_start_bit : Z := 60.
Definition dev_cls_inst_start_bit : Z := 56.
Definition dev_cls_start_bit : Z := 49.
Definition func_start_bit : Z := 40.
Definition func_inst_start_bit : Z := 35.
Definition ecu_inst_start_bit : Z := 32.
Definition man_code_start_bit : Z := 21.
Definition id_num_start_bit : Z := 0.

(** [class name]: its one member, the 64-bit [name_]. *)
Record name := Name { name_ : Z }.

#[export] Instance name_eq_dec : EqDecision name.
Proof. solve_decision. Defined.

#[export] Instance name_countable : Countable name.
Proof. by refine (inj_countable' name_ Name _); intros []. Defined.

#[export] Instance name_inhabited : Inhabited name := populate (Name J1939_NO_NAME).

(** ** Construction *)

(** [name() = default] *)
Definition name_default : name := Name J1939_NO_NAME.

(** One summand of the constructor and of the setters:
    [(static_cast<name_t>(v) << start_bit) & mask]. *)
Definition place (v start_bit mask : Z) : Z := u64 (v .<< start_bit) .& mask.

(** [name(id_num, man_code, ..., slf_cfg_addr)] *)
Definition name_of_fields (id_num man_code ecu_inst func_inst func dev_cls dev_cls_inst
    ind_grp slf_cfg_addr : Z) : name :=
  Name (place slf_cfg_addr slf_cfg_addr_start_bit slf_cfg_addr_mask
     .| place ind_grp ind_grp_start_bit ind_grp_mask
     .| place dev_cls_inst dev_cls_inst_start_bit dev_cls_inst_mask
     .| place dev_cls dev_cls_start_bit dev_cls_mask
     .| place func func_start_bit func_mask
     .| place func_inst func_inst_start_bit func_inst_mask
     .| place ecu_inst ecu_inst_start_bit ecu_inst_mask
     .| place man_code man_code_start_bit man_code_mask
     .| place id_num id_num_start_bit id_num_mask).

(** [name(const std::array<uint8_t, 8> &payload)] *)
Definition name_of_payload (payload : list Z) : name :=
  Name (J1939_NO_NAME
     .| (payload !!! 0%nat)
     .| u64 ((payload !!! 1%nat) .<< 8)
     .| u64 ((payload !!! 2%nat) .<< 16)
     .| u64 ((payload !!! 3%nat) .<< 24)
     .| u64 ((payload !!! 4%nat) .<< 32)
     .| u64 ((payload !!! 5%nat) .<< 40)
     .| u64 ((payload !!! 6%nat) .<< 48)
     .| u64 ((payload !!! 7%nat) .<< 56)).

(** ** Set functions *)

(** [id_num << id_num_start_bit] is computed in [uint32_t] before the cast. *)
Definition set_identity_number (id_num : Z) (n : name) : name :=
  Name ((name_ n .& bnot 64 id_num_mask) .| (u32 (id_num .<< id_num_start_bit) .& id_num_mask)).

Definition set_manufacturer_code (man_code : Z) (n : name) : name :=
  Name ((name_ n .& bnot 64 man_code_mask) .| place man_code man_code_start_bit man_code_mask).

Definition set_ecu_instance (ecu_inst : Z) (n : name) : name :=
  Name ((name_ n .& bnot 64 ecu_inst_mask) .| place ecu_inst ecu_inst_start_bit ecu_inst_mask).

Definition set_function_instance (func_inst : Z) (n : name) : name :=
  Name ((name_ n .& bnot 64 func_inst_mask) .| place func_inst func_inst_start_bit func_inst_mask).

Definition set_function (func : Z) (n : name) : name :=
  Name ((name_ n .& bnot 64 func_mask) .| place func func_start_bit func_mask).

Definition set_device_class (dev_cls : Z) (n : name) : name :=
  Name ((name_ n .& bnot 64 dev_cls_mask) .| place dev_cls dev_cls_start_bit dev_cls_mask).

Definition set_device_class_instance (dev_cls_inst : Z) (n : name) : name :=
  Name ((name_ n .& bnot 64 dev_cls_inst_mask)
     .| place dev_cls_inst dev_cls_inst_start_bit dev_cls_inst_mask).

Definition set_industry_group (ind_grp : Z) (n : name) : name :=
  Name ((name_ n .& bnot 64 ind_grp_mask) .| place ind_grp ind_grp_start_bit ind_grp_mask).

Definition set_self_config_address (slf_cfg_addr : Z) (n : name) : name :=
  Name ((name_ n .& bnot 64 slf_cfg_addr_mask)
     .| place slf_cfg_addr slf_cfg_addr_start_bit slf_cfg_addr_mask).

(** ** Get functions *)

Definition identity_number (n : name) : Z := u32 (name_ n .& id_num_mask).

Definition manufacturer_code (n : name) : Z :=
  u16 ((name_ n .& man_code_mask) .>> man_code_start_bit).

Definition ecu_instance (n : name) : Z := u8 ((name_ n .& ecu_inst_mask) .>> ecu_inst_start_bit).

Definition function_instance (n : name) : Z :=
  u8 ((name_ n .& func_inst_mask) .>> func_inst_start_bit).

Definition function (n : name) : Z := u8 ((name_ n .& func_mask) .>> func_start_bit).

Definition device_class (n : name) : Z := u8 ((name_ n .& dev_cls_mask) .>> dev_cls_start_bit).

Definition device_class_instance (n : name) : Z :=
  u8 ((name_ n .& dev_cls_inst_mask) .>> dev_cls_inst_start_bit).

Definition industry_group (n : name) : Z := u8 ((name_ n .& ind_grp_mask) .>> ind_grp_start_bit).

Definition self_config_address (n : name) : Z :=
  u8 ((name_ n .& slf_cfg_addr_mask) .>> slf_cfg_addr_start_bit).

(** ** Overloads *)

(** [static_cast<name_t>(name_) & ~slf_cfg_addr_mask], the value the operators
    compare. *)
Definition priority_key (n : name) : Z := name_ n .& bnot 64 slf_cfg_addr_mask.

(** [operator<], [operator>], [operator==] on names. *)
Definition name_lt (n rhs : name) : bool := priority_key n <? priority_key rhs.
Definition name_gt (n rhs : name) : bool := priority_key rhs <? priority_key n.
Definition name_eq (n rhs : name) : bool := priority_key n =? priority_key rhs.

(** The overloads that take a [name_t]. *)
Definition name_lt_value (n : name) (rhs : Z) : bool := name_lt n (Name rhs).
Definition name_gt_value (n : name) (rhs : Z) : bool := name_gt n (Name rhs).
Definition name_eq_value (n : name) (rhs : Z) : bool := name_eq n (Name rhs).

(** [operator name_t]: [class name] declares no [!=] and no [<=], so these two
    operators in [network.hpp] compare the converted 64-bit values. *)
Definition to_name_t (n : name) : Z := name_ n.
Definition name_ne (n rhs : name) : bool := negb (to_name_t n =? to_name_t rhs).
Definition name_le (n rhs : name) : bool := to_name_t n <=? to_name_t rhs.

(** [struct hash]: [std::hash<name_t>] (the standard library's, a parameter) of
    the whole 64-bit value. *)
Definition name_hash (std_hash : Z -> Z) (n : name) : Z := std_hash (name_ n).

(** [operator std::array<uint8_t, 8>] *)
Definition name_to_payload (n : name) : list Z :=
  [ u8 (name_ n); u8 (name_ n .>> 8); u8 (name_ n .>> 16); u8 (name_ n .>> 24);
    u8 (name_ n .>> 32); u8 (name_ n .>> 40); u8 (name_ n .>> 48); u8 (name_ n .>> 56) ].
