(* ===== verification/NameFacts.v ===== *)
(** * Theorems about [name]

    The NAME is a record of nine bit fields plus a reserved bit; getters,
    setters and constructor agree with that view; the payload conversions are
    inverse to each other; the comparison operators form a total preorder
    whose equivalence ignores the self-configuration bit. *)

From Stdlib Require Import Setoid Morphisms.
From S2P Require Import Prelude J1939Type Name.

(** A name whose value fits its [uint64_t]. *)
Definition name_wf (n : name) : Prop := is_uint 64 (name_ n).

(** ** The abstract view: a NAME is nine fields *)
Inductive field :=
| IdentityNumber | ManufacturerCode | EcuInstance | FunctionInstance | Function_
| DeviceClass | DeviceClassInstance | IndustryGroup | SelfConfigAddress.

#[export] Instance field_eq_dec : EqDecision field.
Proof. solve_decision. Defined.

(** First bit and width of a field, by the layout of the class comment. *)
Definition field_lo (f : field) : Z :=
  match f with
  | IdentityNumber => 0 | ManufacturerCode => 21 | EcuInstance => 32 | FunctionInstance => 35
  | Function_ => 40 | DeviceClass => 49 | DeviceClassInstance => 56 | IndustryGroup => 60
  | SelfConfigAddress => 63
  end.

Definition field_len (f : field) : Z :=
  match f with
  | IdentityNumber => 21 | ManufacturerCode => 11 | EcuInstance => 3 | FunctionInstance => 5
  | Function_ => 8 | DeviceClass => 7 | DeviceClassInstance => 4 | IndustryGroup => 3
  | SelfConfigAddress => 1
  end.

(** The width of the integer type that the setter of the field takes. *)
Definition param_width (f : field) : Z :=
  match f with IdentityNumber => 32 | ManufacturerCode => 16 | _ => 8 end.

(** The getter and the setter of a field. *)
Definition get_field (f : field) : name -> Z :=
  match f with
  | IdentityNumber => identity_number | ManufacturerCode => manufacturer_code
  | EcuInstance => ecu_instance | FunctionInstance => function_instance | Function_ => function
  | DeviceClass => device_class | DeviceClassInstance => device_class_instance
  | IndustryGroup => industry_group | SelfConfigAddress => self_config_address
  end.

Definition set_field (f : field) : Z -> name -> name :=
  match f with
  | IdentityNumber => set_identity_number | ManufacturerCode => set_manufacturer_code
  | EcuInstance => set_ecu_instance | FunctionInstance => set_function_instance
  | Function_ => set_function | DeviceClass => set_device_class
  | DeviceClassInstance => set_device_class_instance | IndustryGroup => set_industry_group
  | SelfConfigAddress => set_self_config_address
  end.

Definition reserved_bit (n : name) : Z := fget 48 1 (name_ n).

(** ** Fields *)

Lemma field_bounds f :
  0 <= field_lo f /\ 0 < field_len f /\ field_lo f + field_len f <= 64 /\
  field_len f <= param_width f <= 32.
Proof. destruct f; simpl; lia. Qed.

Lemma fields_disjoint f g :
  f <> g -> field_lo f + field_len f <= field_lo g \/ field_lo g + field_len g <= field_lo f.
Proof. destruct f, g; simpl; intros; first [done | lia]. Qed.

(** The start bits and masks of the class describe the fields. *)
Lemma name_masks_are_fields :
  id_num_mask = fmask 0 21 /\ man_code_mask = fmask 21 11 /\ ecu_inst_mask = fmask 32 3 /\
  func_inst_mask = fmask 35 5 /\ func_mask = fmask 40 8 /\ dev_cls_mask = fmask 49 7 /\
  dev_cls_inst_mask = fmask 56 4 /\ ind_grp_mask = fmask 60 3 /\ slf_cfg_addr_mask = fmask 63 1.
Proof. by vm_compute. Qed.

Lemma land_wrap_mask w lo len v :
  0 <= lo -> 0 <= len -> lo + len <= w -> wrap w (v .<< lo) .& fmask lo len = (v .<< lo) .& fmask lo len.
Proof. intros. bitwise i. bit_cases. Qed.

Lemma get_field_fget f n : get_field f n = fget (field_lo f) (field_len f) (name_ n).
Proof.
  destruct f.
  1: { unfold get_field, identity_number. rewrite <- (Z.shiftr_0_r (_ .& _)).
       by apply (wrap_fget 32 0 21). }
  1: by apply (wrap_fget 16 21 11).
  all: match goal with |- _ = fget (field_lo ?f) (field_len ?f) _ =>
         by apply (wrap_fget 8 (field_lo f) (field_len f)) end.
Qed.

Lemma set_field_fset f v n :
  name_ (set_field f v n) = fset 64 (field_lo f) (field_len f) (name_ n) v.
Proof.
  destruct f; simpl; unfold place, fset;
    [by rewrite <- (land_wrap_mask 32 0 21)|..]; by rewrite <- (land_wrap_mask 64).
Qed.

Lemma set_field_wf f v n : name_wf n -> 0 <= v -> name_wf (set_field f v n).
Proof.
  intros Hn Hv. unfold name_wf. rewrite set_field_fset. pose proof (field_bounds f).
  destruct Hn. apply fset_is_uint; lia.
Qed.

Lemma get_set_field f g v n :
  get_field g (set_field f v n) =
    if decide (f = g) then wrap (field_len f) v else get_field g n.
Proof.
  pose proof (field_bounds f). pose proof (field_bounds g).
  rewrite !get_field_fget, !set_field_fset. case_decide as Hfg.
  - subst g. apply fget_fset_same; lia.
  - apply fget_fset_other; try lia. by apply fields_disjoint.
Qed.

(** ** Properties: fields *)

(** Each of the nine setters writes its own field, truncated to the width
    of the field, and changes no other field and not the reserved bit. *)
Theorem name_setters_update_one_field f g v n :
  get_field g (set_field f v n) =
    (if decide (f = g) then wrap (field_len f) v else get_field g n) /\
  reserved_bit (set_field f v n) = reserved_bit n.
Proof.
  split; [apply get_set_field|]. pose proof (field_bounds f). unfold reserved_bit.
  rewrite set_field_fset. apply fget_fset_other; try lia. destruct f; simpl; lia.
Qed.

Lemma fget_place f lo len v :
  0 <= lo -> 0 <= len -> lo + len <= 64 ->
  fget lo len (place v (field_lo f) (fmask (field_lo f) (field_len f))) =
    fget lo len (fset 64 (field_lo f) (field_len f) 0 v).
Proof.
  intros. pose proof (field_bounds f). unfold place, fset.
  by rewrite land_wrap_mask, Z.land_0_l, Z.lor_0_l by lia.
Qed.

Lemma fget_place_same f v :
  fget (field_lo f) (field_len f) (place v (field_lo f) (fmask (field_lo f) (field_len f))) =
    wrap (field_len f) v.
Proof. pose proof (field_bounds f). rewrite fget_place by lia. apply fget_fset_same; lia. Qed.

Lemma fget_place_other f lo len v :
  0 <= lo -> 0 <= len -> lo + len <= 64 ->
  field_lo f + field_len f <= lo \/ lo + len <= field_lo f ->
  fget lo len (place v (field_lo f) (fmask (field_lo f) (field_len f))) = 0.
Proof.
  intros. pose proof (field_bounds f). rewrite fget_place, fget_fset_other by lia.
  unfold fget. by rewrite Z.land_0_l, Z.shiftr_0_l.
Qed.

Lemma place_uint v lo len : 0 <= v -> 0 <= lo -> 0 <= len -> is_uint 64 (place v lo (fmask lo len)).
Proof.
  intros. apply land_is_uint; [lia|by apply wrap_range|].
  unfold fmask. apply Z.shiftl_nonneg. rewrite Z.ones_equiv. lia.
Qed.

(** A NAME built from its nine elements reads back each element, truncated
    to the width of its field, has a clear reserved bit and fits 64 bits. *)
Theorem name_constructor_round_trip (v : field -> Z) :
  (forall f, is_uint (param_width f) (v f)) ->
  let n := name_of_fields (v IdentityNumber) (v ManufacturerCode) (v EcuInstance)
    (v FunctionInstance) (v Function_) (v DeviceClass) (v DeviceClassInstance)
    (v IndustryGroup) (v SelfConfigAddress) in
  (forall f, get_field f n = wrap (field_len f) (v f)) /\ reserved_bit n = 0 /\ name_wf n.
Proof.
  intros Hv n.
  assert (Hn : name_ n =
    foldr (fun f z => place (v f) (field_lo f) (fmask (field_lo f) (field_len f)) .| z) 0
      [SelfConfigAddress; IndustryGroup; DeviceClassInstance; DeviceClass; Function_;
       FunctionInstance; EcuInstance; ManufacturerCode; IdentityNumber]).
  { unfold n. simpl. by rewrite Z.lor_0_r, !Z.lor_assoc. }
  unfold reserved_bit, name_wf. rewrite Hn. cbn [foldr]. split_and!.
  - intros f. rewrite get_field_fget, Hn. cbn [foldr]. rewrite !fget_lor.
    destruct f; repeat (rewrite fget_place_same || rewrite fget_place_other by (simpl; lia));
      by rewrite ?Z.lor_0_r, ?Z.lor_0_l.
  - rewrite !fget_lor, !fget_place_other by (simpl; lia). done.
  - assert (Hp : forall f, is_uint 64 (place (v f) (field_lo f) (fmask (field_lo f) (field_len f)))).
    { intros f. pose proof (field_bounds f). destruct (Hv f). apply place_uint; lia. }
    repeat (apply lor_is_uint; [lia|apply Hp|]). done.
Qed.

(** ** Payload conversion *)

(** A J1939 payload: eight bytes. *)
Definition payload_ok (p : list Z) : Prop := length p = 8%nat /\ Forall (is_uint 8) p.

Lemma payload_ok_inv p :
  payload_ok p ->
  exists b0 b1 b2 b3 b4 b5 b6 b7, p = [b0; b1; b2; b3; b4; b5; b6; b7] /\
    is_uint 8 b0 /\ is_uint 8 b1 /\ is_uint 8 b2 /\ is_uint 8 b3 /\
    is_uint 8 b4 /\ is_uint 8 b5 /\ is_uint 8 b6 /\ is_uint 8 b7.
Proof.
  intros [Hl Hf]. do 8 (destruct p as [|? p]; [done|]). destruct p; [|done].
  rewrite !Forall_cons_iff in Hf. destruct_and!. do 8 eexists. by split_and!.
Qed.

Lemma name_of_payload_sum b0 b1 b2 b3 b4 b5 b6 b7 :
  Forall (is_uint 8) [b0; b1; b2; b3; b4; b5; b6; b7] ->
  name_ (name_of_payload [b0; b1; b2; b3; b4; b5; b6; b7]) =
    b7 * 2 ^ 56 + (b6 * 2 ^ 48 + (b5 * 2 ^ 40 + (b4 * 2 ^ 32 + (b3 * 2 ^ 24 +
      (b2 * 2 ^ 16 + (b1 * 2 ^ 8 + b0)))))).
Proof.
  rewrite !Forall_cons_iff. intros (?&?&?&?&?&?&?&?&_). unfold is_uint in *.
  unfold name_of_payload. cbn -[Z.pow Z.shiftl Z.lor wrap].
  rewrite !(wrap_small 64)
    by (unfold is_uint; rewrite Z.shiftl_mul_pow2 by lia; lia).
  rewrite Z.lor_0_l, (lor_shiftl_add 8), (lor_shiftl_add 16), (lor_shiftl_add 24),
    (lor_shiftl_add 32), (lor_shiftl_add 40), (lor_shiftl_add 48), (lor_shiftl_add 56)
    by (unfold is_uint; lia). lia.
Qed.

Lemma name_to_payload_fget n :
  name_to_payload n =
    [ fget 0 8 (name_ n); fget 8 8 (name_ n); fget 16 8 (name_ n); fget 24 8 (name_ n);
      fget 32 8 (name_ n); fget 40 8 (name_ n); fget 48 8 (name_ n); fget 56 8 (name_ n) ].
Proof.
  assert (Hs : forall k, 0 <= k -> u8 (name_ n .>> k) = fget k 8 (name_ n)).
  { intros. bitwise i. bit_cases. }
  unfold name_to_payload. rewrite !Hs by lia. f_equal.
  rewrite <- (Hs 0) by lia. by rewrite Z.shiftr_0_r.
Qed.

Lemma name_to_payload_ok n : payload_ok (name_to_payload n).
Proof.
  split; [done|]. rewrite name_to_payload_fget. repeat constructor; by apply fget_range.
Qed.

Lemma name_of_to_payload n : name_wf n -> name_of_payload (name_to_payload n) = n.
Proof.
  intros Hn. rewrite name_to_payload_fget. unfold name_of_payload.
  cbn -[fget Z.shiftl Z.lor wrap]. destruct n as [x]. cbn [name_] in *. f_equal.
  assert (Hw : forall k, 0 <= k <= 56 -> u64 (fget k 8 x .<< k) = fget k 8 x .<< k).
  { intros k Hk. apply wrap_small, (is_uint_mono (8 + k)); [lia|].
    apply shiftl_is_uint; [lia..|]. apply fget_range; lia. }
  rewrite !Hw, Z.lor_0_l by lia.
  rewrite (fget_join_low 8 8), (fget_join_low 16 8), (fget_join_low 24 8), (fget_join_low 32 8),
    (fget_join_low 40 8), (fget_join_low 48 8), (fget_join_low 56 8) by lia.
  by apply fget_all.
Qed.

Lemma name_to_of_payload p : payload_ok p -> name_to_payload (name_of_payload p) = p.
Proof.
  intros Hp. destruct (payload_ok_inv p Hp) as (b0&b1&b2&b3&b4&b5&b6&b7&Hb0&Hb).
  subst p. rewrite name_to_payload_fget, name_of_payload_sum by apply Hp.
  unfold is_uint in Hb. rewrite !fget_div by lia.
  repeat f_equal; Z.div_mod_to_equations; lia.
Qed.

Lemma name_of_payload_wf p : payload_ok p -> name_wf (name_of_payload p).
Proof.
  intros Hp. destruct (payload_ok_inv p Hp) as (b0&b1&b2&b3&b4&b5&b6&b7&Hb0&Hb).
  subst p. unfold name_wf. rewrite name_of_payload_sum by apply Hp. unfold is_uint in *. lia.
Qed.

(** C26.  The payload conversions are inverse to each other: a NAME written into
    an 8-byte payload (least significant byte first) reads back as the same
    NAME, and every 8-byte payload is the image of the NAME read from it. *)
Theorem name_payload_round_trip n p :
  name_wf n -> payload_ok p ->
  name_of_payload (name_to_payload n) = n /\ name_to_payload (name_of_payload p) = p.
Proof. auto using name_of_to_payload, name_to_of_payload. Qed.

(** ** Comparison *)

(** The equivalence of [operator==]; it is coarser than equality. *)
Definition name_equiv (n m : name) : Prop := name_eq n m = true.

Lemma priority_key_wrap n : name_wf n -> priority_key n = wrap 63 (name_ n).
Proof.
  intros Hn. unfold priority_key. change slf_cfg_addr_mask with (fmask 63 1). bitwise i.
  destruct (Z.ltb_spec i 63); [bit_cases|]. destruct (Z.leb_spec 64 i).
  - rewrite (testbit_uint 64) by (done || lia). bit_cases.
  - bit_cases.
Qed.

Lemma name_equiv_key n m : name_equiv n m <-> priority_key n = priority_key m.
Proof. unfold name_equiv, name_eq. apply Z.eqb_eq. Qed.

#[export] Instance name_equiv_equivalence : Equivalence name_equiv.
Proof.
  split; intros ?; rewrite ?name_equiv_key; [done|intros ?|intros ??];
    rewrite !name_equiv_key; congruence.
Qed.

#[export] Instance name_lt_proper : Proper (name_equiv ==> name_equiv ==> eq) name_lt.
Proof. intros n n' Hn m m' Hm. apply name_equiv_key in Hn, Hm. unfold name_lt. by rewrite Hn, Hm. Qed.

#[export] Instance name_gt_proper : Proper (name_equiv ==> name_equiv ==> eq) name_gt.
Proof. intros n n' Hn m m' Hm. apply name_equiv_key in Hn, Hm. unfold name_gt. by rewrite Hn, Hm. Qed.

#[export] Instance name_eq_proper : Proper (name_equiv ==> name_equiv ==> eq) name_eq.
Proof. intros n n' Hn m m' Hm. apply name_equiv_key in Hn, Hm. unfold name_eq. by rewrite Hn, Hm. Qed.

Lemma name_gt_lt n m : name_gt n m = name_lt m n.
Proof. done. Qed.

Lemma name_lt_spec n m : name_lt n m = true <-> priority_key n < priority_key m.
Proof. apply Z.ltb_lt. Qed.

Lemma name_lt_irrefl n : name_lt n n = false.
Proof. apply Z.ltb_irrefl. Qed.

Lemma name_lt_asym n m : name_lt n m = true -> name_lt m n = false.
Proof. unfold name_lt. bool_cases; lia. Qed.

Lemma name_lt_not_eq n m : name_lt n m = true -> name_eq n m = false.
Proof. unfold name_lt, name_eq. bool_cases; lia. Qed.

(** Changing the self-configuration bit stays in the equivalence class. *)
Lemma set_self_config_equiv b n : name_wf n -> 0 <= b -> name_equiv (set_self_config_address b n) n.
Proof.
  intros Hn Hb. apply name_equiv_key. rewrite !priority_key_wrap; [|done|].
  - rewrite (set_field_fset SelfConfigAddress). simpl. bitwise i. bit_cases.
  - by apply (set_field_wf SelfConfigAddress).
Qed.

Lemma name_determined_by_key_and_bit n m :
  name_wf n -> name_wf m -> name_equiv n m ->
  self_config_address n = self_config_address m -> n = m.
Proof.
  intros Hn Hm He Hs. rewrite !(get_field_fget SelfConfigAddress) in Hs. simpl in Hs.
  apply name_equiv_key in He. rewrite !priority_key_wrap in He by done.
  destruct n as [x], m as [y]. f_equal. unfold name_wf in *; simpl in *.
  rewrite !fget_div in Hs by lia. unfold wrap, is_uint in *.
  Z.div_mod_to_equations. lia.
Qed.

(** C25.  The comparison operators order NAMEs totally up to [==]: exactly one of
    [<], [==] and [>] holds, [<] is transitive, and [==] holds exactly for two
    NAMEs that differ at most in the self-configuration bit, which none of the
    operators looks at. *)
Theorem name_arbitration_order n m k :
  name_wf n -> name_wf m ->
  ((name_lt n m, name_eq n m, name_gt n m) = (true, false, false) \/
   (name_lt n m, name_eq n m, name_gt n m) = (false, true, false) \/
   (name_lt n m, name_eq n m, name_gt n m) = (false, false, true)) /\
  (name_lt n m = true -> name_lt m k = true -> name_lt n k = true) /\
  (name_eq n m = true <-> set_self_config_address 0 n = set_self_config_address 0 m) /\
  (forall a b, 0 <= a -> 0 <= b ->
     name_lt (set_self_config_address a n) (set_self_config_address b m) = name_lt n m).
Proof.
  intros Hn Hm. split_and!.
  - unfold name_lt, name_eq, name_gt. bool_cases; auto; lia.
  - rewrite !name_lt_spec. lia.
  - change (name_equiv n m <-> set_self_config_address 0 n = set_self_config_address 0 m). split.
    + intros He. apply name_determined_by_key_and_bit;
        try (by apply (set_field_wf SelfConfigAddress)).
      * by rewrite !set_self_config_equiv.
      * etransitivity; [|symmetry]; exact (get_set_field SelfConfigAddress SelfConfigAddress 0 _).
    + intros He. rewrite <- (set_self_config_equiv 0 n), <- (set_self_config_equiv 0 m) by done.
      by rewrite He.
  - intros a b Ha Hb. by rewrite !set_self_config_equiv.
Qed.

(** With equal self-configuration bits, the 64-bit comparison that [<=] falls
    back on agrees with the operators. *)
Lemma name_le_same_bit n m :
  name_wf n -> name_wf m -> self_config_address n = self_config_address m ->
  name_le n m = negb (name_gt n m).
Proof.
  intros Hn Hm Hs. rewrite !(get_field_fget SelfConfigAddress) in Hs. simpl in Hs.
  unfold name_le, to_name_t, name_gt. rewrite !priority_key_wrap by done.
  rewrite !fget_div in Hs by lia. unfold name_wf, is_uint, wrap in *.
  assert (name_ n mod 2 ^ 63 - name_ m mod 2 ^ 63 = name_ n - name_ m)
    by (Z.div_mod_to_equations; lia).
  bool_cases; simpl; lia || done.
Qed.

(** [name::hash] hashes all 64 bits while [operator==] ignores the top one:
    for every hash of the standard library that separates distinct integers
    there are two NAMEs that are equal and have different hashes, so the
    requirement of [std::unordered_map] on its hash and key equality fails. *)
Theorem name_hash_disagrees_with_equality (std_hash : Z -> Z) :
  (forall x y, is_uint 64 x -> is_uint 64 y -> std_hash x = std_hash y -> x = y) ->
  forall n, name_wf n -> exists m, name_wf m /\ name_eq n m = true /\
    name_hash std_hash n <> name_hash std_hash m.
Proof.
  intros Hinj n Hn. set (b := 1 - self_config_address n).
  assert (Hs : is_uint 1 (self_config_address n)).
  { rewrite (get_field_fget SelfConfigAddress). by apply fget_range. }
  assert (Hb : is_uint 1 b) by (unfold b, is_uint in *; lia).
  assert (Hm : name_wf (set_self_config_address b n)).
  { apply (set_field_wf SelfConfigAddress); [done|]. by destruct Hb. }
  exists (set_self_config_address b n). split_and!; [done| |].
  - change (name_equiv n (set_self_config_address b n)). symmetry.
    apply set_self_config_equiv; [done|]. by destruct Hb.
  - intros Hh. apply Hinj in Hh; [|done..].
    pose proof (get_set_field SelfConfigAddress SelfConfigAddress b n) as Hg.
    simpl in Hg. rewrite (wrap_small 1 b Hb) in Hg. unfold self_config_address in Hg, b, Hs.
    rewrite <- Hh in Hg. unfold is_uint in *. lia.
Qed.

(** ** Witnesses *)

(** Example NAME of the test-suite: [0xa00c81045a20021b]. *)
Definition example_name : name := Name 0xa00c81045a20021b.

Lemma example_name_wf : name_wf example_name.
Proof. by vm_compute. Qed.

Lemma name_constructor_round_trip_witness :
  let v f := match f with IdentityNumber => 0x1AC85D | ManufacturerCode => 0x4FA
    | EcuInstance => 7 | FunctionInstance => 0x1A | Function_ => 0xDC | DeviceClass => 0x12
    | DeviceClassInstance => 4 | IndustryGroup => 2 | SelfConfigAddress => 0 end in
  identity_number (name_of_fields (v IdentityNumber) (v ManufacturerCode) (v EcuInstance)
    (v FunctionInstance) (v Function_) (v DeviceClass) (v DeviceClassInstance)
    (v IndustryGroup) (v SelfConfigAddress)) = 0x1AC85D.
Proof.
  intros v. refine (proj1 (name_constructor_round_trip v _) IdentityNumber).
  intros []; by vm_compute.
Defined.

Lemma name_payload_round_trip_witness :
  name_of_payload (name_to_payload example_name) = example_name /\
  name_to_payload (name_of_payload [0; 0; 0x20; 0x80; 0x84; 0x80; 0x80; 0xC8]) =
    [0; 0; 0x20; 0x80; 0x84; 0x80; 0x80; 0xC8].
Proof.
  apply name_payload_round_trip; [by vm_compute|]. split; [done|]. by repeat constructor.
Defined.

Lemma name_arbitration_order_witness :
  name_lt example_name (Name 0xa00c810c5a20021b) = true /\
  name_lt (set_self_config_address 0 example_name)
    (set_self_config_address 1 (Name 0xa00c810c5a20021b)) =
    name_lt example_name (Name 0xa00c810c5a20021b).
Proof.
  destruct (name_arbitration_order example_name (Name 0xa00c810c5a20021b) example_name)
    as (_ & _ & _ & Hb); [by vm_compute..|].
  split; [by vm_compute|]. by apply Hb.
Defined.

Lemma name_hash_disagrees_with_equality_witness :
  exists m, name_wf m /\ name_eq example_name m = true /\
    name_hash (fun x => x) example_name <> name_hash (fun x => x) m.
Proof.
  apply (name_hash_disagrees_with_equality (fun x => x)); [done|apply example_name_wf].
Defined.
