(* ===== verification/Frame.v ===== *)
(** * Frames, data and filters
    ([include/jay/frame.hpp], [include/jay/data.hpp], [include/jay/filters.hpp])

    [frame] is a header with the eight payload bytes of a CAN frame, [data] a
    header with a payload of any size.  The archetypes build the address
    management frames; [to_string] is the debugging output of both types.
    [canary::filter] is not in the repository: a parameter, with the matching
    rule of Linux's CAN filters as its law. *)

From Stdlib Require Import String HexadecimalString.
From S2P Require Import Prelude J1939Type Canary Header Name.

Section Frame.
Context `{CanaryHeader}.

(** [struct frame]; [payload] is a [std::array<uint8_t, 8>]. *)
Record frame := Frame { header : frame_header; payload : list Z }.

(** [struct data]; [payload] is a [std::vector<uint8_t>]. *)
Record data := Data { data_header : frame_header; data_payload : list Z }.

(** [frame() = default] and [data() = default] *)
Definition frame_default : frame := Frame frame_header_default (replicate 8 0).
Definition data_default : data := Data frame_header_default [].

(** ** Archetypes *)

(** [make_address_request(PS)]: aggregate initialisation of the payload fills
    the missing five bytes with zero. *)
Definition make_address_request (PS : Z) : frame :=
  Frame (frame_header_of_fields 6 false PF_REQUEST PS J1939_IDLE_ADDR 3)
    [0x00; 0xEE; 0x00; 0; 0; 0; 0; 0].

(** [make_address_request()] *)
Definition make_global_address_request : frame := make_address_request J1939_NO_ADDR.

Definition make_address_claim (n : name) (address : Z) : frame :=
  Frame (frame_header_of_fields 6 false PF_ADDRESS_CLAIM J1939_NO_ADDR address 8)
    (name_to_payload n).

Definition make_cannot_claim (n : name) : frame :=
  Frame (frame_header_of_fields 6 false PF_ADDRESS_CLAIM J1939_NO_ADDR J1939_IDLE_ADDR 8)
    (name_to_payload n).

(** ** Conversion to a string *)

(** [ss << std::hex << v] for an unsigned integer. *)
Definition hex (v : Z) : string := NilZero.string_of_uint (N.to_hex_uint (Z.to_N v)).

(** The loop over the payload: each byte in hexadecimal, followed by a quote. *)
Fixpoint payload_to_string (bytes : list Z) : string :=
  match bytes with
  | [] => EmptyString
  | byte :: bytes => append (hex byte) (append "'" (payload_to_string bytes))
  end.

Definition frame_to_string (f : frame) : string :=
  append (hex (id (header f))) (append ":" (payload_to_string (payload f))).

Definition data_to_string (d : data) : string :=
  append (hex (id (data_header d))) (append ":" (payload_to_string (data_payload d))).

(** ** Filters *)

(** The operations of [canary::filter] that [filters.hpp] calls, and the frames
    a filter lets through. *)
Class CanaryFilter := {
  canary_filter : Type;
  filter_init : canary_filter;
  filter_id : Z -> canary_filter -> canary_filter;
  filter_id_mask : Z -> canary_filter -> canary_filter;
  filter_remote_transmission : bool -> canary_filter -> canary_filter;
  filter_extended_format : bool -> canary_filter -> canary_filter;
  filter_negation : bool -> canary_filter -> canary_filter;
  filter_accepts : canary_filter -> canary_header -> bool
}.

(** Linux's documented rule for one filter, [received_id & mask == id & mask],
    with the flag bits compared too and the result inverted by negation; stated
    for the order in which the source configures a filter. *)
Class CanaryFilterLaws `{CanaryFilter} : Prop := {
  filter_accepts_spec v m rtr eff neg h :
    filter_accepts (filter_negation neg (filter_extended_format eff
      (filter_remote_transmission rtr (filter_id_mask m (filter_id v filter_init))))) h =
    xorb neg (((canary_id h .& m) =? (v .& m)) &&
      Bool.eqb (canary_rtr h) rtr && Bool.eqb (canary_extended h) eff)
}.

Section Filters.
Context `{CanaryFilter}.

Definition make_address_request_filter : canary_filter :=
  filter_negation false (filter_extended_format true (filter_remote_transmission false
    (filter_id_mask (u32 (J1939_PGN_PDU1_MAX .<< 8))
      (filter_id (u32 (J1939_PGN_REQUEST .<< 8)) filter_init)))).

Definition make_address_claim_filter : canary_filter :=
  filter_negation false (filter_extended_format true (filter_remote_transmission false
    (filter_id_mask (u32 (J1939_PGN_PDU1_MAX .<< 8))
      (filter_id (u32 (J1939_PGN_ADDRESS_CLAIMED .<< 8)) filter_init)))).

End Filters.
End Frame.

(** A filter with Linux's rule, for the concrete header. *)
#[export] Instance linux_filter : @CanaryFilter linux_canary := {|
  canary_filter := Z * Z * bool * bool * bool;
  filter_init := (0, 0, false, false, false);
  filter_id v '(_, m, r, e, n) := (v, m, r, e, n);
  filter_id_mask m '(v, _, r, e, n) := (v, m, r, e, n);
  filter_remote_transmission r '(v, m, _, e, n) := (v, m, r, e, n);
  filter_extended_format e '(v, m, r, _, n) := (v, m, r, e, n);
  filter_negation n '(v, m, r, e, _) := (v, m, r, e, n);
  filter_accepts '(v, m, r, e, n) h :=
    xorb n (((canary_id h .& m) =? (v .& m)) &&
      Bool.eqb (canary_rtr h) r && Bool.eqb (canary_extended h) e)
|}.

#[export] Instance linux_filter_laws : CanaryFilterLaws.
Proof. by split. Qed.
