(* ===== verification/FrameFacts.v ===== *)
(** * Theorems about frames and filters *)

From Stdlib Require Import String Ascii HexadecimalString.
From S2P Require Import Prelude J1939Type Canary Header HeaderFacts Name NameFacts Frame.

Section FrameFacts.
Context `{CanaryLaws}.

(** The bits R, DP and PF of a header, which [is_claim] and [is_request] test. *)
Lemma pgn_pdu1 h : pgn h .& J1939_PGN_PDU1_MAX = fget 16 10 (id h) .<< 8.
Proof.
  rewrite pgn_bits. change J1939_PGN_PDU1_MAX with (fmask 8 10).
  apply Z.bits_inj'. intros i Hi.
  rewrite Z.land_spec, testbit_fmask, testbit_fget_shiftl by lia.
  destruct (is_broadcast h).
  - rewrite testbit_fget by lia. replace (i - 8 + 16) with (i + 8) by lia. bit_cases.
  - rewrite testbit_fget_shiftl by lia. bit_cases.
Qed.

Lemma pgn_pdu1_eqb h k :
  ((pgn h .& J1939_PGN_PDU1_MAX) =? k * 2 ^ 8) = (fget 16 10 (id h) =? k).
Proof. rewrite pgn_pdu1, Z.shiftl_mul_pow2 by lia. bool_cases; lia. Qed.

Lemma is_claim_field h : is_claim h = (fget 16 10 (id h) =? 0xEE).
Proof. apply (pgn_pdu1_eqb h 0xEE). Qed.

Lemma is_request_field h : is_request h = (fget 16 10 (id h) =? 0xEA).
Proof. apply (pgn_pdu1_eqb h 0xEA). Qed.

Lemma id_of_fields p f s a n :
  is_uint 8 f -> is_uint 8 s -> is_uint 8 a ->
  id (frame_header_of_fields p false f s a n) =
    clamp p 0 7 * 2 ^ 26 + ((f * 2 ^ 8 + s) * 2 ^ 8 + a).
Proof.
  intros Hf Hs Ha. unfold frame_header_of_fields. simpl Z.b2z. rewrite Z.shiftl_0_l, Z.lor_0_l.
  rewrite (shiftl_lor_add 8) by (done || lia).
  apply id_of_pgn; [unfold is_uint in *; lia|done].
Qed.

(** What a receiver reads in a header made of priority 6, PF, PS and SA. *)
Lemma archetype_header f s a n :
  is_uint 8 f -> is_uint 8 s -> is_uint 8 a -> 0 <= n <= 8 ->
  let h := frame_header_of_fields 6 false f s a n in
  fget 16 10 (id h) = f /\ pdu_specific h = s /\ source_address h = a /\ priority h = 6 /\
  payload_length h = n.
Proof.
  intros Hf Hs Ha Hn h. split_and!.
  5: by apply payload_length_of_pgn.
  all: rewrite ?pdu_specific_field, ?source_address_field, ?priority_field; unfold h;
    rewrite id_of_fields, fget_div by (done || lia); change (clamp 6 0 7) with 6;
    unfold is_uint in *; Z.div_mod_to_equations; lia.
Qed.

(** The archetype frames say what they are for: an address claim frame is
    recognised as a claim (and not as a request) and carries the NAME and the
    address it was made from; a cannot-claim frame is a claim of the idle
    address 254; an address request is recognised as a request for its PS. *)
Theorem archetypes_decode n a ps :
  name_wf n -> is_uint 8 a -> is_uint 8 ps ->
  let claim := make_address_claim n a in
  let cannot := make_cannot_claim n in
  let request := make_address_request ps in
  (is_claim (header claim) = true /\ is_request (header claim) = false /\
   source_address (header claim) = a /\ name_of_payload (payload claim) = n /\
   payload_length (header claim) = 8) /\
  (is_claim (header cannot) = true /\ source_address (header cannot) = J1939_IDLE_ADDR /\
   name_of_payload (payload cannot) = n) /\
  (is_request (header request) = true /\ is_claim (header request) = false /\
   pdu_specific (header request) = ps).
Proof.
  intros Hn Ha Hps claim cannot request.
  pose proof (name_to_payload_ok n) as Hp.
  assert (Hr : name_of_payload (name_to_payload n) = n) by (by apply name_of_to_payload).
  destruct (archetype_header 0xEE 0xFF a 8) as (C1 & C2 & C3 & C4 & C5); [done..|].
  destruct (archetype_header 0xEE 0xFF 0xFE 8) as (D1 & D2 & D3 & D4 & D5); [done..|].
  destruct (archetype_header 0xEA ps 0xFE 3) as (E1 & E2 & E3 & E4 & E5); [done..|].
  unfold claim, cannot, request, make_address_claim, make_cannot_claim, make_address_request;
    simpl header; simpl payload.
  rewrite !is_claim_field, !is_request_field.
  unfold PF_ADDRESS_CLAIM, PF_REQUEST, J1939_NO_ADDR, J1939_IDLE_ADDR.
  rewrite C1, C3, C5, D1, D3, E1, E2. by split_and!.
Qed.

(** C28.  The two kernel filters let through exactly the frames that the library
    recognises as address requests and as address claims. *)
Theorem filters_accept_claims_and_requests `{!CanaryFilter} `{!CanaryFilterLaws} h :
  j1939_flags h ->
  filter_accepts make_address_claim_filter (header_ h) = is_claim h /\
  filter_accepts make_address_request_filter (header_ h) = is_request h.
Proof.
  intros (He & _ & Hr). unfold make_address_claim_filter, make_address_request_filter.
  rewrite !filter_accepts_spec, He, Hr, is_claim_field, is_request_field.
  fold (id h). rewrite !Bool.xorb_false_l, !andb_true_r.
  change (u32 (J1939_PGN_PDU1_MAX .<< 8)) with (fmask 16 10).
  assert (Hm : id h .& fmask 16 10 = fget 16 10 (id h) * 2 ^ 16).
  { rewrite <- Z.shiftl_mul_pow2 by lia. apply Z.bits_inj'. intros i Hi.
    rewrite testbit_fget_shiftl, Z.land_spec, testbit_fmask by lia.
    replace (i - 16 + 16) with i by lia. bit_cases. }
  rewrite Hm. change (u32 (J1939_PGN_ADDRESS_CLAIMED .<< 8) .& fmask 16 10) with (0xEE * 2 ^ 16).
  change (u32 (J1939_PGN_REQUEST .<< 8) .& fmask 16 10) with (0xEA * 2 ^ 16).
  split; bool_cases; lia.
Qed.
End FrameFacts.

(** ** The theorems at the concrete header *)

Lemma archetypes_decode_witness :
  is_claim (header (make_address_claim example_name 0x80)) = true.
Proof.
  exact (proj1 (proj1 (archetypes_decode (H := linux_canary) example_name 0x80 0xFF
    ltac:(by vm_compute) ltac:(done) ltac:(done)))).
Defined.

Lemma filters_accept_claims_and_requests_witness :
  filter_accepts make_address_claim_filter (header_ (header (make_address_claim example_name 0x80))) = true.
Proof.
  exact (proj1 (filters_accept_claims_and_requests
    (header (make_address_claim example_name 0x80)) ltac:(by vm_compute))).
Defined.
