(* ===== verification/Network.v ===== *)
(** * [jay::network] ([include/jay/network.hpp])

    The table of NAMEs and addresses: [name_addr_map_] from NAMEs to addresses
    (254 for a NAME without one) and [addr_name_map_] from addresses to NAMEs.
    The two [std::unordered_map]s are finite maps.  The map on NAMEs is keyed by
    the 64-bit value: [name::hash] distinguishes NAMEs that [operator==]
    identifies, and an implementation that stores the hash of each entry (as
    libstdc++ does for this hash) compares the hashes before the keys.  Every
    operation runs under the lock of the object, so each is one atomic step here.  The
    [on_new_name_] callback may not call back into the network; its calls are
    returned as a list. *)

From Equations Require Import Equations.
From Stdlib Require Import String.
From stdpp Require Import gmap.
From S2P Require Import Prelude J1939Type Name.

Record network := Network {
  interface_name_ : string;
  on_new_name_ : bool; (** a callback is installed *)
  name_addr_map_ : gmap name Z;
  addr_name_map_ : gmap Z name
}.

(** [network(interface_name)]; the other constructors also install a callback. *)
Definition network_init (interface_name : string) : network :=
  Network interface_name false ∅ ∅.
Definition network_init_callback (interface_name : string) : network :=
  Network interface_name true ∅ ∅.

Definition on_new_name_callback (installed : bool) (net : network) : network :=
  Network (interface_name_ net) installed (name_addr_map_ net) (addr_name_map_ net).

Definition with_maps (net : network) (fwd : gmap name Z) (rev : gmap Z name) : network :=
  Network (interface_name_ net) (on_new_name_ net) fwd rev.

(** ** [std::unordered_map] operations *)

(** [m.try_emplace(k, v)] *)
Definition try_emplace (k : name) (v : Z) (m : gmap name Z) : gmap name Z :=
  match m !! k with Some _ => m | None => <[k := v]> m end.

(** [m[k]] read: a missing key is inserted with the value 0. *)
Definition index (k : name) (m : gmap name Z) : Z * gmap name Z :=
  match m !! k with Some v => (v, m) | None => (0, <[k := 0]> m) end.

(** ** Insertion *)

(** The lambda [set_idle] of [insert]:
    [addr_name_map_.erase(name_addr_map_[n]); name_addr_map_[n] = J1939_IDLE_ADDR]. *)
Definition set_idle (n : name) (net : network) : network :=
  let '(a, fwd) := index n (name_addr_map_ net) in
  with_maps net (<[n := J1939_IDLE_ADDR]> fwd) (delete a (addr_name_map_ net)).

(** The lambda [claim] of [insert]: both maps, then the callback. *)
Definition claim (address : Z) (notify : bool) (n : name) (net : network)
    : network * list (name * Z) :=
  (with_maps net (<[n := address]> (name_addr_map_ net)) (<[address := n]> (addr_name_map_ net)),
   if notify && on_new_name_ net then [(n, address)] else []).

(** [bool insert(name, address)]: the result, the new table and the calls of
    [on_new_name_]. *)
Definition insert (n : name) (address : Z) (net : network) : bool * network * list (name * Z) :=
  let prev_it := name_addr_map_ net !! n in
  let first_time := match prev_it with None => true | Some _ => false end in
  let prev_addr := default J1939_IDLE_ADDR prev_it in
  if J1939_MAX_UNICAST_ADDR <? address then
    if first_time then
      (true, with_maps net (<[n := J1939_IDLE_ADDR]> (name_addr_map_ net)) (addr_name_map_ net), [])
    else if address =? J1939_IDLE_ADDR then (true, set_idle n net, [])
    else (false, net, [])
  else
    let notify := first_time || negb (prev_addr =? address) in
    let addr_it := addr_name_map_ net !! address in
    let emplaced := with_maps net (try_emplace n J1939_IDLE_ADDR (name_addr_map_ net))
                                  (addr_name_map_ net) in
    match addr_it with
    | Some conflict =>
        if name_gt n conflict then (false, emplaced, [])
        else
          let net := if name_ne conflict n then set_idle conflict emplaced else emplaced in
          let '(net, calls) := claim address notify n net in
          (true, net, calls)
    | None =>
        let '(net, calls) := claim address notify n emplaced in
        (true, net, calls)
    end.

(** The table that [insert] leaves. *)
Definition inserted (n : name) (address : Z) (net : network) : network :=
  snd (fst (insert n address net)).

(** ** Removal *)

Definition release (n : name) (net : network) : network :=
  match name_addr_map_ net !! n with
  | None => net
  | Some address =>
      let fwd := <[n := J1939_IDLE_ADDR]> (name_addr_map_ net) in
      match addr_name_map_ net !! address with
      | None => with_maps net fwd (addr_name_map_ net)
      | Some _ => with_maps net fwd (delete address (addr_name_map_ net))
      end
  end.

Definition remove (n : name) (net : network) : network :=
  match name_addr_map_ net !! n with
  | None => net
  | Some address =>
      let fwd := delete n (name_addr_map_ net) in
      match addr_name_map_ net !! address with
      | None => with_maps net fwd (addr_name_map_ net)
      | Some _ => with_maps net fwd (delete address (addr_name_map_ net))
      end
  end.

Definition clear (net : network) : network := with_maps net ∅ ∅.

(** ** Queries *)

Definition available (address : Z) (net : network) : bool :=
  if J1939_MAX_UNICAST_ADDR <? address then false
  else match addr_name_map_ net !! address with None => true | Some _ => false end.

Definition claimable (address : Z) (n : name) (net : network) : bool :=
  if J1939_MAX_UNICAST_ADDR <? address then false
  else match addr_name_map_ net !! address with
       | Some occupant => name_gt occupant n
       | None => true
       end.

Definition in_network (n : name) (net : network) : bool :=
  match name_addr_map_ net !! n with Some _ => true | None => false end.

Definition match_ (n : name) (address : Z) (net : network) : bool :=
  match name_addr_map_ net !! n with Some a => a =? address | None => false end.

Definition address_count (net : network) : Z := Z.of_nat (size (addr_name_map_ net)).

Definition name_count (net : network) : Z := Z.of_nat (size (name_addr_map_ net)).

Definition get_name (address : Z) (net : network) : option name := addr_name_map_ net !! address.

Definition get_address (n : name) (net : network) : Z :=
  match name_addr_map_ net !! n with Some a => a | None => J1939_NO_ADDR end.

Definition full (net : network) : bool := J1939_MAX_UNICAST_ADDR <? address_count net.

Definition get_interface_name (net : network) : string := interface_name_ net.

(** [std::set<name>]: one representative per class of [operator<], in ascending
    order; the names arrive in the iteration order of the unordered map. *)
Fixpoint set_insert (n : name) (s : list name) : list name :=
  match s with
  | [] => [n]
  | m :: s' => if name_lt n m then n :: s else if name_lt m n then m :: set_insert n s' else s
  end.

Definition get_name_set (order : list name) : list name :=
  foldl (fun s n => set_insert n s) [] order.

(** ** Address search *)

(** The 8-bit counter of a loop comes closer to a bound that it has not reached. *)
Lemma counter_decreases a e : a < u8 e -> (Z.to_nat (u8 e - u8 (a + 1)) < Z.to_nat (u8 e - a))%nat.
Proof.
  intros Ha. pose proof (wrap_range 8 e ltac:(done)) as He. pose proof (wrap_range 8 (a + 1) ltac:(done)) as Hn.
  assert (Hs : 0 <= a -> u8 (a + 1) = a + 1) by (intros ?; apply wrap_small; unfold is_uint in *; lia).
  unfold is_uint in *. lia.
Qed.

(** Induction on the iterations that are left. *)
Lemma counter_ind e (P : Z -> Prop) : (forall a, (a < u8 e -> P (u8 (a + 1))) -> P a) -> forall a, P a.
Proof.
  intros Hstep a. remember (Z.to_nat (u8 e - a)) as m eqn:Hm. revert a Hm.
  induction m as [m IH] using lt_wf_ind. intros a ->. apply Hstep. intros Ha.
  by eapply IH; [apply (counter_decreases a e Ha)|].
Qed.

(** The loop of [search], [for (address = start; address < end; address++)] with
    8-bit counters, by well-founded recursion: each iteration that goes on comes
    closer to the end. *)
Equations search_loop (n : name) (address end_address : Z) (net : network) : Z
  by wf (Z.to_nat (u8 end_address - address)) lt :=
search_loop n address end_address net with decide (address < u8 end_address) => {
  | right _ => J1939_NO_ADDR
  | left Hlt with addr_name_map_ net !! address => {
      | None => address
      | Some occupant =>
          if name_eq occupant n then address
          else search_loop n (u8 (address + 1)) end_address net } }.
Next Obligation. intros. by apply counter_decreases. Defined.

Lemma search_loop_step n a e net :
  search_loop n a e net =
    if a <? u8 e then
      match addr_name_map_ net !! a with
      | None => a
      | Some o => if name_eq o n then a else search_loop n (u8 (a + 1)) e net
      end
    else J1939_NO_ADDR.
Proof.
  rewrite search_loop_equation_1. destruct (decide (a < u8 e)) as [Hlt|Hge].
  - rewrite (proj2 (Z.ltb_lt _ _) Hlt). unfold search_loop_unfold_clause_1, search_loop_unfold_clause_1_clause_2.
    by destruct (addr_name_map_ net !! a).
  - by rewrite (proj2 (Z.ltb_ge a (u8 e))) by lia.
Qed.

Definition search (n : name) (start_address end_address : Z) (net : network) : Z :=
  search_loop n start_address end_address net.

Definition find_address (n : name) (preferred_address : Z) (net : network) : Z :=
  let preferred_address := clamp preferred_address 0 J1939_MAX_UNICAST_ADDR in
  if self_config_address n =? 0 then
    match addr_name_map_ net !! preferred_address with
    | None => preferred_address
    | Some occupant => if name_le n occupant then preferred_address else J1939_NO_ADDR
    end
  else
    let address := search n preferred_address J1939_IDLE_ADDR net in
    if address =? J1939_NO_ADDR then search n 0 preferred_address net else address.
