(* ===== verification/NetworkFacts.v ===== *)
(** * Invariants of the address table *)

From stdpp Require Import gmap.
From S2P Require Import Prelude J1939Type Name NameFacts Network.

Section Invariant.

(** What holds of the two maps after any sequence of [insert], [release] and
    [clear]: addresses are unicast or (for a NAME without address) idle, the
    address of a NAME points back at it, and the reverse map mentions only
    registered NAMEs. *)
Record net_ok (net : network) : Prop := {
  ok_rev_unicast a n : addr_name_map_ net !! a = Some n -> unicast a;
  ok_fwd_range n a : name_addr_map_ net !! n = Some a -> unicast a \/ a = J1939_IDLE_ADDR;
  ok_fwd_rev n a : name_addr_map_ net !! n = Some a -> unicast a -> addr_name_map_ net !! a = Some n;
  ok_rev_known a n : addr_name_map_ net !! a = Some n -> is_Some (name_addr_map_ net !! n)
}.

(** The reverse map holds nothing but the current address of [n]. *)
Definition no_stale (n : name) (net : network) : Prop :=
  forall a, addr_name_map_ net !! a = Some n -> name_addr_map_ net !! n = Some a.

(** The two maps are inverse to each other. *)
Definition net_exact (net : network) : Prop := net_ok net /\ forall n, no_stale n net.

(** A NAME does not hold a unicast address other than [a]. *)
Definition not_moving (n : name) (a : Z) (net : network) : Prop :=
  forall b, name_addr_map_ net !! n = Some b -> unicast b -> a = b.

(** The operations of the interface that change the table. *)
Inductive op := OpInsert (n : name) (a : Z) | OpRelease (n : name) | OpRemove (n : name) | OpClear.

Definition run_op (o : op) (net : network) : network :=
  match o with
  | OpInsert n a => inserted n a net
  | OpRelease n => release n net
  | OpRemove n => remove n net
  | OpClear => clear net
  end.

(** Addresses are the [uint8_t] of the parameter type. *)
Definition op_ok (o : op) : Prop := match o with OpInsert _ a => is_uint 8 a | _ => True end.

End Invariant.

(** ** Lookups in the maps that the operations build *)

Lemma name_ne_spec n m : name_ne n m = true <-> n <> m.
Proof.
  destruct n as [x], m as [y]. unfold name_ne, to_name_t; simpl.
  rewrite negb_true_iff, Z.eqb_neq. naive_solver.
Qed.

Lemma name_ne_false n m : name_ne n m = false <-> n = m.
Proof.
  destruct n as [x], m as [y]. unfold name_ne, to_name_t; simpl.
  rewrite negb_false_iff, Z.eqb_eq. naive_solver.
Qed.

Lemma lookup_try_emplace k v (m : gmap name Z) j :
  try_emplace k v m !! j =
    if decide (j = k) then Some (default v (m !! k)) else m !! j.
Proof.
  unfold try_emplace. destruct (m !! k) as [x|] eqn:Hk; case_decide; simplify_map_eq; done.
Qed.

Lemma set_idle_maps n net a :
  name_addr_map_ net !! n = Some a ->
  set_idle n net =
    with_maps net (<[n := J1939_IDLE_ADDR]> (name_addr_map_ net)) (delete a (addr_name_map_ net)).
Proof. intros Hn. unfold set_idle, index. by rewrite Hn. Qed.

Lemma not_unicast_idle : ~ unicast J1939_IDLE_ADDR.
Proof. addr_lia. Qed.

(** Case analysis on the lookups of a table that was updated. *)
Ltac net_cases :=
  repeat match goal with
  | H : context [(<[?k := _]> _) !! ?j] |- _ => rewrite lookup_insert in H; case_decide; simplify_eq
  | H : context [delete ?k _ !! ?j] |- _ => rewrite lookup_delete in H; case_decide; simplify_eq
  | H : context [try_emplace _ _ _ !! _] |- _ => rewrite lookup_try_emplace in H; case_decide; simplify_eq
  end.
Ltac net_goal :=
  rewrite ?lookup_insert, ?lookup_delete, ?lookup_try_emplace; repeat case_decide; simplify_eq.

Lemma empty_ok net : net_ok (clear net).
Proof. by split; simpl; intros ??; rewrite lookup_empty. Qed.

Lemma register_ok n net : net_ok net ->
  net_ok (with_maps net (try_emplace n J1939_IDLE_ADDR (name_addr_map_ net)) (addr_name_map_ net)).
Proof.
  intros Hok. split; simpl.
  - apply (ok_rev_unicast net Hok).
  - intros m a Hm. net_cases; [|by eapply ok_fwd_range].
    destruct (name_addr_map_ net !! n) eqn:E; simpl; [by eapply ok_fwd_range|by right].
  - intros m a Hm Ha. net_cases; [|by eapply ok_fwd_rev].
    destruct (name_addr_map_ net !! n) eqn:E; simpl in *; [by eapply ok_fwd_rev|].
    by destruct not_unicast_idle.
  - intros a m Hm. net_goal; [by eexists|by eapply ok_rev_known].
Qed.

Lemma set_idle_ok n net : net_ok net -> is_Some (name_addr_map_ net !! n) -> net_ok (set_idle n net).
Proof.
  intros Hok [a Ha]. rewrite (set_idle_maps n net a Ha). split; simpl.
  - intros b m Hm. net_cases. by eapply ok_rev_unicast.
  - intros m b Hm. net_cases; [by right|by eapply ok_fwd_range].
  - intros m b Hm Hb. net_cases; [by destruct not_unicast_idle|]. net_goal.
    + pose proof (ok_fwd_rev net Hok _ _ Ha Hb). pose proof (ok_fwd_rev net Hok _ _ Hm Hb). congruence.
    + by eapply ok_fwd_rev.
  - intros b m Hm. net_cases. net_goal; [by eexists|by eapply ok_rev_known].
Qed.

(** Claiming an address that no other NAME holds in the forward map. *)
Lemma claim_ok a b n net :
  net_ok net -> unicast a -> (forall m, m <> n -> name_addr_map_ net !! m <> Some a) ->
  net_ok (fst (claim a b n net)).
Proof.
  intros Hok Ha Hfree. split; simpl.
  - intros c m Hm. net_cases; [done|by eapply ok_rev_unicast].
  - intros m c Hm. net_cases; [by left|by eapply ok_fwd_range].
  - intros m c Hm Hc. net_cases; net_goal; try done; [by destruct (Hfree m)|by eapply ok_fwd_rev].
  - intros c m Hm. net_goal; [by eexists|]. net_cases. by eapply ok_rev_known.
Qed.

(** ** [insert], branch by branch *)

(** The table with [n] registered, without address if it was unknown. *)
Definition registered (n : name) (net : network) : network :=
  with_maps net (try_emplace n J1939_IDLE_ADDR (name_addr_map_ net)) (addr_name_map_ net).

(** The table in which [a] is free for [n]: its occupant, if another NAME, made idle. *)
Definition vacated (n : name) (a : Z) (net : network) : network :=
  match addr_name_map_ net !! a with
  | Some o => if name_ne o n then set_idle o (registered n net) else registered n net
  | None => registered n net
  end.

(** Whether [insert] refuses the address: the occupant has priority. *)
Definition refused (n : name) (a : Z) (net : network) : bool :=
  match addr_name_map_ net !! a with Some o => name_gt n o | None => false end.

(** Whether the address of [n] is new to the table. *)
Definition changes (n : name) (a : Z) (net : network) : bool :=
  match name_addr_map_ net !! n with Some b => negb (b =? a) | None => true end.

Lemma unicast_ltb a : is_uint 8 a -> (J1939_MAX_UNICAST_ADDR <? a) = false <-> unicast a.
Proof. intros Ha. rewrite Z.ltb_ge. addr_lia. Qed.

Lemma insert_unicast n a net :
  unicast a ->
  insert n a net =
    if refused n a net then (false, registered n net, [])
    else (true, fst (claim a true n (vacated n a net)),
          if changes n a net && on_new_name_ net then [(n, a)] else []).
Proof.
  intros Ha. unfold insert, refused, vacated, changes.
  rewrite (proj2 (unicast_ltb a (unicast_uint a Ha)) Ha).
  fold (registered n net).
  assert (Hon : forall o, on_new_name_ (set_idle o (registered n net)) = on_new_name_ net).
  { intros o. unfold set_idle. by destruct (index _ _). }
  destruct (addr_name_map_ net !! a) as [o|]; [|by destruct (name_addr_map_ net !! n)].
  destruct (name_gt n o); [done|]. destruct (name_ne o n); simpl; rewrite ?Hon;
    by destruct (name_addr_map_ net !! n).
Qed.

Lemma insert_not_unicast n a net :
  is_uint 8 a -> ~ unicast a ->
  insert n a net =
    match name_addr_map_ net !! n with
    | None => (true, registered n net, [])
    | Some _ => if a =? J1939_IDLE_ADDR then (true, set_idle n net, []) else (false, net, [])
    end.
Proof.
  intros Hr Ha. unfold insert, registered, try_emplace.
  destruct (J1939_MAX_UNICAST_ADDR <? a) eqn:E; [|by apply unicast_ltb in E].
  by destruct (name_addr_map_ net !! n).
Qed.

Lemma vacated_ok n a net :
  net_ok net -> unicast a ->
  net_ok (vacated n a net) /\
  (forall m, m <> n -> name_addr_map_ (vacated n a net) !! m <> Some a).
Proof.
  intros Hok Ha. pose proof (register_ok n net Hok) as Hreg. fold (registered n net) in Hreg.
  assert (Hfwd : forall m, name_addr_map_ (registered n net) !! m = Some a ->
    addr_name_map_ net !! a = Some m).
  { intros m Hm. apply (ok_fwd_rev _ Hreg _ _ Hm Ha). }
  unfold vacated. destruct (addr_name_map_ net !! a) as [o|] eqn:Ho.
  - destruct (name_ne o n) eqn:Hne.
    + destruct (ok_rev_known _ Hreg a o Ho) as [c Hc]. split.
      * apply set_idle_ok; [done|by eexists].
      * intros m Hmn. rewrite (set_idle_maps o _ c Hc). cbn [name_addr_map_ with_maps].
        rewrite lookup_insert. case_decide; [intros [=]; addr_lia|].
        intros Hm. apply Hfwd in Hm. congruence.
    + apply name_ne_false in Hne. subst o. split; [done|].
      intros m Hmn Hm. apply Hfwd in Hm. congruence.
  - split; [done|]. intros m _ Hm. by apply Hfwd in Hm.
Qed.

Lemma insert_ok n a net : net_ok net -> is_uint 8 a -> net_ok (inserted n a net).
Proof.
  intros Hok Ha. unfold inserted. destruct (decide (unicast a)) as [Hu|Hu].
  - rewrite insert_unicast by done. destruct (refused n a net); simpl.
    + by apply register_ok.
    + destruct (vacated_ok n a net Hok Hu). by apply (claim_ok a true).
  - rewrite insert_not_unicast by done. destruct (name_addr_map_ net !! n) as [b|] eqn:Hn; simpl.
    + destruct (a =? J1939_IDLE_ADDR); simpl; [|done]. apply set_idle_ok; [done|by eexists].
    + by apply register_ok.
Qed.

(** [release] is [set_idle] on a registered NAME. *)
Lemma release_set_idle n net :
  release n net = match name_addr_map_ net !! n with Some _ => set_idle n net | None => net end.
Proof.
  unfold release, set_idle, index. destruct (name_addr_map_ net !! n) as [a|] eqn:Hn; [|done].
  destruct (addr_name_map_ net !! a) eqn:Ha; [done|]. f_equal. by rewrite delete_id.
Qed.

Lemma release_ok n net : net_ok net -> net_ok (release n net).
Proof.
  intros Hok. rewrite release_set_idle. destruct (name_addr_map_ net !! n) eqn:Hn; [|done].
  apply set_idle_ok; [done|by eexists].
Qed.

Lemma remove_maps n net :
  remove n net =
    match name_addr_map_ net !! n with
    | Some a => with_maps net (delete n (name_addr_map_ net)) (delete a (addr_name_map_ net))
    | None => net
    end.
Proof.
  unfold remove. destruct (name_addr_map_ net !! n) as [a|]; [|done].
  destruct (addr_name_map_ net !! a) eqn:Ha; [done|]. f_equal. by rewrite delete_id.
Qed.

Lemma remove_ok n net : net_ok net -> no_stale n net -> net_ok (remove n net).
Proof.
  intros Hok Hst. rewrite remove_maps. destruct (name_addr_map_ net !! n) as [a|] eqn:Hn; [|done].
  split; simpl.
  - intros b m Hm. net_cases. by eapply ok_rev_unicast.
  - intros m b Hm. net_cases. by eapply ok_fwd_range.
  - intros m b Hm Hb. net_cases. net_goal.
    + pose proof (ok_fwd_rev net Hok _ _ Hn Hb). pose proof (ok_fwd_rev net Hok _ _ Hm Hb). congruence.
    + by eapply ok_fwd_rev.
  - intros b m Hm. net_cases. net_goal.
    + specialize (Hst b Hm). congruence.
    + by eapply ok_rev_known.
Qed.

(** ** Exactness *)

Lemma empty_exact net : net_exact (clear net).
Proof. split; [apply empty_ok|]. intros n a. simpl. by rewrite lookup_empty. Qed.

Lemma registered_exact n net : net_exact net -> net_exact (registered n net).
Proof.
  intros [Hok Hst]. split; [by apply register_ok|]. intros m a Hm. simpl in *.
  apply Hst in Hm. net_goal; [by rewrite Hm|done].
Qed.

Lemma set_idle_exact n net :
  net_exact net -> is_Some (name_addr_map_ net !! n) -> net_exact (set_idle n net).
Proof.
  intros [Hok Hst] Hn. split; [by apply set_idle_ok|]. destruct Hn as [a Ha].
  rewrite (set_idle_maps n net a Ha). intros m b Hm. simpl in *. net_cases.
  apply Hst in Hm. net_goal; congruence.
Qed.

Lemma vacated_exact n a net : net_exact net -> net_exact (vacated n a net).
Proof.
  intros Hex. pose proof (registered_exact n net Hex) as Hreg. unfold vacated.
  destruct (addr_name_map_ net !! a) as [o|] eqn:Ho; [|done].
  destruct (name_ne o n); [|done]. apply set_idle_exact; [done|].
  by apply (ok_rev_known _ (proj1 Hreg) a).
Qed.

Lemma vacated_self n a net :
  name_addr_map_ (vacated n a net) !! n = Some (default J1939_IDLE_ADDR (name_addr_map_ net !! n)).
Proof.
  assert (name_addr_map_ (registered n net) !! n =
    Some (default J1939_IDLE_ADDR (name_addr_map_ net !! n))) as Hreg.
  { simpl. rewrite lookup_try_emplace. by rewrite decide_True. }
  unfold vacated. destruct (addr_name_map_ net !! a) as [o|]; [|done].
  destruct (name_ne o n) eqn:Hne; [|done]. apply name_ne_spec in Hne.
  unfold set_idle, index. destruct (name_addr_map_ (registered n net) !! o);
    cbn [name_addr_map_ with_maps]; by rewrite !lookup_insert_ne by done.
Qed.

Lemma claim_exact a b n net :
  net_exact net -> unicast a -> (forall m, m <> n -> name_addr_map_ net !! m <> Some a) ->
  not_moving n a net -> net_exact (fst (claim a b n net)).
Proof.
  intros [Hok Hst] Ha Hfree Hmv. split; [by apply claim_ok|].
  intros m c Hm. simpl in *. rewrite lookup_insert in Hm. case_decide; simplify_eq.
  - by rewrite lookup_insert_eq.
  - pose proof (ok_rev_unicast _ Hok _ _ Hm) as Hc. apply Hst in Hm. net_goal; [|done].
    by destruct (Hmv c Hm Hc).
Qed.

Lemma insert_exact n a net :
  net_exact net -> is_uint 8 a -> (unicast a -> not_moving n a net) -> net_exact (inserted n a net).
Proof.
  intros Hex Ha Hmv. unfold inserted. destruct (decide (unicast a)) as [Hu|Hu].
  - rewrite insert_unicast by done. destruct (refused n a net); simpl.
    + by apply registered_exact.
    + destruct (vacated_ok n a net (proj1 Hex) Hu). apply (claim_exact a true); try done.
      * by apply vacated_exact.
      * intros b Hb Hub. rewrite vacated_self in Hb. apply (Hmv Hu); [|done].
        destruct (name_addr_map_ net !! n); simplify_eq/=; [done|]. by destruct not_unicast_idle.
  - rewrite insert_not_unicast by done. destruct (name_addr_map_ net !! n) as [b|] eqn:Hn; simpl.
    + destruct (a =? J1939_IDLE_ADDR); simpl; [|done]. apply set_idle_exact; [done|by eexists].
    + by apply registered_exact.
Qed.

Lemma release_exact n net : net_exact net -> net_exact (release n net).
Proof.
  intros Hex. rewrite release_set_idle. destruct (name_addr_map_ net !! n) eqn:Hn; [|done].
  apply set_idle_exact; [done|by eexists].
Qed.

Lemma remove_exact n net : net_exact net -> net_exact (remove n net).
Proof.
  intros [Hok Hst]. split; [by apply remove_ok|]. rewrite remove_maps.
  destruct (name_addr_map_ net !! n) as [a|] eqn:Hn; [|done].
  intros m b Hm. simpl in *. net_cases. apply Hst in Hm. net_goal; congruence.
Qed.

(** ** Sequences of operations *)

Definition run_ops (ops : list op) (net : network) : network :=
  foldl (fun net o => run_op o net) net ops.

(** No NAME takes a second address before it gave back the first one. *)
Fixpoint disciplined (ops : list op) (net : network) : Prop :=
  match ops with
  | [] => True
  | o :: ops =>
      op_ok o /\
      (match o with OpInsert n a => unicast a -> not_moving n a net | _ => True end) /\
      disciplined ops (run_op o net)
  end.

Lemma run_ops_exact ops net : net_exact net -> disciplined ops net -> net_exact (run_ops ops net).
Proof.
  revert net. induction ops as [|o ops IH]; simpl; [done|].
  intros net Hex (Ho & Hm & Hd). apply IH; [|done].
  destruct o; simpl in *; auto using insert_exact, release_exact, remove_exact, empty_exact.
Qed.

(** After any sequence of [insert], [release] and [clear], in any order and
    with any arguments: every used address is a unicast address (0..253), the
    address of a NAME points back at that NAME, and a NAME in the reverse map
    is registered. *)
Theorem table_invariant ops s :
  Forall op_ok ops -> (forall n, OpRemove n ∉ ops) -> net_ok (run_ops ops (network_init s)).
Proof.
  assert (Hinit : net_ok (network_init s)) by apply (empty_ok (network_init s)).
  revert Hinit. generalize (network_init s) as net.
  induction ops as [|o ops IH]; intros net Hok Ho Hr; [done|]. simpl.
  apply Forall_cons_iff in Ho as [Ho Hops].
  apply IH; [|done|intros n Hn; by apply (Hr n), list_elem_of_further].
  destruct o as [n a|n|n|]; simpl.
  - by apply insert_ok.
  - by apply release_ok.
  - destruct (Hr n). apply list_elem_of_here.
  - apply empty_ok.
Qed.

(** As long as a NAME gives back its address before it takes another one,
    the two maps stay exact inverses of each other under all four operations:
    an address is in use if and only if some NAME holds it. *)
Theorem table_exact_when_disciplined ops s a n :
  disciplined ops (network_init s) ->
  let net := run_ops ops (network_init s) in
  get_name a net = Some n <-> unicast a /\ get_address n net = a.
Proof.
  intros Hd net. assert (Hex : net_exact net).
  { apply run_ops_exact; [apply (empty_exact (network_init s))|done]. }
  destruct Hex as [Hok Hst]. unfold get_name, get_address. split.
  - intros Ha. split; [by eapply ok_rev_unicast|]. by rewrite (Hst n a Ha).
  - intros [Ha Hn]. destruct (name_addr_map_ net !! n) as [b|] eqn:E.
    + subst b. by apply (ok_fwd_rev net Hok).
    + subst a. addr_lia.
Qed.
