(* ===== verification/NetworkSpec.v ===== *)
(** * What [insert] does, and the abstract table it implements

    The functional behaviour of every branch of [insert]; an abstract address
    table (a finite map from NAMEs to an optional address, with eviction) that
    the two maps refine as long as NAMEs do not move; and what happens to the
    maps when a NAME does move. *)

From Stdlib Require Import String.
From stdpp Require Import gmap.
From S2P Require Import Prelude J1939Type Name NameFacts Network NetworkFacts.

(** ** The abstract table *)
Section Abstract.

(** Every registered NAME with its address, if it has one. *)
Definition abs (net : network) : gmap name (option Z) :=
  (fun a => if decide (unicast a) then Some a else None) <$> name_addr_map_ net.

(** Whoever holds [a] loses it. *)
Definition evict (a : Z) (t : gmap name (option Z)) : gmap name (option Z) :=
  (fun v => if decide (v = Some a) then None else v) <$> t.

Definition register (n : name) (t : gmap name (option Z)) : gmap name (option Z) :=
  match t !! n with Some _ => t | None => <[n := None]> t end.

(** The contract of [insert]: the result and the next table. *)
Inductive spec_insert (n : name) (a : Z) (t : gmap name (option Z)) :
    bool -> gmap name (option Z) -> Prop :=
| spec_accept :
    unicast a -> (forall o, t !! o = Some (Some a) -> name_gt n o = false) ->
    spec_insert n a t true (<[n := Some a]> (evict a t))
| spec_refuse o :
    unicast a -> t !! o = Some (Some a) -> name_gt n o = true ->
    spec_insert n a t false (register n t)
| spec_new :
    ~ unicast a -> t !! n = None -> spec_insert n a t true (<[n := None]> t)
| spec_give_up v :
    a = J1939_IDLE_ADDR -> t !! n = Some v -> spec_insert n a t true (<[n := None]> t)
| spec_ignore v :
    ~ unicast a -> a <> J1939_IDLE_ADDR -> t !! n = Some v -> spec_insert n a t false t.

(** One operation on the abstract table. *)
Inductive spec_step : op -> gmap name (option Z) -> gmap name (option Z) -> Prop :=
| step_insert n a t r t' : spec_insert n a t r t' -> spec_step (OpInsert n a) t t'
| step_release n t v : t !! n = Some v -> spec_step (OpRelease n) t (<[n := None]> t)
| step_release_unknown n t : t !! n = None -> spec_step (OpRelease n) t t
| step_remove n t : spec_step (OpRemove n) t (delete n t)
| step_clear t : spec_step OpClear t ∅.

Inductive spec_steps : list op -> gmap name (option Z) -> gmap name (option Z) -> Prop :=
| steps_nil t : spec_steps [] t t
| steps_cons o ops t t' t'' :
    spec_step o t t' -> spec_steps ops t' t'' -> spec_steps (o :: ops) t t''.

End Abstract.

(** ** Lookups after an accepted [insert] *)

(** The address of another NAME in the vacated table. *)
Lemma lookup_vacated_other n a net m :
  m <> n ->
  name_addr_map_ (vacated n a net) !! m =
    if decide (addr_name_map_ net !! a = Some m) then Some J1939_IDLE_ADDR
    else name_addr_map_ net !! m.
Proof.
  intros Hm.
  assert (Hreg : name_addr_map_ (registered n net) !! m = name_addr_map_ net !! m).
  { simpl. rewrite lookup_try_emplace. by rewrite decide_False. }
  unfold vacated. destruct (addr_name_map_ net !! a) as [o|]; [|by rewrite decide_False].
  destruct (name_ne o n) eqn:Hne.
  - unfold set_idle, index. destruct (name_addr_map_ (registered n net) !! o) eqn:Ho;
      cbn [name_addr_map_ with_maps]; rewrite !lookup_insert; repeat case_decide; congruence.
  - apply name_ne_false in Hne. subst o. rewrite decide_False by congruence. done.
Qed.

(** What [insert] does with a unicast address.  It refuses exactly when the
    address is occupied by a NAME with higher priority; then no address changes
    hands.  Otherwise the NAME gets the address, the previous occupant becomes
    idle, no other NAME loses or changes its address, and the callback runs
    once, if installed, exactly when the NAME is new or its address changed. *)
Theorem insert_unicast_behaviour n a net :
  unicast a ->
  let '(r, net', calls) := insert n a net in
  r = negb (match get_name a net with Some o => name_gt n o | None => false end) /\
  (r = true ->
     get_address n net' = a /\ get_name a net' = Some n /\
     (forall m, m <> n -> get_address m net' =
        if decide (get_name a net = Some m) then J1939_IDLE_ADDR else get_address m net) /\
     calls = if on_new_name_ net && negb (match_ n a net) then [(n, a)] else []) /\
  (r = false ->
     (forall b, get_name b net' = get_name b net) /\
     (forall m, m <> n -> get_address m net' = get_address m net) /\
     get_address n net' = (if in_network n net then get_address n net else J1939_IDLE_ADDR) /\
     calls = []).
Proof.
  intros Ha. rewrite insert_unicast by done. fold (refused n a net).
  change (match get_name a net with Some o => name_gt n o | None => false end) with (refused n a net).
  destruct (refused n a net); simpl; (split; [done|]); (split; [|]); try done; intros _.
  - split_and!; try done.
    + intros m Hm. unfold get_address; simpl. rewrite lookup_try_emplace. by rewrite decide_False.
    + unfold get_address, in_network; simpl. rewrite lookup_try_emplace, decide_True by done.
      by destruct (name_addr_map_ net !! n).
  - split_and!.
    + unfold get_address; simpl. by rewrite lookup_insert_eq.
    + unfold get_name; simpl. by rewrite lookup_insert_eq.
    + intros m Hm. unfold get_address, get_name; simpl.
      rewrite lookup_insert_ne, lookup_vacated_other by done. by case_decide.
    + unfold changes, match_. rewrite andb_comm. f_equal.
      by destruct (name_addr_map_ net !! n).
Qed.

(** What [insert] does with the addresses 254 and 255: an unknown NAME is
    registered without address (result [true]); for a known NAME, 254 releases
    its address (result [true]) and 255 changes nothing (result [false]); the
    callback never runs. *)
Theorem insert_special_behaviour n a net :
  a = J1939_IDLE_ADDR \/ a = J1939_NO_ADDR ->
  insert n a net =
    match name_addr_map_ net !! n with
    | None => (true, with_maps net (<[n := J1939_IDLE_ADDR]> (name_addr_map_ net))
                 (addr_name_map_ net), [])
    | Some _ => if a =? J1939_IDLE_ADDR then (true, release n net, []) else (false, net, [])
    end.
Proof.
  intros Ha. assert (is_uint 8 a /\ ~ unicast a) as [? ?] by (destruct Ha; subst; addr_lia).
  rewrite insert_not_unicast, release_set_idle by done. unfold registered, try_emplace.
  by destruct (name_addr_map_ net !! n).
Qed.

(** ** Refinement *)

Lemma lookup_abs net m :
  abs net !! m = (fun a => if decide (unicast a) then Some a else None) <$> name_addr_map_ net !! m.
Proof. unfold abs. by rewrite lookup_fmap. Qed.

Lemma abs_holder net m a :
  unicast a -> abs net !! m = Some (Some a) <-> name_addr_map_ net !! m = Some a.
Proof.
  intros Ha. rewrite lookup_abs. destruct (name_addr_map_ net !! m) as [b|]; simpl; [|done].
  case_decide; split; intros; simplify_eq; done.
Qed.

Lemma abs_registered n net : abs (registered n net) = register n (abs net).
Proof.
  apply map_eq. intros m. unfold register. rewrite !lookup_abs. simpl.
  rewrite lookup_try_emplace. destruct (name_addr_map_ net !! n) as [a|] eqn:Hn; simpl.
  - case_decide; rewrite lookup_abs; [by subst; rewrite Hn|done].
  - rewrite lookup_insert. repeat case_decide; simplify_eq/=; try done. by rewrite lookup_abs.
Qed.

Lemma abs_set_idle n net : abs (set_idle n net) = <[n := None]> (abs net).
Proof.
  apply map_eq. intros m. rewrite lookup_abs. unfold set_idle, index.
  destruct (name_addr_map_ net !! n) as [a|]; cbn [name_addr_map_ with_maps];
    rewrite !lookup_insert; repeat case_decide; simplify_eq/=; try done;
    by rewrite lookup_abs.
Qed.

(** A table in which the reverse map is right about [a]: its occupant is the
    NAME that holds [a]. *)
Lemma abs_claim n a net :
  net_ok net -> (forall o, addr_name_map_ net !! a = Some o -> no_stale o net) -> unicast a ->
  abs (fst (claim a true n (vacated n a net))) = <[n := Some a]> (evict a (abs net)).
Proof.
  intros Hok Hst Ha. apply map_eq. intros m. rewrite lookup_abs. simpl.
  destruct (decide (m = n)) as [->|Hm].
  - rewrite !lookup_insert_eq. simpl. by rewrite decide_True.
  - rewrite !lookup_insert_ne, lookup_vacated_other by done. unfold evict.
    rewrite lookup_fmap, lookup_abs. case_decide as Ho; simpl.
    + rewrite (Hst m Ho a Ho). simpl. rewrite (decide_True (P := unicast a)) by done.
      by rewrite decide_True.
    + destruct (name_addr_map_ net !! m) as [b|] eqn:Hb; simpl; [|done].
      f_equal. case_decide; [|by case_decide]. rewrite decide_False; [done|].
      intros [= ->]. by apply (ok_fwd_rev net Hok) in Hb.
Qed.

Lemma insert_refines n a net :
  net_exact net -> is_uint 8 a ->
  spec_insert n a (abs net) (fst (fst (insert n a net))) (abs (inserted n a net)).
Proof.
  intros [Hok Hst] Hr. unfold inserted. destruct (decide (unicast a)) as [Ha|Ha].
  - rewrite insert_unicast by done. unfold refused.
    destruct (addr_name_map_ net !! a) as [o|] eqn:Ho.
    + assert (abs net !! o = Some (Some a)) as Habs by (apply abs_holder; [done|by apply Hst]).
      destruct (name_gt n o) eqn:Hg; cbn [fst snd].
      * rewrite abs_registered. by eapply spec_refuse.
      * rewrite (abs_claim n a net); [|done..]. apply spec_accept; [done|]. intros m Hm.
        apply abs_holder in Hm; [|done]. apply (ok_fwd_rev net Hok) in Hm; [|done]. congruence.
    + cbn [fst snd]. rewrite (abs_claim n a net); [|done|by rewrite Ho|done]. apply spec_accept; [done|]. intros m Hm.
      apply abs_holder in Hm; [|done]. apply (ok_fwd_rev net Hok) in Hm; [|done]. congruence.
  - rewrite insert_not_unicast by done.
    destruct (name_addr_map_ net !! n) as [b|] eqn:Hn.
    + assert (exists v, abs net !! n = Some v) as [v Hv] by (rewrite lookup_abs, Hn; by eexists).
      destruct (Z.eqb_spec a J1939_IDLE_ADDR); simpl.
      * rewrite abs_set_idle. by eapply spec_give_up.
      * by eapply spec_ignore.
    + assert (abs net !! n = None) as Hv by (by rewrite lookup_abs, Hn). simpl.
      rewrite abs_registered. unfold register. rewrite Hv. by apply spec_new.
Qed.

Lemma run_op_refines o net :
  net_exact net -> op_ok o -> spec_step o (abs net) (abs (run_op o net)).
Proof.
  intros Hex Ho. destruct o as [n a|n|n|]; simpl.
  - eapply step_insert. by apply insert_refines.
  - rewrite release_set_idle. destruct (name_addr_map_ net !! n) as [a|] eqn:Hn.
    + rewrite abs_set_idle. eapply step_release. by rewrite lookup_abs, Hn.
    + apply step_release_unknown. by rewrite lookup_abs, Hn.
  - assert (abs (remove n net) = delete n (abs net)) as ->; [|apply step_remove].
    rewrite remove_maps. destruct (name_addr_map_ net !! n) as [a|] eqn:Hn.
    + unfold abs. simpl. by rewrite fmap_delete.
    + rewrite delete_id; [done|]. by rewrite lookup_abs, Hn.
  - assert (abs (clear net) = ∅) as ->; [|apply step_clear]. unfold abs. simpl. by rewrite fmap_empty.
Qed.

(** C9.  The two maps implement the abstract address table: every sequence of
    operations in which no NAME takes a second address while it holds one is
    simulated, step by step, by the abstract table, in which a claim evicts
    the holder of the address and nobody else. *)
Theorem network_refines_address_table ops s :
  disciplined ops (network_init s) -> spec_steps ops ∅ (abs (run_ops ops (network_init s))).
Proof.
  assert (Hinit : abs (network_init s) = ∅) by apply fmap_empty.
  assert (Hex : net_exact (network_init s)) by apply (empty_exact (network_init s)).
  rewrite <- Hinit. clear Hinit. revert Hex. generalize (network_init s) as net.
  induction ops as [|o ops IH]; intros net Hex; simpl; [constructor|].
  intros (Ho & Hm & Hd). eapply steps_cons; [by apply run_op_refines|].
  apply IH; [|done]. by apply (run_ops_exact [o] net).
Qed.

(** C39.  A registered NAME that takes a new address without giving back the old
    one stays in the reverse map under the old address: both addresses count
    as used, [get_name] answers for both, and the old address is not available
    although nobody holds it. *)
Theorem moving_name_leaves_old_address_taken n b a net :
  net_exact net -> name_addr_map_ net !! n = Some b -> unicast b -> unicast a -> a <> b ->
  get_name a net = None ->
  let net' := inserted n a net in
  get_address n net' = a /\ get_name a net' = Some n /\ get_name b net' = Some n /\
  available b net' = false /\ (forall m, get_address m net' <> b) /\
  address_count net' = address_count net + 1.
Proof.
  intros [Hok Hst] Hn Hb Ha Hab Hfree net'. unfold get_name in Hfree.
  pose proof (ok_fwd_rev net Hok n b Hn Hb) as Hr.
  assert (Hi : net' = fst (claim a true n (registered n net))).
  { unfold net', inserted. rewrite insert_unicast by done. unfold refused, vacated.
    by rewrite Hfree. }
  assert (Hrb : addr_name_map_ net' !! b = Some n).
  { rewrite Hi. simpl. by rewrite lookup_insert_ne. }
  rewrite Hi in *. split_and!; unfold get_address, get_name, available; simpl in *.
  - by rewrite lookup_insert_eq.
  - by rewrite lookup_insert_eq.
  - done.
  - rewrite Hrb. by destruct (_ <? _).
  - intros m. destruct (decide (m = n)) as [->|Hm].
    + by rewrite lookup_insert_eq.
    + rewrite lookup_insert_ne, lookup_try_emplace, decide_False by done.
      destruct (name_addr_map_ net !! m) as [c|] eqn:Hc; [|addr_lia].
      intros ->. pose proof (ok_fwd_rev net Hok m b Hc Hb). congruence.
  - unfold address_count. simpl. rewrite map_size_insert_None by done. lia.
Qed.

(** The reverse map after an accepted claim of an address occupied by another
    NAME: the address recorded for the occupant is erased, whichever it is. *)
Lemma lookup_rev_evicting m n b net c :
  unicast b -> get_name b net = Some n -> m <> n -> name_gt m n = false -> c <> b ->
  addr_name_map_ (inserted m b net) !! c =
    if decide (c = default 0 (name_addr_map_ net !! n)) then None else addr_name_map_ net !! c.
Proof.
  unfold get_name. intros Hb Hn Hmn Hg Hc. unfold inserted. rewrite insert_unicast by done.
  unfold refused, vacated. rewrite Hn, Hg.
  rewrite (proj2 (name_ne_spec n m)) by done. cbn [fst snd claim addr_name_map_ with_maps].
  rewrite lookup_insert_ne by done.
  assert (name_addr_map_ (registered m net) !! n = name_addr_map_ net !! n) as Hreg.
  { simpl. rewrite lookup_try_emplace. by rewrite decide_False. }
  unfold set_idle, index. rewrite Hreg.
  destruct (name_addr_map_ net !! n); simpl; rewrite lookup_delete; repeat case_decide; congruence.
Qed.

(** The stale entry that a move leaves behind (address [b], while the NAME
    [n] now holds [a]) makes a later claim of [b] by another NAME take away
    [a] from [n]: [n] becomes idle and [a] becomes free, although nobody
    claimed [a]. *)
Theorem stale_entry_evicts_from_new_address n a b m net :
  get_name b net = Some n -> get_address n net = a -> get_name a net = Some n ->
  unicast a -> unicast b -> a <> b -> m <> n -> name_gt m n = false ->
  let net' := inserted m b net in
  get_address m net' = b /\ get_address n net' = J1939_IDLE_ADDR /\ get_name a net' = None.
Proof.
  intros Hb Hn Hra Ha Hub Hab Hmn Hg net'.
  assert (Hfwd : name_addr_map_ net !! n = Some a).
  { unfold get_address in Hn. destruct (name_addr_map_ net !! n); [by subst|]. addr_lia. }
  split_and!.
  - unfold net', inserted, get_address. rewrite insert_unicast by done. unfold refused.
    unfold get_name in Hb. rewrite Hb, Hg. simpl. by rewrite lookup_insert_eq.
  - unfold net', inserted, get_address. rewrite insert_unicast by done. unfold refused.
    unfold get_name in Hb. rewrite Hb, Hg. cbn [fst snd claim name_addr_map_ with_maps].
    rewrite lookup_insert_ne, lookup_vacated_other by done. by rewrite decide_True.
  - unfold get_name at 1, net'. rewrite (lookup_rev_evicting m n b) by done.
    rewrite Hfwd. by rewrite decide_True.
Qed.

(** If the NAME behind a stale entry has been removed, [set_idle] creates it
    again with the value-initialised address 0 and erases address 0 from the
    reverse map: whoever holds address 0 is no longer found there. *)
Theorem removed_stale_name_frees_address_zero n b m z net :
  get_name b net = Some n -> in_network n net = false -> unicast b -> b <> 0 ->
  m <> n -> name_gt m n = false -> get_address z net = 0 -> z <> m -> z <> n ->
  let net' := inserted m b net in
  get_address z net' = 0 /\ get_name 0 net' = None /\ available 0 net' = true.
Proof.
  intros Hb Hin Hub Hb0 Hmn Hg Hz Hzm Hzn net'.
  assert (Hfwd : name_addr_map_ net !! n = None).
  { unfold in_network in Hin. by destruct (name_addr_map_ net !! n). }
  assert (Hr : get_name 0 net' = None).
  { unfold get_name at 1, net'. rewrite (lookup_rev_evicting m n b) by done.
    rewrite Hfwd. by rewrite decide_True. }
  split_and!; [|done|unfold available; unfold get_name in Hr; by rewrite Hr].
  unfold net', inserted, get_address. rewrite insert_unicast by done. unfold refused.
  unfold get_name in Hb. rewrite Hb, Hg. cbn [fst snd claim name_addr_map_ with_maps].
  rewrite lookup_insert_ne, lookup_vacated_other by done.
  rewrite decide_False by congruence. exact Hz.
Qed.

(** ** Witnesses *)

(** NAMEs with priorities 1 (highest) to 3. *)
Definition n1 : name := Name 0x100.
Definition n2 : name := Name 0x200.
Definition n3 : name := Name 0x300.

Definition example_ops : list op :=
  [OpInsert n2 10; OpInsert n3 20; OpRelease n2; OpInsert n2 30; OpInsert n1 20; OpRemove n3].

(** Evaluates [not_moving] on a concrete table. *)
Ltac eval_not_moving :=
  intros _ b Hb Hub; vm_compute in Hb; first [discriminate Hb | injection Hb as <-; addr_lia].

Lemma example_ops_disciplined : disciplined example_ops (network_init "can0").
Proof. cbn [disciplined example_ops]. split_and!; try done; eval_not_moving. Qed.

Lemma table_invariant_witness :
  net_ok (run_ops [OpInsert n2 10; OpInsert n2 20; OpRelease n2; OpInsert n1 10; OpClear]
    (network_init "can0")).
Proof.
  apply table_invariant.
  - repeat constructor; by vm_compute.
  - intros n. rewrite list_elem_of_In. by intros [|[|[|[|[|[]]]]]].
Defined.

Lemma table_exact_when_disciplined_witness :
  let net := run_ops example_ops (network_init "can0") in
  get_name 20 net = Some n1 <-> unicast 20 /\ get_address n1 net = 20.
Proof. exact (table_exact_when_disciplined example_ops "can0" 20 n1 example_ops_disciplined). Defined.

Lemma insert_unicast_behaviour_witness :
  let net := inserted n2 10 (network_init_callback "can0") in
  insert n1 10 net = (true, inserted n1 10 net, [(n1, 10)]) /\
  get_address n2 (inserted n1 10 net) = J1939_IDLE_ADDR.
Proof.
  pose proof (insert_unicast_behaviour n1 10 (inserted n2 10 (network_init_callback "can0"))) as Hb.
  destruct Hb as (_ & Hacc & _); [by vm_compute|].
  destruct Hacc as (_ & _ & _ & _); [done|]. split; by vm_compute.
Defined.

Lemma insert_special_behaviour_witness :
  insert n2 J1939_NO_ADDR (inserted n2 10 (network_init "can0")) =
    (false, inserted n2 10 (network_init "can0"), []).
Proof.
  exact (insert_special_behaviour n2 J1939_NO_ADDR (inserted n2 10 (network_init "can0"))
    (or_intror eq_refl)).
Defined.

Lemma network_refines_address_table_witness :
  spec_steps example_ops ∅ (abs (run_ops example_ops (network_init "can0"))).
Proof. exact (network_refines_address_table example_ops "can0" example_ops_disciplined). Defined.

Lemma moving_name_leaves_old_address_taken_witness :
  let net := run_ops [OpInsert n2 10; OpInsert n2 20] (network_init "can0") in
  get_address n2 net = 20 /\ get_name 10 net = Some n2 /\ available 10 net = false.
Proof.
  assert (Hex : net_exact (inserted n2 10 (network_init "can0"))).
  2: { destruct (moving_name_leaves_old_address_taken n2 10 20 _ Hex)
         as (H1 & _ & H3 & H4 & _); [by vm_compute..|]. by split_and!. }
  apply (run_ops_exact [OpInsert n2 10] (network_init "can0")); [apply (empty_exact (network_init "can0"))|].
  cbn [disciplined]. split_and!; try done.
Defined.

Lemma stale_entry_evicts_from_new_address_witness :
  let net := run_ops [OpInsert n2 10; OpInsert n2 20; OpInsert n1 10] (network_init "can0") in
  get_address n1 net = 10 /\ get_address n2 net = J1939_IDLE_ADDR /\ get_name 20 net = None.
Proof.
  apply (stale_entry_evicts_from_new_address n2 20 10 n1
    (run_ops [OpInsert n2 10; OpInsert n2 20] (network_init "can0"))); by vm_compute.
Defined.

Lemma removed_stale_name_frees_address_zero_witness :
  let net := run_ops [OpInsert n2 10; OpInsert n2 20; OpRemove n2; OpInsert n3 0; OpInsert n1 10]
    (network_init "can0") in
  get_address n3 net = 0 /\ get_name 0 net = None /\ available 0 net = true.
Proof.
  apply (removed_stale_name_frees_address_zero n2 10 n1 n3
    (run_ops [OpInsert n2 10; OpInsert n2 20; OpRemove n2; OpInsert n3 0] (network_init "can0")));
    by vm_compute.
Defined.
