(* ===== verification/NetworkSearch.v ===== *)
(** * The address search of the network

    [find_address] and the loop of [search], iteration by iteration: the loop ends
    and returns the first usable address of its range; for a
    self-configuring NAME the search wraps around once and fails only when no
    address is usable; [full] means that all 254 addresses are used. *)

From Stdlib Require Import String.
From stdpp Require Import gmap list_numbers.
From S2P Require Import Prelude J1939Type Name NameFacts Network NetworkFacts NetworkSpec.

(** The condition of the loop: the address is free or held by the NAME itself. *)
Definition usable (n : name) (a : Z) (net : network) : bool :=
  match addr_name_map_ net !! a with None => true | Some o => name_eq o n end.

(** [r] is the first usable address of [[s, e)], or 255 if there is none. *)
Definition first_usable (n : name) (s e : Z) (net : network) (r : Z) : Prop :=
  (r = J1939_NO_ADDR /\ forall a, s <= a < e -> usable n a net = false) \/
  (s <= r < e /\ usable n r net = true /\ forall a, s <= a < r -> usable n a net = false).

(** The loop from address [a] on, iteration by iteration: it executes its body [k]
    times and then [search] returns [r]. *)
Inductive iterations (n : name) (e : Z) (net : network) : Z -> nat -> Z -> Prop :=
| loop_ends a : e <= a -> iterations n e net a 0 J1939_NO_ADDR
| loop_returns a : a < e -> usable n a net = true -> iterations n e net a 1 a
| loop_goes_on a k r : a < e -> usable n a net = false ->
    iterations n e net (u8 (a + 1)) k r -> iterations n e net a (S k) r.

(** [search] makes at most one iteration for each address of its range. *)
Lemma search_iterations n s e net : 0 <= s -> 0 <= e <= 255 ->
  exists k, iterations n e net s k (search n s e net) /\ Z.of_nat k <= Z.max 0 (e - s).
Proof.
  intros Hs He. assert (Hu8 : u8 e = e) by (apply wrap_small; unfold is_uint; lia). unfold search. revert Hs.
  induction s as [s IH] using (counter_ind e). intros Hs. rewrite search_loop_step. rewrite Hu8 in *.
  destruct (Z.ltb_spec s e) as [Hlt|Hge]; [|exists 0%nat; split; [by constructor|lia]].
  destruct (usable n s net) eqn:Hu; pose proof Hu as Hu'; unfold usable in Hu'.
  - exists 1%nat. split; [|lia]. destruct (addr_name_map_ net !! s); [rewrite Hu'|]; by constructor.
  - destruct (addr_name_map_ net !! s); [|done]. rewrite Hu'.
    assert (Hn : u8 (s + 1) = s + 1) by (apply wrap_small; unfold is_uint; lia).
    destruct IH as (k & Hk & Hle); [done|lia|]. exists (S k). split; [by apply loop_goes_on|lia].
Qed.

Lemma iterations_first n e net s k r : 0 <= s -> e <= 255 -> iterations n e net s k r -> first_usable n s e net r.
Proof.
  intros Hs He. induction 1 as [a Ha|a Ha Hu|a k r Ha Hu Hk IH].
  - left. split; [done|]. intros b Hb. lia.
  - right. split_and!; [lia..|done|]. intros b Hb. lia.
  - rewrite (wrap_small 8) in IH by (unfold is_uint; lia).
    assert (Hskip : forall b c, (a + 1 <= b < c -> usable n b net = false) -> a <= b < c -> usable n b net = false).
    { intros b c Hb Hbc. destruct (decide (b = a)) as [->|]; [done|]. apply Hb. lia. }
    destruct IH as [[-> Hn]|(Hr & Hur & Hn)]; [lia|left|right].
    + split; [done|]. intros b. apply Hskip. auto.
    + split_and!; [lia..|done|]. intros b. apply Hskip. auto.
Qed.

Lemma search_first n s e net :
  0 <= s -> 0 <= e <= 255 -> first_usable n s e net (search n s e net).
Proof. intros Hs He. destruct (search_iterations n s e net Hs He) as (k & Hk & _). eapply iterations_first; [..|exact Hk]; lia. Qed.

Lemma clamp_unicast a : unicast a -> clamp a 0 J1939_MAX_UNICAST_ADDR = a.
Proof. intros Ha. unfold clamp. bool_cases; addr_lia. Qed.

(** [r] is the first usable address in cyclic order from [p]. *)
Definition cyclic_first (n : name) (p : Z) (net : network) (r : Z) : Prop :=
  unicast r /\ usable n r net = true /\
  ((p <= r /\ forall a, p <= a < r -> usable n a net = false) \/
   (r < p /\ (forall a, p <= a -> unicast a -> usable n a net = false) /\
             (forall a, 0 <= a < r -> usable n a net = false))).

Lemma find_address_cases n pref net :
  self_config_address n <> 0 ->
  (find_address n pref net = J1939_NO_ADDR /\ forall a, unicast a -> usable n a net = false) \/
  cyclic_first n (clamp pref 0 J1939_MAX_UNICAST_ADDR) net (find_address n pref net).
Proof.
  intros Hs. pose proof (clamp_spec pref 0 J1939_MAX_UNICAST_ADDR) as Hc.
  unfold find_address. rewrite (proj2 (Z.eqb_neq _ _) Hs).
  set (p := clamp pref 0 J1939_MAX_UNICAST_ADDR) in *.
  destruct (search_first n p J1939_IDLE_ADDR net) as [[Hn1 Hf1]|(Hb1 & Hu1 & Hf1)]; [addr_lia..| |].
  - rewrite Hn1, Z.eqb_refl.
    assert (Hp : forall a, p <= a -> unicast a -> usable n a net = false).
    { intros a Ha Hu. apply Hf1. addr_lia. }
    destruct (search_first n 0 p net) as [[Hn2 Hf2]|(Hb2 & Hu2 & Hf2)]; [addr_lia..| |].
    + left. split; [done|]. intros a Ha.
      destruct (decide (p <= a)); [by apply Hp|]. apply Hf2. addr_lia.
    + right. split_and!; [addr_lia..|done|]. right. split_and!; [lia|done|done].
  - rewrite (proj2 (Z.eqb_neq _ _)) by addr_lia.
    right. split_and!; [addr_lia..|done|]. left. split; [lia|done].
Qed.

(** C22.  For a self-configuring NAME, [find_address] returns the first address
    that is free or already held by the NAME, starting at the preferred
    address (clamped to 253) and wrapping around to 0; it returns 255 exactly
    when none of the 254 unicast addresses is usable.  Its two loops come to an
    end, after at most 254 iterations together. *)
Theorem find_address_self_config n pref net :
  self_config_address n <> 0 ->
  let p := clamp pref 0 J1939_MAX_UNICAST_ADDR in
  let r := find_address n pref net in
  (exists k k', iterations n J1939_IDLE_ADDR net p k (search n p J1939_IDLE_ADDR net) /\
     iterations n p net 0 k' (search n 0 p net) /\ (k + k' <= 254)%nat) /\
  (r = J1939_NO_ADDR <-> forall a, unicast a -> usable n a net = false) /\
  (r <> J1939_NO_ADDR -> cyclic_first n p net r).
Proof.
  intros Hs p r. pose proof (clamp_spec pref 0 J1939_MAX_UNICAST_ADDR) as Hc. fold p in Hc. split.
  { destruct (search_iterations n p J1939_IDLE_ADDR net) as (k & Hk & Hle); [addr_lia..|].
    destruct (search_iterations n 0 p net) as (k' & Hk' & Hle'); [addr_lia..|].
    exists k, k'. split_and!; [done..|addr_lia]. }
  destruct (find_address_cases n pref net Hs) as [[Hr Hno]|Hfirst].
  - by split.
  - split; [|done]. destruct Hfirst as (Hu & Hus & _). fold r in Hu, Hus. split.
    + intros Hr. rewrite Hr in Hu. addr_lia.
    + intros Hno. by rewrite Hno in Hus.
Qed.

(** ** A full network *)

Definition all_addresses : gset Z := list_to_set (seqZ 0 254).

Lemma elem_of_all_addresses a : a ∈ all_addresses <-> unicast a.
Proof. unfold all_addresses. rewrite elem_of_list_to_set, elem_of_seqZ. addr_lia. Qed.

Lemma size_all_addresses : size all_addresses = 254%nat.
Proof. unfold all_addresses. by rewrite size_list_to_set, length_seqZ by apply NoDup_seqZ. Qed.

Lemma rev_dom_unicast net : net_ok net -> dom (addr_name_map_ net) ⊆ all_addresses.
Proof.
  intros Hok a Ha. apply elem_of_dom in Ha as [n Hn]. apply elem_of_all_addresses.
  by eapply ok_rev_unicast.
Qed.

Lemma address_count_bound net : net_ok net -> address_count net <= 254.
Proof.
  intros Hok. pose proof (subseteq_size _ _ (rev_dom_unicast net Hok)) as Hs.
  rewrite size_dom, size_all_addresses in Hs. unfold address_count. lia.
Qed.

Lemma full_all_taken net : net_ok net ->
  full net = true <-> forall a, unicast a -> is_Some (addr_name_map_ net !! a).
Proof.
  intros Hok. pose proof (rev_dom_unicast net Hok) as Hsub.
  unfold full. rewrite Z.ltb_lt. unfold address_count. split.
  - intros Hs a Ha. apply elem_of_dom. apply elem_of_all_addresses in Ha.
    erewrite set_subseteq_size_eq; [done|done|].
    rewrite size_dom, size_all_addresses. addr_lia.
  - intros Hall. assert (dom (addr_name_map_ net) = all_addresses) as Hd.
    { apply set_eq. intros a. rewrite elem_of_dom, elem_of_all_addresses. split; [|apply Hall].
      intros [n Hn]. by eapply ok_rev_unicast. }
    rewrite <- size_dom, Hd, size_all_addresses. addr_lia.
Qed.

Lemma not_full_free net : net_ok net -> full net = false ->
  exists a, unicast a /\ addr_name_map_ net !! a = None.
Proof.
  intros Hok Hf.
  destruct (decide (set_Exists (fun a => addr_name_map_ net !! a = None) all_addresses))
    as [(a & Ha & Hn)|Hno].
  - exists a. split; [by apply elem_of_all_addresses|exact Hn].
  - assert (full net = true); [|congruence]. apply full_all_taken; [done|]. intros a Ha.
    destruct (addr_name_map_ net !! a) eqn:E; [by eexists|]. destruct Hno. exists a.
    by rewrite elem_of_all_addresses.
Qed.

(** A usable address is accepted by [insert]. *)
Lemma usable_not_refused n a net : usable n a net = true -> refused n a net = false.
Proof.
  unfold usable, refused. destruct (addr_name_map_ net !! a) as [o|]; [|done].
  unfold name_eq, name_gt. rewrite Z.eqb_eq. intros ->. apply Z.ltb_irrefl.
Qed.

(** [full] is true exactly when all 254 unicast addresses are used (the
    count never exceeds 254), and as long as it is false a self-configuring
    NAME finds an address, at which [insert] then succeeds. *)
Theorem not_full_then_claim_succeeds net n pref :
  net_ok net -> self_config_address n <> 0 ->
  address_count net <= 254 /\
  (full net = true <-> forall a, unicast a -> available a net = false) /\
  (full net = false ->
     unicast (find_address n pref net) /\
     let '(r, net', _) := insert n (find_address n pref net) net in
     r = true /\ get_address n net' = find_address n pref net).
Proof.
  intros Hok Hs. split_and!; [by apply address_count_bound| |].
  - rewrite full_all_taken by done. unfold available. split; intros Hall a Ha.
    + destruct (Hall a Ha) as [o ->]. by destruct (_ <? _).
    + specialize (Hall a Ha). rewrite (proj2 (unicast_ltb a (unicast_uint a Ha)) Ha) in Hall.
      destruct (addr_name_map_ net !! a); [by eexists|done].
  - intros Hf. destruct (not_full_free net Hok Hf) as (a & Ha & Hfree).
    destruct (find_address_cases n pref net Hs) as [[_ Hno]|(Hu & Hus & _)].
    + specialize (Hno a Ha). unfold usable in Hno. by rewrite Hfree in Hno.
    + split; [done|]. rewrite insert_unicast, usable_not_refused by done.
      split; [done|]. unfold get_address; simpl. by rewrite lookup_insert_eq.
Qed.

(** For a NAME that is not self-configuring, [find_address] compares NAMEs
    with the built-in [<=] on 64 bits, which sees the self-configuration bit:
    an address held by a self-configuring NAME of higher priority is returned
    as usable, although [claimable] denies it and [insert] refuses it. *)
Theorem find_address_ignores_priority_of_self_configuring n o p net :
  name_wf n -> name_wf o -> unicast p -> get_name p net = Some o ->
  self_config_address n = 0 -> self_config_address o = 1 -> name_lt o n = true ->
  find_address n p net = p /\ claimable p n net = false /\ fst (fst (insert n p net)) = false.
Proof.
  unfold get_name. intros Hn Ho Hp Hpo Hsn Hso Hlt.
  assert (Hle : name_le n o = true).
  { rewrite !(get_field_fget SelfConfigAddress) in *. simpl in *. rewrite !fget_div in * by lia.
    unfold name_le, to_name_t, name_wf, is_uint in *. apply Z.leb_le.
    Z.div_mod_to_equations. lia. }
  pose proof (clamp_unicast p Hp) as Hclamp.
  assert (Hltb := proj2 (unicast_ltb p (unicast_uint p Hp)) Hp). split_and!.
  - unfold find_address. rewrite Hsn, Hclamp, Hpo. simpl. by rewrite Hle.
  - unfold claimable. rewrite Hltb, Hpo. unfold name_gt, name_lt in *. bool_hyps. bool_cases; lia.
  - rewrite insert_unicast by done. unfold refused. rewrite Hpo, name_gt_lt. by rewrite Hlt.
Qed.

(** ** The theorems at concrete networks *)

(** A self-configuring NAME. *)
Definition n_sca : name := Name (2 ^ 63 + 0x150).

Lemma find_address_self_config_witness :
  let net := inserted n3 253 (inserted n2 252 (network_init "can0")) in
  cyclic_first n_sca (clamp 252 0 J1939_MAX_UNICAST_ADDR) net (find_address n_sca 252 net).
Proof.
  intros net. destruct (find_address_self_config n_sca 252 net) as (_ & _ & Hr); [by vm_compute|].
  apply Hr. by vm_compute.
Defined.

Lemma not_full_then_claim_succeeds_witness :
  let net := run_ops [OpInsert n2 10] (network_init "can0") in
  unicast (find_address n_sca 10 net).
Proof.
  intros net. assert (Hok : net_ok net).
  { apply (run_ops_exact [OpInsert n2 10] (network_init "can0"));
      [apply (empty_exact (network_init "can0"))|]. cbn [disciplined]. by split_and!. }
  destruct (not_full_then_claim_succeeds _ n_sca 10 Hok) as (_ & _ & Hf); [by vm_compute|].
  assert (Hfull : full net = false) by (by vm_compute). exact (proj1 (Hf Hfull)).
Defined.

Lemma find_address_ignores_priority_witness :
  let net := inserted n_sca 10 (network_init "can0") in
  find_address n2 10 net = 10 /\ claimable 10 n2 net = false /\ fst (fst (insert n2 10 net)) = false.
Proof.
  apply (find_address_ignores_priority_of_self_configuring n2 n_sca 10); by vm_compute.
Defined.
