(* ===== verification/NetworkLock.v ===== *)
(** * The lock of [jay::network] ([include/jay/network.hpp])

    The comment of [network] says that the class is thread safe.  Network.v has
    every operation as one step on the table; here the operations are the
    sequences of accesses to the two maps and to the callback that their bodies
    make, statement by statement, together with the lock each one holds:
    [std::scoped_lock] on [network_mtx_] for the writers, [std::shared_lock] for
    the queries, none for the early returns in front of the lock and for the
    [const] interface name.  Threads interleave at single accesses;
    [std::shared_mutex] is a state of its own.  NetworkLockFacts.v relates the
    interleavings to the operations of Network.v. *)

From Equations Require Import Equations.
From Stdlib Require Import String.
From stdpp Require Import gmap.
From S2P Require Import Prelude J1939Type Name Network.

(** ** Bodies of operations *)

(** One access to [name_addr_map_] ([fwd_*]), to [addr_name_map_] ([rev_*]) or to
    [on_new_name_].  [fwd_index] is [name_addr_map_[n]] as a value. *)
Inductive access : Type -> Type :=
| fwd_find (n : name) : access (option Z)
| fwd_index (n : name) : access Z
| fwd_store (n : name) (a : Z) : access unit
| fwd_try_emplace (n : name) (a : Z) : access unit
| fwd_erase (n : name) : access unit
| fwd_clear : access unit
| fwd_size : access Z
| fwd_iterate : access (list name)
| rev_find (a : Z) : access (option name)
| rev_store (a : Z) (n : name) : access unit
| rev_erase (a : Z) : access unit
| rev_clear : access unit
| rev_size : access Z
| callback_installed : access bool
| callback_call (n : name) (a : Z) : access unit
| callback_store (installed : bool) : access unit.

(** The accesses that change nothing; [operator[]] may insert its key. *)
Definition reads {X} (x : access X) : bool :=
  match x with
  | fwd_find _ | fwd_size | fwd_iterate | rev_find _ | rev_size | callback_installed => true
  | _ => false
  end.

(** A body: accesses one after the other, each continuation applied to the value
    of the access. *)
Inductive body (A : Type) : Type :=
| finish (a : A)
| doing {X : Type} (x : access X) (k : X -> body A).
Arguments finish {A} a.
Arguments doing {A X} x k.

#[export] Instance body_ret : MRet body := fun A => finish.
#[export] Instance body_bind : MBind body := fun A B f =>
  fix go (p : body A) : body B :=
    match p with finish a => f a | doing x k => doing x (fun v => go (k v)) end.

Definition once {X} (x : access X) : body X := doing x finish.

(** The lambdas of [insert]. *)
Definition set_idle_body (n : name) : body unit :=
  a ← once (fwd_index n);
  once (rev_erase a);;
  once (fwd_store n J1939_IDLE_ADDR).

Definition claim_body (address : Z) (notify : bool) (n : name) : body unit :=
  once (fwd_store n address);;
  once (rev_store address n);;
  if notify then
    installed ← once callback_installed;
    if installed : bool then once (callback_call n address) else mret tt
  else mret tt.

Definition insert_body (n : name) (address : Z) : body bool :=
  prev_it ← once (fwd_find n);
  let first_time := match prev_it with None => true | Some _ => false end in
  let prev_addr := default J1939_IDLE_ADDR prev_it in
  if J1939_MAX_UNICAST_ADDR <? address then
    if first_time then once (fwd_store n J1939_IDLE_ADDR);; mret true
    else if address =? J1939_IDLE_ADDR then set_idle_body n;; mret true
    else mret false
  else
    let notify := first_time || negb (prev_addr =? address) in
    addr_it ← once (rev_find address);
    if match addr_it with Some conflict => name_gt n conflict | None => false end then
      once (fwd_try_emplace n J1939_IDLE_ADDR);; mret false
    else
      once (fwd_try_emplace n J1939_IDLE_ADDR);;
      match addr_it with
      | Some conflict => if name_ne conflict n then set_idle_body conflict else mret tt
      | None => mret tt
      end;;
      claim_body address notify n;;
      mret true.

Definition release_body (n : name) : body unit :=
  it ← once (fwd_find n);
  match it with
  | None => mret tt
  | Some _ =>
      address ← once (fwd_index n);
      once (fwd_store n J1939_IDLE_ADDR);;
      it ← once (rev_find address);
      match it with None => mret tt | Some _ => once (rev_erase address) end
  end.

Definition remove_body (n : name) : body unit :=
  it ← once (fwd_find n);
  match it with
  | None => mret tt
  | Some _ =>
      address ← once (fwd_index n);
      once (fwd_erase n);;
      it ← once (rev_find address);
      match it with None => mret tt | Some _ => once (rev_erase address) end
  end.

Definition clear_body : body unit := once fwd_clear;; once rev_clear.

Definition get_name_set_body : body (list name) :=
  names ← once fwd_iterate; mret (get_name_set names).

Definition available_body (address : Z) : body bool :=
  it ← once (rev_find address);
  mret (match it with None => true | Some _ => false end).

Definition claimable_body (address : Z) (n : name) : body bool :=
  it ← once (rev_find address);
  mret (match it with Some occupant => name_gt occupant n | None => true end).

Definition in_network_body (n : name) : body bool :=
  it ← once (fwd_find n);
  mret (match it with Some _ => true | None => false end).

Definition match_body (n : name) (address : Z) : body bool :=
  it ← once (fwd_find n);
  mret (match it with Some a => a =? address | None => false end).

Definition get_address_body (n : name) : body Z :=
  it ← once (fwd_find n);
  mret (match it with Some a => a | None => J1939_NO_ADDR end).

Definition full_body : body bool :=
  size ← once rev_size; mret (J1939_MAX_UNICAST_ADDR <? size).

(** The loop of [search]. *)
Equations search_loop_body (n : name) (address end_address : Z) : body Z
  by wf (Z.to_nat (u8 end_address - address)) lt :=
search_loop_body n address end_address with decide (address < u8 end_address) => {
  | right _ => mret J1939_NO_ADDR
  | left Hlt =>
      pair ← once (rev_find address);
      match pair with
      | None => mret address
      | Some occupant =>
          if name_eq occupant n then mret address
          else search_loop_body n (u8 (address + 1)) end_address
      end }.
Next Obligation. intros. by apply counter_decreases. Defined.

Lemma search_loop_body_step n a e :
  search_loop_body n a e =
    if a <? u8 e then
      pair ← once (rev_find a);
      match pair with
      | None => mret a
      | Some o => if name_eq o n then mret a else search_loop_body n (u8 (a + 1)) e
      end
    else mret J1939_NO_ADDR.
Proof.
  rewrite search_loop_body_equation_1. destruct (decide (a < u8 e)) as [Hlt|Hge].
  - by rewrite (proj2 (Z.ltb_lt _ _) Hlt).
  - by rewrite (proj2 (Z.ltb_ge a (u8 e))) by lia.
Qed.

Definition search_body (n : name) (start_address end_address : Z) : body Z :=
  search_loop_body n start_address end_address.

(** [find_address] behind the clamp, which runs before the lock is taken. *)
Definition find_address_body (n : name) (preferred_address : Z) : body Z :=
  if self_config_address n =? 0 then
    pair ← once (rev_find preferred_address);
    mret (match pair with
          | None => preferred_address
          | Some occupant => if name_le n occupant then preferred_address else J1939_NO_ADDR
          end)
  else
    address ← search_body n preferred_address J1939_IDLE_ADDR;
    if address =? J1939_NO_ADDR then search_body n 0 preferred_address else mret address.

(** ** Operations *)

Inductive operation :=
| o_on_new_name_callback (installed : bool)
| o_get_name_set
| o_insert (n : name) (address : Z)
| o_release (n : name)
| o_remove (n : name)
| o_clear
| o_available (address : Z)
| o_claimable (address : Z) (n : name)
| o_in_network (n : name)
| o_match (n : name) (address : Z)
| o_address_count
| o_name_count
| o_get_name (address : Z)
| o_get_address (n : name)
| o_full
| o_find_address (n : name) (preferred_address : Z)
| o_get_interface_name.

Inductive answer :=
| r_void
| r_bool (b : bool)
| r_number (z : Z)
| r_name (n : option name)
| r_names (ns : list name)
| r_string (s : string).

(** [std::shared_lock] or [std::scoped_lock] (of a [std::shared_mutex]). *)
Inductive mode := shared | exclusive.

(** An operation returns without the lock, from its arguments and the [const]
    interface name, or runs a body under the lock. *)
Inductive method :=
| lock_free (r : string -> answer)
| locked (m : mode) (p : body answer).

Definition under {A} (m : mode) (wrap_answer : A -> answer) (p : body A) : method :=
  locked m (a ← p; mret (wrap_answer a)).

Definition method_of (o : operation) : method :=
  match o with
  | o_on_new_name_callback b => under exclusive (fun _ => r_void) (once (callback_store b))
  | o_get_name_set => under shared r_names get_name_set_body
  | o_insert n a => under exclusive r_bool (insert_body n a)
  | o_release n => under exclusive (fun _ => r_void) (release_body n)
  | o_remove n => under exclusive (fun _ => r_void) (remove_body n)
  | o_clear => under exclusive (fun _ => r_void) clear_body
  | o_available a =>
      if J1939_MAX_UNICAST_ADDR <? a then lock_free (fun _ => r_bool false)
      else under shared r_bool (available_body a)
  | o_claimable a n =>
      if J1939_MAX_UNICAST_ADDR <? a then lock_free (fun _ => r_bool false)
      else under shared r_bool (claimable_body a n)
  | o_in_network n => under shared r_bool (in_network_body n)
  | o_match n a => under shared r_bool (match_body n a)
  | o_address_count => under shared r_number (once rev_size)
  | o_name_count => under shared r_number (once fwd_size)
  | o_get_name a => under shared r_name (once (rev_find a))
  | o_get_address n => under shared r_number (get_address_body n)
  | o_full => under shared r_bool full_body
  | o_find_address n a =>
      under shared r_number (find_address_body n (clamp a 0 J1939_MAX_UNICAST_ADDR))
  | o_get_interface_name => lock_free r_string
  end.

(** ** Threads *)

(** [std::shared_mutex]: free, owned by a number of readers, or by one writer. *)
Inductive mutex := m_free | m_shared (owners : nat) | m_exclusive.

(** Taking a lock; [None] when the thread has to wait. *)
Definition lock (m : mode) (mtx : mutex) : option mutex :=
  match m, mtx with
  | shared, m_free => Some (m_shared 1)
  | shared, m_shared k => Some (m_shared (S k))
  | exclusive, m_free => Some m_exclusive
  | _, _ => None
  end.

Definition unlock (mtx : mutex) : mutex :=
  match mtx with
  | m_shared (S (S k)) => m_shared (S k)
  | _ => m_free
  end.

(** A thread calls operations one after the other and is between two of them or
    inside one. *)
Inductive activity := resting | inside (o : operation) (m : mode) (p : body answer).

Record thread := Thread { todo : list operation; doing_now : activity }.

(** The shared object: the table, the calls of [on_new_name_] so far, the mutex;
    the threads; and the operations completed so far with their results. *)
Record system := System {
  shared_table : network;
  calls_made : list (name * Z);
  network_mtx_ : mutex;
  threads : list thread;
  history : list (nat * operation * answer)
}.

Section Run.
(** The iteration order of [name_addr_map_], which the language leaves open. *)
Context (iteration : gmap name Z -> list name).

Definition perform {X} (x : access X) (net : network) : X * network * list (name * Z) :=
  let fwd := name_addr_map_ net in
  let rev := addr_name_map_ net in
  match x with
  | fwd_find n => (fwd !! n, net, [])
  | fwd_index n => let '(a, fwd) := index n fwd in (a, with_maps net fwd rev, [])
  | fwd_store n a => (tt, with_maps net (<[n := a]> fwd) rev, [])
  | fwd_try_emplace n a => (tt, with_maps net (try_emplace n a fwd) rev, [])
  | fwd_erase n => (tt, with_maps net (delete n fwd) rev, [])
  | fwd_clear => (tt, with_maps net ∅ rev, [])
  | fwd_size => (Z.of_nat (size fwd), net, [])
  | fwd_iterate => (iteration fwd, net, [])
  | rev_find a => (rev !! a, net, [])
  | rev_store a n => (tt, with_maps net fwd (<[a := n]> rev), [])
  | rev_erase a => (tt, with_maps net fwd (delete a rev), [])
  | rev_clear => (tt, with_maps net fwd ∅, [])
  | rev_size => (Z.of_nat (size rev), net, [])
  | callback_installed => (on_new_name_ net, net, [])
  | callback_call n a => (tt, net, [(n, a)])
  | callback_store b => (tt, on_new_name_callback b net, [])
  end.

(** A body run to its end, without interruption. *)
Fixpoint run_body {A} (p : body A) (net : network) : A * network * list (name * Z) :=
  match p with
  | finish a => (a, net, [])
  | doing x k =>
      let '(v, net, c) := perform x net in
      let '(a, net, c') := run_body (k v) net in
      (a, net, c ++ c')
  end.

(** The operations as Network.v has them: one step each. *)
Definition sequential (o : operation) (net : network) : answer * network * list (name * Z) :=
  match o with
  | o_on_new_name_callback b => (r_void, on_new_name_callback b net, [])
  | o_get_name_set => (r_names (get_name_set (iteration (name_addr_map_ net))), net, [])
  | o_insert n a => let '(b, net, c) := insert n a net in (r_bool b, net, c)
  | o_release n => (r_void, release n net, [])
  | o_remove n => (r_void, remove n net, [])
  | o_clear => (r_void, clear net, [])
  | o_available a => (r_bool (available a net), net, [])
  | o_claimable a n => (r_bool (claimable a n net), net, [])
  | o_in_network n => (r_bool (in_network n net), net, [])
  | o_match n a => (r_bool (match_ n a net), net, [])
  | o_address_count => (r_number (address_count net), net, [])
  | o_name_count => (r_number (name_count net), net, [])
  | o_get_name a => (r_name (get_name a net), net, [])
  | o_get_address n => (r_number (get_address n net), net, [])
  | o_full => (r_bool (full net), net, [])
  | o_find_address n a => (r_number (find_address n a net), net, [])
  | o_get_interface_name => (r_string (get_interface_name net), net, [])
  end.

(** What thread [i] does next: enter an operation and take its lock, make one
    access, or leave the operation and give the lock back. *)
Definition thread_step (i : nat) (s : system) : option system :=
  let '(System net calls mtx ts h) := s in
  t ← ts !! i;
  match doing_now t, todo t with
  | resting, [] => None
  | resting, o :: rest =>
      match method_of o with
      | lock_free r =>
          let r := r (interface_name_ net) in
          Some (System net calls mtx (<[i := Thread rest resting]> ts) (h ++ [(i, o, r)]))
      | locked m p =>
          mtx ← lock m mtx;
          Some (System net calls mtx (<[i := Thread rest (inside o m p)]> ts) h)
      end
  | inside o m (doing x k), rest =>
      let '(v, net, c) := perform x net in
      Some (System net (calls ++ c) mtx (<[i := Thread rest (inside o m (k v))]> ts) h)
  | inside o m (finish r), rest =>
      Some (System net calls (unlock mtx) (<[i := Thread rest resting]> ts) (h ++ [(i, o, r)]))
  end.

(** Some thread makes a step. *)
Inductive system_step : system -> system -> Prop :=
| thread_steps i s s' : thread_step i s = Some s' -> system_step s s'.

(** A run of the operations of a history, one after the other, each with the
    recorded result: the table and the calls it ends with. *)
Inductive replays (net0 : network) : list (nat * operation * answer) -> network -> list (name * Z) -> Prop :=
| replays_nil : replays net0 [] net0 []
| replays_snoc h i o r net net' c c' :
    replays net0 h net c -> sequential o net = (r, net', c') ->
    replays net0 (h ++ [(i, o, r)]) net' (c ++ c').

End Run.

(** All threads between operations, with the given operations to call. *)
Definition start_threads (net : network) (programs : list (list operation)) : system :=
  System net [] m_free ((fun ops => Thread ops resting) <$> programs) [].

(** The operations that thread [i] has completed. *)
Definition completed (i : nat) (h : list (nat * operation * answer)) : list operation :=
  (fun e => snd (fst e)) <$> filter (fun e => fst (fst e) = i) h.

(** The operation a thread is inside of. *)
Definition current (t : thread) : list operation :=
  match doing_now t with resting => [] | inside o _ _ => [o] end.

(** The next access of a thread, if it is at one: whether it only reads. *)
Definition next_reads (t : thread) : option bool :=
  match doing_now t with
  | inside _ _ (doing x _) => Some (reads x)
  | _ => None
  end.

(** No thread is inside an exclusive operation. *)
Definition no_writer (s : system) : Prop :=
  Forall (fun t => match doing_now t with inside _ exclusive _ => False | _ => True end) (threads s).
