(* ===== verification/NetworkLockFacts.v ===== *)
(** * [jay::network] is thread safe

    Every body of NetworkLock.v, run without interruption, is the operation of
    Network.v.  Under the discipline of the lock every interleaving of threads is
    free of data races, has the results of a sequential run of the operations in
    the order of their completion, and comes to an end. *)

From Stdlib Require Import String.
From stdpp Require Import gmap relations.
From S2P Require Import Prelude J1939Type Name Network NetworkLock.

(** ** Bodies *)
Section Bodies.
Context (iteration : gmap name Z -> list name).

Lemma run_bind {A B} (p : body A) (f : A -> body B) net :
  run_body iteration (p ≫= f) net =
    let '(a, net, c) := run_body iteration p net in
    let '(b, net, c') := run_body iteration (f a) net in (b, net, c ++ c').
Proof.
  revert net. induction p as [a|X x k IH]; intros net.
  - cbn. by destruct (run_body _ (f a) net) as [[]].
  - cbn. destruct (perform iteration x net) as [[v net1] c1]. rewrite IH.
    destruct (run_body iteration (k v) net1) as [[a net2] c2].
    destruct (run_body iteration (f a) net2) as [[b net3] c3]. by rewrite (assoc_L (++)).
Qed.

Lemma run_search n a e net :
  run_body iteration (search_loop_body n a e) net = (search_loop n a e net, net, []).
Proof.
  induction a as [a IH] using (counter_ind e). rewrite search_loop_body_step, search_loop_step.
  destruct (Z.ltb_spec a (u8 e)); [|done]. cbn.
  destruct (addr_name_map_ net !! a) as [o|]; [|done]. destruct (name_eq o n); [done|]. by rewrite IH.
Qed.

Lemma run_find_address n a net :
  run_body iteration (find_address_body n (clamp a 0 J1939_MAX_UNICAST_ADDR)) net = (find_address n a net, net, []).
Proof.
  unfold find_address_body, find_address. destruct (_ =? 0); [done|]. rewrite run_bind.
  unfold search_body, search. rewrite run_search.
  destruct (_ =? J1939_NO_ADDR); [by rewrite run_search|done].
Qed.

(** An access that only reads leaves the table and makes no calls. *)
Lemma reads_perform {X} (x : access X) net :
  reads x = true -> exists v, perform iteration x net = (v, net, []).
Proof. destruct x; try done; eauto. Qed.

(** An operation that takes no lock depends on the interface name only. *)
Lemma lock_free_sequential o r net :
  method_of o = lock_free r -> sequential iteration o net = (r (interface_name_ net), net, []).
Proof.
  destruct o; simpl; try done; unfold available, claimable; try case_match; intros [= <-]; done.
Qed.

Lemma perform_interface {X} (x : access X) net v net' c :
  perform iteration x net = (v, net', c) -> interface_name_ net' = interface_name_ net.
Proof. destruct x; simpl; unfold index; repeat case_match; by intros [= _ <- _]. Qed.

Lemma run_interface {A} (p : body A) net a net' c :
  run_body iteration p net = (a, net', c) -> interface_name_ net' = interface_name_ net.
Proof.
  revert net net' c. induction p as [a'|X x k IH]; intros net net' c; simpl; [by intros [= _ <- _]|].
  destruct (perform iteration x net) as [[v net1] c1] eqn:Ex.
  destruct (run_body iteration (k v) net1) as [[r net2] c2] eqn:Er. intros [= -> -> _].
  rewrite (IH _ _ _ _ Er). by eapply perform_interface.
Qed.

Lemma run_set_idle n net :
  run_body iteration (set_idle_body n) net = (tt, set_idle n net, []).
Proof. unfold set_idle_body, set_idle. simpl. by destruct (index n (name_addr_map_ net)). Qed.

Lemma run_claim a notify n net :
  run_body iteration (claim_body a notify n) net =
    (tt, fst (claim a notify n net), snd (claim a notify n net)).
Proof. unfold claim_body, claim. destruct notify; [|done]. simpl. by destruct (on_new_name_ net). Qed.

Lemma run_insert n a net :
  run_body iteration (insert_body n a) net = insert n a net.
Proof.
  unfold insert_body, insert. rewrite run_bind. cbn [run_body once perform].
  destruct (J1939_MAX_UNICAST_ADDR <? a).
  { destruct (name_addr_map_ net !! n) eqn:En; [|done]. destruct (a =? J1939_IDLE_ADDR); [|done].
    by rewrite run_bind, run_set_idle. }
  rewrite run_bind. cbn [run_body once perform].
  destruct (addr_name_map_ net !! a) as [o|].
  - destruct (name_gt n o); [done|]. rewrite run_bind. cbn [run_body once perform].
    destruct (name_ne o n); rewrite run_bind, ?run_set_idle; cbn [run_body mret body_ret];
      rewrite run_bind, run_claim; cbn; by rewrite app_nil_r.
  - rewrite run_bind. cbn [run_body once perform mbind body_bind mret body_ret].
    rewrite run_bind, run_claim; cbn. by rewrite app_nil_r.
Qed.

Lemma run_release n net : run_body iteration (release_body n) net = (tt, release n net, []).
Proof.
  unfold release_body, release. simpl. destruct (name_addr_map_ net !! n) as [a|] eqn:En; [|done].
  simpl. unfold index. rewrite En. simpl. by destruct (addr_name_map_ net !! a).
Qed.

Lemma run_remove n net : run_body iteration (remove_body n) net = (tt, remove n net, []).
Proof.
  unfold remove_body, remove. simpl. destruct (name_addr_map_ net !! n) as [a|] eqn:En; [|done].
  simpl. unfold index. rewrite En. simpl. by destruct (addr_name_map_ net !! a).
Qed.

Lemma under_locked {A} m (w : A -> answer) p m' p' :
  under m w p = locked m' p' -> m' = m /\ p' = (a ← p; mret (w a)).
Proof. unfold under. by intros [= <- <-]. Qed.

Lemma run_under {A} m (w : A -> answer) p m' p' net :
  under m w p = locked m' p' ->
  run_body iteration p' net = let '(a, net', c) := run_body iteration p net in (w a, net', c).
Proof.
  intros [_ ->]%under_locked. rewrite run_bind.
  destruct (run_body iteration p net) as [[a net'] c]. cbn. by rewrite app_nil_r.
Qed.

Lemma locked_sequential o m p net :
  method_of o = locked m p -> run_body iteration p net = sequential iteration o net.
Proof.
  destruct o; cbn [method_of sequential]; unfold available, claimable; try (case_match; [done|]); try done;
    intros Em; rewrite (run_under _ _ _ _ _ _ Em);
    rewrite ?run_insert, ?run_release, ?run_remove, ?run_find_address; done.
Qed.

End Bodies.

(** ** Queries only read, and every body is short *)

Fixpoint reads_only {A} (p : body A) : Prop :=
  match p with
  | finish _ => True
  | doing x k => reads x = true /\ forall v, reads_only (k v)
  end.

(** [p] makes at most [b] accesses. *)
Fixpoint bounded {A} (b : nat) (p : body A) {struct p} : Prop :=
  match p with
  | finish _ => True
  | doing x k => match b with O => False | S b => forall v, bounded b (k v) end
  end.

Lemma reads_only_bind {A B} (p : body A) (f : A -> body B) :
  reads_only p -> (forall a, reads_only (f a)) -> reads_only (p ≫= f).
Proof. intros Hp Hf. induction p as [|X x k IH]; [apply Hf|]. split; [apply Hp|]. intros v. by apply IH, Hp. Qed.

Lemma bounded_mono {A} b b' (p : body A) : bounded b p -> (b <= b')%nat -> bounded b' p.
Proof.
  revert b b'. induction p as [a|X x k IH]; intros [|b] [|b'] Hp Hle; try done; [lia|].
  intros v. apply (IH v b); [apply Hp|lia].
Qed.

Lemma bounded_bind {A B} b b' (p : body A) (f : A -> body B) :
  bounded b p -> (forall a, bounded b' (f a)) -> bounded (b + b') (p ≫= f).
Proof.
  intros Hp Hf. revert b Hp. induction p as [a|X x k IH]; intros b Hp.
  - apply (bounded_mono b'); [apply Hf|lia].
  - destruct b as [|b]; [done|]. intros v. by apply IH.
Qed.

Lemma search_reads_only n a e : reads_only (search_loop_body n a e).
Proof.
  induction a as [a IH] using (counter_ind e). rewrite search_loop_body_step.
  destruct (Z.ltb_spec a (u8 e)); [|done]. split; [done|]. intros [o|]; [|done]. cbn.
  destruct (name_eq o n); [done|]. by apply IH.
Qed.

(** One access for each address of the range. *)
Lemma search_bounded n a e : 0 <= a -> 0 <= e <= 255 -> bounded (Z.to_nat (e - a)) (search_loop_body n a e).
Proof.
  intros Ha He. assert (Hu : u8 e = e) by (apply wrap_small; unfold is_uint; lia). revert Ha.
  induction a as [a IH] using (counter_ind e). intros Ha. rewrite search_loop_body_step. rewrite Hu in *.
  destruct (Z.ltb_spec a e) as [Hlt|]; [|done].
  replace (Z.to_nat (e - a)) with (S (Z.to_nat (e - (a + 1)))) by lia.
  intros [o|]; cbn; [|done]. destruct (name_eq o n); [done|].
  rewrite (wrap_small 8 (a + 1)) in * by (unfold is_uint; lia). apply IH; lia.
Qed.

Lemma find_address_reads_only n a : reads_only (find_address_body n a).
Proof.
  unfold find_address_body. destruct (_ =? 0); [done|].
  apply reads_only_bind; [apply search_reads_only|]. intros a'.
  destruct (a' =? _); [apply search_reads_only|done].
Qed.

Lemma find_address_bounded n a : 0 <= a <= J1939_MAX_UNICAST_ADDR -> bounded 254 (find_address_body n a).
Proof.
  unfold J1939_MAX_UNICAST_ADDR. intros Ha. unfold find_address_body. destruct (_ =? 0); [done|].
  replace 254%nat with (Z.to_nat (254 - a) + Z.to_nat (a - 0))%nat by lia.
  apply bounded_bind; [apply search_bounded; unfold J1939_IDLE_ADDR; lia|]. intros a'.
  destruct (a' =? _); [apply search_bounded; lia|done].
Qed.

#[local] Opaque find_address_body.

(** The operations that take a shared lock change nothing. *)
Lemma shared_reads_only o p : method_of o = locked shared p -> reads_only p.
Proof.
  destruct o; cbn [method_of]; [..|discriminate]; try (destruct (_ <? _); [discriminate|]);
    intros [Hm ->]%under_locked; try discriminate Hm;
    (apply reads_only_bind; [first [apply find_address_reads_only|done]|done]).
Qed.

Lemma set_idle_bounded n : bounded 3 (set_idle_body n).
Proof. done. Qed.

Lemma claim_bounded a notify n : bounded 4 (claim_body a notify n).
Proof. simpl. intros [] []. destruct notify; [|done]. by intros []. Qed.

Lemma insert_bounded n a : bounded 10 (insert_body n a).
Proof.
  unfold insert_body. apply (bounded_bind 1 9); [done|]. intros prev.
  destruct (J1939_MAX_UNICAST_ADDR <? a).
  { destruct prev; [|done]. destruct (a =? J1939_IDLE_ADDR); [|done]. by apply (bounded_bind 3 6). }
  apply (bounded_bind 1 8); [done|]. intros it. case_match; [done|].
  apply (bounded_bind 1 7); [done|]. intros [].
  apply (bounded_bind 3 4); [by destruct it; [destruct (name_ne _ _)|]|]. intros [].
  apply (bounded_bind 4 0); [apply claim_bounded|done].
Qed.

Lemma release_bounded n : bounded 10 (release_body n).
Proof. intros [a|]; [|done]. intros b []. by intros [o|]. Qed.

Lemma remove_bounded n : bounded 10 (remove_body n).
Proof. intros [a|]; [|done]. intros b []. by intros [o|]. Qed.

(** The longest body is the search of all addresses. *)
Lemma method_bounded o m p : method_of o = locked m p -> bounded 254 p.
Proof.
  destruct o; cbn [method_of]; [..|discriminate]; try (destruct (_ <? _); [discriminate|]);
    intros [_ ->]%under_locked; (apply (bounded_bind 254 0); [|done]);
    first [apply find_address_bounded; pose proof (clamp_spec preferred_address 0 J1939_MAX_UNICAST_ADDR);
             unfold J1939_MAX_UNICAST_ADDR in *; lia|apply (bounded_mono 10); [first [apply insert_bounded|apply release_bounded|apply remove_bounded|done]|lia]].
Qed.

(** ** The steps of a thread, by cases *)
Section Steps.
Context (iteration : gmap name Z -> list name).

Inductive transition (i : nat) : system -> system -> Prop :=
| t_lock_free net calls mtx ts h o rest r :
    ts !! i = Some (Thread (o :: rest) resting) -> method_of o = lock_free r ->
    transition i (System net calls mtx ts h)
      (System net calls mtx (<[i := Thread rest resting]> ts) (h ++ [(i, o, r (interface_name_ net))]))
| t_enter net calls mtx mtx' ts h o rest m p :
    ts !! i = Some (Thread (o :: rest) resting) -> method_of o = locked m p -> lock m mtx = Some mtx' ->
    transition i (System net calls mtx ts h)
      (System net calls mtx' (<[i := Thread rest (inside o m p)]> ts) h)
| t_access net net' calls c mtx ts h o rest m X (x : access X) k v :
    ts !! i = Some (Thread rest (inside o m (doing x k))) -> perform iteration x net = (v, net', c) ->
    transition i (System net calls mtx ts h)
      (System net' (calls ++ c) mtx (<[i := Thread rest (inside o m (k v))]> ts) h)
| t_leave net calls mtx ts h o rest m r :
    ts !! i = Some (Thread rest (inside o m (finish r))) ->
    transition i (System net calls mtx ts h)
      (System net calls (unlock mtx) (<[i := Thread rest resting]> ts) (h ++ [(i, o, r)])).

Lemma thread_step_transition i s s' : thread_step iteration i s = Some s' -> transition i s s'.
Proof.
  destruct s as [net calls mtx ts h]. cbn [thread_step].
  destruct (ts !! i) as [[ops [|o m [r|X x k]]]|] eqn:Et; [| | |discriminate]; cbn [mbind option_bind doing_now todo].
  - destruct ops as [|o rest]; [discriminate|]. destruct (method_of o) as [r|m p] eqn:Em.
    + intros [= <-]. by apply t_lock_free.
    + destruct (lock m mtx) as [mtx'|] eqn:El; [|discriminate]. intros [= <-]. by eapply t_enter.
  - intros [= <-]. by eapply t_leave.
  - destruct (perform iteration x net) as [[v net'] c] eqn:Ex. intros [= <-]. by eapply t_access.
Qed.

(** ** Who owns the lock *)

Definition owned (m : mode) (t : thread) : nat :=
  match doing_now t, m with
  | inside _ shared _, shared | inside _ exclusive _, exclusive => 1
  | _, _ => 0
  end.

Lemma owned_resting m ops : owned m (Thread ops resting) = 0%nat.
Proof. by destruct m. Qed.

Definition owners (m : mode) (ts : list thread) : nat := sum_list (owned m <$> ts).
#[local] Arguments owners : simpl never.

Definition mutex_ok (mtx : mutex) (ts : list thread) : Prop :=
  match mtx with
  | m_free => owners shared ts = 0%nat /\ owners exclusive ts = 0%nat
  | m_shared k => (0 < k)%nat /\ owners shared ts = k /\ owners exclusive ts = 0%nat
  | m_exclusive => owners shared ts = 0%nat /\ owners exclusive ts = 1%nat
  end.

Lemma sum_insert (i x y : nat) (l : list nat) :
  l !! i = Some x -> (sum_list (<[i := y]> l) + x = sum_list l + y)%nat.
Proof.
  revert i. induction l as [|z l IH]; intros [|i]; try done; simpl; [intros [= ->]; lia|].
  intros Hi. specialize (IH _ Hi). lia.
Qed.

Lemma owners_insert m i t t' ts :
  ts !! i = Some t -> (owners m (<[i := t']> ts) + owned m t = owners m ts + owned m t')%nat.
Proof.
  intros Hi. unfold owners. rewrite list_fmap_insert. apply sum_insert. by rewrite list_lookup_fmap, Hi.
Qed.

Lemma owners_none m ts : Forall (fun t => doing_now t = resting) ts -> owners m ts = 0%nat.
Proof.
  induction 1 as [|t ts Ht _ IH]; [done|].
  unfold owners. cbn. unfold owned at 1. rewrite Ht. destruct m; exact IH.
Qed.

Lemma owners_ge m i t ts : ts !! i = Some t -> (owned m t <= owners m ts)%nat.
Proof. intros Hi. pose proof (owners_insert m i t (Thread [] resting) ts Hi). rewrite owned_resting in *. lia. Qed.

Lemma owners_ge_two m i j t u ts :
  i <> j -> ts !! i = Some t -> ts !! j = Some u -> (owned m t + owned m u <= owners m ts)%nat.
Proof.
  intros Hij Hi Hj. pose proof (owners_insert m i t (Thread [] resting) ts Hi).
  pose proof (owners_ge m j u (<[i := Thread [] resting]> ts)) as Hge.
  rewrite list_lookup_insert_ne in Hge by done. specialize (Hge Hj). rewrite owned_resting in *. lia.
Qed.

Lemma mutex_ok_insert mtx i t t' ts :
  ts !! i = Some t -> (forall m, owned m t' = owned m t) -> mutex_ok mtx ts ->
  mutex_ok mtx (<[i := t']> ts).
Proof.
  intros Hi Ht. pose proof (owners_insert shared i t t' ts Hi). pose proof (owners_insert exclusive i t t' ts Hi).
  rewrite !Ht in *. unfold mutex_ok. destruct mtx; lia.
Qed.

Lemma mutex_ok_lock m mtx mtx' i t t' ts :
  ts !! i = Some t -> lock m mtx = Some mtx' -> (forall m, owned m t = 0%nat) ->
  owned m t' = 1%nat -> mutex_ok mtx ts -> mutex_ok mtx' (<[i := t']> ts).
Proof.
  intros Hi Hl Ht Ht'. pose proof (owners_insert shared i t t' ts Hi) as Hs.
  pose proof (owners_insert exclusive i t t' ts Hi) as He. rewrite !Ht in *.
  unfold owned in *. destruct m, mtx; try discriminate; injection Hl as <-;
    destruct (doing_now t') as [|? [] ?]; try discriminate; simpl; lia.
Qed.

Lemma mutex_ok_unlock m mtx i t t' ts :
  ts !! i = Some t -> owned m t = 1%nat -> (forall m, owned m t' = 0%nat) ->
  mutex_ok mtx ts -> mutex_ok (unlock mtx) (<[i := t']> ts).
Proof.
  intros Hi Ht Ht'. pose proof (owners_insert shared i t t' ts Hi) as Hs.
  pose proof (owners_insert exclusive i t t' ts Hi) as He. rewrite !Ht' in *. unfold owned in *.
  destruct m, (doing_now t) as [|? [] ?]; try discriminate;
    destruct mtx as [|[|[|k]]|]; simpl; lia.
Qed.

(** ** Every interleaving is a sequential run *)

(** A thread inside an operation: what is left of its body gives the result and
    the table of the operation run on [base], the table before it.  [c0] are the
    calls made before the operation. *)
Definition on_track (net base : network) (calls c0 : list (name * Z)) (t : thread) : Prop :=
  match doing_now t with
  | resting => True
  | inside o m p =>
      (m = shared -> reads_only p) /\
      exists r net' c c', run_body iteration p net = (r, net', c') /\
        sequential iteration o base = (r, net', c ++ c') /\ calls = c0 ++ c
  end.

Definition lock_inv (net0 : network) (s : system) : Prop :=
  mutex_ok (network_mtx_ s) (threads s) /\
  exists base c0, replays iteration net0 (history s) base c0 /\
    interface_name_ (shared_table s) = interface_name_ base /\
    (owners exclusive (threads s) = 0%nat -> shared_table s = base /\ calls_made s = c0) /\
    Forall (on_track (shared_table s) base (calls_made s) c0) (threads s).

(** The owner of an exclusive lock is alone. *)
Lemma alone mtx ts i j o p t rest :
  mutex_ok mtx ts -> i <> j -> ts !! i = Some (Thread rest (inside o exclusive p)) -> ts !! j = Some t ->
  doing_now t = resting.
Proof.
  intros Hm Hij Hi Hj. destruct (doing_now t) as [|o' m' p'] eqn:Et; [done|exfalso].
  pose proof (owners_ge exclusive _ _ _ Hi) as H1. cbn in H1.
  pose proof (owners_ge shared _ _ _ Hj) as H2. pose proof (owners_ge_two exclusive _ _ _ _ _ Hij Hi Hj) as H3.
  unfold owned in *. rewrite Et in *. cbn in H3. destruct m', mtx; simpl in *; lia.
Qed.

Lemma on_track_insert net base calls c0 ts i t' :
  (forall j t, j <> i -> ts !! j = Some t -> on_track net base calls c0 t) -> on_track net base calls c0 t' ->
  Forall (on_track net base calls c0) (<[i := t']> ts).
Proof.
  intros Hts Ht'. apply Forall_lookup.
  intros j t [(<- & <- & _)|[Hj Ht]]%list_lookup_insert_Some; [done|by apply (Hts j)].
Qed.

Lemma lock_no_writer m mtx mtx' ts :
  lock m mtx = Some mtx' -> mutex_ok mtx ts -> owners exclusive ts = 0%nat.
Proof. destruct m, mtx; try discriminate; simpl; lia. Qed.

Lemma enter_inv net0 i net calls mtx mtx' ts h o rest m p :
  ts !! i = Some (Thread (o :: rest) resting) -> method_of o = locked m p -> lock m mtx = Some mtx' ->
  lock_inv net0 (System net calls mtx ts h) ->
  lock_inv net0 (System net calls mtx' (<[i := Thread rest (inside o m p)]> ts) h).
Proof.
  intros Hi Hp Hl (Hm & base & c0 & Hrep & Hname & Hbase & Htrack). cbn in *.
  destruct (Hbase (lock_no_writer _ _ _ _ Hl Hm)) as [-> ->].
  split; cbn; [by eapply mutex_ok_lock; [exact Hi|exact Hl|intros; apply owned_resting|destruct m|]|].
  exists base, c0. repeat split; try done.
  apply on_track_insert; [intros j t _; by apply Forall_lookup|]. cbn. split.
  - intros ->. by eapply shared_reads_only.
  - pose proof (locked_sequential iteration o m p base Hp) as Hrun.
    destruct (sequential iteration o base) as [[r net'] c']. exists r, net', [], c'.
    by rewrite app_nil_r.
Qed.

Lemma leave_inv net0 i net calls mtx ts h o rest m r :
  ts !! i = Some (Thread rest (inside o m (finish r))) ->
  lock_inv net0 (System net calls mtx ts h) ->
  lock_inv net0 (System net calls (unlock mtx) (<[i := Thread rest resting]> ts) (h ++ [(i, o, r)])).
Proof.
  intros Hi (Hm & base & c0 & Hrep & Hname & Hbase & Htrack). cbn in *.
  pose proof (proj1 (Forall_lookup _ _) Htrack) as Htr.
  destruct (Htr _ _ Hi) as (_ & r' & net' & c & c' & [= <- <- <-] & Hseq & Hc). rewrite app_nil_r in Hseq.
  split; cbn; [eapply (mutex_ok_unlock m); [exact Hi|by destruct m|intros; apply owned_resting|done]|].
  exists net, calls. repeat split; try done; [subst calls; by eapply replays_snoc|].
  apply on_track_insert; [|done]. intros j t Hj Ht. destruct m.
  - specialize (Htr _ _ Ht). destruct (decide (owners exclusive ts = 0%nat)) as [Hz|Hz].
    + by destruct (Hbase Hz) as [-> ->].
    + pose proof (owners_ge shared _ _ _ Hi) as Hge. cbn in Hge. destruct mtx; cbn in Hm; lia.
  - unfold on_track. by rewrite (alone _ _ _ _ _ _ _ _ Hm (not_eq_sym Hj) Hi Ht).
Qed.

Lemma access_inv net0 i net net' calls c mtx ts h o rest m X (x : access X) k v :
  ts !! i = Some (Thread rest (inside o m (doing x k))) -> perform iteration x net = (v, net', c) ->
  lock_inv net0 (System net calls mtx ts h) ->
  lock_inv net0 (System net' (calls ++ c) mtx (<[i := Thread rest (inside o m (k v))]> ts) h).
Proof.
  intros Hi Hx (Hm & base & c0 & Hrep & Hname & Hbase & Htrack). cbn in *.
  pose proof (proj1 (Forall_lookup _ _) Htrack) as Htr.
  destruct (Htr _ _ Hi) as (Hro & r & net2 & c1 & c2 & Hrun & Hseq & Hc). cbn in Hrun. rewrite Hx in Hrun.
  destruct (run_body iteration (k v) net') as [[r' net3] c3] eqn:Ek. injection Hrun as -> -> <-.
  pose proof (owners_insert exclusive _ _ (Thread rest (inside o m (k v))) _ Hi) as Hex.
  split; cbn; [by eapply mutex_ok_insert; [exact Hi|intros m'; by destruct m, m'|]|].
  exists base, c0. split; [done|]. split; [rewrite <- Hname; by eapply perform_interface|].
  assert (Hti : on_track net' base (calls ++ c) c0 (Thread rest (inside o m (k v)))).
  { split; [intros ->; by apply Hro|]. exists r, net2, (c1 ++ c), c3.
    split; [done|]. split; [by rewrite <- (assoc_L (++))|by rewrite Hc, (assoc_L (++))]. }
  destruct m.
  - destruct (reads_perform iteration x net (proj1 (Hro eq_refl))) as [v' Hv]. rewrite Hv in Hx.
    injection Hx as -> <- <-. rewrite app_nil_r in *. cbn in Hex. rewrite !Nat.add_0_r in Hex. rewrite Hex.
    split; [done|]. apply on_track_insert; [intros j t _; apply Htr|done].
  - cbn in Hex. pose proof (owners_ge exclusive _ _ _ Hi) as Hge. cbn in Hge. split; [lia|].
    apply on_track_insert; [|done]. intros j t Hj Ht. unfold on_track.
    by rewrite (alone _ _ _ _ _ _ _ _ Hm (not_eq_sym Hj) Hi Ht).
Qed.

Lemma lock_free_inv net0 i net calls mtx ts h o rest r :
  ts !! i = Some (Thread (o :: rest) resting) -> method_of o = lock_free r ->
  lock_inv net0 (System net calls mtx ts h) ->
  lock_inv net0 (System net calls mtx (<[i := Thread rest resting]> ts) (h ++ [(i, o, r (interface_name_ net))])).
Proof.
  intros Hi Ho (Hm & base & c0 & Hrep & Hname & Hbase & Htrack). cbn in *.
  pose proof (owners_insert exclusive _ _ (Thread rest resting) _ Hi) as Hex. rewrite !owned_resting in Hex.
  split; cbn; [by eapply mutex_ok_insert; [exact Hi|intros; by rewrite !owned_resting|]|].
  exists base, c0. split.
  { rewrite <- (app_nil_r c0), Hname. eapply replays_snoc; [done|by apply lock_free_sequential]. }
  split; [done|]. split; [intros Hz; apply Hbase; lia|].
  apply on_track_insert; [intros j t _; by apply Forall_lookup|done].
Qed.

Lemma lock_inv_step net0 i s s' : transition i s s' -> lock_inv net0 s -> lock_inv net0 s'.
Proof. destruct 1; eauto using lock_free_inv, enter_inv, access_inv, leave_inv. Qed.

Lemma lock_inv_start net0 programs : lock_inv net0 (start_threads net0 programs).
Proof.
  assert (Ho : forall m, owners m ((fun ops => Thread ops resting) <$> programs) = 0%nat).
  { intros m. by apply owners_none, Forall_fmap, Forall_true. }
  split; [by split|]. exists net0, []. split; [constructor|]. repeat split; try done.
  apply Forall_fmap, Forall_true. done.
Qed.

(** Rule induction over the runs. *)
Lemma run_ind (P : system -> Prop) s0 s :
  P s0 -> (forall i s s', transition i s s' -> P s -> P s') -> rtc (system_step iteration) s0 s -> P s.
Proof.
  intros H0 Hstep Hs. revert H0. induction Hs as [s|s1 s2 s3 [i s s' Ht] _ IH]; [done|].
  intros H1. apply IH. eapply Hstep; [by apply thread_step_transition|done].
Qed.

Lemma lock_inv_reachable net0 programs s :
  rtc (system_step iteration) (start_threads net0 programs) s -> lock_inv net0 s.
Proof. apply run_ind; [apply lock_inv_start|apply lock_inv_step]. Qed.

(** Each thread calls its operations in order. *)
Definition in_order (programs : list (list operation)) (s : system) : Prop :=
  forall i t, threads s !! i = Some t ->
    programs !! i = Some (completed i (history s) ++ current t ++ todo t).

Lemma completed_snoc i j o r h :
  completed i (h ++ [(j, o, r)]) = completed i h ++ if decide (j = i) then [o] else [].
Proof.
  unfold completed. rewrite list.filter_app, fmap_app, filter_cons. f_equal. cbn [fst].
  by destruct (decide (j = i)).
Qed.

Lemma in_order_step programs i s s' : transition i s s' -> in_order programs s -> in_order programs s'.
Proof.
  intros Ht Hs. unfold in_order in *.
  destruct Ht as [net calls mtx ts h o rest r Hi Ho|net calls mtx mtx' ts h o rest m p Hi Ho Hl
    |net net' calls c mtx ts h o rest m X x k v Hi Hx|net calls mtx ts h o rest m r Hi]; cbn [threads history] in *;
    intros j t [(<- & <- & _)|[Hj Ht]]%list_lookup_insert_Some; rewrite ?completed_snoc;
    try (rewrite decide_False by congruence); rewrite ?app_nil_r; try (by apply Hs);
    rewrite (Hs _ _ Hi); cbn [current doing_now todo]; rewrite ?decide_True by done; by rewrite <- ?(assoc_L (++)).
Qed.

Lemma in_order_reachable net0 programs s :
  rtc (system_step iteration) (start_threads net0 programs) s -> in_order programs s.
Proof.
  apply run_ind; [|apply in_order_step]. intros i t. cbn. rewrite list_lookup_fmap.
  intros (ops & Hops & ->)%fmap_Some. done.
Qed.

Lemma no_writer_owners s : no_writer s -> owners exclusive (threads s) = 0%nat.
Proof.
  unfold no_writer, owners. induction 1 as [|t ts Ht _ IH]; [done|].
  rewrite fmap_cons. cbn [sum_list sum_list_with foldr fmap]. unfold owned at 1. by destruct (doing_now t) as [|o [] p].
Qed.

(** C6.  [network] is thread safe, as its comment says: whatever operations any
    number of threads call, and however their single accesses to the maps
    interleave, the completed operations have the results of a sequential run in
    the order of their completion, which keeps the order of each thread; the table
    and the calls of [on_new_name_] are those of the sequential run whenever no
    writer is inside. *)
Theorem network_is_linearizable net0 programs s :
  rtc (system_step iteration) (start_threads net0 programs) s ->
  (exists net calls, replays iteration net0 (history s) net calls /\
    (no_writer s -> shared_table s = net /\ calls_made s = calls)) /\
  forall i t, threads s !! i = Some t ->
    programs !! i = Some (completed i (history s) ++ current t ++ todo t).
Proof.
  intros Hs. split; [|by eapply in_order_reachable].
  destruct (lock_inv_reachable _ _ _ Hs) as (_ & base & c0 & Hrep & _ & Hbase & _).
  exists base, c0. split; [done|]. intros Hn. by apply Hbase, no_writer_owners.
Qed.

(** C18.  There are no data races: when two threads are at an access to the maps
    or to the callback, both accesses only read. *)
Theorem network_has_no_races net0 programs s i j t u x y :
  rtc (system_step iteration) (start_threads net0 programs) s -> i <> j ->
  threads s !! i = Some t -> threads s !! j = Some u ->
  next_reads t = Some x -> next_reads u = Some y -> x = true /\ y = true.
Proof.
  intros Hs Hij Hi Hj. destruct (lock_inv_reachable _ _ _ Hs) as (Hm & base & c0 & _ & _ & _ & Htr).
  rewrite Forall_lookup in Htr. pose proof (Htr _ _ Hi) as Ti. pose proof (Htr _ _ Hj) as Tj.
  destruct t as [opi [|oi [] [|X a k]]], u as [opj [|oj [] [|Y b l]]]; try done; unfold next_reads; cbn.
  - intros [= <-] [= <-]. split; [by apply (proj1 Ti)|by apply (proj1 Tj)].
  - by pose proof (alone _ _ _ _ _ _ _ _ Hm (not_eq_sym Hij) Hj Hi).
  - by pose proof (alone _ _ _ _ _ _ _ _ Hm Hij Hi Hj).
  - by pose proof (alone _ _ _ _ _ _ _ _ Hm Hij Hi Hj).
Qed.

(** ** Every run ends *)

(** An upper bound [w] of the steps that thread [t] still makes: an operation
    takes and gives back the lock and makes at most 254 accesses. *)
Definition weighs (w : nat) (t : thread) : Prop :=
  match doing_now t with
  | resting => w = (256 * length (todo t))%nat
  | inside _ _ p => exists b, bounded b p /\ w = (256 * length (todo t) + b + 1)%nat
  end.

Lemma weighs_step i s s' ws :
  transition i s s' -> Forall2 weighs ws (threads s) ->
  exists ws', Forall2 weighs ws' (threads s') /\ (S (sum_list ws') <= sum_list ws)%nat.
Proof.
  intros Ht Hws.
  assert (Hgo : forall t t', threads s !! i = Some t -> threads s' = <[i := t']> (threads s) ->
    (forall w, weighs w t -> exists w', weighs w' t' /\ (S w' <= w)%nat) ->
    exists ws', Forall2 weighs ws' (threads s') /\ (S (sum_list ws') <= sum_list ws)%nat).
  { intros t t' Hi -> Hw. destruct (Forall2_lookup_r _ _ _ _ _ Hws Hi) as (w & Hwi & Hwt).
    destruct (Hw w Hwt) as (w' & Hw' & Hle). exists (<[i := w']> ws). split; [by apply Forall2_insert|].
    pose proof (sum_insert i w w' ws Hwi). lia. }
  destruct Ht as [net calls mtx ts h o rest r Hi Ho|net calls mtx mtx' ts h o rest m p Hi Ho Hl
    |net net' calls c mtx ts h o rest m X x k v Hi Hx|net calls mtx ts h o rest m r Hi];
    eapply Hgo; try done; cbn; intros w.
  - intros ->. eexists. split; [done|]. cbn [length]. lia.
  - intros ->. eexists. split; [exists 254%nat; split; [by eapply method_bounded|done]|]. cbn [length]. lia.
  - intros ([|b] & Hb & ->); [done|]. eexists. split; [exists b; split; [apply Hb|done]|]. lia.
  - intros (b & _ & ->). eexists. split; [done|]. lia.
Qed.

Lemma weighs_run k s s' ws :
  nsteps (system_step iteration) k s s' -> Forall2 weighs ws (threads s) -> (k <= sum_list ws)%nat.
Proof.
  intros Hs. revert ws. induction Hs as [s|k s1 s2 s3 [i s s' Ht] _ IH]; intros ws Hws; [lia|].
  destruct (weighs_step i s s' ws) as (ws' & Hws' & Hle); [by apply thread_step_transition|done|].
  specialize (IH _ Hws'). lia.
Qed.

Lemma threads_length s0 s :
  rtc (system_step iteration) s0 s -> length (threads s) = length (threads s0).
Proof.
  apply (run_ind (fun s => length (threads s) = length (threads s0))); [done|].
  intros i s1 s2 []; cbn; by rewrite length_insert.
Qed.

(** A thread inside an operation can go on; when no thread is inside one, every
    thread with an operation to call can go on. *)
Lemma stuck_resting s i t :
  (forall s', ~ system_step iteration s s') -> threads s !! i = Some t -> doing_now t = resting.
Proof.
  intros Hstuck Hi. destruct s as [net calls mtx ts h], t as [ops [|o m [r|X x k]]]; [done|exfalso..]; cbn in Hi.
  - eapply Hstuck, (thread_steps _ i). cbn. by rewrite Hi.
  - destruct (perform iteration x net) as [[v net'] c] eqn:Ex.
    eapply Hstuck, (thread_steps _ i). cbn. rewrite Hi. cbn. by rewrite Ex.
Qed.

Lemma stuck_done s i t :
  mutex_ok (network_mtx_ s) (threads s) -> (forall s', ~ system_step iteration s s') ->
  threads s !! i = Some t -> t = Thread [] resting.
Proof.
  intros Hm Hstuck Hi. pose proof (fun j u => stuck_resting s j u Hstuck) as Hrest.
  assert (Hfree : network_mtx_ s = m_free).
  { assert (Ho : forall m, owners m (threads s) = 0%nat) by (intros m; by apply owners_none, Forall_lookup).
    unfold mutex_ok in Hm. rewrite !Ho in Hm. destruct (network_mtx_ s); [done|lia..]. }
  pose proof (Hrest _ _ Hi) as Ht. destruct s as [net calls mtx ts h], t as [[|o rest] a]; cbn in *; subst; [done|exfalso].
  destruct (method_of o) as [r|[] p] eqn:Em; eapply Hstuck, (thread_steps _ i); cbn; rewrite Hi; cbn; by rewrite Em.
Qed.

(** C17.  Every run of the threads ends, with all operations completed: an
    operation costs at most 256 steps, so a run makes at most that many for each
    operation of the programs, and a run that cannot go on, in particular one in
    which every thread waits for the lock, has completed every thread's program. *)
Theorem network_runs_end net0 programs k s :
  nsteps (system_step iteration) k (start_threads net0 programs) s ->
  (k <= 256 * length (concat programs))%nat /\
  ((forall s', ~ system_step iteration s s') ->
   forall i ops, programs !! i = Some ops -> completed i (history s) = ops).
Proof.
  intros Hk. split.
  - transitivity (sum_list ((fun ops => 256 * length ops)%nat <$> programs)).
    + eapply weighs_run; [done|]. cbn. rewrite Forall2_fmap. by apply Forall_Forall2_diag, Forall_true.
    + clear. induction programs as [|ops ps IH]; [done|]. cbn. rewrite length_app. cbn in IH. lia.
  - intros Hstuck i ops Hops. apply rtc_nsteps_2 in Hk.
    assert (Hlt : (i < length (threads s))%nat).
    { rewrite (threads_length _ _ Hk). cbn. rewrite length_fmap. by eapply lookup_lt_Some. }
    destruct (lookup_lt_is_Some_2 _ _ Hlt) as [t Ht].
    pose proof (in_order_reachable _ _ _ Hk _ _ Ht) as Hord.
    rewrite (stuck_done _ _ _ (proj1 (lock_inv_reachable _ _ _ Hk)) Hstuck Ht) in Hord. cbn in Hord.
    rewrite app_nil_r in Hord. congruence.
Qed.

End Steps.

(** ** A run of three threads *)
Section Schedule.
Context (iteration : gmap name Z -> list name).

(** The threads named in a list make one step each, in this order. *)
Fixpoint schedule (order : list nat) (s : system) : option system :=
  match order with
  | [] => Some s
  | i :: order => s ← thread_step iteration i s; schedule order s
  end.

Lemma schedule_nsteps order s s' :
  schedule order s = Some s' -> nsteps (system_step iteration) (length order) s s'.
Proof.
  revert s. induction order as [|i order IH]; intros s; simpl; [intros [= ->]; constructor|].
  intros (s1 & Hi & Hs)%bind_Some. econstructor; [by apply (thread_steps _ i)|by apply IH].
Qed.

Lemma schedule_rtc order s s' :
  schedule order s = Some s' -> rtc (system_step iteration) s s'.
Proof. intros Hs. eapply rtc_nsteps_2. by apply schedule_nsteps. Qed.

End Schedule.

(** One thread inserts a NAME, two others look the address up. *)
Definition three_programs : list (list operation) :=
  [[o_insert (Name 0x10) 0x44]; [o_get_name 0x44]; [o_available 0x44]].

Definition key_order (m : gmap name Z) : list name := fst <$> map_to_list m.

(** The insertion, then both queries have taken the lock. *)
Definition both_inside : list nat := [0; 0; 0; 0; 0; 0; 0; 0; 1; 2]%nat.
Definition all_done : list nat := both_inside ++ [2; 1; 2; 1]%nat.

Definition three_start : system := start_threads (network_init "vcan0") three_programs.

Lemma network_is_linearizable_witness :
  exists s, schedule key_order all_done three_start = Some s /\
    history s = [(0, o_insert (Name 0x10) 0x44, r_bool true);
                 (2, o_available 0x44, r_bool false);
                 (1, o_get_name 0x44, r_name (Some (Name 0x10)))]%nat /\
    exists net calls, replays key_order (network_init "vcan0") (history s) net calls.
Proof.
  eexists. split; [by vm_compute|]. split; [done|].
  edestruct (network_is_linearizable key_order (network_init "vcan0") three_programs)
    as [(net & calls & Hr & _) _]; [apply (schedule_rtc _ all_done); by vm_compute|].
  exists net, calls. exact Hr.
Defined.

Lemma network_has_no_races_witness :
  exists s t u, schedule key_order both_inside three_start = Some s /\
    threads s !! 1%nat = Some t /\ threads s !! 2%nat = Some u /\
    exists x y, next_reads t = Some x /\ next_reads u = Some y /\ x = true /\ y = true.
Proof.
  eexists _, _, _. split; [by vm_compute|]. split; [done|]. split; [done|].
  eexists _, _. split; [done|]. split; [done|].
  eapply (network_has_no_races key_order (network_init "vcan0") three_programs _ 1 2);
    [apply (schedule_rtc _ both_inside); by vm_compute|lia|done..].
Defined.

Lemma network_runs_end_witness :
  exists s, nsteps (system_step key_order) (length all_done) three_start s /\
    (length all_done <= 256 * 3)%nat /\ completed 1 (history s) = [o_get_name 0x44].
Proof.
  eexists. split; [apply schedule_nsteps; by vm_compute|].
  edestruct (network_runs_end key_order (network_init "vcan0") three_programs) as [Hle Hend];
    [apply (schedule_nsteps _ all_done); by vm_compute|].
  split; [exact Hle|]. apply Hend; [|done]. intros s' Hs. inversion Hs as [i s1 s2 Hstep]; subst.
  by destruct i as [|[|[|i]]].
Defined.
