(* ===== verification/Sml.v ===== *)
(** * The interface of [boost::sml]

    The state machine library is not part of this repository, so its
    [process_event] and the start of a machine are parameters ([Sml]) with the
    documented behaviour of the library as laws ([SmlLaws]): the rows of a
    transition table are tried in table order; a row without a target state
    runs only its action; a row with a target state runs the exit rows of the
    source state, its action, and the entry rows of the target state; an event
    that no row handles is ignored; starting a machine runs the entry rows of
    the initial state.  [sml_reference] is an interpreter of tables that
    satisfies the laws, for the witnesses. *)

From S2P Require Import Prelude.

(** An event of a machine: one of the user's, or the entry or exit of a state. *)
Inductive sml_event (E : Type) : Type :=
| on_entry
| on_exit
| event (e : E).
Arguments on_entry {E}.
Arguments on_exit {E}.
Arguments event {E} e.

(** A row [state<src> + event[guard] / action = state<dst>]: [row_on] says for an
    event whether the row is for it and, if so, with what guard and action.
    [D] is the type of everything that guards and actions see. *)
Record row (S E D : Type) : Type := Row {
  row_src : S;
  row_on : sml_event E -> option ((D -> bool) * (D -> D));
  row_dst : option S
}.
Arguments Row {S E D}.
Arguments row_src {S E D}.
Arguments row_on {S E D}.
Arguments row_dst {S E D}.

Section Tables.
Context {S E D : Type} `{EqDecision S}.

(** The first row of the table that is for the state and the event and whose
    guard holds: its action and its target. *)
Fixpoint enabled (tbl : list (row S E D)) (s : S) (e : sml_event E) (d : D)
    : option ((D -> D) * option S) :=
  match tbl with
  | [] => None
  | r :: tbl =>
      match row_on r e with
      | Some (g, a) =>
          if bool_decide (row_src r = s) && g d then Some (a, row_dst r) else enabled tbl s e d
      | None => enabled tbl s e d
      end
  end.

(** The action of the entry or exit row of a state. *)
Definition run_internal (tbl : list (row S E D)) (s : S) (e : sml_event E) (d : D) : D :=
  match enabled tbl s e d with
  | Some (a, _) => a d
  | None => d
  end.

(** The interpreter. *)
Definition interpret (tbl : list (row S E D)) (e : E) (s : S) (d : D) : S * D :=
  match enabled tbl s (event e) d with
  | None => (s, d)
  | Some (a, None) => (s, a d)
  | Some (a, Some s') => (s', run_internal tbl s' on_entry (a (run_internal tbl s on_exit d)))
  end.

End Tables.

(** The operations of [boost::sml::sm] that the code uses. *)
Class Sml := {
  process_event {S E D : Type} `{EqDecision S} :
    list (row S E D) -> E -> S -> D -> S * D;
  start_machine {S E D : Type} `{EqDecision S} :
    list (row S E D) -> S -> D -> S * D
}.

Class SmlLaws `{Sml} : Prop := {
  sml_ignored {S E D} `{EqDecision S} (tbl : list (row S E D)) e s d :
    enabled tbl s (event e) d = None -> process_event tbl e s d = (s, d);
  sml_internal {S E D} `{EqDecision S} (tbl : list (row S E D)) e s d a :
    enabled tbl s (event e) d = Some (a, None) -> process_event tbl e s d = (s, a d);
  sml_external {S E D} `{EqDecision S} (tbl : list (row S E D)) e s d a s' :
    enabled tbl s (event e) d = Some (a, Some s') ->
    process_event tbl e s d =
      (s', run_internal tbl s' on_entry (a (run_internal tbl s on_exit d)));
  sml_start {S E D} `{EqDecision S} (tbl : list (row S E D)) s d :
    start_machine tbl s d = (s, run_internal tbl s on_entry d)
}.

#[export] Instance sml_reference : Sml := {|
  process_event _ _ _ _ := interpret;
  start_machine _ _ _ _ tbl s d := (s, run_internal tbl s on_entry d)
|}.

#[export] Instance sml_reference_laws : SmlLaws.
Proof.
  split; try done; simpl; unfold interpret; intros S E D ? tbl e s d.
  - by intros ->.
  - by intros a ->.
  - by intros a s' ->.
Qed.

(** The laws determine [process_event]. *)
Lemma process_event_interpret `{SmlLaws} {S E D} `{EqDecision S} (tbl : list (row S E D)) e s d :
  process_event tbl e s d = interpret tbl e s d.
Proof.
  unfold interpret. destruct (enabled tbl s (event e) d) as [[a [s'|]]|] eqn:He.
  - by apply sml_external.
  - by apply sml_internal.
  - by apply sml_ignored.
Qed.
