(* ===== verification/StateMachine.v ===== *)
(** * [jay::address_state_machine] ([include/jay/address_state_machine.hpp])

    The machine that gets an address for one NAME: its states, events, guards,
    actions and transition table, as they stand in the source.  The outputs are
    the six optional callbacks; a callback may change the world [W] around the
    machine, of which the guards only see the network. *)

From S2P Require Import Prelude J1939Type Name Network Sml.

(** ** States and events *)

Inductive st := st_no_address | st_claiming | st_has_address | st_address_lost.

#[export] Instance st_eq_dec : EqDecision st.
Proof. solve_decision. Defined.

(** The NAME of [ev_address_claim] is a [name_t]. *)
Inductive ev :=
| ev_start_claim (pref_address : Z)
| ev_address_claim (name_value address : Z)
| ev_address_request (destination_address : Z)
| ev_timeout
| ev_random_retry
| ev_restart.

Section StateMachine.
Context {W : Type} (network_of : W -> network).

(** [struct callbacks]: an empty [std::function] is [None]. *)
Record callbacks := Callbacks {
  cb_on_address : option (name -> Z -> W -> W);
  cb_on_lose_address : option (name -> W -> W);
  cb_on_begin_claiming : option (W -> W);
  cb_on_address_claim : option (name -> Z -> W -> W);
  cb_on_request : option (W -> W);
  cb_on_cannot_claim : option (name -> W -> W)
}.

Record address_state_machine := AddressStateMachine { sm_name_ : name; callbacks_ : callbacks }.

Definition no_callbacks : callbacks := Callbacks None None None None None None.

(** The constructor without callbacks, and [set_callbacks]. *)
Definition address_state_machine_init (n : name) : address_state_machine :=
  AddressStateMachine n no_callbacks.
Definition set_callbacks (cbs : callbacks) (self : address_state_machine) : address_state_machine :=
  AddressStateMachine (sm_name_ self) cbs.

(** The constructor with callbacks asserts that all of them are set; [None] is a
    failed assertion. *)
Definition address_state_machine_of (n : name) (cbs : callbacks) : option address_state_machine :=
  match cbs with
  | Callbacks (Some _) (Some _) (Some _) (Some _) (Some _) (Some _) => Some (AddressStateMachine n cbs)
  | _ => None
  end.

Definition sm_get_name (self : address_state_machine) : name := sm_name_ self.

(** The dependencies of the machine: the data of the states [st_claiming] and
    [st_has_address], the event [ev_start_claim] that an action gets when it
    runs for another event, and the world with the network. *)
Record deps := Deps {
  claiming_address : Z;
  has_address_address : Z;
  dep_pref_address : Z;
  world : W
}.

Definition dep_network (d : deps) : network := network_of (world d).
Definition set_claiming (a : Z) (d : deps) : deps :=
  Deps a (has_address_address d) (dep_pref_address d) (world d).
Definition set_has_address (a : Z) (d : deps) : deps :=
  Deps (claiming_address d) a (dep_pref_address d) (world d).
Definition on_world (f : W -> W) (d : deps) : deps :=
  Deps (claiming_address d) (has_address_address d) (dep_pref_address d) (f (world d)).

(** [if (f) { f(...); }] *)
Definition call {A} (f : option A) (use : A -> W -> W) (d : deps) : deps :=
  match f with Some g => on_world (use g) d | None => d end.

(** ** Guards *)

Section Guards.
Context (self : address_state_machine).

Definition no_address_available (net : network) : bool := full net.
Definition address_available (net : network) : bool := negb (full net).
Definition address_priority (n : name) : bool := name_lt (sm_name_ self) n.
Definition address_conflict (l_address r_address : Z) : bool := l_address =? r_address.

Definition address_change_required (n : name) (l_address r_address : Z) : bool :=
  address_conflict l_address r_address && negb (address_priority n).

Definition retry_allowed (net : network) : bool :=
  negb (self_config_address (sm_name_ self) =? 0) && address_available net.
Definition retry_disallowed (net : network) : bool := negb (retry_allowed net).

Definition claiming_priority (n a : Z) (d : deps) : bool :=
  address_conflict (claiming_address d) a && address_priority (Name n).

Definition claiming_loss (n a : Z) (d : deps) : bool :=
  address_change_required (Name n) a (claiming_address d) && address_available (dep_network d).

Definition claiming_failure (n a : Z) (d : deps) : bool :=
  address_change_required (Name n) a (claiming_address d) && no_address_available (dep_network d).

Definition claimed_priority (n a : Z) (d : deps) : bool :=
  address_conflict (has_address_address d) a && address_priority (Name n).

Definition claimed_loss (n a : Z) (d : deps) : bool :=
  address_change_required (Name n) a (has_address_address d) && address_available (dep_network d).

Definition claimed_failure (n a : Z) (d : deps) : bool :=
  address_change_required (Name n) a (has_address_address d) && no_address_available (dep_network d).

Definition valid_address (d : deps) : bool :=
  claimable (claiming_address d) (sm_name_ self) (dep_network d)
  || (get_address (sm_name_ self) (dep_network d) <? J1939_IDLE_ADDR).

Definition no_valid_address (d : deps) : bool :=
  negb (claimable (claiming_address d) (sm_name_ self) (dep_network d))
  && (get_address (sm_name_ self) (dep_network d) =? J1939_IDLE_ADDR).

Definition is_global_address_req (destination_address : Z) : bool :=
  destination_address =? J1939_NO_ADDR.

Definition valid_claiming_request (destination_address : Z) (d : deps) : bool :=
  (destination_address =? claiming_address d) || is_global_address_req destination_address.

Definition valid_address_request (destination_address : Z) (d : deps) : bool :=
  (destination_address =? has_address_address d) || is_global_address_req destination_address.

End Guards.

(** ** Actions *)

Section Actions.
Context (self : address_state_machine).

Definition set_pref_address (pref_address : Z) (d : deps) : deps := set_claiming pref_address d.
Definition set_claimed_address (d : deps) : deps := set_has_address (claiming_address d) d.
Definition set_claiming_address (d : deps) : deps := set_claiming (has_address_address d) d.

Definition send_address_claim (address : Z) (d : deps) : deps :=
  call (cb_on_address_claim (callbacks_ self)) (fun f => f (sm_name_ self) address) d.

Definition send_request (d : deps) : deps :=
  call (cb_on_request (callbacks_ self)) (fun f => f) d.

Definition claim_address (d : deps) : deps :=
  let d := set_claiming (find_address (sm_name_ self) (claiming_address d) (dep_network d)) d in
  send_address_claim (claiming_address d) d.

Definition begin_claiming_address (d : deps) : deps :=
  claim_address (call (cb_on_begin_claiming (callbacks_ self)) (fun f => f) d).

Definition send_claiming (d : deps) : deps := send_address_claim (claiming_address d) d.
Definition send_claimed (d : deps) : deps := send_address_claim (has_address_address d) d.

Definition send_cannot_claim (d : deps) : deps :=
  call (cb_on_cannot_claim (callbacks_ self)) (fun f => f (sm_name_ self)) d.

Definition notify_address_gain (d : deps) : deps :=
  call (cb_on_address (callbacks_ self)) (fun f => f (sm_name_ self) (has_address_address d)) d.

Definition notify_address_loss (d : deps) : deps :=
  call (cb_on_lose_address (callbacks_ self)) (fun f => f (sm_name_ self)) d.

End Actions.

(** ** The transition table *)

(** The trigger of a row with its guard and action; an absent guard is
    [always], an absent action [skip]. *)
Definition trigger := sml_event ev -> option ((deps -> bool) * (deps -> deps)).

Definition always {A} (_ : A) : bool := true.
Definition skip (d : deps) : deps := d.

Definition when_entry (g : deps -> bool) (a : deps -> deps) : trigger := fun e =>
  match e with on_entry => Some (g, a) | _ => None end.
Definition when_exit (g : deps -> bool) (a : deps -> deps) : trigger := fun e =>
  match e with on_exit => Some (g, a) | _ => None end.
Definition when_start_claim (g : deps -> bool) (a : Z -> deps -> deps) : trigger := fun e =>
  match e with event (ev_start_claim p) => Some (g, a p) | _ => None end.
Definition when_address_claim (g : Z -> Z -> deps -> bool) (a : deps -> deps) : trigger := fun e =>
  match e with event (ev_address_claim n x) => Some (g n x, a) | _ => None end.
Definition when_address_request (g : Z -> deps -> bool) (a : deps -> deps) : trigger := fun e =>
  match e with event (ev_address_request x) => Some (g x, a) | _ => None end.
Definition when_timeout (g : deps -> bool) (a : deps -> deps) : trigger := fun e =>
  match e with event ev_timeout => Some (g, a) | _ => None end.
Definition when_random_retry (g : deps -> bool) (a : deps -> deps) : trigger := fun e =>
  match e with event ev_random_retry => Some (g, a) | _ => None end.
Definition when_restart (g : deps -> bool) (a : deps -> deps) : trigger := fun e =>
  match e with event ev_restart => Some (g, a) | _ => None end.

(** [operator()]: the table.  [act_set_pref_address] takes an [ev_start_claim];
    in the row for [ev_random_retry] it is the one among the dependencies. *)
Definition transition_table (self : address_state_machine) : list (row st ev deps) :=
  [ (* No Address *)
    Row st_no_address (when_entry (fun d => address_available (dep_network d)) (send_request self)) None;
    Row st_no_address (when_address_request (fun a _ => is_global_address_req a) (send_cannot_claim self)) None;
    Row st_no_address (when_start_claim (fun d => address_available (dep_network d)) set_pref_address)
      (Some st_claiming);
    Row st_no_address (when_start_claim (fun d => no_address_available (dep_network d))
      (fun _ => send_cannot_claim self)) None;
    Row st_no_address (when_restart always skip) (Some st_no_address);
    (* Claiming *)
    Row st_claiming (when_entry always (begin_claiming_address self)) None;
    Row st_claiming (when_address_claim (claiming_priority self) (send_claiming self)) None;
    Row st_claiming (when_address_claim (claiming_loss self) (begin_claiming_address self)) None;
    Row st_claiming (when_address_claim (claiming_failure self) skip) (Some st_address_lost);
    Row st_claiming (when_timeout (valid_address self) set_claimed_address) (Some st_has_address);
    Row st_claiming (when_timeout (no_valid_address self) skip) (Some st_no_address);
    Row st_claiming (when_address_request valid_claiming_request (send_claiming self)) None;
    (* Has Address *)
    Row st_has_address (when_entry always (notify_address_gain self)) None;
    Row st_has_address (when_address_request valid_address_request (send_claimed self)) None;
    Row st_has_address (when_address_claim (claimed_priority self) (send_claimed self)) None;
    Row st_has_address (when_address_claim (claimed_loss self) set_claiming_address) (Some st_claiming);
    Row st_has_address (when_address_claim (claimed_failure self) skip) (Some st_address_lost);
    Row st_has_address (when_exit always (notify_address_loss self)) None;
    (* Address Lost *)
    Row st_address_lost (when_entry always (send_cannot_claim self)) None;
    Row st_address_lost (when_address_request (fun a _ => is_global_address_req a) (send_cannot_claim self)) None;
    Row st_address_lost (when_random_retry (fun d => retry_allowed self (dep_network d))
      (fun d => set_pref_address (dep_pref_address d) d)) (Some st_claiming);
    Row st_address_lost (when_random_retry (fun d => retry_disallowed self (dep_network d))
      (send_cannot_claim self)) (Some st_no_address) ].

(** [sm.process_event(e)] and the start of the machine in its constructor. *)
Definition sm_process `{Sml} (self : address_state_machine) (e : ev) (s : st) (d : deps) : st * deps :=
  process_event (transition_table self) e s d.
Definition sm_start `{Sml} (self : address_state_machine) (d : deps) : st * deps :=
  start_machine (transition_table self) st_no_address d.

End StateMachine.

Arguments callbacks : clear implicits.
Arguments address_state_machine : clear implicits.
Arguments deps : clear implicits.
