(* ===== verification/AddressClaimer.v ===== *)
(** * [jay::address_claimer] ([include/jay/address_claimer.hpp])

    The wrapper that drives the state machine from frames and timers.  The
    [boost::asio] context is not part of this repository: what runs, and when a
    timer expires, is chosen by the environment, one [input] at a time, within
    the documented behaviour of [post] (the handler is queued and runs later),
    [async_wait] (the handler is queued when the timer expires) and
    [expires_from_now] (the pending wait is cancelled: its handler is queued
    with [operation_aborted]; a handler that is already queued is not affected).
    The queue may be served in any order.  The logger is in Logger.v. *)

From Stdlib Require Import String.
From S2P Require Import Prelude J1939Type Canary Header Name Frame Network Sml StateMachine.

(** The values of [boost::system::error_code] that the code distinguishes. *)
Inductive error_code := no_error | operation_aborted | address_in_use | other_error.

Section AddressClaimer.
Context `{CanaryHeader} `{Sml}.

(** The handlers that the code passes to [timeout_timer_.async_wait]. *)
Inductive handler :=
| start_claim_delay (preferred_address : Z)
| claim_timeout
| cannot_claim_timeout (n : name).

(** What is queued in the context. *)
Inductive task := posted_event (e : ev) | timer_done (h : handler) (ec : error_code).

(** Calls of the user's callbacks, in order. *)
Inductive output :=
| out_frame (f : frame)
| out_error (what : string) (ec : error_code)
| out_address (n : name) (address : Z)
| out_lose_address (n : name)
| out_new_name (n : name) (address : Z).

(** Which of the user's callbacks are installed. *)
Record hooks := Hooks {
  on_address_ : bool;
  on_lose_address_ : bool;
  on_frame_ : bool;
  on_error_ : bool
}.

(** The world of the state machine: the network, the timer with its pending
    wait, the queue of the context, the outputs. *)
Record cworld := CWorld {
  network_ : network;
  timeout_timer_ : option handler;
  context_ : list task;
  hooks_ : hooks;
  outputs : list output
}.

Definition with_network (net : network) (w : cworld) : cworld :=
  CWorld net (timeout_timer_ w) (context_ w) (hooks_ w) (outputs w).
Definition with_context (q : list task) (w : cworld) : cworld :=
  CWorld (network_ w) (timeout_timer_ w) q (hooks_ w) (outputs w).
Definition with_hooks (h : hooks) (w : cworld) : cworld :=
  CWorld (network_ w) (timeout_timer_ w) (context_ w) h (outputs w).
Definition emit (o : output) (w : cworld) : cworld :=
  CWorld (network_ w) (timeout_timer_ w) (context_ w) (hooks_ w) (outputs w ++ [o]).

(** [if (f) f(...)] for the callback selected by [installed]. *)
Definition notify (installed : hooks -> bool) (o : output) (w : cworld) : cworld :=
  if installed (hooks_ w) then emit o w else w.

(** [boost::asio::post(context_, ...)] *)
Definition post (t : task) (w : cworld) : cworld := with_context (context_ w ++ [t]) w.

(** [timeout_timer_.expires_from_now(...)] followed by [async_wait(h)]. *)
Definition async_wait (h : handler) (w : cworld) : cworld :=
  let q := match timeout_timer_ w with
           | Some old => context_ w ++ [timer_done old operation_aborted]
           | None => context_ w
           end in
  CWorld (network_ w) (Some h) q (hooks_ w) (outputs w).

(** [network_.insert(...)] with the calls of the network's own callback. *)
Definition network_insert (n : name) (address : Z) (w : cworld) : bool * cworld :=
  let '(r, net, calls) := insert n address (network_ w) in
  (r, foldl (fun w '(n, a) => emit (out_new_name n a) w) (with_network net w) calls).

(** ** The callbacks of the state machine *)

Definition on_address (n : name) (address : Z) (w : cworld) : cworld :=
  notify on_address_ (out_address n address) (snd (network_insert n address w)).

Definition on_address_loss (n : name) (w : cworld) : cworld :=
  notify on_lose_address_ (out_lose_address n) (with_network (release n (network_ w)) w).

Definition on_begin_claiming (w : cworld) : cworld := async_wait claim_timeout w.

Definition on_address_claim (n : name) (address : Z) (w : cworld) : cworld :=
  notify on_frame_ (out_frame (make_address_claim n address)) w.

Definition on_address_request (w : cworld) : cworld :=
  notify on_frame_ (out_frame make_global_address_request) w.

Definition on_cannot_claim (n : name) (w : cworld) : cworld := async_wait (cannot_claim_timeout n) w.

Definition on_fail (what : string) (ec : error_code) (w : cworld) : cworld :=
  match ec with
  | operation_aborted => w
  | _ => notify on_error_ (out_error what ec) w
  end.

(** ** The claimer *)

Record claimer := Claimer {
  addr_claimer_ : address_state_machine cworld;
  state_machine_ : st;
  deps_ : deps cworld
}.

Definition claimer_callbacks : callbacks cworld :=
  Callbacks (Some on_address) (Some on_address_loss) (Some on_begin_claiming)
    (Some on_address_claim) (Some on_address_request) (Some on_cannot_claim).

(** The constructor: the machine is started before its callbacks are set. *)
Definition address_claimer (context : list task) (n : name) (net : network) : claimer :=
  let sm := address_state_machine_init n in
  let w := CWorld net None context (Hooks false false false false) [] in
  let '(s, d) := sm_start network_ sm (Deps J1939_NO_ADDR J1939_NO_ADDR 0 w) in
  Claimer (set_callbacks claimer_callbacks sm) s d.

Definition on_claimer_world (f : cworld -> cworld) (c : claimer) : claimer :=
  Claimer (addr_claimer_ c) (state_machine_ c) (on_world f (deps_ c)).

Definition cworld_of (c : claimer) : cworld := world (deps_ c).

(** [on_address_claimed], [on_address_lost], [on_frame] and [on_error]. *)
Definition on_address_claimed (c : claimer) : claimer :=
  on_claimer_world (fun w => with_hooks (Hooks true (on_lose_address_ (hooks_ w))
    (on_frame_ (hooks_ w)) (on_error_ (hooks_ w))) w) c.
Definition on_address_lost (c : claimer) : claimer :=
  on_claimer_world (fun w => with_hooks (Hooks (on_address_ (hooks_ w)) true
    (on_frame_ (hooks_ w)) (on_error_ (hooks_ w))) w) c.
Definition on_frame (c : claimer) : claimer :=
  on_claimer_world (fun w => with_hooks (Hooks (on_address_ (hooks_ w))
    (on_lose_address_ (hooks_ w)) true (on_error_ (hooks_ w))) w) c.
Definition on_error (c : claimer) : claimer :=
  on_claimer_world (fun w => with_hooks (Hooks (on_address_ (hooks_ w))
    (on_lose_address_ (hooks_ w)) (on_frame_ (hooks_ w)) true) w) c.

Definition claimer_get_name (c : claimer) : name := sm_get_name (addr_claimer_ c).

(** [state_machine_.process_event(e)] *)
Definition claimer_event (e : ev) (c : claimer) : claimer :=
  let '(s, d) := sm_process network_ (addr_claimer_ c) e (state_machine_ c) (deps_ c) in
  Claimer (addr_claimer_ c) s d.

Definition address_claim (n a : Z) (c : claimer) : claimer :=
  on_claimer_world (post (posted_event (ev_address_claim n a))) c.

Definition address_request (destination_address : Z) (c : claimer) : claimer :=
  on_claimer_world (post (posted_event (ev_address_request destination_address))) c.

Definition process_claim (n : name) (address_claimed : Z) (c : claimer) : claimer :=
  let '(r, w) := network_insert n address_claimed (cworld_of c) in
  let c := on_claimer_world (fun _ => w) c in
  if negb r then
    on_claimer_world (notify on_error_ (out_error "on_frame_address_claim" address_in_use)) c
  else address_claim (to_name_t n) address_claimed c.

Definition process_request (destination_address : Z) (c : claimer) : claimer :=
  address_request destination_address c.

Definition process (f : frame) (c : claimer) : claimer :=
  if is_claim (header f) then process_claim (name_of_payload (payload f)) (source_address (header f)) c
  else if is_request (header f) then process_request (pdu_specific (header f)) c
  else c.

Definition start_address_claim (preferred_address : Z) (c : claimer) : claimer :=
  if negb (bool_decide (state_machine_ c = st_no_address)) then c
  else
    let c := on_claimer_world (post (posted_event ev_restart)) c in
    on_claimer_world (async_wait (start_claim_delay preferred_address)) c.

(** ** The handlers *)

Definition run_handler (h : handler) (ec : error_code) (c : claimer) : claimer :=
  match h with
  | start_claim_delay preferred_address =>
      match ec with
      | no_error => claimer_event (ev_start_claim preferred_address) c
      | _ => on_claimer_world (on_fail "start_claim_delay" ec) c
      end
  | claim_timeout =>
      match ec with
      | no_error => claimer_event ev_timeout c
      | _ => on_claimer_world (on_fail "on_claim_timeout" ec) c
      end
  | cannot_claim_timeout n =>
      match ec with
      | no_error =>
          let c := on_claimer_world (notify on_frame_
            (out_frame (make_cannot_claim (name_of_payload (name_to_payload n))))) c in
          if negb (self_config_address n =? 0)
          then on_claimer_world (post (posted_event ev_random_retry)) c
          else c
      | _ => on_claimer_world (on_fail "on_claim_timeout" ec) c
      end
  end.

Definition run_task (t : task) (c : claimer) : claimer :=
  match t with
  | posted_event e => claimer_event e c
  | timer_done h ec => run_handler h ec c
  end.

(** ** The environment *)

(** A frame arrives, the user starts a claim, the context runs the [k]-th
    queued task, the timer expires (or its wait fails). *)
Inductive input :=
| in_frame (f : frame)
| in_start (preferred_address : Z)
| in_run (k : nat)
| in_expire (failed : bool).

Definition take_task (k : nat) (w : cworld) : option (task * cworld) :=
  match context_ w !! k with
  | Some t => Some (t, with_context (delete k (context_ w)) w)
  | None => None
  end.

Definition expire (failed : bool) (w : cworld) : cworld :=
  match timeout_timer_ w with
  | Some h =>
      CWorld (network_ w) None
        (context_ w ++ [timer_done h (if failed then other_error else no_error)]) (hooks_ w) (outputs w)
  | None => w
  end.

Definition step (i : input) (c : claimer) : claimer :=
  match i with
  | in_frame f => process f c
  | in_start p => start_address_claim p c
  | in_run k =>
      match take_task k (cworld_of c) with
      | Some (t, w) => run_task t (on_claimer_world (fun _ => w) c)
      | None => c
      end
  | in_expire failed => on_claimer_world (expire failed) c
  end.

Definition run (inputs : list input) (c : claimer) : claimer :=
  foldl (fun c i => step i c) c inputs.

End AddressClaimer.
