(* ===== verification/Logger.v ===== *)
(** * The logger of the address claimer ([include/jay/address_claimer.hpp])

    [address_claimer_logger] turns what [boost::sml] reports of a running machine
    into lines of text for the callback set by [on_log].  Which reports are made,
    the names of types and states and [boost::format] belong to boost: they are
    parameters, the last one with its documented rule, [%N%] stands for the
    [N]-th argument. *)

From Stdlib Require Import String Ascii.
From S2P Require Import Prelude Canary StateMachine Sml AddressClaimer.

Local Open Scope string_scope.

(** ** [boost::format] *)

(** The [i]-th argument of a directive [%i%], for [i] from 1 to 9. *)
Definition argument (args : list string) (c : ascii) : option string :=
  args !! (nat_of_ascii c - 49)%nat.

(** The directives [%1%] to [%9%] of a format replaced by the arguments. *)
Fixpoint substitute (args : list string) (f : string) : string :=
  match f with
  | String "%" (String c (String "%" rest as rest')) =>
      match argument args c with
      | Some a => append a (substitute args rest)
      | None => String "%" (String c (substitute args rest'))
      end
  | String c rest => String c (substitute args rest)
  | EmptyString => EmptyString
  end.

(** [(boost::format(f) % a1 % ... % an).str()] *)
Class BoostFormat := format : string -> list string -> string.
Class BoostFormatLaws `{BoostFormat} : Prop :=
  format_spec f args : format f args = substitute args f.

#[export] Instance format_reference : BoostFormat := fun f args => substitute args f.
#[export] Instance format_reference_laws : BoostFormatLaws.
Proof. done. Qed.

(** ** The logger *)

(** What [boost::sml] reports, with the names that [get_type_name] and [c_str]
    give: an event, a guard with its result, an action, a change of state. *)
Inductive report :=
| rep_process_event (sm event : string)
| rep_guard (sm guard event : string) (pass : bool)
| rep_action (sm action event : string)
| rep_state_change (sm s d : string).

(** The callback (installed or not) with the lines it got. *)
Record logger := Logger { on_log_ : bool; log_lines : list string }.

Definition on_log (installed : bool) (l : logger) : logger := Logger installed (log_lines l).

Section Log.
Context `{BoostFormat}.

(** [if (on_log_) { on_log_(...); }] *)
Definition log_text (f : string) (args : list string) (l : logger) : logger :=
  if on_log_ l then Logger (on_log_ l) (log_lines l ++ [format f args])%list else l.

Definition log_process_event (sm event : string) : logger -> logger :=
  log_text "[%1%] process %2%" [sm; event].

Definition log_guard (sm guard event : string) (pass : bool) : logger -> logger :=
  log_text "[%1%] guard  %2%  [%3%]" [sm; guard; if pass then "OK" else "Reject"].

Definition log_action (sm action event : string) : logger -> logger :=
  log_text "[%1%] action %2%" [sm; action].

Definition log_state_change (sm s d : string) : logger -> logger :=
  log_text "[%1%] %2%  →  %3%" [sm; s; d].

Definition log_report (r : report) : logger -> logger :=
  match r with
  | rep_process_event sm e => log_process_event sm e
  | rep_guard sm guard e pass => log_guard sm guard e pass
  | rep_action sm action e => log_action sm action e
  | rep_state_change sm s d => log_state_change sm s d
  end.

(** An event of the claimer's machine, with the reports that [boost::sml] makes
    of it. *)
Definition logged_event `{CanaryHeader} `{Sml}
    (reports : claimer -> ev -> list report) (e : ev) (cl : claimer * logger) : claimer * logger :=
  (claimer_event e (fst cl), foldl (fun l r => log_report r l) (snd cl) (reports (fst cl) e)).

(** ** What is logged *)

(** The text of a report. *)
Definition report_text (r : report) : string :=
  match r with
  | rep_process_event sm e => "[" ++ sm ++ "] process " ++ e
  | rep_guard sm guard _ pass => "[" ++ sm ++ "] guard  " ++ guard ++ "  [" ++ (if pass then "OK" else "Reject") ++ "]"
  | rep_action sm action _ => "[" ++ sm ++ "] action " ++ action
  | rep_state_change sm s d => "[" ++ sm ++ "] " ++ s ++ "  →  " ++ d
  end.

Lemma argument_1 a l : argument (a :: l) "1" = Some a.
Proof. done. Qed.
Lemma argument_2 a b l : argument (a :: b :: l) "2" = Some b.
Proof. done. Qed.
Lemma argument_3 a b c l : argument (a :: b :: c :: l) "3" = Some c.
Proof. done. Qed.

Lemma append_empty s : s ++ "" = s.
Proof. induction s as [|c s IH]; [done|]. change (String c (s ++ "") = String c s). by rewrite IH. Qed.

Lemma log_report_text `{!BoostFormatLaws} r l :
  log_report r l = if on_log_ l then Logger true (log_lines l ++ [report_text r])%list else l.
Proof.
  destruct l as [[] lines]; [|by destruct r].
  destruct r as [sm e|sm guard e []|sm action e|sm s d]; cbn [log_report];
    unfold log_process_event, log_guard, log_action, log_state_change, log_text; cbn [on_log_ log_lines];
    rewrite format_spec; cbn -[append argument];
    rewrite ?argument_1, ?argument_2, ?argument_3, ?append_empty; reflexivity.
Qed.

(** The machine does not see the logger; with a callback every report of an event
    is one line, in order, and without one nothing is logged. *)
Theorem logging_reports_events `{!BoostFormatLaws} `{CanaryHeader} `{Sml} reports e c l :
  logged_event reports e (c, l) =
    (claimer_event e c,
     Logger (on_log_ l) (log_lines l ++ if on_log_ l then report_text <$> reports c e else []))%list.
Proof.
  unfold logged_event. cbn [fst snd]. f_equal. generalize (reports c e) as rs. intros rs. revert l.
  induction rs as [|r rs IH]; intros [b lines]; cbn.
  - by destruct b; rewrite app_nil_r.
  - rewrite log_report_text. cbn. destruct b; rewrite IH; cbn; [by rewrite <- app_assoc|done].
Qed.

End Log.
