(* ===== verification/StateMachineFacts.v ===== *)
(** * Theorems about the address state machine

    The transition table, run by [boost::sml], is the machine written out by
    cases on the state and the event ([direct]); no two rows of the table
    compete, so their order does not matter. *)

From S2P Require Import Prelude J1939Type Name Network Sml StateMachine.

(** ** Tables in which no two rows compete *)

Section Exclusive.
Context {S E D : Type} `{EqDecision S}.

(** What a row does for a state and an event. *)
Definition fires (s : S) (e : sml_event E) (d : D) (r : row S E D) : option ((D -> D) * option S) :=
  match row_on r e with
  | Some (g, a) => if bool_decide (row_src r = s) && g d then Some (a, row_dst r) else None
  | None => None
  end.

Lemma enabled_head (tbl : list (row S E D)) s e d :
  enabled tbl s e d = head (omap (fires s e d) tbl).
Proof.
  induction tbl as [|r tbl IH]; simpl; [done|]. unfold fires at 1.
  destruct (row_on r e) as [[g a]|]; [|done]. by destruct (_ && _).
Qed.

(** At most one row is enabled. *)
Definition exclusive (tbl : list (row S E D)) : Prop :=
  forall s e d, (length (omap (fires s e d) tbl) <= 1)%nat.

Lemma enabled_permutation (tbl tbl' : list (row S E D)) s e d :
  exclusive tbl -> tbl' ≡ₚ tbl -> enabled tbl' s e d = enabled tbl s e d.
Proof.
  intros Hex Hp. rewrite !enabled_head. specialize (Hex s e d).
  assert (Ho : omap (fires s e d) tbl' ≡ₚ omap (fires s e d) tbl) by (by rewrite Hp).
  destruct (omap _ tbl) as [|x [|y l]]; simpl in *; [| |lia].
  - by apply Permutation_nil_r in Ho as ->.
  - by apply Permutation_singleton_r in Ho as ->.
Qed.

Lemma interpret_permutation (tbl tbl' : list (row S E D)) e s d :
  exclusive tbl -> tbl' ≡ₚ tbl -> interpret tbl' e s d = interpret tbl e s d.
Proof.
  intros Hex Hp. unfold interpret, run_internal.
  rewrite (enabled_permutation tbl tbl') by done.
  destruct (enabled tbl s (event e) d) as [[a [s'|]]|]; [|done..].
  by rewrite !(enabled_permutation tbl tbl').
Qed.

End Exclusive.

(** ** The machine by cases *)

Section Direct.
Context {W : Type} (network_of : W -> network).
Notation deps := (deps W).
Notation address_state_machine := (address_state_machine W).

Section Entry.
Context (self : address_state_machine).

Definition enter_no_address (d : deps) : st * deps :=
  (st_no_address, if full (dep_network network_of d) then d else send_request self d).
Definition enter_claiming (a : Z) (d : deps) : st * deps :=
  (st_claiming, begin_claiming_address network_of self (set_claiming a d)).
Definition enter_has_address (a : Z) (d : deps) : st * deps :=
  (st_has_address, notify_address_gain self (set_has_address a d)).
Definition enter_address_lost (d : deps) : st * deps := (st_address_lost, send_cannot_claim self d).

(** An address claim of a NAME, for the address [own] of the machine: keep the
    address if the own NAME is smaller, else look for another one, or give up
    when the network is full. *)
Definition contest (own : Z) (n a : Z) (d : deps) (keep lose fail_ : st * deps) (s : st) : st * deps :=
  if negb (a =? own) then (s, d)
  else if name_lt (sm_name_ self) (Name n) then keep
  else if full (dep_network network_of d) then fail_
  else lose.

Definition direct (e : ev) (s : st) (d : deps) : st * deps :=
  let net := dep_network network_of d in
  match s, e with
  | st_no_address, ev_start_claim p =>
      if full net then (s, send_cannot_claim self d) else enter_claiming p d
  | st_no_address, ev_address_request a =>
      (s, if a =? J1939_NO_ADDR then send_cannot_claim self d else d)
  | st_no_address, ev_restart => enter_no_address d
  | st_claiming, ev_address_claim n a =>
      contest (claiming_address d) n a d
        (s, send_claiming self d)
        (s, begin_claiming_address network_of self d)
        (enter_address_lost d) s
  | st_claiming, ev_timeout =>
      if claimable (claiming_address d) (sm_name_ self) net
         || (get_address (sm_name_ self) net <? J1939_IDLE_ADDR)
      then enter_has_address (claiming_address d) d
      else if get_address (sm_name_ self) net =? J1939_IDLE_ADDR then enter_no_address d
      else (s, d)
  | st_claiming, ev_address_request a =>
      (s, if (a =? claiming_address d) || (a =? J1939_NO_ADDR) then send_claiming self d else d)
  | st_has_address, ev_address_request a =>
      (s, if (a =? has_address_address d) || (a =? J1939_NO_ADDR) then send_claimed self d else d)
  | st_has_address, ev_address_claim n a =>
      contest (has_address_address d) n a d
        (s, send_claimed self d)
        (enter_claiming (has_address_address (notify_address_loss self d)) (notify_address_loss self d))
        (enter_address_lost (notify_address_loss self d)) s
  | st_address_lost, ev_address_request a =>
      (s, if a =? J1939_NO_ADDR then send_cannot_claim self d else d)
  | st_address_lost, ev_random_retry =>
      if negb (self_config_address (sm_name_ self) =? 0) && negb (full net)
      then enter_claiming (dep_pref_address d) d
      else enter_no_address (send_cannot_claim self d)
  | _, _ => (s, d)
  end.

End Entry.

Ltac guards :=
  unfold claiming_priority, claiming_loss, claiming_failure, claimed_priority, claimed_loss,
    claimed_failure, address_change_required, address_conflict, address_priority,
    no_address_available, address_available, retry_disallowed, retry_allowed,
    valid_address, no_valid_address, valid_claiming_request, valid_address_request,
    is_global_address_req, address_available in *.

(** Case analysis on the atomic conditions of the goal. *)
Ltac cond_cases :=
  repeat match goal with
  | |- context [full ?x] => destruct (full x)
  | |- context [name_lt ?x ?y] => destruct (name_lt x y)
  | |- context [claimable ?x ?y ?z] => destruct (claimable x y z)
  | |- context [?x =? ?y] => destruct (x =? y)
  | |- context [?x <? ?y] => destruct (x <? y)
  end.

(** Unfolds the table for a known state and event. *)
Ltac table_simpl H :=
  cbv [run_internal enabled omap list_omap fires transition_table row_on row_src row_dst
    when_entry when_exit when_start_claim when_address_claim when_address_request when_timeout
    when_random_retry when_restart always skip
    bool_decide decide decide_rel st_eq_dec st_rec st_rect andb length] in H.

Lemma entry_action self s d :
  run_internal (transition_table network_of self) s on_entry d =
    match s with
    | st_no_address => if full (dep_network network_of d) then d else send_request self d
    | st_claiming => begin_claiming_address network_of self d
    | st_has_address => notify_address_gain self d
    | st_address_lost => send_cannot_claim self d
    end.
Proof. 
  destruct s; try done. unfold run_internal.
  remember (enabled _ _ _ d) as o eqn:Ho. table_simpl Ho. revert Ho. guards.
  by destruct (full _); intros ->.
Qed.

Lemma exit_action self s d :
  run_internal (transition_table network_of self) s on_exit d =
    match s with st_has_address => notify_address_loss self d | _ => d end.
Proof. by destruct s. Qed.

(** One state and event at a time: the enabled row, then its actions. *)
Lemma interpret_table self e s d :
  interpret (transition_table network_of self) e s d = direct self e s d.
Proof.
  unfold interpret. remember (enabled _ s (event e) d) as o eqn:Ho.
  unfold direct, contest.
  destruct s, e; table_simpl Ho; try (by subst); revert Ho; guards;
    rewrite ?(Z.eqb_sym (claiming_address d)), ?(Z.eqb_sym (has_address_address d)).
  all: cond_cases; simpl; intros ->; rewrite ?entry_action, ?exit_action; try done.
Qed.

Lemma table_exclusive self : exclusive (transition_table network_of self).
Proof.
  intros s e d. remember (length _) as k eqn:Hk.
  destruct s, e as [| |[]]; table_simpl Hk; revert Hk; guards;
    rewrite ?(Z.eqb_sym (claiming_address d)), ?(Z.eqb_sym (has_address_address d));
    try (intros ->; lia).
  all: destruct (Z.ltb_spec (get_address (sm_name_ self) (dep_network network_of d)) J1939_IDLE_ADDR) as [Hlt|Hlt];
    [rewrite ?(proj2 (Z.eqb_neq _ _) (Z.lt_neq _ _ Hlt))|]; cond_cases; simpl; intros ->; lia.
Qed.

Context `{SmlLaws}.

Lemma sm_process_direct self e s d : sm_process network_of self e s d = direct self e s d.
Proof. unfold sm_process. rewrite process_event_interpret. apply interpret_table. Qed.

(** C19.  Run by [boost::sml], the transition table is the machine written out by
    cases: for each state and event the next state, the new state data and the
    callbacks in their order. *)
Theorem table_is_direct_machine self e s d :
  sm_process network_of self e s d = direct self e s d.
Proof. apply sm_process_direct. Qed.

(** No two rows of the transition table are enabled together, so the order
    of the rows is irrelevant: any permutation of the table is the same machine. *)
Theorem row_order_is_irrelevant self tbl e s d :
  tbl ≡ₚ transition_table network_of self ->
  process_event tbl e s d = sm_process network_of self e s d.
Proof.
  intros Hp. unfold sm_process. rewrite !process_event_interpret.
  apply interpret_permutation; [apply table_exclusive|done].
Qed.

End Direct.
