(* ===== verification/ClaimerFacts.v ===== *)
(** * The address claimer and the table agree

    For every sequence of frames, starts, timer expirations and queue runs: a
    machine in [st_has_address] holds a unicast address that the table assigns
    to its NAME, or the claim that takes it away is still queued; in every
    other state the table assigns no address to the NAME.  The frames must not
    carry the NAME itself (a NAME is unique on a network). *)

From Stdlib Require Import String.
From stdpp Require Import gmap.
From S2P Require Import Prelude J1939Type Canary Header HeaderFacts Name NameFacts Frame Network.
From S2P Require Import NetworkFacts NetworkSpec NetworkSearch Sml StateMachine StateMachineFacts.
From S2P Require Import AddressClaimer.

(** ** The table around one NAME *)

Section OneName.
Context (N : name).

Lemma registered_other n net : n <> N -> no_stale N net ->
  no_stale N (registered n net) /\
  name_addr_map_ (registered n net) !! N = name_addr_map_ net !! N.
Proof.
  intros Hn Hst. assert (Hfwd : name_addr_map_ (registered n net) !! N = name_addr_map_ net !! N).
  { simpl. rewrite lookup_try_emplace. by rewrite decide_False. }
  split; [|done]. intros b Hb. rewrite Hfwd. by apply Hst.
Qed.

Lemma set_idle_other n net : n <> N -> no_stale N net ->
  no_stale N (set_idle n net) /\
  name_addr_map_ (set_idle n net) !! N = name_addr_map_ net !! N.
Proof.
  intros Hn Hst. assert (Hfwd : name_addr_map_ (set_idle n net) !! N = name_addr_map_ net !! N).
  { unfold set_idle, index. destruct (name_addr_map_ net !! n); simpl;
      by rewrite !lookup_insert_ne by done. }
  split; [|done]. intros b Hb. rewrite Hfwd. apply Hst. revert Hb.
  unfold set_idle, index. destruct (name_addr_map_ net !! n); simpl; rewrite lookup_delete;
    by case_decide.
Qed.

Lemma set_idle_self net : no_stale N net -> is_Some (name_addr_map_ net !! N) ->
  no_stale N (set_idle N net) /\ name_addr_map_ (set_idle N net) !! N = Some J1939_IDLE_ADDR.
Proof.
  intros Hst [a Ha]. rewrite (set_idle_maps N net a Ha). split.
  - intros b Hb. simpl in *. net_cases. apply Hst in Hb. congruence.
  - simpl. by rewrite lookup_insert_eq.
Qed.

(** Another NAME takes an address: nothing changes for [N], or it was the
    occupant and is now idle. *)
Lemma claim_other n a net : n <> N -> no_stale N net ->
  (forall b, addr_name_map_ net !! b = Some N -> b <> a) ->
  no_stale N (fst (claim a true n net)) /\
  name_addr_map_ (fst (claim a true n net)) !! N = name_addr_map_ net !! N.
Proof.
  intros Hn Hst Hfree. simpl. rewrite lookup_insert_ne by done. split; [|done].
  intros b Hb. simpl in *. rewrite lookup_insert_ne by done. apply Hst. net_cases. done.
Qed.

(** Vacating an address adds nothing to the reverse map. *)
Lemma vacated_rev n a net b : addr_name_map_ (vacated n a net) !! b = Some N ->
  addr_name_map_ net !! b = Some N.
Proof.
  unfold vacated. destruct (addr_name_map_ net !! a) as [o|]; [|done].
  destruct (name_ne o n); [|done]. unfold set_idle, index.
  destruct (name_addr_map_ (registered n net) !! o); simpl; rewrite lookup_delete; by case_decide.
Qed.

Lemma vacated_rev_other n a net b : n <> N -> no_stale N net ->
  addr_name_map_ (vacated n a net) !! b = Some N -> b <> a.
Proof.
  intros Hn Hst Hb ->. pose proof (vacated_rev n a net a Hb) as HaN.
  destruct (registered_other n net Hn Hst) as [_ Hfwd].
  assert (HN : name_addr_map_ (registered n net) !! N = Some a) by (rewrite Hfwd; by apply Hst).
  unfold vacated in Hb. rewrite HaN, (proj2 (name_ne_spec N n)), (set_idle_maps N _ a HN) in Hb by done.
  simpl in Hb. by rewrite lookup_delete_eq in Hb.
Qed.

Lemma vacated_no_stale n a net : n <> N -> no_stale N net -> no_stale N (vacated n a net).
Proof.
  intros Hn Hst b Hb. pose proof (vacated_rev_other n a net b Hn Hst Hb) as Hba.
  apply vacated_rev in Hb. rewrite lookup_vacated_other by done. rewrite decide_False; [by apply Hst|].
  intros HaN. apply Hst in Hb, HaN. congruence.
Qed.

Lemma insert_other n a net :
  n <> N -> net_ok net -> no_stale N net -> is_uint 8 a ->
  let '(r, net', _) := insert n a net in
  no_stale N net' /\
  (name_addr_map_ net' !! N = name_addr_map_ net !! N \/
   (r = true /\ name_addr_map_ net !! N = Some a /\ name_lt N n = false /\
    name_addr_map_ net' !! N = Some J1939_IDLE_ADDR)).
Proof.
  intros Hn Hok Hst Ha. destruct (registered_other n net Hn Hst) as [Hrst Hrfwd].
  destruct (decide (unicast a)) as [Hu|Hu].
  - rewrite insert_unicast by done. destruct (refused n a net) eqn:Hr; [by auto|].
    destruct (claim_other n a (vacated n a net)) as [Hc1 Hc2]; [done|by apply vacated_no_stale| |].
    { intros b. by apply vacated_rev_other. }
    split; [done|]. rewrite Hc2, lookup_vacated_other by done. case_decide as HN; [right|by left].
    unfold refused in Hr. rewrite HN, name_gt_lt in Hr. split_and!; try done. by apply Hst.
  - rewrite insert_not_unicast by done. destruct (name_addr_map_ net !! n); [|by auto].
    destruct (a =? J1939_IDLE_ADDR); [|by auto].
    destruct (set_idle_other n net Hn Hst). by auto.
Qed.

(** No unicast address in the table. *)
Definition unaddressed (net : network) : Prop :=
  name_addr_map_ net !! N = None \/ name_addr_map_ net !! N = Some J1939_IDLE_ADDR.

(** The NAME takes an address that is claimable for it. *)
Lemma insert_own a net :
  is_uint 8 a -> net_ok net -> no_stale N net -> unaddressed net -> claimable a N net = true ->
  unicast a /\ no_stale N (inserted N a net) /\ name_addr_map_ (inserted N a net) !! N = Some a.
Proof.
  intros Ha Hok Hst Hun Hc.
  assert (Hno : forall b, addr_name_map_ net !! b <> Some N).
  { intros b Hb. pose proof (ok_rev_unicast _ Hok _ _ Hb). apply Hst in Hb.
    destruct Hun; simplify_eq. by apply not_unicast_idle. }
  unfold claimable in Hc. destruct (J1939_MAX_UNICAST_ADDR <? a) eqn:Hm; [done|].
  apply unicast_ltb in Hm; [|done].
  assert (Hr : refused N a net = false).
  { unfold refused. destruct (addr_name_map_ net !! a) as [o|]; [|done].
    unfold name_gt in *. bool_hyps. bool_cases; lia. }
  unfold inserted. rewrite insert_unicast, Hr by done. simpl.
  split_and!; [done| |by rewrite lookup_insert_eq].
  intros b Hb. simpl in *. rewrite lookup_insert_eq. net_cases; [done|].
  destruct (Hno b). by apply vacated_rev in Hb.
Qed.

End OneName.

(** ** The invariant *)

Section Invariant.
Context `{CanaryHeader} (N : name).

(** The machine of a claimer for [N]. *)
Definition machine : address_state_machine cworld := AddressStateMachine N claimer_callbacks.

(** A claim for address [a] that beats [N] is queued. *)
Definition pending_loss (a : Z) (q : list task) : Prop :=
  exists n, posted_event (ev_address_claim n a) ∈ q /\ name_lt N (Name n) = false.

(** The table is well formed and assigns no address to [N]. *)
Definition settled (d : deps cworld) : Prop :=
  net_ok (network_ (world d)) /\ no_stale N (network_ (world d)) /\ unaddressed N (network_ (world d)).

Definition agree (s : st) (d : deps cworld) : Prop :=
  let net := network_ (world d) in
  match s with
  | st_has_address =>
      let a := has_address_address d in
      net_ok net /\ no_stale N net /\ unicast a /\
      (name_addr_map_ net !! N = Some a \/
       (name_addr_map_ net !! N = Some J1939_IDLE_ADDR /\ pending_loss a (context_ (world d))))
  | st_claiming => settled d /\ is_uint 8 (claiming_address d)
  | _ => settled d
  end.

(** Steps that send frames or arm the timer: the network stays, the queue grows. *)
Definition quiet_world (f : cworld -> cworld) : Prop :=
  forall w, network_ (f w) = network_ w /\ context_ w ⊆ context_ (f w).

Definition quiet (d d' : deps cworld) : Prop :=
  has_address_address d' = has_address_address d /\
  network_ (world d') = network_ (world d) /\ context_ (world d) ⊆ context_ (world d').

#[local] Instance quiet_preorder : PreOrder quiet.
Proof.
  split; unfold quiet; [done|]. intros d d' d'' (-> & -> & ?) (-> & -> & ?).
  split_and!; [done..|]. by etrans.
Qed.

Lemma quiet_notify i o : quiet_world (notify i o).
Proof. intros w. unfold notify. by destruct (i _). Qed.

Lemma quiet_post t : quiet_world (post t).
Proof. intros w. split; [done|]. simpl. set_solver. Qed.

Lemma quiet_async_wait h : quiet_world (async_wait h).
Proof. intros w. split; [done|]. unfold async_wait. simpl. destruct (timeout_timer_ w); set_solver. Qed.

Lemma quiet_on_world f d : quiet_world f -> quiet d (on_world f d).
Proof. intros Hf. destruct (Hf (world d)). by split_and!. Qed.

Lemma quiet_set_claiming a d : quiet d (set_claiming a d).
Proof. done. Qed.

Lemma quiet_begin_claiming d : quiet d (begin_claiming_address network_ machine d).
Proof.
  unfold begin_claiming_address, claim_address, send_address_claim; simpl.
  etrans; [apply (quiet_on_world _ _ (quiet_async_wait claim_timeout))|].
  etrans; [apply quiet_set_claiming|]. apply quiet_on_world, quiet_notify.
Qed.

Lemma quiet_send_address_claim a d : quiet d (send_address_claim machine a d).
Proof. apply quiet_on_world, quiet_notify. Qed.

Lemma quiet_send_request d : quiet d (send_request machine d).
Proof. apply quiet_on_world, quiet_notify. Qed.

Lemma quiet_send_cannot_claim d : quiet d (send_cannot_claim machine d).
Proof. apply quiet_on_world, quiet_async_wait. Qed.

Lemma settled_quiet d d' : quiet d d' -> settled d -> settled d'.
Proof. unfold settled. by intros (_ & -> & _). Qed.

Lemma has_address_quiet d d' : quiet d d' -> agree st_has_address d -> agree st_has_address d'.
Proof.
  intros (Ha & Hn & Hq). unfold agree, pending_loss. rewrite Ha, Hn.
  intros (? & ? & ? & [?|(? & n & ? & ?)]); split_and!; try done; [by left|right].
  split; [done|]. exists n. split; [by apply Hq|done].
Qed.

Lemma agree_settled s d : s <> st_has_address -> agree s d -> settled d.
Proof. by destruct s; simpl; [|intros _ [? _]| |]. Qed.

Lemma find_address_uint n p net : is_uint 8 (find_address n p net).
Proof.
  destruct (decide (self_config_address n = 0)) as [Hs|Hs].
  - unfold find_address. rewrite Hs. simpl.
    pose proof (clamp_spec p 0 J1939_MAX_UNICAST_ADDR).
    destruct (addr_name_map_ net !! _) as [o|]; [destruct (name_le n o)|]; unfold is_uint; addr_lia.
  - destruct (find_address_cases n p net Hs) as [[-> _]|(Hu & _)]; [done|by apply unicast_uint].
Qed.

Lemma begin_claiming_agree d : settled d -> agree st_claiming (begin_claiming_address network_ machine d).
Proof.
  intros Hs. split; [by eapply settled_quiet, Hs; apply quiet_begin_claiming|].
  simpl. apply find_address_uint.
Qed.

(** Leaving [st_has_address] releases the address. *)
Lemma loss_settled d : net_ok (network_ (world d)) -> no_stale N (network_ (world d)) ->
  is_Some (name_addr_map_ (network_ (world d)) !! N) -> settled (notify_address_loss machine d).
Proof.
  intros Hok Hst HN. unfold settled, unaddressed. simpl. unfold on_address_loss.
  rewrite (proj1 (quiet_notify _ _ _)). simpl. split; [by apply release_ok|].
  rewrite release_set_idle. destruct (set_idle_self N _ Hst HN).
  destruct HN as [a ->]. by auto.
Qed.

Lemma agree_loss d : agree st_has_address d -> settled (notify_address_loss machine d).
Proof. intros (? & ? & _ & [Ha|[Ha _]]); apply loss_settled; try done; by eexists. Qed.

(** The world after [network_.insert]. *)
Lemma network_insert_world n a w :
  network_insert n a w =
    (fst (fst (insert n a (network_ w))),
     CWorld (inserted n a (network_ w)) (timeout_timer_ w) (context_ w) (hooks_ w)
       (outputs w ++ ((fun '(m, b) => out_new_name m b) <$> snd (insert n a (network_ w))))).
Proof.
  unfold network_insert, inserted. destruct (insert n a (network_ w)) as [[r net] calls]. simpl.
  f_equal. unfold with_network. generalize (outputs w) as o.
  induction calls as [|[m b] calls IH]; simpl; intros o; [by rewrite app_nil_r|].
  rewrite cons_middle, (assoc_L app). apply IH.
Qed.

(** Entering [st_has_address] registers the address. *)
Lemma agree_gain d : agree st_claiming d ->
  claimable (claiming_address d) N (network_ (world d)) = true ->
  agree st_has_address (notify_address_gain machine (set_has_address (claiming_address d) d)).
Proof.
  intros [(Hok & Hst & Hun) Hu] Hc.
  destruct (insert_own N _ _ Hu Hok Hst Hun Hc) as (Ha & Hst' & HN).
  unfold agree. simpl. unfold on_address. rewrite (proj1 (quiet_notify _ _ _)).
  rewrite network_insert_world. simpl.
  split_and!; [by apply insert_ok|done..|by left].
Qed.

Lemma unaddressed_not_below net : unaddressed N net -> (get_address N net <? J1939_IDLE_ADDR) = false.
Proof. unfold get_address. by intros [-> | ->]. Qed.

(** Giving up an address: to claim another one, or for good. *)
Lemma contest_lost_agree n d : net_ok (network_ (world d)) -> no_stale N (network_ (world d)) ->
  is_Some (name_addr_map_ (network_ (world d)) !! N) -> name_lt N (Name n) = false ->
  let '(s, d') := direct network_ machine (ev_address_claim n (has_address_address d)) st_has_address d in
  agree s d'.
Proof.
  intros Hok Hst HN Hlt. pose proof (loss_settled d Hok Hst HN) as Hl.
  unfold direct, contest. rewrite Z.eqb_refl. simpl sm_name_. rewrite Hlt. cbv [negb].
  destruct (full _).
  - eapply settled_quiet, Hl. apply quiet_send_cannot_claim.
  - apply begin_claiming_agree. by eapply settled_quiet, Hl.
Qed.

(** Every event preserves the agreement. *)
Lemma agree_event e s d : agree s d -> let '(s', d') := direct network_ machine e s d in agree s' d'.
Proof.
  intros Hag. destruct s.
  - destruct e; simpl; try done.
    + destruct (full _); [by eapply settled_quiet, Hag; apply quiet_send_cannot_claim|].
      by apply begin_claiming_agree.
    + case_match; [|done]. eapply settled_quiet, Hag. apply quiet_send_cannot_claim.
    + destruct (full _); [done|]. eapply settled_quiet, Hag. apply quiet_send_request.
  - destruct Hag as [Hs Hu]. assert (Hag : agree st_claiming d) by done.
    assert (Hsend : agree st_claiming (send_claiming machine d)).
    { split; [|done]. eapply settled_quiet, Hs. apply quiet_send_address_claim. }
    destruct e; simpl; try done.
    + unfold contest. destruct (negb _); [done|]. destruct (name_lt _ _); [done|].
      destruct (full _); [|by apply begin_claiming_agree].
      eapply settled_quiet, Hs. apply quiet_send_cannot_claim.
    + by destruct (_ || _).
    + unfold dep_network. rewrite unaddressed_not_below by apply Hs. rewrite orb_false_r.
      destruct (claimable _ _ _) eqn:Hc; [by apply agree_gain|].
      destruct (_ =? _); [|done]. simpl. destruct (full _); [done|].
      eapply settled_quiet, Hs. apply quiet_send_request.
  - assert (Hsend : agree st_has_address (send_claimed machine d)).
    { eapply has_address_quiet, Hag. apply quiet_send_address_claim. }
    destruct e as [|n a| | | |]; try done; [|by simpl; destruct (_ || _)].
    destruct (decide (a = has_address_address d)) as [->|Ha].
    + destruct (name_lt N (Name n)) eqn:Hlt.
      * unfold direct, contest. rewrite Z.eqb_refl. simpl sm_name_. by rewrite Hlt.
      * destruct Hag as (? & ? & _ & HN). apply contest_lost_agree; try done.
        destruct HN as [?|[? _]]; by eexists.
    + simpl. unfold contest. by rewrite (proj2 (Z.eqb_neq _ _) Ha).
  - destruct e; cbn [direct]; [exact Hag|exact Hag| |exact Hag| |exact Hag].
    + case_match; [|done]. eapply settled_quiet, Hag. apply quiet_send_cannot_claim.
    + destruct (_ && _); [by apply begin_claiming_agree|].
      assert (settled (send_cannot_claim machine d))
        by (eapply settled_quiet, Hag; apply quiet_send_cannot_claim).
      unfold enter_no_address. destruct (full _); [done|].
      eapply settled_quiet; [apply quiet_send_request|done].
Qed.

End Invariant.

(** ** The claimer *)

Section Claimer.
Context `{CanaryHeader} `{SmlLaws} (N : name).

Definition claimer_ok (c : claimer) : Prop :=
  addr_claimer_ c = machine N /\ agree N (state_machine_ c) (deps_ c).

(** Nobody else uses the NAME. *)
Definition input_ok (i : input) : Prop :=
  match i with
  | in_frame f => is_claim (header f) = true -> name_of_payload (payload f) <> N
  | _ => True
  end.

Lemma agree_quiet s d d' : quiet d d' -> claiming_address d' = claiming_address d ->
  agree N s d -> agree N s d'.
Proof.
  intros Hq Hc Hag. destruct s; simpl in *.
  - by eapply settled_quiet.
  - destruct Hag. rewrite Hc. split; [by eapply settled_quiet|done].
  - by eapply has_address_quiet.
  - by eapply settled_quiet.
Qed.

Lemma on_world_ok f c : quiet_world f -> claimer_ok c -> claimer_ok (on_claimer_world f c).
Proof.
  intros Hf [Hm Hag]. split; [done|]. eapply agree_quiet, Hag; [|done]. by apply quiet_on_world.
Qed.

Lemma claimer_event_direct e c : addr_claimer_ c = machine N ->
  claimer_event e c =
    let '(s, d) := direct network_ (machine N) e (state_machine_ c) (deps_ c) in
    Claimer (machine N) s d.
Proof. intros Hm. unfold claimer_event. by rewrite sm_process_direct, Hm. Qed.

Lemma claimer_event_ok e c : claimer_ok c -> claimer_ok (claimer_event e c).
Proof.
  intros [Hm Hag]. rewrite claimer_event_direct by done.
  pose proof (agree_event N e _ _ Hag) as He. by destruct (direct _ _ _ _ _).
Qed.

Lemma quiet_on_fail what ec : quiet_world (on_fail what ec).
Proof. intros w. unfold on_fail. destruct ec; first [done|apply quiet_notify]. Qed.

Lemma run_handler_ok h ec c : claimer_ok c -> claimer_ok (run_handler h ec c).
Proof.
  intros Hc. destruct ec; cycle 1.
  1-3: destruct h; (apply on_world_ok; [apply quiet_on_fail|exact Hc]).
  destruct h as [p| |n]; [apply claimer_event_ok, Hc..|]. cbn [run_handler].
  destruct (negb _); [apply on_world_ok; [apply quiet_post|]|];
    (apply on_world_ok; [apply quiet_notify|exact Hc]).
Qed.

(** Taking a task from the queue keeps the agreement, unless the task is the
    pending claim that takes the address away. *)
Lemma agree_take k t s d : context_ (world d) !! k = Some t -> agree N s d ->
  let d' := on_world (with_context (delete k (context_ (world d)))) d in
  agree N s d' \/
  (s = st_has_address /\ exists n, t = posted_event (ev_address_claim n (has_address_address d)) /\
     name_lt N (Name n) = false).
Proof.
  intros Hk Hag d'. destruct s; try by left.
  destruct Hag as (Hok & Hst & Ha & [HN|(HN & n & Hn & Hlt)]); [by left; split_and!; [..|left]|].
  rewrite (delete_Permutation _ _ _ Hk) in Hn. apply elem_of_cons in Hn as [<-|Hn].
  - right. split; [done|]. by exists n.
  - left. split_and!; try done. right. split; [done|]. by exists n.
Qed.

Lemma run_step_ok k c : claimer_ok c -> claimer_ok (step (in_run k) c).
Proof.
  intros [Hm Hag]. simpl. unfold take_task. destruct (context_ (cworld_of c) !! k) as [t|] eqn:Hk; [|done].
  destruct (agree_take k t _ _ Hk Hag) as [Hag'|(Hs & n & -> & Hlt)].
  - destruct t; simpl; [by apply claimer_event_ok|by apply run_handler_ok].
  - simpl. rewrite claimer_event_direct by done. simpl. rewrite Hs in *.
    destruct Hag as (Hok & Hst & _ & HN).
    pose proof (contest_lost_agree N n
      (on_world (fun _ => with_context (delete k (context_ (cworld_of c))) (cworld_of c)) (deps_ c))
      Hok Hst) as Hl. cbn [has_address_address on_world] in Hl.
    destruct (direct _ _ _ _ _) as [s' d']. split; [done|]. apply Hl; [|done].
    destruct HN as [?|[? _]]; by eexists.
Qed.

(** Another table in which [N] has the same address. *)
Lemma agree_same s d w : net_ok (network_ w) -> no_stale N (network_ w) ->
  name_addr_map_ (network_ w) !! N = name_addr_map_ (network_ (world d)) !! N ->
  context_ (world d) ⊆ context_ w -> agree N s d -> agree N s (on_world (fun _ => w) d).
Proof.
  intros Hok Hst HN Hq Hag. destruct s; simpl in *; unfold settled, unaddressed in *; simpl;
    rewrite HN; [by destruct_and!|by destruct_and!| |by destruct_and!].
  destruct Hag as (_ & _ & Ha & [Hs|(Hs & n & Hn & Hlt)]); split_and!; try done; [by left|].
  right. split; [done|]. exists n. split; [by apply Hq|done].
Qed.

(** Another NAME has taken the address of [N], and its claim is queued. *)
Lemma agree_taken n a s d w : net_ok (network_ w) -> no_stale N (network_ w) ->
  name_addr_map_ (network_ (world d)) !! N = Some a -> name_lt N n = false ->
  name_addr_map_ (network_ w) !! N = Some J1939_IDLE_ADDR ->
  context_ (world d) ⊆ context_ w -> posted_event (ev_address_claim (to_name_t n) a) ∈ context_ w ->
  agree N s d -> agree N s (on_world (fun _ => w) d).
Proof.
  intros Hok Hst HN Hlt Hidle Hq Hp Hag.
  destruct (decide (a = J1939_IDLE_ADDR)) as [->|Ha].
  { apply agree_same; try done. congruence. }
  destruct s; simpl in *; unfold settled, unaddressed in *; simpl;
    try (exfalso; destruct_and!; destruct_or!; congruence).
  destruct Hag as (_ & _ & Hu & [Hs|(Hs & _)]); [|congruence]. simplify_eq.
  split_and!; try done. right. split; [done|]. exists (to_name_t n). by destruct n.
Qed.

Lemma process_claim_ok n a c : n <> N -> is_uint 8 a -> claimer_ok c -> claimer_ok (process_claim n a c).
Proof.
  intros Hn Ha [Hm Hag]. unfold process_claim. rewrite network_insert_world.
  assert (Hok : net_ok (network_ (cworld_of c)) /\ no_stale N (network_ (cworld_of c))).
  { destruct (state_machine_ c); simpl in Hag; unfold settled in Hag; by destruct_and!. }
  pose proof (insert_other N n a _ Hn (proj1 Hok) (proj2 Hok) Ha) as Hi.
  pose proof (insert_ok n a _ (proj1 Hok) Ha) as Hok'. unfold inserted in *.
  destruct (insert n a _) as [[r net'] calls]. cbn [fst snd] in *. set (w := CWorld net' _ _ _ _).
  destruct Hi as [Hst' [HN|(-> & HN & Hlt & Hidle)]].
  - assert (Hc : claimer_ok (on_claimer_world (fun _ => w) c)) by (split; [done|by apply agree_same]).
    destruct r; apply on_world_ok; auto using quiet_post, quiet_notify.
  - split; [done|].
    apply (agree_taken n a _ (deps_ c) (post (posted_event (ev_address_claim (to_name_t n) a)) w)); try done.
    + apply (quiet_post _ w).
    + simpl. apply elem_of_app. right. by apply list_elem_of_singleton.
Qed.

Lemma step_ok i c : input_ok i -> claimer_ok c -> claimer_ok (step i c).
Proof.
  intros Hi Hc. destruct i as [f|p|k|failed].
  - simpl in *. unfold process. destruct (is_claim (header f)).
    + apply process_claim_ok; [by apply Hi|by apply wrap_range|done].
    + destruct (is_request (header f)); [|done]. apply on_world_ok; [apply quiet_post|done].
  - simpl. unfold start_address_claim. destruct (negb _); [done|].
    apply on_world_ok; [apply quiet_async_wait|]. apply on_world_ok; [apply quiet_post|done].
  - by apply run_step_ok.
  - simpl. apply on_world_ok; [|done]. intros w. unfold expire.
    destruct (timeout_timer_ w); [|done]. split; [done|]. simpl. set_solver.
Qed.

Lemma run_ok inputs c : Forall input_ok inputs -> claimer_ok c -> claimer_ok (run inputs c).
Proof.
  intros Hi. revert c. induction Hi as [|i inputs Hi _ IH]; [done|].
  intros c Hc. apply IH. by apply step_ok.
Qed.

(** The constructor: no callback is set while the machine starts. *)
Lemma address_claimer_initial q net :
  address_claimer q N net =
    Claimer (machine N) st_no_address
      (Deps J1939_NO_ADDR J1939_NO_ADDR 0 (CWorld net None q (Hooks false false false false) [])).
Proof. unfold address_claimer, sm_start. rewrite sml_start, entry_action. by destruct (full _). Qed.

(** C8.  The claimer and the table agree at every moment, from a consistent table in
    which the NAME has no address, for every sequence of starts, timer expirations,
    queue runs and frames that do not claim the own NAME, in any order: in [st_has_address] the machine's address is a unicast address that
    both maps assign to the NAME, or the NAME has just been evicted and the
    claim that makes the machine give up the address is queued; in every other
    state no address of the table belongs to the NAME. *)
Theorem claimer_agrees_with_table net inputs :
  net_ok net -> no_stale N net -> unaddressed N net -> Forall input_ok inputs ->
  let c := run inputs (address_claimer [] N net) in
  let net' := network_ (cworld_of c) in
  let a := has_address_address (deps_ c) in
  if bool_decide (state_machine_ c = st_has_address) then
    unicast a /\
    ((get_address N net' = a /\ get_name a net' = Some N) \/
     (get_address N net' = J1939_IDLE_ADDR /\ pending_loss N a (context_ (cworld_of c))))
  else ~ unicast (get_address N net') /\ forall b, get_name b net' <> Some N.
Proof.
  intros Hok Hst Hun Hi c net' a. assert (Hc : claimer_ok c).
  { apply run_ok; [done|]. rewrite address_claimer_initial. by split. }
  destruct Hc as [_ Hag]. unfold get_address, get_name. case_bool_decide as Hs.
  - rewrite Hs in Hag. destruct Hag as (Hok' & _ & Ha & HN). split; [done|].
    destruct HN as [HN|[HN Hp]]; [left|right]; fold (cworld_of c) in *; fold net' in HN; rewrite HN; [|done].
    split; [done|]. by apply (ok_fwd_rev _ Hok').
  - assert (Hset : settled N (deps_ c)) by (by apply (agree_settled N (state_machine_ c))).
    destruct Hset as (Hok' & Hst' & Hun'). fold (cworld_of c) in *. fold net' in Hok', Hst', Hun'. split.
    + destruct Hun' as [-> | ->]; addr_lia.
    + intros b Hb. pose proof (ok_rev_unicast _ Hok' _ _ Hb). apply Hst' in Hb.
      destruct Hun'; simplify_eq. by apply not_unicast_idle.
Qed.

End Claimer.
