(* ===== verification/ClaimerBehaviour.v ===== *)
(** * What the address claimer does

    The runs that matter: an uncontested claim ends with the address in the
    table; a holder that is evicted claims another address; and the runs in
    which the claimer does not do what the protocol asks for. *)

From Stdlib Require Import String.
From stdpp Require Import gmap.
From S2P Require Import Prelude J1939Type Canary Header HeaderFacts Name NameFacts Frame FrameFacts.
From S2P Require Import Network NetworkFacts NetworkSpec NetworkSearch Sml StateMachine.
From S2P Require Import StateMachineFacts AddressClaimer ClaimerFacts.

Section Runs.
Context `{CanaryHeader} `{SmlLaws} (N : name).

(** A claimer with an [on_frame] callback. *)
Definition user_hooks : hooks := Hooks false false true true.
Definition claimer_at (s : st) (claiming has : Z) (net : network) (timer : option handler)
    (q : list task) (o : list output) : claimer :=
  Claimer (machine N) s (Deps claiming has 0 (CWorld net timer q user_hooks o)).

(** The initial claimer with the callbacks installed. *)
Lemma initial_claimer net :
  on_error (on_frame (address_claimer [] N net)) =
    claimer_at st_no_address J1939_NO_ADDR J1939_NO_ADDR net None [] [].
Proof. by rewrite address_claimer_initial. Qed.

(** ** Single steps *)

Lemma run_posted k e s ca ha net t q o :
  q !! k = Some (posted_event e) ->
  step (in_run k) (claimer_at s ca ha net t q o) =
    claimer_event e (claimer_at s ca ha net t (delete k q) o).
Proof. intros Hk. simpl. unfold take_task. cbn -[claimer_event]. by rewrite Hk. Qed.

Lemma run_timer k h ec s ca ha net t q o :
  q !! k = Some (timer_done h ec) ->
  step (in_run k) (claimer_at s ca ha net t q o) =
    run_handler h ec (claimer_at s ca ha net t (delete k q) o).
Proof. intros Hk. simpl. unfold take_task. cbn -[run_handler]. by rewrite Hk. Qed.

Lemma event_at e s ca ha net t q o :
  claimer_event e (claimer_at s ca ha net t q o) =
    let '(s', d') := direct network_ (machine N) e s (Deps ca ha 0 (CWorld net t q user_hooks o)) in
    Claimer (machine N) s' d'.
Proof. by rewrite (claimer_event_direct N). Qed.

Lemma start_at p ca ha net t q o :
  step (in_start p) (claimer_at st_no_address ca ha net t q o) =
    claimer_at st_no_address ca ha net (Some (start_claim_delay p))
      (match t with
       | Some old => (q ++ [posted_event ev_restart]) ++ [timer_done old operation_aborted]
       | None => q ++ [posted_event ev_restart]
       end) o.
Proof. done. Qed.

Lemma restart_at ca ha net t q o : full net = false ->
  claimer_event ev_restart (claimer_at st_no_address ca ha net t q o) =
    claimer_at st_no_address ca ha net t q (o ++ [out_frame make_global_address_request]).
Proof. intros Hf. rewrite event_at. cbn [direct]. unfold enter_no_address, dep_network; simpl. by rewrite Hf. Qed.

Lemma notify_loss_at ca ha net t q o :
  notify_address_loss (machine N) (Deps ca ha 0 (CWorld net t q user_hooks o)) =
    Deps ca ha 0 (CWorld (release N net) t q user_hooks o).
Proof. done. Qed.

(** Entering [st_claiming] sends a claim for the address found and arms the timer. *)
Lemma enter_claiming_at p ca ha net q o :
  enter_claiming network_ (machine N) p (Deps ca ha 0 (CWorld net None q user_hooks o)) =
    (st_claiming, Deps (find_address N p net) ha 0
      (CWorld net (Some claim_timeout) q user_hooks
        (o ++ [out_frame (make_address_claim N (find_address N p net))]))).
Proof. done. Qed.

Lemma start_claim_at p ca ha net q o : full net = false ->
  claimer_event (ev_start_claim p) (claimer_at st_no_address ca ha net None q o) =
    claimer_at st_claiming (find_address N p net) ha net (Some claim_timeout) q
      (o ++ [out_frame (make_address_claim N (find_address N p net))]).
Proof.
  intros Hf. rewrite event_at. cbn [direct]. unfold dep_network; cbn [world network_]. by rewrite Hf.
Qed.

Lemma timeout_at ca ha net q o : claimable ca N net = true ->
  claimer_event ev_timeout (claimer_at st_claiming ca ha net None q o) =
    Claimer (machine N) st_has_address
      (Deps ca ca 0 (on_address N ca (CWorld net None q user_hooks o))).
Proof.
  intros Hc. rewrite event_at. cbn [direct]. unfold dep_network; cbn [world network_ claiming_address].
  change (sm_name_ (machine N)) with N. by rewrite Hc.
Qed.

Lemma expire_at s ca ha net h q o :
  step (in_expire false) (claimer_at s ca ha net (Some h) q o) =
    claimer_at s ca ha net None (q ++ [timer_done h no_error]) o.
Proof. done. Qed.

(** A frame that claims address [a] for [n]. *)
Definition claims (f : frame) (n : name) (a : Z) : Prop :=
  is_claim (header f) = true /\ name_of_payload (payload f) = n /\ source_address (header f) = a.

Lemma claim_frame_at f n a c : claims f n a -> step (in_frame f) c = process_claim n a c.
Proof. intros (Hc & <- & <-). simpl. unfold process. by rewrite Hc. Qed.

(** An address that [find_address] finds in a network that is not full. *)
Lemma find_address_free p net : net_ok net -> self_config_address N <> 0 -> full net = false ->
  (forall b o, get_name b net = Some o -> name_eq o N = false) ->
  unicast (find_address N p net) /\ addr_name_map_ net !! find_address N p net = None.
Proof.
  intros Hok Hs Hf Htwin. destruct (not_full_free net Hok Hf) as (b & Hb & Hfree).
  destruct (find_address_cases N p net Hs) as [[_ Hno]|(Hu & Hus & _)].
  - specialize (Hno b Hb). unfold usable in Hno. by rewrite Hfree in Hno.
  - split; [done|]. unfold usable in Hus.
    destruct (addr_name_map_ net !! find_address N p net) as [o|] eqn:Ho; [|reflexivity].
    by rewrite (Htwin _ _ Ho) in Hus.
Qed.

Lemma free_claimable a net : unicast a -> addr_name_map_ net !! a = None -> claimable a N net = true.
Proof.
  intros Ha Hn. unfold claimable. by rewrite (proj2 (unicast_ltb a (unicast_uint a Ha)) Ha), Hn.
Qed.

(** ** Runs *)

(** Start, request, 200 ms, claim, 250 ms. *)
Definition claim_run (p : Z) : list input :=
  [in_start p; in_run 0; in_expire false; in_run 0; in_expire false; in_run 0].

(** C20.  A claim that nobody contests succeeds: a self-configuring NAME, without
    an address in a network that is not full, requests the addresses of the
    others, claims the first free address from the preferred one on, and after
    the two delays is in [st_has_address] with that address in both maps and
    nothing left to do. *)
Theorem uncontested_claim_succeeds net p :
  net_ok net -> no_stale N net -> unaddressed N net -> full net = false ->
  self_config_address N <> 0 -> (forall b o, get_name b net = Some o -> name_eq o N = false) ->
  let c := run (claim_run p) (on_error (on_frame (address_claimer [] N net))) in
  let r := find_address N p net in
  unicast r /\ available r net = true /\
  state_machine_ c = st_has_address /\ has_address_address (deps_ c) = r /\
  get_address N (network_ (cworld_of c)) = r /\ get_name r (network_ (cworld_of c)) = Some N /\
  context_ (cworld_of c) = [] /\ timeout_timer_ (cworld_of c) = None /\
  take 2 (outputs (cworld_of c)) =
    [out_frame make_global_address_request; out_frame (make_address_claim N r)].
Proof.
  intros Hok Hst Hun Hf Hs Htwin c r.
  destruct (find_address_free p net Hok Hs Hf Htwin) as [Hu Hfree]. fold r in Hu, Hfree.
  assert (Hc : c = Claimer (machine N) st_has_address (Deps r r 0 (on_address N r
    (CWorld net None [] user_hooks
      [out_frame make_global_address_request; out_frame (make_address_claim N r)])))).
  { unfold c, run, claim_run. rewrite initial_claimer. cbn [foldl].
    rewrite start_at, (run_posted 0 ev_restart), restart_at by done. cbn [app delete list_delete].
    rewrite expire_at, (run_timer 0 (start_claim_delay p) no_error) by done.
    cbn [run_handler delete list_delete app]. rewrite start_claim_at by done.
    rewrite expire_at, (run_timer 0 claim_timeout no_error) by done.
    cbn [run_handler delete list_delete app]. by rewrite timeout_at by (by apply free_claimable). }
  destruct (insert_own N r net) as (_ & _ & HN); try done; [by apply unicast_uint|by apply free_claimable|].
  assert (Hok' : net_ok (inserted N r net)) by (apply insert_ok; [done|by apply unicast_uint]).
  rewrite Hc. clear Hc c. clearbody r. unfold on_address. rewrite network_insert_world.
  unfold notify, get_address, get_name, available. simpl.
  rewrite HN, Hfree, (proj2 (unicast_ltb r (unicast_uint r Hu)) Hu).
  split_and!; try done. by apply (ok_fwd_rev _ Hok').
Qed.

(** ** An evicted holder *)

Lemma release_idle n net : net_ok net -> name_addr_map_ net !! n = Some J1939_IDLE_ADDR ->
  release n net = net.
Proof.
  intros Hok Hn. rewrite release_set_idle, Hn, (set_idle_maps n net _ Hn). destruct net as [i o fwd rev].
  simpl in *. unfold with_maps. f_equal; [by apply insert_id|]. apply delete_id.
  destruct (rev !! J1939_IDLE_ADDR) as [m|] eqn:Hm; [|done].
  by destruct not_unicast_idle; apply (ok_rev_unicast _ Hok _ m).
Qed.

Lemma inserted_rev n a net b o : unicast a -> get_name b (inserted n a net) = Some o ->
  (b = a /\ o = n) \/ get_name b net = Some o.
Proof.
  intros Ha. unfold inserted, get_name. rewrite insert_unicast by done.
  destruct (refused n a net); simpl; [by right|].
  rewrite lookup_insert. case_decide; [intros [= <-]; by left|right; by eapply vacated_rev].
Qed.

(** A claim with higher priority for the address of [N]. *)
Lemma higher_claim_evicts n a net :
  net_ok net -> name_addr_map_ net !! N = Some a -> unicast a -> n <> N -> name_lt N n = false ->
  insert n a net = (true, inserted n a net, snd (insert n a net)) /\
  get_name a (inserted n a net) = Some n /\
  name_addr_map_ (inserted n a net) !! N = Some J1939_IDLE_ADDR.
Proof.
  intros Hok HN Hu Hn Hlt. pose proof (ok_fwd_rev _ Hok _ _ HN Hu) as Hrev.
  unfold inserted, get_name. rewrite insert_unicast by done. unfold refused.
  rewrite Hrev, name_gt_lt, Hlt. simpl. split_and!; [done|by rewrite lookup_insert_eq|].
  rewrite lookup_insert_ne, lookup_vacated_other by done. by rewrite decide_True.
Qed.

(** The run of a holder whose address is taken. *)
Lemma evicted_run n a f ca q net : claims f n a ->
  net_ok net -> name_addr_map_ net !! N = Some a -> unicast a -> n <> N -> name_lt N n = false ->
  full (inserted n a net) = false ->
  run [in_frame f; in_run (length q)] (claimer_at st_has_address ca a net None q []) =
    let r := find_address N a (inserted n a net) in
    claimer_at st_claiming r a (inserted n a net) (Some claim_timeout) q
      (((fun '(m, b) => out_new_name m b) <$> snd (insert n a net)) ++
       [out_frame (make_address_claim N r)]).
Proof.
  intros Hf Hok HN Hu Hn Hlt Hfull.
  destruct (higher_claim_evicts n a net Hok HN Hu Hn Hlt) as (Hins & _ & Hidle).
  assert (Hok' : net_ok (inserted n a net)) by (apply insert_ok; [done|by apply unicast_uint]).
  unfold run. cbn [foldl]. rewrite (claim_frame_at f n a) by done. unfold process_claim.
  rewrite network_insert_world. cbn [cworld_of deps_ claimer_at world network_].
  rewrite Hins. cbn [fst snd negb]. set (net' := inserted n a net) in *.
  change (address_claim _ _ _) with
    (claimer_at st_has_address ca a net' None (q ++ [posted_event (ev_address_claim (to_name_t n) a)])
      ((fun '(m, b) => out_new_name m b) <$> snd (insert n a net))).
  rewrite (run_posted _ (ev_address_claim (to_name_t n) a)) by (by apply list_lookup_middle).
  rewrite delete_middle, app_nil_r, event_at. unfold direct, contest, dep_network.
  cbn [has_address_address world network_]. rewrite Z.eqb_refl.
  change (sm_name_ (machine N)) with N. replace (Name (to_name_t n)) with n by (by destruct n).
  rewrite Hlt, Hfull. cbn [negb].
  rewrite notify_loss_at, release_idle by done. cbn [has_address_address]. by rewrite enter_claiming_at.
Qed.

(** C21.  A holder that is evicted claims another address: when a NAME with higher
    priority claims its address, a self-configuring holder gives the address up
    in the table, sends a claim for a free address and waits for the timeout,
    as long as the network is not full. *)
Theorem evicted_holder_claims_another_address net ca a q f n :
  net_ok net -> no_stale N net -> name_addr_map_ net !! N = Some a -> unicast a ->
  self_config_address N <> 0 -> claims f n a -> name_lt n N = true ->
  (forall b o, get_name b net = Some o -> o <> N -> name_eq o N = false) ->
  full (inserted n a net) = false ->
  let c := run [in_frame f; in_run (length q)] (claimer_at st_has_address ca a net None q []) in
  let r := claiming_address (deps_ c) in
  state_machine_ c = st_claiming /\ unicast r /\ r <> a /\
  available r (network_ (cworld_of c)) = true /\
  get_name a (network_ (cworld_of c)) = Some n /\ get_address N (network_ (cworld_of c)) = J1939_IDLE_ADDR /\
  timeout_timer_ (cworld_of c) = Some claim_timeout /\
  out_frame (make_address_claim N r) ∈ outputs (cworld_of c).
Proof.
  intros Hok Hst HN Hu Hs Hf Hlt Htwin Hfull c r.
  assert (HnN : n <> N) by (intros ->; by rewrite name_lt_irrefl in Hlt).
  pose proof (name_lt_asym _ _ Hlt) as HlN.
  destruct (higher_claim_evicts n a net Hok HN Hu HnN HlN) as (_ & Hna & Hidle).
  assert (Hfr : unicast (find_address N a (inserted n a net)) /\
    addr_name_map_ (inserted n a net) !! find_address N a (inserted n a net) = None).
  { apply find_address_free; try done; [apply insert_ok; [done|by apply unicast_uint]|]. intros b o Hb.
    destruct (inserted_rev n a net b o Hu Hb) as [[_ ->]|Hb']; [by apply name_lt_not_eq|].
    apply (Htwin b); [done|]. intros ->. apply Hst in Hb'. by simplify_eq. }
  destruct Hfr as [Hur Hfree]. unfold r, c. rewrite (evicted_run n) by done. simpl. clear r c.
  generalize dependent (find_address N a (inserted n a net)). intros r Hur Hfree.
  unfold available, get_address. rewrite Hidle, Hfree, (proj2 (unicast_ltb r (unicast_uint r Hur)) Hur).
  split_and!; try done; [|set_solver]. intros ->. unfold get_name in Hna. congruence.
Qed.

End Runs.
