(* ===== verification/ClaimerLimits.v ===== *)
(** * Where the address claimer falls short of the protocol

    Runs of the claimer, for any NAMEs and addresses, in which it does not do
    what J1939-81 and the rows of its own transition table are for. *)

From Stdlib Require Import String.
From stdpp Require Import gmap.
From S2P Require Import Prelude J1939Type Canary Header HeaderFacts Name NameFacts Frame FrameFacts.
From S2P Require Import Network NetworkFacts NetworkSpec NetworkSearch Sml StateMachine.
From S2P Require Import StateMachineFacts AddressClaimer ClaimerFacts ClaimerBehaviour.

Section Limits.
Context `{CanaryHeader} `{SmlLaws} (N : name).
Notation claimer_at := (claimer_at N).

(** ** A holder does not defend its address *)

(** C36.  A holder does not answer a competing claim of a NAME with lower
    priority: [process_claim] returns when the table refuses the claim, so the
    machine never sees the event for which it would send its own claim again. *)
Theorem holder_does_not_defend net ca a t q o f n :
  net_ok net -> name_addr_map_ net !! N = Some a -> unicast a -> claims f n a -> name_lt N n = true ->
  step (in_frame f) (claimer_at st_has_address ca a net t q o) =
    claimer_at st_has_address ca a (registered n net) t q
      (o ++ [out_error "on_frame_address_claim" address_in_use]).
Proof.
  intros Hok HN Hu Hf Hlt. rewrite (claim_frame_at f n a) by done. unfold process_claim.
  rewrite network_insert_world. unfold inserted. cbn [cworld_of deps_ ClaimerBehaviour.claimer_at world network_].
  rewrite insert_unicast by done. unfold refused.
  rewrite (ok_fwd_rev _ Hok _ _ HN Hu), name_gt_lt, Hlt. simpl. by rewrite app_nil_r.
Qed.

(** ** A request during the start delay *)

(** An address request to everybody. *)
Definition global_request (f : frame) : Prop :=
  is_claim (header f) = false /\ is_request (header f) = true /\ pdu_specific (header f) = J1939_NO_ADDR.

Lemma request_frame_at f c : global_request f ->
  step (in_frame f) c = address_request J1939_NO_ADDR c.
Proof. intros (Hc & Hr & Hp). simpl. unfold process. by rewrite Hc, Hr, Hp. Qed.

(** The request arrives during the start delay. *)
Lemma asked_at net p f : full net = false -> global_request f ->
  run [in_start p; in_run 0; in_frame f] (on_error (on_frame (address_claimer [] N net))) =
    claimer_at st_no_address J1939_NO_ADDR J1939_NO_ADDR net (Some (start_claim_delay p))
      [posted_event (ev_address_request J1939_NO_ADDR)] [out_frame make_global_address_request].
Proof.
  intros Hf Hr. unfold run. rewrite initial_claimer. cbn [foldl].
  rewrite start_at, (run_posted N 0 ev_restart), restart_at by done. cbn [app delete list_delete].
  by rewrite (request_frame_at f).
Qed.

(** The request arrives after the start and is handled before the 200 ms are
    over; then everything that is pending runs. *)
Definition disturbed_run (p : Z) (f : frame) : list input :=
  [in_start p; in_run 0; in_frame f; in_run 0; in_run 0; in_expire false; in_run 0; in_run 0].

(** The run from the beginning: the machine is back in [st_no_address] with nothing
    pending; it has sent the request and a cannot-claim message, but never a claim. *)
Theorem disturbed_claim_ends net p f :
  full net = false -> name_wf N -> global_request f ->
  run (disturbed_run p f) (on_error (on_frame (address_claimer [] N net))) =
    claimer_at st_no_address J1939_NO_ADDR J1939_NO_ADDR net None []
      [out_frame make_global_address_request; out_frame (make_cannot_claim N)].
Proof.
  intros Hf Hwf Hr. pose proof (asked_at net p f Hf Hr) as E1. unfold run, disturbed_run in *. cbn [foldl] in *.
  rewrite E1.
  rewrite (run_posted N 0 (ev_address_request J1939_NO_ADDR)), event_at by done. cbn [delete list_delete].
  change (let '(s', d') := direct _ _ _ _ _ in _) with
    (claimer_at st_no_address J1939_NO_ADDR J1939_NO_ADDR net (Some (cannot_claim_timeout N))
      [timer_done (start_claim_delay p) operation_aborted] [out_frame make_global_address_request]).
  rewrite (run_timer N 0 (start_claim_delay p) operation_aborted) by done.
  change (run_handler _ _ _) with
    (claimer_at st_no_address J1939_NO_ADDR J1939_NO_ADDR net (Some (cannot_claim_timeout N))
      [] [out_frame make_global_address_request]).
  rewrite expire_at, (run_timer N 0 (cannot_claim_timeout N) no_error) by done.
  cbn [run_handler delete list_delete app]. rewrite name_of_to_payload by done.
  destruct (negb _); [|done].
  change (on_claimer_world _ _) with
    (claimer_at st_no_address J1939_NO_ADDR J1939_NO_ADDR net None [posted_event ev_random_retry]
      [out_frame make_global_address_request; out_frame (make_cannot_claim N)]).
  by rewrite (run_posted N 0 ev_random_retry), event_at.
Qed.

(** No start of a claim is pending: neither the timer nor a queued handler will
    start one. *)
Definition no_start (h : handler) : Prop :=
  match h with start_claim_delay _ => False | _ => True end.
Definition no_start_task (t : task) : Prop :=
  match t with
  | posted_event (ev_start_claim _) | timer_done (start_claim_delay _) no_error => False
  | _ => True
  end.

(** An output other than a claim of an address. *)
Definition no_claim_output (o : output) : Prop :=
  match o with
  | out_frame f => f = make_global_address_request \/ exists n, f = make_cannot_claim n
  | _ => True
  end.

Definition stalled_world (o : list output) (w : cworld) : Prop :=
  (exists new, outputs w = o ++ new /\ Forall no_claim_output new) /\
  Forall no_start_task (context_ w) /\ (forall h, timeout_timer_ w = Some h -> no_start h).

Definition stalled (o : list output) (c : claimer) : Prop :=
  addr_claimer_ c = machine N /\ state_machine_ c = st_no_address /\ stalled_world o (cworld_of c).

Lemma stalled_outputs o w new : stalled_world o w -> Forall no_claim_output new ->
  forall net, stalled_world o (CWorld net (timeout_timer_ w) (context_ w) (hooks_ w) (outputs w ++ new)).
Proof.
  intros [(old & Ho & Hold) Hw] Hnew net. split; [|done]. exists (old ++ new). simpl.
  rewrite Ho, (assoc_L app). split; [done|]. by apply Forall_app.
Qed.

Lemma stalled_notify o i out w : no_claim_output out -> stalled_world o w -> stalled_world o (notify i out w).
Proof.
  intros Hout Hw. unfold notify. destruct (i _); [|done].
  apply (stalled_outputs o w [out] Hw); by repeat constructor.
Qed.

Lemma stalled_post o t w : no_start_task t -> stalled_world o w -> stalled_world o (post t w).
Proof. intros Ht (Ho & Hq & Hh). split_and!; [done| |done]. simpl. apply Forall_app. by repeat constructor. Qed.

(** Arming the timer cancels the wait that was pending. *)
Lemma stalled_async_wait o h w : no_start h ->
  (exists new, outputs w = o ++ new /\ Forall no_claim_output new) -> Forall no_start_task (context_ w) ->
  stalled_world o (async_wait h w).
Proof.
  intros Hh Ho Hq. split_and!; [done| |by intros ? [= <-]]. simpl.
  destruct (timeout_timer_ w) as [old|]; [|done]. apply Forall_app. split; [done|]. by destruct old; repeat constructor.
Qed.

Lemma stalled_event o e c : no_start_task (posted_event e) -> stalled o c -> stalled o (claimer_event e c).
Proof.
  intros He (Hm & Hs & Hw). rewrite (claimer_event_direct N), Hs by done. pose proof Hw as (Ho & Hq & _).
  destruct e; cbn [direct]; try done.
  - destruct (_ =? _); [|done]. split_and!; [done..|]. by apply stalled_async_wait.
  - unfold enter_no_address. simpl. destruct (full _); [done|]. split_and!; [done..|].
    apply stalled_notify; [by left|done].
Qed.

Lemma stalled_on_world o f c : (forall w, stalled_world o w -> stalled_world o (f w)) ->
  stalled o c -> stalled o (on_claimer_world f c).
Proof. intros Hf (Hm & Hs & Hw). split_and!; [done..|]. by apply Hf. Qed.

Lemma stalled_run_task o t c : no_start_task t -> stalled o c -> stalled o (run_task t c).
Proof.
  intros Ht Hc. destruct t as [e|h ec]; cbn [run_task]; [by apply stalled_event|].
  assert (Hfail : forall what, stalled o (on_claimer_world (on_fail what ec) c)).
  { intros what. apply stalled_on_world; [|done]. intros w Hw. unfold on_fail.
    destruct ec; first [done|by apply stalled_notify]. }
  destruct h as [p| |n]; cbn [run_handler]; destruct ec; try apply Hfail; try done; [by apply stalled_event|].
  assert (stalled o (on_claimer_world (notify on_frame_
    (out_frame (make_cannot_claim (name_of_payload (name_to_payload n))))) c)) as Hc'.
  { apply stalled_on_world; [|done]. intros w. apply stalled_notify. right. by eexists. }
  destruct (negb _); [|done]. apply stalled_on_world; [|done]. intros w. by apply stalled_post.
Qed.

Lemma stalled_step o i c : (forall p, i <> in_start p) -> stalled o c -> stalled o (step i c).
Proof.
  intros Hi Hc. destruct i as [f|p|k|failed]; cbn [step].
  - unfold process. destruct (is_claim (header f)).
    + unfold process_claim. rewrite network_insert_world. set (calls := _ <$> _).
      assert (Hcalls : Forall no_claim_output calls).
      { apply list.Forall_forall. intros out ([m b] & -> & _)%list_elem_of_fmap. done. }
      pose proof Hc as (Hm & Hs & Hw). pose proof (stalled_outputs o _ calls Hw Hcalls) as Hw'.
      destruct (negb _); (split; [done|split; [done|]]); 
        [apply stalled_notify; [done|apply Hw']|apply stalled_post; [done|apply Hw']].
    + destruct (is_request (header f)); [|done]. apply stalled_on_world; [|done]. intros w. by apply stalled_post.
  - by destruct (Hi p).
  - unfold take_task. destruct (context_ (cworld_of c) !! k) as [t|] eqn:Hk; [|done].
    destruct Hc as (Hm & Hs & Ho & Hq & Hh). apply stalled_run_task; [by eapply Forall_lookup_1|].
    split; [done|split; [done|split; [done|split; [simpl; by apply Forall_delete|done]]]].
  - apply stalled_on_world; [|done]. intros w Hw. unfold expire.
    destruct (timeout_timer_ w) as [h|] eqn:Ht; [|done]. destruct Hw as (Ho & Hq & Hh). split_and!; [done| |done]. simpl.
    apply Forall_app. split; [done|]. pose proof (Hh h Ht). by destruct h, failed; repeat constructor.
Qed.

(** C38.  A global address request that is handled during the 200 ms start delay ends
    the claim for good.  The claimer waits in [st_no_address] for the end of the
    delay, and the request is in its queue: its handling arms the timer for the
    cannot-claim message, and the timer is the one of the delay, whose wait is
    cancelled.  Whatever happens afterwards, the machine stays in [st_no_address],
    and sends no claim, until the user starts another one. *)
Theorem request_during_start_delay_cancels_claim c k p inputs :
  addr_claimer_ c = machine N -> state_machine_ c = st_no_address ->
  timeout_timer_ (cworld_of c) = Some (start_claim_delay p) ->
  Forall no_start_task (context_ (cworld_of c)) ->
  context_ (cworld_of c) !! k = Some (posted_event (ev_address_request J1939_NO_ADDR)) ->
  Forall (fun i => forall p', i <> in_start p') inputs ->
  let c' := run (in_run k :: inputs) c in
  state_machine_ c' = st_no_address /\
  exists new, outputs (cworld_of c') = outputs (cworld_of c) ++ new /\ Forall no_claim_output new.
Proof.
  intros Hm Hs Ht Hq Hk Hin c'. set (o := outputs (cworld_of c)).
  assert (Hc : stalled o (step (in_run k) c)).
  { cbn [step]. unfold take_task. rewrite Hk. cbn [run_task]. rewrite (claimer_event_direct N) by done.
    cbn [on_claimer_world state_machine_]. rewrite Hs. cbn [direct]. rewrite Z.eqb_refl.
    split_and!; [done..|]. apply stalled_async_wait; [done| |by apply Forall_delete].
    exists []. by rewrite app_nil_r. }
  assert (Hrun : stalled o c').
  { unfold c', run. cbn [foldl]. clear c'. revert Hc. generalize (step (in_run k) c).
    induction Hin as [|i inputs Hi Hin IH]; [done|]. intros c1 Hc1. cbn [foldl]. by apply IH, stalled_step. }
  destruct Hrun as (_ & Hs' & Ho & _). by split.
Qed.

(** ** A NAME that cannot configure its address *)

(** A NAME that is not self-configuring, is not in the table and finds its
    preferred address taken sends a claim from the global address 255 and stays
    in [st_claiming] for good: the timeout is handled neither by the row for a
    valid nor by the row for an invalid address (which expects 254, while
    [get_address] returns 255 for an unknown NAME), and nothing is pending. *)
Theorem unknown_name_is_stuck_claiming net p o :
  self_config_address N = 0 -> name_addr_map_ net !! N = None -> full net = false ->
  unicast p -> get_name p net = Some o -> name_le N o = false ->
  run (claim_run p) (on_error (on_frame (address_claimer [] N net))) =
    claimer_at st_claiming J1939_NO_ADDR J1939_NO_ADDR net None []
      [out_frame make_global_address_request; out_frame (make_address_claim N J1939_NO_ADDR)].
Proof.
  intros Hs HN Hf Hp Ho Hle.
  assert (Hr : find_address N p net = J1939_NO_ADDR).
  { unfold find_address, get_name in *. rewrite Hs, clamp_unicast, Ho by done. simpl. by rewrite Hle. }
  unfold run, claim_run. rewrite initial_claimer. cbn [foldl].
  rewrite start_at, (run_posted N 0 ev_restart), restart_at by done. cbn [app delete list_delete].
  rewrite expire_at, (run_timer N 0 (start_claim_delay p) no_error) by done.
  cbn [run_handler delete list_delete app]. rewrite start_claim_at, Hr by done.
  rewrite expire_at, (run_timer N 0 claim_timeout no_error) by done.
  cbn [run_handler delete list_delete app]. rewrite event_at. cbn [direct].
  unfold dep_network, get_address; cbn [world network_ claiming_address].
  change (sm_name_ (machine N)) with N. by rewrite HN.
Qed.

(** A request for the holder, or for everybody. *)
Definition request_for (f : frame) (a : Z) : Prop :=
  is_claim (header f) = false /\ is_request (header f) = true /\
  (pdu_specific (header f) = a \/ pdu_specific (header f) = J1939_NO_ADDR).

(** A holder answers every request frame that is addressed to it or to
    everybody with its address claim, whatever parameter group the payload of
    the request asks for: the payload is not looked at. *)
Theorem holder_answers_every_request net ca a t q o f :
  request_for f a ->
  run [in_frame f; in_run (length q)] (claimer_at st_has_address ca a net t q o) =
    claimer_at st_has_address ca a net t q (o ++ [out_frame (make_address_claim N a)]).
Proof.
  intros (Hc & Hr & Hp). unfold run. cbn [foldl].
  assert (Hf : step (in_frame f) (claimer_at st_has_address ca a net t q o) =
    claimer_at st_has_address ca a net t
      (q ++ [posted_event (ev_address_request (pdu_specific (header f)))]) o).
  { simpl. unfold process. by rewrite Hc, Hr. }
  rewrite Hf, (run_posted N _ (ev_address_request (pdu_specific (header f)))) by (by apply list_lookup_middle).
  rewrite delete_middle, app_nil_r, event_at. cbn [direct has_address_address].
  by destruct Hp as [-> | ->]; rewrite Z.eqb_refl, ?orb_true_r.
Qed.

(** ** Losing an address for good *)

(** The timers and the queue when [N] is not self-configuring: a retry event is
    only posted for a self-configuring NAME. *)
Definition tame_handler (h : handler) : Prop :=
  match h with cannot_claim_timeout n => n = N | _ => True end.
Definition tame_task (t : task) : Prop :=
  match t with posted_event e => e <> ev_random_retry | timer_done h _ => tame_handler h end.
Definition tame (w : cworld) : Prop :=
  (forall t, t ∈ context_ w -> tame_task t) /\ (forall h, timeout_timer_ w = Some h -> tame_handler h).

Definition tame_world (f : cworld -> cworld) : Prop := forall w, tame w -> tame (f w).

Lemma tame_notify i o : tame_world (notify i o).
Proof. intros w Hw. unfold notify. by destruct (i _). Qed.

Lemma tame_post t : tame_task t -> tame_world (post t).
Proof.
  intros Ht w [Hq Hh]. split; [|done]. simpl. intros u.
  rewrite elem_of_app, list_elem_of_singleton. intros [Hu| ->]; [by apply Hq|done].
Qed.

Lemma tame_async_wait h : tame_handler h -> tame_world (async_wait h).
Proof.
  intros Hh w [Hq Ht]. split; [|by intros ? [= <-]]. simpl.
  destruct (timeout_timer_ w) as [old|]; [|done].
  intros u. rewrite elem_of_app, list_elem_of_singleton. intros [Hu| ->]; [by apply Hq|by apply Ht].
Qed.

Lemma tame_on_address n a : tame_world (on_address n a).
Proof. intros w Hw. apply tame_notify. by rewrite network_insert_world. Qed.

Lemma tame_on_address_loss n : tame_world (on_address_loss n).
Proof. intros w Hw. by apply tame_notify. Qed.

Lemma tame_begin_claiming d : tame (world d) -> tame (world (begin_claiming_address network_ (machine N) d)).
Proof. intros Hd. apply tame_notify. by apply (tame_async_wait claim_timeout). Qed.

Lemma tame_cannot_claim d : tame (world d) -> tame (world (send_cannot_claim (machine N) d)).
Proof. intros Hd. by apply tame_async_wait. Qed.

Lemma tame_enter_no_address d :
  tame (world d) -> tame (world (snd (enter_no_address network_ (machine N) d))).
Proof. intros Hd. unfold enter_no_address. simpl. destruct (full _); [done|by apply tame_notify]. Qed.

Lemma tame_contest own n a d keep lose fail_ s : tame (world d) ->
  tame (world (snd keep)) -> tame (world (snd lose)) -> tame (world (snd fail_)) ->
  tame (world (snd (contest network_ (machine N) own n a d keep lose fail_ s))).
Proof.
  intros. unfold contest. destruct (negb _); [done|].
  destruct (name_lt _ _); [done|]. by destruct (full _).
Qed.

Lemma tame_direct e s d : tame (world d) ->
  tame (world (snd (direct network_ (machine N) e s d))).
Proof.
  intros Hd. assert (Hloss : tame (world (notify_address_loss (machine N) d)))
    by (by apply tame_on_address_loss).
  assert (Hclaim : forall a, tame (world (send_address_claim (machine N) a d)))
    by (intros a; by apply tame_notify).
  destruct s, e; cbn [direct]; try exact Hd.
  - destruct (full _); [by apply tame_cannot_claim|by apply tame_begin_claiming].
  - cbn [snd]. destruct (_ =? _); [by apply tame_cannot_claim|done].
  - by apply tame_enter_no_address.
  - apply tame_contest; cbn [snd]; [done|apply Hclaim|by apply tame_begin_claiming|by apply tame_cannot_claim].
  - cbn [snd]. destruct (_ || _); [apply Hclaim|done].
  - destruct (_ || _); [by apply tame_on_address|].
    destruct (_ =? _); [by apply tame_enter_no_address|done].
  - apply tame_contest; cbn [snd]; [done|apply Hclaim|by apply tame_begin_claiming|by apply tame_cannot_claim].
  - cbn [snd]. destruct (_ || _); [apply Hclaim|done].
  - cbn [snd]. destruct (_ =? _); [by apply tame_cannot_claim|done].
  - destruct (_ && _); [by apply tame_begin_claiming|].
    by apply tame_enter_no_address, tame_cannot_claim.
Qed.

Definition tame_claimer (c : claimer) : Prop := addr_claimer_ c = machine N /\ tame (cworld_of c).

Lemma tame_on_world f c : tame_world f -> tame_claimer c -> tame_claimer (on_claimer_world f c).
Proof. intros Hf [Hm Hw]. split; [done|]. by apply Hf. Qed.

(** An event other than a retry keeps the lost state. *)
Lemma tame_event e c : tame_claimer c ->
  tame_claimer (claimer_event e c) /\
  (e <> ev_random_retry -> state_machine_ c = st_address_lost ->
   state_machine_ (claimer_event e c) = st_address_lost).
Proof.
  intros [Hm Hw]. rewrite (claimer_event_direct N) by done. split.
  - pose proof (tame_direct e (state_machine_ c) (deps_ c) Hw) as Hd.
    by destruct (direct _ _ _ _ _).
  - intros He Hs. rewrite Hs. by destruct e.
Qed.

Lemma tame_on_fail what ec : tame_world (on_fail what ec).
Proof. intros w Hw. unfold on_fail. destruct ec; first [exact Hw|by apply tame_notify]. Qed.

Lemma tame_run_task t c : self_config_address N = 0 -> tame_task t -> tame_claimer c ->
  tame_claimer (run_task t c) /\
  (state_machine_ c = st_address_lost -> state_machine_ (run_task t c) = st_address_lost).
Proof.
  intros Hs Ht Hc. destruct t as [e|h ec]; cbn [run_task].
  { destruct (tame_event e c Hc). by auto. }
  destruct ec; cycle 1.
  1-3: destruct h; (split; [apply tame_on_world; [apply tame_on_fail|exact Hc]|done]).
  destruct h as [p| |n]; cbn [run_handler].
  - destruct (tame_event (ev_start_claim p) c Hc) as [? Hl]. split; [done|]. by apply Hl.
  - destruct (tame_event ev_timeout c Hc) as [? Hl]. split; [done|]. by apply Hl.
  - simpl in Ht. subst n. rewrite Hs. simpl negb. cbv iota.
    split; [|done]. apply tame_on_world; [apply tame_notify|done].
Qed.

Lemma tame_step i c : self_config_address N = 0 -> tame_claimer c ->
  tame_claimer (step i c) /\
  (state_machine_ c = st_address_lost -> state_machine_ (step i c) = st_address_lost).
Proof.
  intros Hs Hc. destruct i as [f|p|k|failed].
  - cbn [step]. unfold process. destruct (is_claim (header f)).
    + unfold process_claim. rewrite network_insert_world. destruct Hc as [Hm Hw].
      destruct (negb _); (split; [split; [done|]|done]); [by apply tame_notify|by apply tame_post].
    + destruct (is_request (header f)); [|done].
      split; [|done]. apply tame_on_world; [by apply tame_post|done].
  - cbn [step]. unfold start_address_claim. destruct (negb _); [done|]. split; [|done].
    apply tame_on_world; [by apply tame_async_wait|]. apply tame_on_world; [by apply tame_post|done].
  - cbn [step]. unfold take_task. destruct (context_ (cworld_of c) !! k) as [t|] eqn:Hk; [|done].
    destruct Hc as [Hm [Hq Hh]].
    apply (tame_run_task t (on_claimer_world (fun _ => _) c)); [done| |].
    + by eapply Hq, list_elem_of_lookup_2.
    + split; [done|]. split; [|done]. simpl. intros u Hu. apply Hq.
      rewrite (delete_Permutation _ _ _ Hk). by apply list_elem_of_further.
  - split; [|done]. apply tame_on_world; [|done]. intros w Hw. unfold expire.
    destruct (timeout_timer_ w) as [h|] eqn:Ht; [|exact Hw]. destruct Hw as [Hq Hh]. split; [|done]. simpl. intros u.
    rewrite elem_of_app, list_elem_of_singleton. intros [Hu| ->]; [by apply Hq|by apply Hh].
Qed.

Lemma tame_run inputs c : self_config_address N = 0 -> tame_claimer c ->
  tame_claimer (run inputs c) /\
  (state_machine_ c = st_address_lost -> state_machine_ (run inputs c) = st_address_lost).
Proof.
  intros Hs. revert c. induction inputs as [|i inputs IH]; [done|]. intros c Hc.
  destruct (tame_step i c Hs Hc) as [Hc' Hl]. destruct (IH _ Hc') as [Hr Hlr].
  split; [exact Hr|]. intros Hlost. by apply Hlr, Hl.
Qed.

(** A NAME that is not self-configuring and loses its address never leaves
    [st_address_lost], whatever happens afterwards: the retry event that the
    table expects there is only posted for self-configuring NAMEs, and
    [start_address_claim] does nothing outside [st_no_address]. *)
Theorem lost_address_is_lost_for_good net before after :
  self_config_address N = 0 ->
  let c := run before (address_claimer [] N net) in
  state_machine_ c = st_address_lost -> state_machine_ (run after c) = st_address_lost.
Proof.
  intros Hs c. apply tame_run; [done|]. apply tame_run; [done|].
  rewrite address_claimer_initial. split; [done|]. split; [|done].
  intros t Ht. by apply not_elem_of_nil in Ht.
Qed.

End Limits.
