(* ===== verification/ClaimerBus.v ===== *)
(** * Two address claimers on one bus

    Two claimers, each with a table of its own, connected by a bus that
    delivers every frame that one of them sends to the other one.  Queued
    tasks run in any order; a timer's handler runs when the timer expires. *)

From Stdlib Require Import String.
From stdpp Require Import gmap.
From S2P Require Import Prelude J1939Type Canary Header HeaderFacts Name NameFacts Frame FrameFacts.
From S2P Require Import Network NetworkFacts NetworkSpec NetworkSearch Sml StateMachine.
From S2P Require Import StateMachineFacts AddressClaimer ClaimerFacts ClaimerBehaviour.

(** ** The bus *)

Section Bus.
Context `{CanaryHeader} `{Sml}.

(** The frames among the outputs of a claimer. *)
Definition output_frame (o : output) : option frame :=
  match o with out_frame f => Some f | _ => None end.

Definition frames (w : cworld) : list frame := omap output_frame (outputs w).

(** The user starts a claim, a queued task runs, the timer fires (or its wait
    fails) and its handler runs at once, the timer expires and its handler is
    queued, a frame of a third party arrives. *)
Inductive action :=
| act_start (preferred_address : Z)
| act_run (k : nat)
| act_fire (failed : bool)
| act_expire (failed : bool)
| act_frame (f : frame).

Definition act (i : action) (c : claimer) : claimer :=
  match i with
  | act_start p => step (in_start p) c
  | act_run k => step (in_run k) c
  | act_fire failed =>
      step (in_run (length (context_ (cworld_of c)))) (step (in_expire failed) c)
  | act_expire failed => step (in_expire failed) c
  | act_frame f => step (in_frame f) c
  end.

Definition hear (fs : list frame) (c : claimer) : claimer :=
  foldl (fun c f => step (in_frame f) c) c fs.

(** The frames that a claimer has sent on the way from [c] to [c']. *)
Definition new_frames (c c' : claimer) : list frame :=
  drop (length (frames (cworld_of c))) (frames (cworld_of c')).

(** An action of the first claimer of a pair. *)
Definition bus_act (i : action) (p : claimer * claimer) : claimer * claimer :=
  let c := act i (fst p) in (c, hear (new_frames (fst p) c) (snd p)).

(** An action of the first ([true]) or of the second claimer. *)
Definition bus_step (p : claimer * claimer) (i : bool * action) : claimer * claimer :=
  let '(first, i) := i in
  if first then bus_act i p else prod_swap (bus_act i (prod_swap p)).

Definition bus_run (is_ : list (bool * action)) (p : claimer * claimer) : claimer * claimer :=
  foldl bus_step p is_.

(** The handler of a timer does not wait in the queue, and third parties claim
    no address. *)
Definition action_ok (i : action) : Prop :=
  match i with
  | act_frame f => is_claim (header f) = false
  | act_expire _ => False
  | _ => True
  end.

End Bus.

(** ** What a claimer sends *)

Section Sender.
Context `{CanaryLaws} `{SmlLaws} (N : name) (HN : name_wf N).

(** The address that a machine claims or holds. *)
Definition holds (s : st) (d : deps cworld) (x : Z) : Prop :=
  match s with
  | st_claiming => x = claiming_address d
  | st_has_address => x = has_address_address d
  | _ => False
  end.

Definition busy (s : st) : bool :=
  match s with st_claiming | st_has_address => true | _ => false end.

(** A cannot-claim message is scheduled only while no address is claimed or
    held, and no expired timer waits in the queue. *)
Definition timers_ok (s : st) (w : cworld) : Prop :=
  (forall n, timeout_timer_ w = Some (cannot_claim_timeout n) -> n = N /\ busy s = false) /\
  (forall h ec, timer_done h ec ∈ context_ w -> ec <> no_error).

Definition sender_ok (s : st) (d : deps cworld) : Prop :=
  on_frame_ (hooks_ (world d)) = true /\ timers_ok s (world d) /\ forall x, holds s d x -> is_uint 8 x.

(** From [(s, d)] to [(s', d')] the frames [fs] have been sent: at most one, and
    if it is a claim, it is for the address that the machine now claims or
    holds; a new address is always announced. *)
Definition announces (s : st) (d : deps cworld) (s' : st) (d' : deps cworld) : Prop :=
  exists fs, frames (world d') = frames (world d) ++ fs /\
    ((Forall (fun f => is_claim (header f) = false) fs /\ (forall x, holds s' d' x -> holds s d x)) \/
     exists f a, fs = [f] /\ claims f N a /\ is_uint 8 a /\ (forall x, holds s' d' x -> x = a) /\
       (unicast a -> holds s' d' a)).

(** What sending needs: the callback, and a queue without expired timers. *)
Definition hooked (d : deps cworld) : Prop :=
  on_frame_ (hooks_ (world d)) = true /\ forall h ec, timer_done h ec ∈ context_ (world d) -> ec <> no_error.

Lemma sender_hooked s d : sender_ok s d -> hooked d.
Proof. intros (Hf & (_ & Hq) & _). by split. Qed.

Lemma address_claim_claims a : is_uint 8 a -> claims (make_address_claim N a) N a.
Proof.
  intros Ha. destruct (archetype_header 0xEE 0xFF a 8) as (C1 & _ & C3 & _); [done..|].
  unfold claims, make_address_claim. simpl. rewrite is_claim_field.
  unfold PF_ADDRESS_CLAIM, J1939_NO_ADDR. rewrite C1, C3. split_and!; [done| |done].
  by apply name_of_to_payload.
Qed.

Lemma request_no_claim : is_claim (header make_global_address_request) = false.
Proof.
  destruct (archetype_header 0xEA J1939_NO_ADDR 0xFE 3) as (C1 & _); [done..|].
  unfold make_global_address_request, make_address_request. simpl. rewrite is_claim_field.
  unfold PF_REQUEST, J1939_IDLE_ADDR. by rewrite C1.
Qed.

Lemma frames_emit o w : frames (emit o w) = frames w ++ omap output_frame [o].
Proof. unfold frames. simpl. by rewrite omap_app. Qed.

(** Arming the timer queues at most a cancelled wait. *)
Lemma async_wait_queue h w : (forall h' ec, timer_done h' ec ∈ context_ w -> ec <> no_error) ->
  forall h' ec, timer_done h' ec ∈ context_ (async_wait h w) -> ec <> no_error.
Proof.
  intros Hq h' ec. unfold async_wait. simpl. destruct (timeout_timer_ w); [|apply Hq].
  rewrite elem_of_app, list_elem_of_singleton. intros [?|[= _ ->]]; [by eapply Hq|done].
Qed.

Lemma notify_frame f w : on_frame_ (hooks_ w) = true -> notify on_frame_ (out_frame f) w = emit (out_frame f) w.
Proof. intros Hf. unfold notify. by rewrite Hf. Qed.

Lemma send_address_claim_emits a d : on_frame_ (hooks_ (world d)) = true ->
  send_address_claim (machine N) a d = on_world (emit (out_frame (make_address_claim N a))) d.
Proof.
  intros Hf. unfold send_address_claim, call, on_world. simpl. unfold on_address_claim. by rewrite notify_frame.
Qed.

(** The claim of the address that the machine claims or holds. *)
Lemma announce_again s d a : sender_ok s d -> is_uint 8 a -> (forall x, holds s d x <-> x = a) ->
  let d' := send_address_claim (machine N) a d in sender_ok s d' /\ announces s d s d'.
Proof.
  intros (Hf & Ht & Hu) Ha Hx d'. unfold d'. rewrite send_address_claim_emits by done.
  split; [done|]. exists [make_address_claim N a]. simpl. rewrite frames_emit. split; [done|]. right.
  eexists _, a. split_and!; [done|by apply address_claim_claims|done|by intros x ?%Hx|intros _; by apply Hx].
Qed.

(** Claiming another address. *)
Lemma announce_claim s d d0 : hooked d0 -> frames (world d0) = frames (world d) ->
  let d' := begin_claiming_address network_ (machine N) d0 in
  sender_ok st_claiming d' /\ announces s d st_claiming d'.
Proof.
  intros [Hf Hq] Hfr d'. set (a := find_address N (claiming_address d0) (network_ (world d0))).
  assert (Hd : d' = on_world (emit (out_frame (make_address_claim N a)))
    (set_claiming a (on_world (async_wait claim_timeout) d0))).
  { unfold d', begin_claiming_address, claim_address. by rewrite send_address_claim_emits. }
  assert (Ha : is_uint 8 a) by apply find_address_uint. rewrite Hd. split.
  - split_and!; [done| |by intros x ->]. split; [done|]. by apply async_wait_queue.
  - exists [make_address_claim N a]. simpl. rewrite frames_emit. split; [by rewrite <- Hfr|]. right.
    eexists _, a. split_and!; [done|by apply address_claim_claims|done|by intros x ->|done].
Qed.

(** Without an address the timer of the cannot-claim message may be armed. *)
Lemma announce_nothing s s' d d0 : busy s' = false -> hooked d0 -> frames (world d0) = frames (world d) ->
  let d' := send_cannot_claim (machine N) d0 in sender_ok s' d' /\ announces s d s' d'.
Proof.
  intros Hb [Hf Hq] Hfr d'. split.
  - split_and!; [done| |by destruct s']. split; [by intros n [= ->]|]. by apply async_wait_queue.
  - exists []. rewrite app_nil_r. split; [done|]. left. split; [done|]. by destruct s'.
Qed.

Lemma announce_request s d d0 : sender_ok st_no_address d0 -> frames (world d0) = frames (world d) ->
  let '(s', d') := enter_no_address network_ (machine N) d0 in sender_ok s' d' /\ announces s d s' d'.
Proof.
  intros (Hf & Ht & Hu) Hfr. unfold enter_no_address. destruct (full _).
  - split; [done|]. exists []. rewrite app_nil_r. split; [done|]. by left.
  - unfold send_request, call, on_world. simpl. unfold on_address_request. rewrite notify_frame by done.
    split; [done|].
    exists [make_global_address_request]. simpl. rewrite frames_emit, Hfr. split; [done|].
    left. split; [|done]. apply Forall_singleton, request_no_claim.
Qed.

(** A step after which the machine holds what it held, without a frame. *)
Lemma announce_same s s' d d' : sender_ok s' d' -> frames (world d') = frames (world d) ->
  (forall x, holds s' d' x -> holds s d x) -> sender_ok s' d' /\ announces s d s' d'.
Proof. intros Hs Hfr Hx. split; [done|]. exists []. rewrite app_nil_r. split; [done|]. by left. Qed.

(** The callbacks of gain and loss change the table and tell the user. *)
Lemma loss_world d :
  let w := world (notify_address_loss (machine N) d) in
  frames w = frames (world d) /\ hooks_ w = hooks_ (world d) /\ context_ w = context_ (world d).
Proof.
  simpl. unfold on_address_loss, notify. simpl.
  destruct (on_lose_address_ _); rewrite ?frames_emit, ?app_nil_r; done.
Qed.

Lemma network_insert_frames n a w : frames (snd (network_insert n a w)) = frames w.
Proof.
  rewrite network_insert_world. unfold frames. simpl. rewrite omap_app.
  generalize (snd (insert n a (network_ w))) as l.
  induction l as [|[m b] l IH]; [apply app_nil_r|exact IH].
Qed.

Lemma gain_world a d :
  let w := world (notify_address_gain (machine N) (set_has_address a d)) in
  frames w = frames (world d) /\ hooks_ w = hooks_ (world d) /\ context_ w = context_ (world d) /\
  timeout_timer_ w = timeout_timer_ (world d).
Proof.
  simpl. unfold on_address, notify.
  pose proof (network_insert_frames N a (world d)) as Hfr. rewrite network_insert_world in *. simpl in *.
  destruct (on_address_ _); by rewrite ?frames_emit, ?app_nil_r.
Qed.

Lemma announce_gain d : sender_ok st_claiming d ->
  let '(s', d') := enter_has_address (machine N) (claiming_address d) d in
  sender_ok s' d' /\ announces st_claiming d s' d'.
Proof.
  intros (Hf & (Ht & Hq) & Hu). destruct (gain_world (claiming_address d) d) as (G1 & G2 & G3 & G4).
  apply announce_same; [|done|done]. split_and!.
  - by rewrite G2.
  - split; [rewrite G4|by rewrite G3]. intros n Hn. by destruct (Ht n Hn).
  - intros x ->. by apply Hu.
Qed.

(** A claim of another NAME, while an address is claimed or held. *)
Lemma announce_contest own n a s d lose fail_ :
  sender_ok s d -> (forall x, holds s d x <-> x = own) ->
  (let '(s', d') := lose in sender_ok s' d' /\ announces s d s' d') ->
  (let '(s', d') := fail_ in sender_ok s' d' /\ announces s d s' d') ->
  let '(s', d') := contest network_ (machine N) own n a d
    (s, send_address_claim (machine N) own d) lose fail_ s in
  sender_ok s' d' /\ announces s d s' d'.
Proof.
  intros Hs Hx Hl Hfl. pose proof Hs as (_ & _ & Hu). unfold contest.
  destruct (negb _); [by apply announce_same|].
  destruct (name_lt _ _); [|by destruct (full _)].
  apply announce_again; [done|by apply Hu, Hx|done].
Qed.

Lemma announce_if (b : bool) s d d1 d2 :
  (sender_ok s d1 /\ announces s d s d1) -> (sender_ok s d2 /\ announces s d s d2) ->
  let d' := if b then d1 else d2 in sender_ok s d' /\ announces s d s d'.
Proof. by destruct b. Qed.

(** Every event of the state machine. *)
Lemma direct_announces e s d : sender_ok s d ->
  let '(s', d') := direct network_ (machine N) e s d in sender_ok s' d' /\ announces s d s' d'.
Proof.
  intros Hs. pose proof (sender_hooked s d Hs) as Hh. pose proof Hs as (_ & _ & Hu).
  assert (Hsame : sender_ok s d /\ announces s d s d) by by apply announce_same.
  destruct s, e as [p|n a|a| | |]; cbn [direct];
    lazymatch goal with |- sender_ok ?s d /\ announces ?s d ?s d => exact Hsame | _ => idtac end.
  - destruct (full _); [by apply announce_nothing|by apply announce_claim].
  - apply announce_if; [by apply announce_nothing|done].
  - by apply announce_request.
  - apply announce_contest; [done..|by apply announce_claim|by apply announce_nothing].
  - apply announce_if; [|done]. apply announce_again; [done|by apply Hu|done].
  - destruct (_ || _); [by apply announce_gain|]. destruct (_ =? _); [|done].
    apply announce_request; [|done]. destruct Hs as (? & (Ht & ?) & _). split_and!; [done| |done].
    split; [|done]. intros n Hn. by destruct (Ht n Hn).
  - destruct (loss_world d) as (L1 & L2 & L3).
    assert (Hh' : hooked (notify_address_loss (machine N) d)) by (unfold hooked; by rewrite L2, L3).
    apply announce_contest; [done..|by apply announce_claim|by apply announce_nothing].
  - apply announce_if; [|done]. apply announce_again; [done|by apply Hu|done].
  - apply announce_if; [by apply announce_nothing|done].
  - destruct (_ && _); [by apply announce_claim|].
    destruct (announce_nothing st_address_lost st_no_address d d) as [Hs' _]; [done..|]. by apply announce_request.
Qed.

(** ** The actions of a claimer *)

Definition sender (c : claimer) : Prop :=
  addr_claimer_ c = machine N /\ sender_ok (state_machine_ c) (deps_ c).

Definition announced (c c' : claimer) : Prop :=
  announces (state_machine_ c) (deps_ c) (state_machine_ c') (deps_ c').

(** A change of the world that sends no frame. *)
Lemma world_announced f c : sender c ->
  frames (f (cworld_of c)) = frames (cworld_of c) -> hooks_ (f (cworld_of c)) = hooks_ (cworld_of c) ->
  timers_ok (state_machine_ c) (f (cworld_of c)) ->
  sender (on_claimer_world f c) /\ announced c (on_claimer_world f c).
Proof.
  intros (Hm & Hf & _ & Hu) Hfr Hh Ht.
  destruct (announce_same (state_machine_ c) (state_machine_ c) (deps_ c) (on_world f (deps_ c)))
    as [Hs Ha]; [|done..|by split]. split_and!; [simpl; fold (cworld_of c); by rewrite Hh|done..].
Qed.

(** The world a step starts from may differ in the timer and the queue. *)
Lemma announced_from c c1 c' : frames (cworld_of c1) = frames (cworld_of c) ->
  (forall x, holds (state_machine_ c1) (deps_ c1) x -> holds (state_machine_ c) (deps_ c) x) ->
  announced c1 c' -> announced c c'.
Proof.
  intros Hfr Hx (fs & Hfs & Hc). exists fs. split; [unfold cworld_of in *; congruence|].
  destruct Hc as [[? ?]|?]; [left; by auto|by right].
Qed.

Lemma event_announced e c : sender c -> sender (claimer_event e c) /\ announced c (claimer_event e c).
Proof.
  intros [Hm Hs]. rewrite (claimer_event_direct N) by done. pose proof (direct_announces e _ _ Hs) as Hd.
  unfold announced, sender. destruct (direct _ _ _ _ _). simpl. by destruct Hd.
Qed.

Lemma error_announced what ec c : sender c ->
  let c' := on_claimer_world (on_fail what ec) c in sender c' /\ announced c c'.
Proof.
  intros Hc. assert (Hsame : forall i o, output_frame o = None ->
    sender (on_claimer_world (notify i o) c) /\ announced c (on_claimer_world (notify i o) c)).
  { intros i o Ho. apply world_announced; [done| | |]; unfold notify; destruct (i _); try apply Hc; [|done..].
    rewrite frames_emit. simpl. by rewrite Ho, app_nil_r. }
  destruct ec; try by apply Hsame. apply world_announced; [done..|apply Hc].
Qed.

Lemma cannot_claim_announced c : sender c -> busy (state_machine_ c) = false ->
  let c' := on_claimer_world (notify on_frame_ (out_frame (make_cannot_claim N))) c in
  sender c' /\ announced c c'.
Proof.
  intros (Hm & Hf & Ht & Hu) Hb c'. unfold c', on_claimer_world, announced, sender, on_world.
  rewrite notify_frame by done. split; [done|]. exists [make_cannot_claim N]. simpl.
  rewrite frames_emit. split; [done|]. right. eexists _, J1939_IDLE_ADDR.
  split_and!; [done|by apply address_claim_claims|done|by destruct (state_machine_ c)|].
  intros Hu'. by destruct not_unicast_idle.
Qed.

Lemma post_sender e c : sender c -> sender (on_claimer_world (post (posted_event e)) c).
Proof.
  intros Hc. pose proof Hc as (_ & _ & (Ht & Hq) & _). apply world_announced; [done..|].
  split; [done|]. intros h ec. simpl. rewrite elem_of_app, list_elem_of_singleton.
  intros [?|?]; [by eapply Hq|done].
Qed.

(** The handler of a timer that has just expired. *)
Lemma handler_announced h ec c : sender c ->
  (forall n, h = cannot_claim_timeout n -> ec = no_error -> n = N /\ busy (state_machine_ c) = false) ->
  sender (run_handler h ec c) /\ announced c (run_handler h ec c).
Proof.
  intros Hc Hh. destruct ec; cycle 1; [destruct h; by apply error_announced..|].
  destruct h as [p| |n]; [by apply event_announced..|]. destruct (Hh n eq_refl eq_refl) as [-> Hb].
  cbn [run_handler]. rewrite name_of_to_payload by done. set (c1 := on_claimer_world (notify _ _) c).
  assert (Hc1 : sender c1 /\ announced c c1) by by apply cannot_claim_announced.
  destruct (negb _); [|done]. split; [by apply post_sender, Hc1|]. apply Hc1.
Qed.

(** The claimer without the task that it runs. *)
Lemma task_announced k c t w : sender c -> take_task k (cworld_of c) = Some (t, w) ->
  let c1 := on_claimer_world (fun _ => w) c in sender (run_task t c1) /\ announced c (run_task t c1).
Proof.
  intros Hc Hk c1. unfold take_task in Hk. destruct (context_ (cworld_of c) !! k) as [t'|] eqn:Ht; [|done].
  injection Hk as -> <-. pose proof Hc as (_ & _ & (Hti & Hq) & _).
  assert (Hc1 : sender c1).
  { apply world_announced; [done..|]. split; [done|]. intros h ec Hin. apply (Hq h ec).
    rewrite (delete_Permutation _ _ _ Ht). by right. }
  destruct t as [e|h ec].
  - destruct (event_announced e c1 Hc1). split; [done|]. by eapply announced_from.
  - assert (Hec : ec <> no_error) by (apply (Hq h ec); by eapply list_elem_of_lookup_2).
    destruct (handler_announced h ec c1) as [? ?]; [done..|]. split; [done|]. by eapply announced_from.
Qed.

(** The timer fires: its handler runs at once, and the queue stays. *)
Lemma fire_handler failed c :
  act (act_fire failed) c =
    match timeout_timer_ (cworld_of c) with
    | Some h => run_handler h (if failed then other_error else no_error)
        (on_claimer_world (fun w => CWorld (network_ w) None (context_ w) (hooks_ w) (outputs w)) c)
    | None => c
    end.
Proof.
  destruct c as [m s [ca ha pa w]]. cbn [act step]. unfold take_task, expire. cbn -[run_handler].
  destruct (timeout_timer_ w) as [h|] eqn:Hh; cbn -[run_handler].
  - rewrite list_lookup_middle by done. cbn -[run_handler].
    by rewrite delete_middle, app_nil_r.
  - rewrite (lookup_ge_None_2 (context_ w)) by lia. unfold on_claimer_world, on_world. simpl. by rewrite Hh.
Qed.

Lemma act_announced i c : action_ok i -> sender c -> sender (act i c) /\ announced c (act i c).
Proof.
  intros Hi Hc. pose proof Hc as (_ & Hf & (Hti & Hq) & Hu).
  assert (Hsame : sender c /\ announced c c).
  { split; [done|]. exists []. rewrite app_nil_r. split; [done|]. by left. }
  destruct i as [p|k|failed|failed|f]; [| |rewrite fire_handler|done|].
  - cbn [act step]. unfold start_address_claim. destruct (negb _); [done|].
    pose proof (post_sender ev_restart c Hc) as Hc1. set (c1 := on_claimer_world (post _) c) in *.
    destruct (world_announced (async_wait (start_claim_delay p)) c1 Hc1) as [? ?]; [done..| |].
    { split; [done|]. apply async_wait_queue, Hc1. }
    split; [done|]. by eapply announced_from.
  - cbn [act step]. destruct (take_task k (cworld_of c)) as [[t w]|] eqn:Ht; [by eapply task_announced|done].
  - destruct (timeout_timer_ (cworld_of c)) as [h|] eqn:Hh; [|done].
    set (c1 := on_claimer_world _ c). assert (Hc1 : sender c1) by (by apply world_announced).
    destruct (handler_announced h (if failed then other_error else no_error) c1) as [? ?]; [done| |].
    { intros n -> _. by apply Hti. }
    split; [done|]. by eapply announced_from.
  - cbn [act step]. unfold process. simpl in Hi. rewrite Hi. destruct (is_request _); [|done].
    split; [by apply post_sender|apply Hsame].
Qed.

End Sender.

(** ** What a claimer does to its own table *)

Section Table.
Context `{CanaryHeader} `{SmlLaws} (N : name).

(** The entries of NAMEs that [N] cannot evict stay in both maps, and only [N] is
    added. *)
Definition spares (net net' : network) : Prop :=
  (forall b o, addr_name_map_ net !! b = Some o -> o <> N -> name_gt o N = false ->
    addr_name_map_ net' !! b = Some o) /\
  (forall b o, addr_name_map_ net' !! b = Some o -> addr_name_map_ net !! b = Some o \/ o = N) /\
  (forall o a, name_addr_map_ net !! o = Some a -> o <> N -> name_gt o N = false ->
    name_addr_map_ net' !! o = Some a).

#[local] Instance spares_preorder : PreOrder spares.
Proof.
  split; [intros net; by split_and!; auto|]. intros net net' net'' (A1 & A2 & A3) (B1 & B2 & B3). split_and!; [by auto| |by auto].
  intros b o Ho. destruct (B2 b o Ho); [by apply A2|by right].
Qed.

(** Removing the address of a NAME that is [N], or that [N] evicts. *)
Lemma set_idle_spares n net : net_ok net -> is_Some (name_addr_map_ net !! n) -> n = N \/ name_gt n N = true ->
  spares net (set_idle n net).
Proof.
  intros Hok [a Ha] Hn. rewrite (set_idle_maps n net a Ha). split_and!; simpl.
  - intros b o Hb Ho Hgt. rewrite lookup_delete_ne; [done|]. intros ->.
    pose proof (ok_fwd_rev _ Hok _ _ Ha (ok_rev_unicast _ Hok _ _ Hb)). destruct Hn; congruence.
  - intros b o. rewrite lookup_delete_Some. intros [_ ?]. by left.
  - intros o b Hb Ho Hgt. rewrite lookup_insert_ne; [done|]. intros ->. destruct Hn; congruence.
Qed.

Lemma release_spares net : net_ok net -> spares net (release N net).
Proof.
  intros Hok. rewrite release_set_idle. destruct (name_addr_map_ net !! N) as [a|] eqn:Ha; [|done].
  apply set_idle_spares; [done|by eexists|by left].
Qed.

Lemma vacated_spares a net : net_ok net ->
  (forall o, addr_name_map_ net !! a = Some o -> name_gt o N = true) -> spares net (vacated N a net).
Proof.
  intros Hok Ho. assert (Hr : spares net (registered N net)).
  { split_and!; [done|by left|]. intros o b Hb Hne _. simpl. rewrite lookup_try_emplace. by rewrite decide_False. }
  unfold vacated. destruct (addr_name_map_ net !! a) as [o|] eqn:Hao; [|done].
  destruct (name_ne o N); [|done]. etrans; [exact Hr|].
  pose proof (register_ok N net Hok) as Hok'. apply set_idle_spares; [done| |right; by apply Ho].
  by apply (ok_rev_known _ Hok' a).
Qed.

Lemma insert_spares a net : is_uint 8 a -> net_ok net -> claimable a N net = true ->
  spares net (inserted N a net).
Proof.
  intros Ha Hok Hc. unfold claimable in Hc. destruct (_ <? _) eqn:Hm; [done|].
  apply unicast_ltb in Hm; [|done].
  assert (Ho : forall o, addr_name_map_ net !! a = Some o -> name_gt o N = true).
  { intros o Hao. by rewrite Hao in Hc. }
  assert (Hr : refused N a net = false).
  { unfold refused. destruct (addr_name_map_ net !! a); [|done]. rewrite name_gt_lt in *. by apply name_lt_asym. }
  unfold inserted. rewrite insert_unicast, Hr by done. destruct (vacated_spares a net Hok Ho) as (V1 & V2 & V3).
  split_and!; simpl; intros b o Hb.
  - intros Hne Hgt. rewrite lookup_insert_ne; [by apply V1|]. intros ->. rewrite Ho in Hgt; done.
  - rewrite lookup_insert in Hb. case_decide; [right; congruence|by apply V2].
  - intros Hne Hgt. rewrite lookup_insert_ne by congruence. by apply V3.
Qed.

(** The table of a machine after an event. *)
Definition after (r : st * deps cworld) : network := network_ (world (snd r)).

Lemma quiet_after s d d' : quiet d d' -> after (s, d') = network_ (world d).
Proof. by intros (_ & Hn & _). Qed.

Lemma enter_no_address_after d : after (enter_no_address network_ (machine N) d) = network_ (world d).
Proof. unfold enter_no_address. destruct (full _); [done|]. apply quiet_after, quiet_send_request. Qed.

Lemma contest_after own n a s d lose fail_ :
  let net := network_ (world d) in
  spares net (after lose) -> spares net (after fail_) ->
  spares net (after (contest network_ (machine N) own n a d
    (s, send_address_claim (machine N) own d) lose fail_ s)).
Proof.
  intros net Hl Hf. unfold contest. destruct (negb _); [done|]. destruct (name_lt _ _).
  - by rewrite (quiet_after s d) by apply quiet_send_address_claim.
  - by destruct (full _).
Qed.

Lemma gain_after d : agree N st_claiming d ->
  claimable (claiming_address d) N (network_ (world d)) = true ->
  spares (network_ (world d)) (after (enter_has_address (machine N) (claiming_address d) d)).
Proof.
  intros [(Hok & _) Hu] Hc. unfold after, enter_has_address. simpl. unfold on_address.
  rewrite (proj1 (quiet_notify _ _ _)), network_insert_world. by apply insert_spares.
Qed.

Lemma loss_after d : network_ (world (notify_address_loss (machine N) d)) = release N (network_ (world d)).
Proof. simpl. unfold on_address_loss. by rewrite (proj1 (quiet_notify _ _ _)). Qed.

(** What the agreement says of the table, whatever is queued. *)
Definition table_ok (s : st) (d : deps cworld) : Prop :=
  net_ok (network_ (world d)) /\ (s = st_claiming -> agree N st_claiming d).

Lemma agree_table s d : agree N s d -> table_ok s d.
Proof. intros Hag. split; [destruct s; apply Hag|by intros ->]. Qed.

(** Every event of the state machine. *)
Lemma direct_spares e s d : table_ok s d ->
  spares (network_ (world d)) (after (direct network_ (machine N) e s d)).
Proof.
  intros [Hok Hag]. assert (Hq : forall s' d', quiet d d' -> spares (network_ (world d)) (after (s', d'))).
  { intros s' d' Hd. by rewrite (quiet_after s' d d' Hd). }
  assert (Hr : quiet d d) by by split_and!.
  destruct s, e as [p|n a|a| | |]; cbn [direct]; try (apply Hq, Hr).
  - destruct (full _); apply Hq; [apply quiet_send_cannot_claim|apply (quiet_begin_claiming N (set_claiming p d))].
  - apply Hq. destruct (_ =? _); [apply quiet_send_cannot_claim|exact Hr].
  - by rewrite enter_no_address_after.
  - apply contest_after; apply Hq; [apply quiet_begin_claiming|apply quiet_send_cannot_claim].
  - apply Hq. destruct (_ || _); [apply quiet_send_address_claim|exact Hr].
  - unfold dep_network. change (sm_name_ (machine N)) with N.
    specialize (Hag eq_refl). rewrite unaddressed_not_below, orb_false_r by apply Hag.
    destruct (claimable _ _ _) eqn:Hc; [by apply gain_after|].
    destruct (_ =? _); [by rewrite enter_no_address_after|done].
  - assert (Hl : spares (network_ (world d)) (network_ (world (notify_address_loss (machine N) d)))).
    { rewrite loss_after. by apply release_spares. }
    set (d1 := notify_address_loss _ d) in *. apply contest_after.
    + unfold enter_claiming. by rewrite (quiet_after _ d1) by exact (quiet_begin_claiming N (set_claiming (has_address_address d1) d1)).
    + unfold enter_address_lost. by rewrite (quiet_after _ d1) by apply quiet_send_cannot_claim.
  - apply Hq. destruct (_ || _); [apply quiet_send_address_claim|exact Hr].
  - apply Hq. destruct (_ =? _); [apply quiet_send_cannot_claim|exact Hr].
  - destruct (_ && _); [apply Hq, (quiet_begin_claiming N (set_claiming (dep_pref_address d) d))|].
    rewrite enter_no_address_after. exact (Hq st_no_address _ (quiet_send_cannot_claim N d)).
Qed.

Notation table c := (network_ (cworld_of c)).

Lemma event_spares e c : addr_claimer_ c = machine N -> table_ok (state_machine_ c) (deps_ c) ->
  spares (table c) (table (claimer_event e c)).
Proof.
  intros Hm Ht. rewrite (claimer_event_direct N) by done.
  pose proof (direct_spares e _ _ Ht) as Hs. by destruct (direct _ _ _ _ _).
Qed.

Lemma handler_spares h ec c : addr_claimer_ c = machine N -> table_ok (state_machine_ c) (deps_ c) ->
  spares (table c) (table (run_handler h ec c)).
Proof.
  intros Hm Ht. assert (Hq : forall f, quiet_world f -> spares (table c) (table (on_claimer_world f c))).
  { intros f Hf. change (spares (table c) (network_ (f (cworld_of c)))). by rewrite (proj1 (Hf _)). }
  destruct ec; cycle 1; [destruct h; apply Hq, quiet_on_fail..|].
  destruct h as [p| |n]; [by apply event_spares..|]. cbn [run_handler].
  set (c1 := on_claimer_world (notify _ _) c).
  assert (Hc1 : spares (table c) (table c1)) by (apply Hq, quiet_notify). by destruct (negb _).
Qed.

(** Every action of the claimer. *)
Lemma act_spares i c : action_ok i -> claimer_ok N c -> spares (table c) (table (act i c)).
Proof.
  intros Hi [Hm Hag]. pose proof (agree_table _ _ Hag) as Ht. destruct i as [p|k|failed|failed|f]; [| | |done|].
  - cbn [act step]. unfold start_address_claim. by destruct (negb _).
  - cbn [act step]. unfold take_task. destruct (context_ _ !! k) as [[e|h ec]|]; [| |done].
    + by apply (event_spares e (on_claimer_world (fun _ => with_context _ _) c)).
    + by apply (handler_spares h ec (on_claimer_world (fun _ => with_context _ _) c)).
  - rewrite fire_handler. destruct (timeout_timer_ _) as [h|]; [|done].
    set (c1 := on_claimer_world _ c). by apply (handler_spares h _ c1).
  - cbn [act step]. unfold process. simpl in Hi. rewrite Hi. by destruct (is_request _).
Qed.

Lemma act_claimer_ok i c : action_ok i -> claimer_ok N c -> claimer_ok N (act i c).
Proof.
  intros Hi Hc. destruct i as [p|k|failed|failed|f]; cbn [act]; repeat apply step_ok; try done.
  simpl in *. congruence.
Qed.

End Table.

(** ** A claimer hears a frame *)

Section Hear.
Context `{CanaryLaws} `{SmlLaws}.
Notation table c := (network_ (cworld_of c)).


(** The machine does not move: the frame changes the table and the queue. *)
Lemma frame_state f c : let c' := step (in_frame f) c in
  state_machine_ c' = state_machine_ c /\ forall x, holds (state_machine_ c') (deps_ c') x <-> holds (state_machine_ c) (deps_ c) x.
Proof.
  intros c'. unfold c'. cbn [step]. unfold process. destruct (is_claim _).
  - unfold process_claim. rewrite network_insert_world. by destruct (fst (fst _)).
  - by destruct (is_request _).
Qed.

Lemma claim_frame_table f n a c : claims f n a ->
  table (step (in_frame f) c) = inserted n a (table c).
Proof.
  intros Hf. rewrite (claim_frame_at f n a c Hf). unfold process_claim. rewrite network_insert_world.
  destruct (fst (fst _)); [done|]. exact (proj1 (quiet_notify _ _ _)).
Qed.

Lemma other_frame_table f c : is_claim (header f) = false -> table (step (in_frame f) c) = table c.
Proof. intros Hf. cbn [step]. unfold process. rewrite Hf. by destruct (is_request _). Qed.

(** The claims in the queue: the one of the frame is new. *)
Lemma claim_frame_queue f n a c m b : claims f n a ->
  posted_event (ev_address_claim m b) ∈ context_ (cworld_of (step (in_frame f) c)) ->
  posted_event (ev_address_claim m b) ∈ context_ (cworld_of c) \/ (Name m = n /\ b = a).
Proof.
  intros Hf. rewrite (claim_frame_at f n a c Hf). unfold process_claim. rewrite network_insert_world.
  destruct (fst (fst _)); simpl.
  - unfold cworld_of. simpl. rewrite elem_of_app, list_elem_of_singleton. intros [?|[= -> ->]]; [by left|right].
    by destruct n.
  - unfold cworld_of, notify. simpl. destruct (on_error_ _); by left.
Qed.

Lemma other_frame_queue f c m b : is_claim (header f) = false ->
  posted_event (ev_address_claim m b) ∈ context_ (cworld_of (step (in_frame f) c)) ->
  posted_event (ev_address_claim m b) ∈ context_ (cworld_of c).
Proof.
  intros Hf. cbn [step]. unfold process. rewrite Hf. destruct (is_request _); [|done].
  unfold cworld_of. simpl. rewrite elem_of_app, list_elem_of_singleton. by intros [?|?].
Qed.

End Hear.

(** ** A pending claim *)

(** Running the claim that takes the address away. *)
Lemma pending_leaves `{CanaryHeader} `{SmlLaws} W w : addr_claimer_ w = machine W ->
  state_machine_ w = st_has_address ->
  let a := has_address_address (deps_ w) in
  pending_loss W a (context_ (cworld_of w)) ->
  exists k n, context_ (cworld_of w) !! k = Some (posted_event (ev_address_claim n a)) /\
    state_machine_ (step (in_run k) w) <> st_has_address.
Proof.
  intros Hm Ew a (n & [k Hk]%list_elem_of_lookup & Hlt). exists k, n. split; [done|].
  cbn [step]. unfold take_task. rewrite Hk. cbn [run_task]. rewrite (claimer_event_direct W) by done.
  cbn [state_machine_ on_claimer_world deps_]. rewrite Ew. cbn [direct has_address_address on_world]. fold a.
  unfold contest. rewrite Z.eqb_refl. simpl sm_name_. rewrite Hlt. cbn [negb]. by destruct (full _).
Qed.

(** ** Two claimers *)

Section Two.
Context `{CanaryLaws} `{SmlLaws} (S W : name) (HS : name_wf S) (Hlt : name_lt S W = true).
Notation table c := (network_ (cworld_of c)).

Lemma strong_not_weak : S <> W.
Proof. intros ->. by rewrite name_lt_irrefl in Hlt. Qed.

(** The table knows only the two. *)
Definition only_two (net : network) : Prop :=
  forall b o, addr_name_map_ net !! b = Some o -> o = S \/ o = W.

(** The address of the stronger claimer is in the table of the weaker one. *)
Definition known (s w : claimer) : Prop :=
  sender S s /\ claimer_ok W w /\ only_two (table w) /\
  forall x, holds (state_machine_ s) (deps_ s) x -> unicast x -> addr_name_map_ (table w) !! x = Some S.

(** An address of the stronger NAME in the table of the weaker one. *)
Lemma insert_strong a net : is_uint 8 a -> only_two net ->
  only_two (inserted S a net) /\ (unicast a -> addr_name_map_ (inserted S a net) !! a = Some S).
Proof.
  intros Ha Htwo. destruct (decide (unicast a)) as [Hu|Hu].
  - assert (Hr : refused S a net = false).
    { unfold refused. destruct (addr_name_map_ net !! a) as [o|] eqn:Ho; [|done]. rewrite name_gt_lt.
      destruct (Htwo _ _ Ho) as [-> | ->]; [apply name_lt_irrefl|by apply name_lt_asym]. }
    split.
    + intros b o Hb. destruct (inserted_rev S a net b o Hu Hb) as [[_ ->]|Hb']; [by left|by apply (Htwo b)].
    + intros _. unfold inserted. rewrite insert_unicast, Hr by done. simpl. by rewrite lookup_insert_eq.
  - split; [|done]. unfold inserted. rewrite insert_not_unicast by done.
    destruct (name_addr_map_ net !! S) as [c|] eqn:Hc; [|done]. destruct (_ =? _); [|done].
    simpl. rewrite (set_idle_maps S net c Hc). intros b o. simpl. rewrite lookup_delete_Some. intros [_ ?].
    by eapply Htwo.
Qed.

(** The weaker claimer receives a claim of the stronger one. *)
Lemma receive_claim f a w : claims f S a -> is_uint 8 a -> claimer_ok W w -> only_two (table w) ->
  let w' := step (in_frame f) w in
  claimer_ok W w' /\ only_two (table w') /\ (unicast a -> addr_name_map_ (table w') !! a = Some S).
Proof.
  intros Hf Ha Hw Htwo w'. split.
  - apply step_ok; [|done]. destruct Hf as (_ & Hn & _). intros _. rewrite Hn. apply strong_not_weak.
  - unfold w'. rewrite (claim_frame_table f S a w Hf). by apply insert_strong.
Qed.

Lemma receive_other f w : is_claim (header f) = false -> claimer_ok W w ->
  claimer_ok W (step (in_frame f) w) /\ table (step (in_frame f) w) = table w.
Proof.
  intros Hf Hw. split; [apply step_ok; [simpl; congruence|done]|by apply other_frame_table].
Qed.

Lemma receive_others fs w : Forall (fun f => is_claim (header f) = false) fs -> claimer_ok W w ->
  claimer_ok W (hear fs w) /\ table (hear fs w) = table w.
Proof.
  intros Hfs. revert w. induction Hfs as [|f fs Hf _ IH]; intros w Hw; [done|].
  destruct (receive_other f w Hf Hw) as [Hw1 Ht]. destruct (IH _ Hw1) as [Hw2 Ht2].
  split; [done|]. by etrans.
Qed.

(** An action of the stronger claimer. *)
Lemma strong_act i s w : action_ok i -> known s w ->
  let '(s', w') := bus_act i (s, w) in known s' w'.
Proof.
  intros Hi (Hs & Hw & Htwo & Hk). unfold bus_act. simpl.
  destruct (act_announced S HS i s Hi Hs) as [Hs' (fs & Hfr & Hfs)].
  assert (Hn : new_frames s (act i s) = fs).
  { unfold new_frames, cworld_of. by rewrite Hfr, drop_app_length. }
  rewrite Hn. destruct Hfs as [[Hno Hx]|(f & a & -> & Hf & Ha & Hx & _)].
  - destruct (receive_others fs w Hno Hw) as [Hw' Ht]. split_and!; [done..| |]; rewrite Ht; [done|].
    intros x Hxh. by apply Hk, Hx.
  - destruct (receive_claim f a w Hf Ha Hw Htwo) as (Hw' & Htwo' & Ha').
    split_and!; [done..|]. intros x Hxh Hu. apply Hx in Hxh as ->. by apply Ha'.
Qed.

(** The stronger claimer receives a frame. *)
Lemma frame_sender f s : sender S s ->
  let s' := step (in_frame f) s in sender S s' /\
  forall x, holds (state_machine_ s') (deps_ s') x -> holds (state_machine_ s) (deps_ s) x.
Proof.
  intros Hs s'. unfold s'. cbn [step]. unfold process.
  destruct (is_claim _).
  - set (n := name_of_payload _). set (a := source_address _). unfold process_claim.
    pose proof (network_insert_frames n a (cworld_of s)) as Hfr. rewrite network_insert_world in *.
    simpl in Hfr. set (w := CWorld _ _ _ _ _) in *.
    destruct (world_announced S (fun _ => w) s Hs) as [Hs1 _]; [done..|apply Hs|].
    destruct (fst (fst _)); (split; [|done]); [by apply post_sender|by apply (error_announced S _ address_in_use)].
  - destruct (is_request _); [|done]. split; [by apply post_sender|done].
Qed.

Lemma hear_sender fs s : sender S s ->
  sender S (hear fs s) /\
  forall x, holds (state_machine_ (hear fs s)) (deps_ (hear fs s)) x ->
    holds (state_machine_ s) (deps_ s) x.
Proof.
  revert s. induction fs as [|f fs IH]; intros s Hs; [done|].
  destruct (frame_sender f s Hs) as [Hs1 Hx1]. destruct (IH _ Hs1) as [Hs2 Hx2].
  split; [done|]. intros x Hx. by apply Hx1, Hx2.
Qed.

(** An action of the weaker claimer. *)
Lemma weak_act i s w : action_ok i -> known s w ->
  let '(w', s') := bus_act i (w, s) in known s' w'.
Proof.
  intros Hi (Hs & Hw & Htwo & Hk). unfold bus_act. simpl.
  destruct (hear_sender (new_frames w (act i w)) s Hs) as [Hs' Hx].
  destruct (act_spares W i w Hi Hw) as (Hkeep & Hnew & _).
  split_and!; [done|by apply act_claimer_ok| |].
  - intros b o Hb. destruct (Hnew b o Hb) as [Ho|Ho]; [by apply (Htwo b)|by right].
  - intros x Hxh Hu. apply Hkeep; [by apply Hk, Hu; apply Hx|apply strong_not_weak|].
    rewrite name_gt_lt. by apply name_lt_asym.
Qed.

Lemma bus_run_known is_ s w : Forall (fun i => action_ok (snd i)) is_ -> known s w ->
  let '(s', w') := bus_run is_ (s, w) in known s' w'.
Proof.
  intros Hi. revert s w. induction Hi as [|[first i] is_ Hi _ IH]; intros s w Hk; [done|].
  cbn [bus_run foldl bus_step]. destruct first.
  - pose proof (strong_act i s w Hi Hk) as Hk'. destruct (bus_act i (s, w)) as [s' w']. by apply IH.
  - cbn [prod_swap fst snd]. pose proof (weak_act i s w Hi Hk) as Hk'.
    destruct (bus_act i (w, s)) as [w' s']. by apply IH.
Qed.

(** A claimer as the user sets it up. *)
Definition started (N : name) (h : hooks) (interface : string) : claimer :=
  on_claimer_world (with_hooks h) (address_claimer [] N (network_init interface)).

Lemma known_initial hS hW iS iW : on_frame_ hS = true -> known (started S hS iS) (started W hW iW).
Proof.
  intros Hh. unfold started. rewrite !address_claimer_initial. split_and!; [|split|done|done].
  - split; [done|]. split_and!; [done| |done]. split; [done|]. intros h ec Hin. by apply not_elem_of_nil in Hin.
  - done.
  - pose proof (empty_ok (network_init iW)) as Hok. split_and!; [exact Hok| |by left].
    intros a Ha. cbn in Ha. by rewrite lookup_empty in Ha.
Qed.

(** Two claimers on one bus never settle on the same address: whatever they
    are asked to claim and in whatever order their tasks and timers run, if both
    are in [st_has_address] with the same address, then a claim that takes the
    address away from the weaker one is still in its queue, and running it makes
    the weaker one leave [st_has_address]. *)
Theorem two_claimers_never_share hS hW iS iW is_ :
  on_frame_ hS = true -> Forall (fun i => action_ok (snd i)) is_ ->
  let '(s, w) := bus_run is_ (started S hS iS, started W hW iW) in
  let a := has_address_address (deps_ w) in
  state_machine_ s = st_has_address -> state_machine_ w = st_has_address ->
  has_address_address (deps_ s) = a ->
  exists k n, context_ (cworld_of w) !! k = Some (posted_event (ev_address_claim n a)) /\
    state_machine_ (step (in_run k) w) <> st_has_address.
Proof.
  intros HhS Hi. pose proof (bus_run_known is_ (started S hS iS) (started W hW iW) Hi) as Hk.
  destruct (bus_run _ _) as [s w]. intros a Es Ew Ea.
  destruct Hk as (_ & [Hm Hag] & _ & Hk); [by apply known_initial|].
  rewrite Ew in Hag. destruct Hag as (Hok & _ & Hu & Hpend). fold a in Hu, Hpend.
  destruct Hpend as [Hw|(_ & n & Hn & Hnlt)].
  { pose proof (ok_fwd_rev _ Hok _ _ Hw Hu) as Hrev. unfold holds in Hk. rewrite Es in Hk.
    specialize (Hk a (eq_sym Ea) Hu). unfold cworld_of in Hk. destruct strong_not_weak. congruence. }
  apply (pending_leaves W); [done..|]. by exists n.
Qed.

End Two.
