(* ===== verification/ClaimerView.v ===== *)
(** * What one claimer knows of the addresses of the others

    How an action of a claimer, and a frame that it hears, change the claims in
    its queue, the entries of its table and the address it claims or holds. *)

From Stdlib Require Import String.
From stdpp Require Import gmap list.
From S2P Require Import Prelude J1939Type Canary Header HeaderFacts Name NameFacts Frame FrameFacts.
From S2P Require Import Network NetworkFacts NetworkSpec NetworkSearch Sml StateMachine.
From S2P Require Import StateMachineFacts AddressClaimer ClaimerFacts ClaimerBehaviour ClaimerBus.

(** ** The queue of a claimer *)

Section Queue.
Context `{CanaryHeader} `{SmlLaws} (N : name).

(** No claim is added to the queue. *)
Definition no_new_claims (w w' : cworld) : Prop :=
  forall n a, posted_event (ev_address_claim n a) ∈ context_ w' ->
    posted_event (ev_address_claim n a) ∈ context_ w.

#[local] Instance no_new_claims_preorder : PreOrder no_new_claims.
Proof. split; unfold no_new_claims; [auto|]. intros w w' w'' A B n a Hin. by apply A, B. Qed.

Lemma notify_no_claims i o w : no_new_claims w (notify i o w).
Proof. intros n a. unfold notify. by destruct (i _). Qed.

Lemma async_wait_no_claims h w : no_new_claims w (async_wait h w).
Proof.
  intros n a. unfold async_wait. simpl. destruct (timeout_timer_ w); [|done].
  rewrite elem_of_app, list_elem_of_singleton. by intros [?|?].
Qed.

Lemma post_no_claims e w : (forall n a, e <> ev_address_claim n a) -> no_new_claims w (post (posted_event e) w).
Proof.
  intros He n a. simpl. rewrite elem_of_app, list_elem_of_singleton.
  intros [?|[= <-]]; [done|by destruct (He n a)].
Qed.

Lemma begin_claiming_no_claims d : no_new_claims (world d) (world (begin_claiming_address network_ (machine N) d)).
Proof.
  unfold begin_claiming_address, claim_address, send_address_claim, call, on_world. simpl.
  etrans; [apply async_wait_no_claims|]. apply notify_no_claims.
Qed.

Lemma direct_no_claims e s d : no_new_claims (world d) (world (snd (direct network_ (machine N) e s d))).
Proof.
  assert (Hc : no_new_claims (world d) (world (send_cannot_claim (machine N) d))) by apply async_wait_no_claims.
  assert (Hr : forall d', no_new_claims (world d) (world d') ->
    no_new_claims (world d) (world (snd (enter_no_address network_ (machine N) d')))).
  { intros d' Hd. unfold enter_no_address. destruct (full _); [done|]. etrans; [exact Hd|]. apply notify_no_claims. }
  assert (Hl : no_new_claims (world d) (world (notify_address_loss (machine N) d))).
  { etrans; [|apply notify_no_claims]. by intros n a. }
  destruct s, e; cbn [direct]; try reflexivity.
  - destruct (full _); [exact Hc|]. apply (begin_claiming_no_claims (set_claiming _ d)).
  - by destruct (_ =? _).
  - by apply Hr.
  - unfold contest. destruct (negb _); [done|]. destruct (name_lt _ _); [apply notify_no_claims|].
    destruct (full _); [exact Hc|]. apply begin_claiming_no_claims.
  - destruct (_ || _); [apply notify_no_claims|done].
  - destruct (_ || _).
    + unfold enter_has_address. simpl. unfold on_address. etrans; [|apply notify_no_claims].
      rewrite network_insert_world. by intros n a.
    + destruct (_ =? _); [by apply Hr|done].
  - unfold contest. destruct (negb _); [done|]. destruct (name_lt _ _); [apply notify_no_claims|].
    set (d1 := notify_address_loss _ d) in *. destruct (full _); (etrans; [exact Hl|]).
    + apply async_wait_no_claims.
    + exact (begin_claiming_no_claims (set_claiming (has_address_address d1) d1)).
  - destruct (_ || _); [apply notify_no_claims|done].
  - by destruct (_ =? _).
  - destruct (_ && _); [|by apply Hr]. exact (begin_claiming_no_claims (set_claiming (dep_pref_address d) d)).
Qed.

Lemma event_no_claims e c : addr_claimer_ c = machine N ->
  no_new_claims (cworld_of c) (cworld_of (claimer_event e c)).
Proof.
  intros Hm. rewrite (claimer_event_direct N) by done.
  pose proof (direct_no_claims e (state_machine_ c) (deps_ c)) as Hd. by destruct (direct _ _ _ _ _).
Qed.

Lemma handler_no_claims h ec c : addr_claimer_ c = machine N ->
  no_new_claims (cworld_of c) (cworld_of (run_handler h ec c)).
Proof.
  intros Hm. assert (Hf : forall what, no_new_claims (cworld_of c) (cworld_of (on_claimer_world (on_fail what ec) c))).
  { intros what. unfold on_fail, cworld_of. simpl. destruct ec; first [done|apply notify_no_claims]. }
  destruct ec; cycle 1; [destruct h; apply Hf..|]. destruct h as [p| |n]; [by apply event_no_claims..|].
  cbn [run_handler]. set (c1 := on_claimer_world (notify _ _) c).
  assert (Hc1 : no_new_claims (cworld_of c) (cworld_of c1)) by apply notify_no_claims.
  destruct (negb _); [|done]. etrans; [exact Hc1|]. by apply (post_no_claims ev_random_retry).
Qed.

Lemma act_no_claims i c : action_ok i -> addr_claimer_ c = machine N ->
  no_new_claims (cworld_of c) (cworld_of (act i c)).
Proof.
  intros Hi Hm. destruct i as [p|k|failed|failed|f]; [| |rewrite fire_handler|done|].
  - cbn [act step]. unfold start_address_claim. destruct (negb _); [done|].
    etrans; [by apply (post_no_claims ev_restart)|]. apply async_wait_no_claims.
  - cbn [act step]. unfold take_task. destruct (context_ _ !! k) as [t|] eqn:Ht; [|done].
    set (c1 := on_claimer_world _ c). assert (Hc1 : no_new_claims (cworld_of c) (cworld_of c1)).
    { intros n a Hin. rewrite (delete_Permutation _ _ _ Ht). by right. }
    etrans; [exact Hc1|]. destruct t; [by apply (event_no_claims _ c1)|by apply (handler_no_claims _ _ c1)].
  - destruct (timeout_timer_ _) as [h|]; [|done]. set (c1 := on_claimer_world _ c).
    by apply (handler_no_claims h _ c1).
  - cbn [act step]. unfold process. simpl in Hi. rewrite Hi. destruct (is_request _); [|done].
    by apply (post_no_claims (ev_address_request _)).
Qed.

End Queue.

(** ** Who is not beaten keeps the address *)

Section Unbeaten.
Context `{CanaryLaws} `{SmlLaws} (N : name).
Notation table c := (network_ (cworld_of c)).

(** The table has nobody stronger than [N] at [b]. *)
Definition strongest_at (b : Z) (net : network) : Prop :=
  forall o, addr_name_map_ net !! b = Some o -> o = N \/ name_lt N o = true.

Lemma strongest_claimable b d : unicast b -> agree N st_claiming d -> strongest_at b (network_ (world d)) ->
  claimable b N (network_ (world d)) = true.
Proof.
  intros Hb [(Hok & Hst & Hun) _] Hs. unfold claimable.
  rewrite (proj2 (unicast_ltb b (unicast_uint b Hb)) Hb).
  destruct (addr_name_map_ _ !! b) as [o|] eqn:Ho; [|done].
  destruct (Hs o Ho) as [-> |Hlt]; [|by rewrite name_gt_lt].
  apply Hst in Ho. destruct Hun as [Hun|Hun]; simplify_eq. by destruct not_unicast_idle.
Qed.

Lemma direct_holds e s d b : unicast b -> table_ok N s d -> holds s d b ->
  (forall n, e = ev_address_claim n b -> name_lt N (Name n) = true) -> strongest_at b (network_ (world d)) ->
  let '(s', d') := direct network_ (machine N) e s d in holds s' d' b.
Proof.
  intros Hb [_ Ht] Hh He Hs.
  assert (Hc : forall own n a lose fail_, own = b -> e = ev_address_claim n a ->
    let '(s', d') := contest network_ (machine N) own n a d
      (s, send_address_claim (machine N) own d) lose fail_ s in holds s' d' b).
  { intros own n a lose fail_ -> ->. unfold contest. destruct (Z.eqb_spec a b) as [->|]; [|done].
    cbn [negb sm_name_ machine]. rewrite (He n) by done. by destruct s. }
  destruct s; try done; simpl in Hh; destruct e as [p|n a|a| | |]; cbn [direct]; try done.
  - by apply Hc.
  - by destruct (_ || _).
  - unfold dep_network. change (sm_name_ (machine N)) with N.
    rewrite <- Hh, (strongest_claimable b d) by (done || by apply Ht). done.
  - by apply Hc.
  - by destruct (_ || _).
Qed.

Lemma event_holds e c b : addr_claimer_ c = machine N -> unicast b -> table_ok N (state_machine_ c) (deps_ c) ->
  holds (state_machine_ c) (deps_ c) b ->
  (forall n, e = ev_address_claim n b -> name_lt N (Name n) = true) -> strongest_at b (table c) ->
  holds (state_machine_ (claimer_event e c)) (deps_ (claimer_event e c)) b.
Proof.
  intros Hm Hb Ht Hh He Hs. rewrite (claimer_event_direct N) by done.
  pose proof (direct_holds e _ _ b Hb Ht Hh He Hs) as Hd. by destruct (direct _ _ _ _ _).
Qed.

Lemma holds_busy s d b : holds s d b -> busy s = true.
Proof. by destruct s. Qed.

Lemma handler_holds h ec c b : addr_claimer_ c = machine N -> unicast b ->
  table_ok N (state_machine_ c) (deps_ c) -> holds (state_machine_ c) (deps_ c) b -> strongest_at b (table c) ->
  holds (state_machine_ (run_handler h ec c)) (deps_ (run_handler h ec c)) b.
Proof.
  intros Hm Hb Ht Hh Hs. destruct ec; cycle 1; [by destruct h..|].
  destruct h as [p| |n]; [by apply event_holds..|]. cbn [run_handler]. by destruct (negb _).
Qed.

(** Every action, if no queued claim for the address comes from somebody stronger. *)
Lemma act_holds i c b : action_ok i -> claimer_ok N c -> unicast b ->
  holds (state_machine_ c) (deps_ c) b -> strongest_at b (table c) ->
  (forall n, posted_event (ev_address_claim n b) ∈ context_ (cworld_of c) -> name_lt N (Name n) = true) ->
  holds (state_machine_ (act i c)) (deps_ (act i c)) b.
Proof.
  intros Hi [Hm Hag] Hb Hh Hs Hq. pose proof (agree_table N _ _ Hag) as Ht.
  destruct i as [p|k|failed|failed|f]; [| |rewrite fire_handler|done|].
  - cbn [act step]. unfold start_address_claim. by destruct (negb _).
  - cbn [act step]. unfold take_task. destruct (context_ _ !! k) as [t|] eqn:Hk; [|done].
    set (c1 := on_claimer_world _ c). destruct t as [e|h ec]; cbn [run_task].
    + apply (event_holds e c1); try done. intros n ->. apply Hq. by eapply list_elem_of_lookup_2.
    + by apply (handler_holds h ec c1).
  - destruct (timeout_timer_ _) as [h|]; [|done]. set (c1 := on_claimer_world _ c).
    by apply (handler_holds h _ c1).
  - cbn [act step]. unfold process. simpl in Hi. rewrite Hi. by destruct (is_request _).
Qed.

(** The own address in the own table is the one that is held. *)
Lemma own_entry c b : claimer_ok N c -> addr_name_map_ (table c) !! b = Some N ->
  holds (state_machine_ c) (deps_ c) b.
Proof.
  intros [_ Hag] Hb. unfold agree in Hag.
  assert (Hbad : settled N (deps_ c) -> False).
  { intros (Hok & Hst & Hun). pose proof (ok_rev_unicast _ Hok _ _ Hb). apply Hst in Hb. unfold cworld_of in *.
    destruct Hun as [Hun|Hun]; simplify_eq. by destruct not_unicast_idle. }
  destruct (state_machine_ c); [by destruct Hbad|by destruct Hag, Hbad| |by destruct Hbad].
  destruct Hag as (Hok & Hst & Hu & HN). pose proof (ok_rev_unicast _ Hok _ _ Hb). apply Hst in Hb.
  unfold cworld_of in *. destruct HN as [HN|[HN _]]; simplify_eq; [done|]. by destruct not_unicast_idle.
Qed.

End Unbeaten.

(** ** Tables that hear a claim *)

Section Insert.

(** Only the claimed address gets a new entry. *)
Lemma inserted_entry n a net b o : is_uint 8 a -> addr_name_map_ (inserted n a net) !! b = Some o ->
  (b = a /\ o = n) \/ addr_name_map_ net !! b = Some o.
Proof.
  intros Ha Hb. destruct (decide (unicast a)) as [Hu|Hu]; [by apply (inserted_rev n a net b o)|right].
  unfold inserted in Hb. rewrite insert_not_unicast in Hb by done.
  destruct (name_addr_map_ net !! n) as [c|] eqn:Hc; [|done]. destruct (_ =? _); [|done].
  simpl in Hb. rewrite (set_idle_maps n net c Hc) in Hb. simpl in Hb. by apply lookup_delete_Some in Hb as [_ ?].
Qed.

(** An entry of another address goes only with its NAME: when the NAME is also
    at the claimed address, or is idle now. *)
Lemma inserted_keeps n a net b m : is_uint 8 a -> net_ok net -> addr_name_map_ net !! b = Some m ->
  b <> a -> addr_name_map_ net !! a <> Some m -> (a = J1939_IDLE_ADDR -> n <> m) ->
  addr_name_map_ (inserted n a net) !! b = Some m.
Proof.
  intros Ha Hok Hb Hne Hno Hidle. pose proof (ok_rev_unicast _ Hok _ _ Hb) as Hub.
  destruct (decide (unicast a)) as [Hu|Hu].
  - unfold inserted. rewrite insert_unicast by done. destruct (refused n a net); [done|]. simpl.
    rewrite lookup_insert_ne by done. unfold vacated.
    destruct (addr_name_map_ net !! a) as [o|] eqn:Ho; [|done]. destruct (name_ne o n); [|done].
    pose proof (register_ok n net Hok : net_ok (registered n net)) as Hok'. destruct (ok_rev_known _ Hok' a o Ho) as [c Hc].
    rewrite (set_idle_maps o _ c Hc). simpl. rewrite lookup_delete_ne; [done|]. intros ->.
    pose proof (ok_fwd_rev _ Hok' _ _ Hc Hub) as Hbo. simpl in Hbo. congruence.
  - unfold inserted. rewrite insert_not_unicast by done.
    destruct (name_addr_map_ net !! n) as [c|] eqn:Hc; [|done].
    destruct (Z.eqb_spec a J1939_IDLE_ADDR) as [Hi|]; [|done]. simpl. rewrite (set_idle_maps n net c Hc). simpl.
    rewrite lookup_delete_ne; [done|]. intros ->. pose proof (ok_fwd_rev _ Hok _ _ Hc Hub).
    destruct (Hidle Hi). congruence.
Qed.

Lemma not_refused n a net :
  (forall o, addr_name_map_ net !! a = Some o -> name_lt o n = false) -> refused n a net = false.
Proof.
  intros Ho. unfold refused. destruct (addr_name_map_ net !! a) as [o|]; [|done]. rewrite name_gt_lt. by apply Ho.
Qed.

Lemma inserted_accepted n a net : unicast a ->
  (forall o, addr_name_map_ net !! a = Some o -> name_lt o n = false) ->
  addr_name_map_ (inserted n a net) !! a = Some n.
Proof.
  intros Hu Ho. unfold inserted. rewrite insert_unicast, not_refused by done. simpl. by rewrite lookup_insert_eq.
Qed.

Lemma inserted_refused n a net m : unicast a -> addr_name_map_ net !! a = Some m -> name_lt m n = true ->
  addr_name_map_ (inserted n a net) = addr_name_map_ net.
Proof.
  intros Hu Hm Hlt. unfold inserted. rewrite insert_unicast by done.
  unfold refused. by rewrite Hm, name_gt_lt, Hlt.
Qed.

(** The addresses of the other NAMEs: only the occupant of the claimed address
    loses its own. *)
Lemma inserted_keeps_address n a net m : is_uint 8 a -> m <> n -> addr_name_map_ net !! a <> Some m ->
  name_addr_map_ (inserted n a net) !! m = name_addr_map_ net !! m.
Proof.
  intros Ha Hne Hno. unfold inserted. destruct (decide (unicast a)) as [Hu|Hu].
  - rewrite insert_unicast by done. destruct (refused n a net); simpl.
    + by rewrite lookup_try_emplace, decide_False.
    + rewrite lookup_insert_ne by done. by rewrite lookup_vacated_other, decide_False.
  - rewrite insert_not_unicast by done. destruct (name_addr_map_ net !! n) as [c|] eqn:Hc.
    + destruct (_ =? _); [|done]. simpl. rewrite (set_idle_maps n net c Hc). simpl. by rewrite lookup_insert_ne.
    + simpl. by rewrite lookup_try_emplace, decide_False.
Qed.

Lemma inserted_accepted_address n a net : unicast a ->
  (forall o, addr_name_map_ net !! a = Some o -> name_lt o n = false) ->
  name_addr_map_ (inserted n a net) !! n = Some a.
Proof.
  intros Hu Ho. unfold inserted. rewrite insert_unicast, not_refused by done. simpl. by rewrite lookup_insert_eq.
Qed.

Lemma inserted_refused_address n a net m : unicast a -> addr_name_map_ net !! a = Some m -> name_lt m n = true ->
  name_addr_map_ (inserted n a net) !! m = name_addr_map_ net !! m.
Proof.
  intros Hu Hm Hlt. unfold inserted. rewrite insert_unicast by done.
  unfold refused. rewrite Hm, name_gt_lt, Hlt. simpl. rewrite lookup_try_emplace, decide_False; [done|].
  intros ->. by rewrite name_lt_irrefl in Hlt.
Qed.

End Insert.

(** ** What one claimer knows of an address *)

Section View.
Context `{CanaryLaws} `{SmlLaws}.
Notation table c := (network_ (cworld_of c)).
Notation holds_of c := (holds (state_machine_ c) (deps_ c)).
Notation entry c b := (addr_name_map_ (table c) !! b).
Notation address c n := (name_addr_map_ (table c) !! n).
Notation queued c n b := (posted_event (ev_address_claim n b) ∈ context_ (cworld_of c)).

(** [M] leads address [b], as far as the claimer [c] of [N] is concerned: a
    weaker claimer has [M] in both maps of its table, and nobody stronger than [M]
    appears in the table or the queue, or claims or holds the address. *)
Definition follows (M : name) (b : Z) (N : name) (c : claimer) : Prop :=
  (name_lt M N = true -> entry c b = Some M /\ address c M = Some b) /\
  (forall o, entry c b = Some o -> name_lt o M = false) /\
  (forall n, queued c n b -> name_lt (Name n) M = false) /\
  (holds_of c b -> name_lt N M = false).

(** Nobody has ever claimed the address. *)
Definition untouched (b : Z) (c : claimer) : Prop :=
  entry c b = None /\ ~ holds_of c b /\ forall n, ~ queued c n b.

Lemma name_lt_false_trans n m k : name_lt n m = false -> name_lt m k = false -> name_lt n k = false.
Proof. unfold name_lt. rewrite !Z.ltb_ge. lia. Qed.

(** *** The own action *)

Lemma act_entry i N c b o : action_ok i -> claimer_ok N c -> entry (act i c) b = Some o ->
  entry c b = Some o \/ (o = N /\ holds_of (act i c) b).
Proof.
  intros Hi Hc Hb. destruct (act_spares N i c Hi Hc) as (_ & Hnew & _). destruct (Hnew b o Hb) as [?| ->]; [by left|right].
  split; [done|]. apply (own_entry N); [by apply act_claimer_ok|done].
Qed.

Lemma act_untouched i N c b : action_ok i -> claimer_ok N c -> untouched b c ->
  ~ holds_of (act i c) b -> untouched b (act i c).
Proof.
  intros Hi Hc (He & Hh & Hq) Hh'. split_and!; [|done|].
  - destruct (entry (act i c) b) as [o|] eqn:Ho; [|done].
    destruct (act_entry i N c b o Hi Hc Ho) as [?|[_ ?]]; congruence.
  - intros n Hn. apply (Hq n). by apply (act_no_claims N i c Hi (proj1 Hc)).
Qed.

Lemma act_follows i N c M b : action_ok i -> claimer_ok N c -> follows M b N c ->
  (holds_of (act i c) b -> name_lt N M = false) -> follows M b N (act i c).
Proof.
  intros Hi Hc (Hw & He & Hq & Hh) Hh'. split_and!; [| | |done].
  - intros Hlt. destruct (Hw Hlt) as [Hb Ha], (act_spares N i c Hi Hc) as (Hkeep & _ & Hkeep').
    assert (M <> N) by (intros ->; by rewrite name_lt_irrefl in Hlt).
    assert (name_gt M N = false) by (rewrite name_gt_lt; by apply name_lt_asym). auto.
  - intros o Ho. destruct (act_entry i N c b o Hi Hc Ho) as [?|[-> ?]]; auto.
  - intros n Hn. apply Hq. by apply (act_no_claims N i c Hi (proj1 Hc)).
Qed.

(** Claiming an address makes its claimer the leader, unless somebody else is stronger. *)
Lemma act_leads i N c b : action_ok i -> claimer_ok N c ->
  (untouched b c \/ exists M, follows M b N c /\ name_lt M N = false) -> follows N b N (act i c).
Proof.
  intros Hi Hc Hb. assert (Hold : (forall o, entry c b = Some o -> name_lt o N = false) /\
    forall n, queued c n b -> name_lt (Name n) N = false).
  { destruct Hb as [(He & _ & Hq)|(M & (_ & He & Hq & _) & HM)].
    - split; [congruence|]. intros n Hn. by destruct (Hq n).
    - split; intros; (eapply name_lt_false_trans; [|exact HM]); auto. }
  split_and!; [|intros o Ho|intros n Hn|intros _; apply name_lt_irrefl].
  - by rewrite name_lt_irrefl.
  - destruct (act_entry i N c b o Hi Hc Ho) as [?|[-> _]]; [by apply (proj1 Hold)|apply name_lt_irrefl].
  - apply (proj2 Hold). by apply (act_no_claims N i c Hi (proj1 Hc)).
Qed.

(** *** A frame of somebody else *)

Lemma other_untouched f c b : is_claim (header f) = false -> untouched b c -> untouched b (step (in_frame f) c).
Proof.
  intros Hf (He & Hh & Hq). destruct (frame_state f c) as [_ Hs]. split_and!.
  - by rewrite other_frame_table.
  - by rewrite Hs.
  - intros n Hn. by apply (Hq n), (other_frame_queue f).
Qed.

Lemma other_follows f c M b N : is_claim (header f) = false -> follows M b N c ->
  follows M b N (step (in_frame f) c).
Proof.
  intros Hf (Hw & He & Hq & Hh). destruct (frame_state f c) as [_ Hs]. unfold follows.
  rewrite other_frame_table by done. split_and!; [done..| |by rewrite Hs].
  intros n Hn. by apply Hq, (other_frame_queue f).
Qed.

(** A claim of another address. *)
Lemma claim_untouched f T a c b : claims f T a -> is_uint 8 a -> b <> a ->
  untouched b c -> untouched b (step (in_frame f) c).
Proof.
  intros Hf Ha Hne (He & Hh & Hq). destruct (frame_state f c) as [_ Hs]. split_and!.
  - rewrite (claim_frame_table f T a) by done. destruct (addr_name_map_ (inserted _ _ _) !! b) as [o|] eqn:Ho; [|done].
    destruct (inserted_entry T a (table c) b o Ha Ho) as [[? _]|?]; congruence.
  - by rewrite Hs.
  - intros n Hn. destruct (claim_frame_queue f T a c n b Hf Hn) as [?|[_ ?]]; [by apply (Hq n)|done].
Qed.

Lemma claim_follows f T a c b M N : claims f T a -> is_uint 8 a -> b <> a -> net_ok (table c) ->
  (name_lt M N = true -> entry c a <> Some M) -> T <> M ->
  follows M b N c -> follows M b N (step (in_frame f) c).
Proof.
  intros Hf Ha Hne Hok Hno Hi (Hw & He & Hq & Hh). destruct (frame_state f c) as [_ Hs]. unfold follows.
  rewrite (claim_frame_table f T a) by done. split_and!; [| | |by rewrite Hs].
  - intros Hlt. destruct (Hw Hlt). split; [apply inserted_keeps; auto|].
    rewrite inserted_keeps_address; auto.
  - intros o Ho. destruct (inserted_entry T a (table c) b o Ha Ho) as [[? _]|?]; [done|by apply He].
  - intros n Hn. destruct (claim_frame_queue f T a c n b Hf Hn) as [?|[_ ?]]; [by apply Hq|done].
Qed.

(** A claim of this address, by somebody who leads it now. *)
Lemma claim_led f T a c N : claims f T a -> unicast a ->
  (untouched a c \/ exists M, follows M a N c /\ name_lt M T = false) ->
  follows T a N (step (in_frame f) c).
Proof.
  intros Hf Hu Hb. assert (Hold : (forall o, entry c a = Some o -> name_lt o T = false) /\
    (forall n, queued c n a -> name_lt (Name n) T = false) /\ (holds_of c a -> name_lt N T = false)).
  { destruct Hb as [(He & Hh & Hq)|(M & (_ & He & Hq & Hh) & HM)].
    - split_and!; [congruence|intros n Hn; by destruct (Hq n)|done].
    - split_and!; intros; (eapply name_lt_false_trans; [|exact HM]); auto. }
  destruct Hold as (He & Hq & Hh), (frame_state f c) as [_ Hs]. unfold follows.
  rewrite (claim_frame_table f T a) by done. rewrite inserted_accepted, inserted_accepted_address by done.
  split_and!; [done|intros o [= <-]; apply name_lt_irrefl| |by rewrite Hs].
  intros n Hn. destruct (claim_frame_queue f T a c n a Hf Hn) as [?|[-> _]]; [by apply Hq|apply name_lt_irrefl].
Qed.

(** A claim of this address, by somebody weaker than its leader. *)
Lemma claim_refused f T a c M N : claims f T a -> unicast a -> name_lt M T = true ->
  follows M a N c -> follows M a N (step (in_frame f) c).
Proof.
  intros Hf Hu HT (Hw & He & Hq & Hh). destruct (frame_state f c) as [_ Hs]. unfold follows.
  rewrite (claim_frame_table f T a) by done. split_and!; [| | |by rewrite Hs].
  - intros Hlt. destruct (Hw Hlt). by rewrite (inserted_refused T a _ M), (inserted_refused_address T a _ M).
  - intros o Ho. destruct (inserted_entry T a (table c) a o (unicast_uint a Hu) Ho) as [[_ ->]|?]; [|by apply He].
    by apply name_lt_asym.
  - intros n Hn. destruct (claim_frame_queue f T a c n a Hf Hn) as [?|[-> _]]; [by apply Hq|by apply name_lt_asym].
Qed.

End View.
