(* ===== verification/ClaimerRaces.v ===== *)
(** * Races of two claimers

    A claimer reads and writes its table when frames arrive and when its handlers
    run, and the two interleave.  Here are two interleavings, for any NAMEs,
    addresses and tables, after which a table is wrong: an address has two
    holders, or a NAME with an address has none in the table of another claimer. *)

From Stdlib Require Import String.
From stdpp Require Import gmap.
From S2P Require Import Prelude J1939Type Canary Header HeaderFacts Name NameFacts Frame FrameFacts.
From S2P Require Import Network NetworkFacts NetworkSpec NetworkSearch Sml StateMachine.
From S2P Require Import StateMachineFacts AddressClaimer ClaimerFacts ClaimerBehaviour ClaimerBus ClaimerView.

Section Steps.
Context `{CanaryLaws} `{SmlLaws} (N : name).

(** The calls of the network's callback, as outputs. *)
Definition new_names (calls : list (name * Z)) : list output := (fun '(m, b) => out_new_name m b) <$> calls.

(** A claim that the table accepts is queued. *)
Lemma accepted_claim_at f n a s ca ha net t q o : claims f n a -> fst (fst (insert n a net)) = true ->
  step (in_frame f) (claimer_at N s ca ha net t q o) =
    claimer_at N s ca ha (inserted n a net) t (q ++ [posted_event (ev_address_claim (to_name_t n) a)])
      (o ++ new_names (snd (insert n a net))).
Proof.
  intros Hf Hr. rewrite (claim_frame_at f n a) by done. unfold process_claim. rewrite network_insert_world.
  cbn [cworld_of deps_ claimer_at world network_]. by rewrite Hr.
Qed.

(** A claim of a weaker NAME for an address that is taken. *)
Lemma refused_claim_at f n a m s ca ha net t q o : claims f n a -> unicast a ->
  addr_name_map_ net !! a = Some m -> name_lt m n = true ->
  step (in_frame f) (claimer_at N s ca ha net t q o) =
    claimer_at N s ca ha (registered n net) t q (o ++ [out_error "on_frame_address_claim" address_in_use]).
Proof.
  intros Hf Hu Hm Hlt. rewrite (claim_frame_at f n a) by done. unfold process_claim. rewrite network_insert_world.
  cbn [cworld_of deps_ claimer_at world network_]. unfold inserted. rewrite insert_unicast by done.
  unfold refused. rewrite Hm, name_gt_lt, Hlt. cbn [fst snd negb fmap list_fmap]. by rewrite app_nil_r.
Qed.

(** The claim timeout of an address that is claimable. *)
Lemma claim_timeout_at ca ha net q o : claimable ca N net = true ->
  act (act_fire false) (claimer_at N st_claiming ca ha net (Some claim_timeout) q o) =
    claimer_at N st_has_address ca ca (inserted N ca net) None q (o ++ new_names (snd (insert N ca net))).
Proof.
  intros Hc. unfold act. rewrite expire_at. cbn [cworld_of deps_ claimer_at world context_].
  rewrite (run_timer N _ claim_timeout no_error) by (by apply list_lookup_middle).
  rewrite delete_middle, app_nil_r. cbn [run_handler]. rewrite timeout_at by done.
  unfold on_address. by rewrite network_insert_world.
Qed.

(** The start delay of a claimer, in a network that is not full. *)
Lemma start_delay_at p ca ha net q o : full net = false ->
  let r := find_address N p net in
  act (act_fire false) (claimer_at N st_no_address ca ha net (Some (start_claim_delay p)) q o) =
    claimer_at N st_claiming r ha net (Some claim_timeout) q (o ++ [out_frame (make_address_claim N r)]).
Proof.
  intros Hf r. unfold act. rewrite expire_at. cbn [cworld_of deps_ claimer_at world context_].
  rewrite (run_timer N _ (start_claim_delay p) no_error) by (by apply list_lookup_middle).
  rewrite delete_middle, app_nil_r. cbn [run_handler]. by apply start_claim_at.
Qed.

(** A cannot-claim message is sent; the machine is not asked. *)
Lemma cannot_claim_at k s ca ha net t q o : name_wf N -> q !! k = Some (timer_done (cannot_claim_timeout N) no_error) ->
  act (act_run k) (claimer_at N s ca ha net t q o) =
    claimer_at N s ca ha net t
      (delete k q ++ if self_config_address N =? 0 then [] else [posted_event ev_random_retry])
      (o ++ [out_frame (make_cannot_claim N)]).
Proof.
  intros Hwf Hk. unfold act. rewrite (run_timer N k (cannot_claim_timeout N) no_error) by done.
  cbn [run_handler]. rewrite name_of_to_payload by done. destruct (_ =? 0); [by rewrite app_nil_r|done].
Qed.

(** A claim of another address changes nothing in a machine that claims or has none. *)
Lemma other_claim_at n b s ca ha net t q o : (s = st_no_address \/ s = st_claiming /\ ca <> b) ->
  step (in_run (length q)) (claimer_at N s ca ha net t (q ++ [posted_event (ev_address_claim n b)]) o) =
    claimer_at N s ca ha net t q o.
Proof.
  intros Hs. rewrite (run_posted N _ (ev_address_claim n b)) by (by apply list_lookup_middle).
  rewrite delete_middle, app_nil_r, event_at. destruct Hs as [->|[-> Hne]]; [done|].
  cbn [direct]. unfold contest. cbn [claiming_address]. by rewrite (proj2 (Z.eqb_neq b ca)) by congruence.
Qed.

(** ** An evicted NAME is forgotten *)

(** The table of a claimer that takes [a] from [W], after [W] has moved to [b]. *)
Lemma moved_then_evicted W a b net :
  net_ok net -> unicast a -> unicast b -> a <> b -> name_lt N W = true ->
  name_addr_map_ net !! W = Some a -> addr_name_map_ net !! b = None ->
  let net' := inserted N a (inserted W b net) in
  claimable a N (inserted W b net) = true /\ get_address W net' = J1939_IDLE_ADDR /\ available b net' = true.
Proof.
  intros Hok Ha Hb Hab Hlt HW Hfree net'. set (net1 := inserted W b net) in *.
  assert (Hno : forall o, addr_name_map_ net !! b = Some o -> name_lt o W = false) by congruence.
  assert (HWN : W <> N) by (intros ->; by rewrite name_lt_irrefl in Hlt).
  pose proof (inserted_accepted_address W b net Hb Hno : name_addr_map_ net1 !! W = Some b) as HW1.
  assert (Ha1 : addr_name_map_ net1 !! a = Some W).
  { apply inserted_keeps; [by apply unicast_uint|done|by apply (ok_fwd_rev _ Hok)|done|congruence|].
    intros ->. by destruct not_unicast_idle. }
  assert (Hr : refused N a net1 = false) by (apply not_refused; rewrite Ha1; intros o [= <-]; by apply name_lt_asym).
  assert (Hvac : vacated N a net1 = set_idle W (registered N net1))
    by (unfold vacated; by rewrite Ha1, (proj2 (name_ne_spec W N) HWN)).
  assert (HW2 : name_addr_map_ (registered N net1) !! W = Some b)
    by (simpl; by rewrite lookup_try_emplace, decide_False).
  unfold net', claimable, get_address, available, inserted. fold net1.
  rewrite insert_unicast, Hr, Hvac, (set_idle_maps W _ b HW2), Ha1, name_gt_lt, Hlt by done. cbn [fst snd claim].
  rewrite (proj2 (unicast_ltb a (unicast_uint a Ha)) Ha), (proj2 (unicast_ltb b (unicast_uint b Hb)) Hb). simpl.
  rewrite lookup_insert_ne, lookup_insert_eq, lookup_insert_ne, lookup_delete_eq by done. done.
Qed.

(** C35.  A claimer that takes an address away from another NAME can forget that
    NAME.  The claimer of [N] waits for the end of its claim of the address [a] of
    a weaker [W]; meanwhile [W] gives [a] up and claims a free address [b], and the
    claimer handles that claim.  When its own claim is over, it enters [a] into its
    table, where [a] is still an address of [W] too, and [insert] makes [W] idle:
    the claimer holds [a], has no address for [W], and takes the address of [W] for
    free. *)
Theorem evicting_claimer_forgets_the_evicted W a b f ha net q o :
  net_ok net -> unicast a -> unicast b -> a <> b -> name_lt N W = true ->
  name_addr_map_ net !! W = Some a -> addr_name_map_ net !! b = None -> claims f W b ->
  let c := run [in_frame f; in_run (length q); in_expire false; in_run (length q)]
    (claimer_at N st_claiming a ha net (Some claim_timeout) q o) in
  state_machine_ c = st_has_address /\ has_address_address (deps_ c) = a /\
  context_ (cworld_of c) = q /\ timeout_timer_ (cworld_of c) = None /\
  get_address W (network_ (cworld_of c)) = J1939_IDLE_ADDR /\ available b (network_ (cworld_of c)) = true.
Proof.
  intros Hok Ha Hb Hab Hlt HW Hfree Hf c.
  destruct (moved_then_evicted W a b net Hok Ha Hb Hab Hlt HW Hfree) as (Hc & Hidle & Hav).
  assert (Hr : fst (fst (insert W b net)) = true)
    by (rewrite insert_unicast by done; unfold refused; by rewrite Hfree).
  unfold c, run. cbn [foldl]. rewrite (accepted_claim_at f W b), other_claim_at by auto.
  pose proof (claim_timeout_at a ha (inserted W b net) q (o ++ new_names (snd (insert W b net))) Hc) as E1.
  unfold act in E1. rewrite expire_at in *. cbn [cworld_of deps_ claimer_at world context_] in E1. rewrite E1. done.
Qed.

End Steps.

(** ** The machine of a claimer never changes *)

Section Machine.
Context `{CanaryHeader} `{Sml}.

Lemma event_machine e c : addr_claimer_ (claimer_event e c) = addr_claimer_ c.
Proof. unfold claimer_event. by destruct (sm_process _ _ _ _ _). Qed.

Lemma task_machine t c : addr_claimer_ (run_task t c) = addr_claimer_ c.
Proof.
  destruct t as [e|h ec]; [apply event_machine|].
  destruct h as [p| |n], ec; cbn [run_task run_handler]; rewrite ?event_machine; try done. by destruct (negb _).
Qed.

Lemma step_machine i c : addr_claimer_ (step i c) = addr_claimer_ c.
Proof.
  destruct i as [f|p|k|failed]; cbn [step]; [..|done].
  - unfold process, process_claim. destruct (is_claim _); [|by destruct (is_request _)].
    destruct (network_insert _ _ _) as [r w]. by destruct r.
  - unfold start_address_claim. by destruct (negb _).
  - destruct (take_task _ _) as [[t w]|]; [|done]. by rewrite task_machine.
Qed.

Lemma act_machine i c : addr_claimer_ (act i c) = addr_claimer_ c.
Proof. destruct i; unfold act; by rewrite ?step_machine. Qed.

Lemma hear_machine fs c : addr_claimer_ (hear fs c) = addr_claimer_ c.
Proof. revert c. induction fs as [|f fs IH]; [done|]. intros c. etrans; [apply IH|apply step_machine]. Qed.

Lemma bus_machines is_ s w :
  addr_claimer_ (fst (bus_run is_ (s, w))) = addr_claimer_ s /\
  addr_claimer_ (snd (bus_run is_ (s, w))) = addr_claimer_ w.
Proof.
  revert s w. induction is_ as [|[b i] is_ IH]; [done|]. intros s w.
  destruct b; [destruct (IH (act i s) (hear (new_frames s (act i s)) w)) as [E1 E2]
    |destruct (IH (hear (new_frames w (act i w)) s) (act i w)) as [E1 E2]];
    rewrite act_machine, hear_machine in *; done.
Qed.

(** What a claimer for [N] consists of besides its machine. *)
Definition observed (c : claimer) :=
  let d := deps_ c in let w := world d in
  (state_machine_ c, claiming_address d, has_address_address d, dep_pref_address d,
   network_ w, timeout_timer_ w, context_ w, hooks_ w, outputs w).

Lemma claimer_observed c s ca ha net t q o N : addr_claimer_ c = machine N ->
  observed c = (s, ca, ha, 0, net, t, q, user_hooks, o) -> c = claimer_at N s ca ha net t q o.
Proof. destruct c as [m s' [ca' ha' p [net' t' q' h o']]]. simpl. by intros -> [= -> -> -> -> -> -> -> -> ->]. Qed.

End Machine.

(** ** An address with two holders *)

Section Shared.
Context `{CanaryLaws} `{SmlLaws} (S W : name) (HS : name_wf S) (HW : name_wf W).

(** The frames of one output. *)
Lemma new_frames_at N s s' ca ca' ha ha' net net' t t' q q' o o' :
  new_frames (claimer_at N s ca ha net t q o) (claimer_at N s' ca' ha' net' t' q' (o ++ o')) =
    omap output_frame o'.
Proof.
  unfold new_frames, frames. cbn [cworld_of deps_ claimer_at world outputs].
  by rewrite omap_app, drop_app_length.
Qed.

Lemma new_frames_none N s s' ca ca' ha ha' net net' t t' q q' o :
  new_frames (claimer_at N s ca ha net t q o) (claimer_at N s' ca' ha' net' t' q' o) = [].
Proof. unfold new_frames, frames. apply drop_all. Qed.

Lemma new_names_silent calls : omap output_frame (new_names calls) = [].
Proof. induction calls as [|[n a] calls IH]; [done|exact IH]. Qed.

Lemma cannot_claim_claims N : name_wf N -> claims (make_cannot_claim N) N J1939_IDLE_ADDR.
Proof. intros. by apply address_claim_claims. Qed.

(** The table of a claimer that is told that [S], at [a], cannot claim an address. *)
Lemma dropped_table a net : net_ok net -> unicast a -> name_addr_map_ net !! S = Some a ->
  let net' := inserted S J1939_IDLE_ADDR net in
  insert S J1939_IDLE_ADDR net = (true, net', []) /\ full net' = false /\ find_address W a net' = a /\
  addr_name_map_ net' !! a = None.
Proof.
  intros Hok Ha HSa net'.
  assert (Hok' : net_ok net') by by apply insert_ok.
  assert (E1 : insert S J1939_IDLE_ADDR net = (true, set_idle S net, [])).
  { rewrite insert_not_unicast; [|done|apply not_unicast_idle]. by rewrite HSa. }
  assert (Hfree : addr_name_map_ net' !! a = None).
  { unfold net', inserted. rewrite E1. simpl. rewrite (set_idle_maps S net a HSa). simpl. by rewrite lookup_delete_eq. }
  split_and!; [unfold net', inserted; by rewrite E1| | |done].
  - destruct (full net') eqn:Hf; [|done]. rewrite full_all_taken in Hf by done.
    destruct (Hf a Ha). congruence.
  - unfold find_address, search. rewrite clamp_unicast, search_loop_step, Hfree by done.
    rewrite (proj2 (Z.ltb_lt a (u8 J1939_IDLE_ADDR))) by (change (u8 J1939_IDLE_ADDR) with 254; addr_lia).
    destruct (_ =? 0); [done|]. by rewrite (proj2 (Z.eqb_neq a J1939_NO_ADDR)) by addr_lia.
Qed.

(** The handler of the cannot-claim timer of [S] runs as the [k]-th task, and the claim
    of [S] ends; [W] looks at the message, starts its claim, and this ends too. *)
Definition late_run (k : nat) (q : list task) : list (bool * action) :=
  [(true, act_run k); (true, act_fire false);
   (false, act_run (length q)); (false, act_fire false); (false, act_fire false)].

(** C37.  An expired timer for a cannot-claim message that is still queued when a
    claim begins makes two claimers share an address.  [S] claims [a] and waits for
    objections, with such a timer in its queue; the weaker [W] has heard the claim
    and is about to start its own, also for [a].  The message is sent although [S]
    claims [a]; [W] drops [S] from its table and claims [a]; the table of [S] refuses
    that claim, so the machine of [S] does not answer it.  Both hold [a] at the end,
    with no timer, and with the tasks queued that were queued before (and for a
    self-configuring [S] a retry, which does nothing in [st_has_address]). *)
Theorem late_cannot_claim_shares_an_address a k haS netS qS oS caW haW netW qW oW :
  unicast a -> name_lt S W = true ->
  net_ok netS -> no_stale S netS -> unaddressed S netS -> claimable a S netS = true ->
  qS !! k = Some (timer_done (cannot_claim_timeout S) no_error) ->
  net_ok netW -> name_addr_map_ netW !! S = Some a ->
  exists netS' oS' netW' oW',
    bus_run (late_run k qW)
      (claimer_at S st_claiming a haS netS (Some claim_timeout) qS oS,
       claimer_at W st_no_address caW haW netW (Some (start_claim_delay a)) qW oW) =
    (claimer_at S st_has_address a a netS' None
       (delete k qS ++ if self_config_address S =? 0 then [] else [posted_event ev_random_retry]) oS',
     claimer_at W st_has_address a a netW' None qW oW') /\
    get_name a netS' = Some S /\ get_name a netW' = Some W.
Proof.
  intros Ha Hlt HokS HstS HunS HcS Hk HokW HSW. pose proof (unicast_uint a Ha) as Hua.
  destruct (dropped_table a netW HokW Ha HSW) as (E1 & Hfull & Hfind & Hfree).
  set (net1 := inserted S J1939_IDLE_ADDR netW) in *.
  destruct (insert_own S a netS) as (_ & _ & HSa); [done..|].
  assert (HaS : addr_name_map_ (inserted S a netS) !! a = Some S).
  { apply (ok_fwd_rev (inserted S a netS)); [by apply insert_ok|done..]. }
  unfold bus_run, late_run. cbn [foldl bus_step]. unfold bus_act. cbn [fst snd prod_swap].
  rewrite (cannot_claim_at S k), new_frames_at by done. cbn [omap list_omap output_frame hear foldl].
  rewrite (accepted_claim_at W (make_cannot_claim S) S J1939_IDLE_ADDR);
    [|by apply cannot_claim_claims|by rewrite E1]. fold net1. rewrite E1. cbn [snd].
  rewrite claim_timeout_at, new_frames_at, new_names_silent by done. cbn [hear foldl].
  change (act (act_run (length qW)) ?c) with (step (in_run (length qW)) c).
  rewrite other_claim_at, new_frames_none by auto. cbn [hear foldl].
  rewrite start_delay_at, Hfind, new_frames_at by done. cbn [omap list_omap output_frame hear foldl].
  rewrite (refused_claim_at S (make_address_claim W a) W a S) by (done || by apply address_claim_claims).
  rewrite claim_timeout_at, new_frames_at, new_names_silent by (by apply free_claimable). cbn [hear foldl].
  eexists _, _, _, _. split; [reflexivity|]. split; [exact HaS|].
  apply inserted_accepted; [done|]. by rewrite Hfree.
Qed.

End Shared.
