(* ===== verification/ClaimerNet.v ===== *)
(** * Any number of address claimers on one bus

    The bus delivers every frame of a claimer to all others.  For each address
    that has been claimed there is a claimer that leads it: it claims or holds
    the address, it is at least as strong as everybody who ever claimed it, and
    it never gives it up to anybody weaker; every weaker claimer has it in its
    table.  From this invariant follow the two promises of the protocol: no two
    claimers settle on one address, and the strongest keeps it. *)

From Stdlib Require Import String.
From stdpp Require Import gmap list.
From S2P Require Import Prelude J1939Type Canary Header HeaderFacts Name NameFacts Frame FrameFacts.
From S2P Require Import Network NetworkFacts NetworkSpec NetworkSearch Sml StateMachine.
From S2P Require Import StateMachineFacts AddressClaimer ClaimerFacts ClaimerBehaviour ClaimerBus.
From S2P Require Import ClaimerView.

(** ** The bus *)

Section Bus.
Context `{CanaryHeader} `{Sml}.

(** The claimer at position [i] acts, all others hear what it sends. *)
Definition net_step (cs : list claimer) (ia : nat * action) : list claimer :=
  let '(i, a) := ia in
  match cs !! i with
  | None => cs
  | Some c =>
      let c' := act a c in
      imap (fun j d => if bool_decide (j = i) then c' else hear (new_frames c c') d) cs
  end.

Definition net_run (ias : list (nat * action)) (cs : list claimer) : list claimer :=
  foldl net_step cs ias.

End Bus.

Section Net.
Context `{CanaryLaws} `{SmlLaws}.
Context (names : list name) (Hwf : Forall name_wf names) (Hkeys : NoDup (priority_key <$> names)).
Notation table c := (network_ (cworld_of c)).
Notation holds_of c := (holds (state_machine_ c) (deps_ c)).
Notation entry c b := (addr_name_map_ (table c) !! b).
Notation queued c n b := (posted_event (ev_address_claim n b) ∈ context_ (cworld_of c)).

(** The claimer [c] of [N] is at position [j]. *)
Definition station (cs : list claimer) (j : nat) (N : name) (c : claimer) : Prop :=
  names !! j = Some N /\ cs !! j = Some c.

(** Two of the NAMEs are ordered, or the same. *)
Lemma names_inj i j n m : names !! i = Some n -> names !! j = Some m ->
  name_lt n m = false -> name_lt m n = false -> i = j.
Proof.
  unfold name_lt. rewrite !Z.ltb_ge. intros Hi Hj ? ?.
  apply (NoDup_lookup (priority_key <$> names) i j (priority_key n)); [done|by rewrite list_lookup_fmap, Hi|].
  rewrite list_lookup_fmap, Hj. simpl. f_equal. lia.
Qed.

Lemma names_total n m : n ∈ names -> m ∈ names -> n <> m -> name_lt n m = false -> name_lt m n = true.
Proof.
  intros [i Hi]%list_elem_of_lookup [j Hj]%list_elem_of_lookup Hne Hlt.
  destruct (name_lt m n) eqn:Hgt; [done|]. pose proof (names_inj i j n m Hi Hj Hlt Hgt). congruence.
Qed.

(** Each claimer is in order, and knows only the NAMEs of the bus. *)
Definition member (N : name) (c : claimer) : Prop :=
  sender N c /\ claimer_ok N c /\ (forall b o, entry c b = Some o -> o ∈ names) /\
  forall n a, queued c n a -> Name n ∈ names /\ Name n <> N.

Definition unclaimed (b : Z) (cs : list claimer) : Prop := forall j N c, station cs j N c -> untouched b c.

Definition led (b : Z) (cs : list claimer) : Prop :=
  exists m M cm, station cs m M cm /\ holds_of cm b /\ forall j N c, station cs j N c -> follows M b N c.

Definition net_inv (cs : list claimer) : Prop :=
  (forall j N c, station cs j N c -> member N c) /\ forall b, unicast b -> unclaimed b cs \/ led b cs.

(** *** Members stay members *)

Lemma act_member i N c : N ∈ names -> action_ok i -> member N c -> member N (act i c).
Proof.
  intros HN Hi (Hs & Hc & He & Hq). pose proof (proj1 (list.Forall_forall _ _) Hwf N HN) as HwN. split_and!.
  - by apply act_announced.
  - by apply act_claimer_ok.
  - intros b o Ho. destruct (act_entry i N c b o Hi Hc Ho) as [?|[-> _]]; [by eapply He|done].
  - intros n a Hn. apply (Hq n a). by apply (act_no_claims N i c Hi (proj1 Hc)).
Qed.

Lemma other_member f N c : is_claim (header f) = false -> member N c -> member N (step (in_frame f) c).
Proof.
  intros Hf (Hs & Hc & He & Hq). split_and!; [by apply frame_sender| | |].
  - apply step_ok; [simpl; congruence|done].
  - intros b o. rewrite other_frame_table by done. apply He.
  - intros n a Hn. by apply (Hq n a), (other_frame_queue f).
Qed.

Lemma claim_member f T a N c : claims f T a -> is_uint 8 a -> T ∈ names -> T <> N ->
  member N c -> member N (step (in_frame f) c).
Proof.
  intros Hf Ha HT Hne (Hs & Hc & He & Hq). split_and!; [by apply frame_sender| | |].
  - apply step_ok; [|done]. destruct Hf as (_ & Hn & _). intros _. by rewrite Hn.
  - intros b o Ho. rewrite (claim_frame_table f T a) in Ho by done.
    destruct (inserted_entry T a (table c) b o Ha Ho) as [[_ ->]|?]; [done|by eapply He].
  - intros n b Hn. destruct (claim_frame_queue f T a c n b Hf Hn) as [?|[-> _]]; [by eapply Hq|done].
Qed.

(** *** The leader stays *)

Lemma leader_act i M c b : M ∈ names -> action_ok i -> unicast b -> member M c -> holds_of c b ->
  follows M b M c -> holds_of (act i c) b.
Proof.
  intros HM Hi Hb (Hs & Hc & He & Hq) Hh (_ & Fe & Fq & _). apply (act_holds M); try done.
  - intros o Ho. destruct (decide (o = M)) as [->|Hne]; [by left|right].
    apply (names_total o M); [by eapply He|done..|by apply Fe].
  - intros n Hn. destruct (Hq n b Hn) as [? ?]. apply (names_total (Name n) M); try done. by apply Fq.
Qed.

(** *** A step of the bus *)

Lemma after_station cs i a c j N d' : cs !! i = Some c -> station (net_step cs (i, a)) j N d' ->
  (j = i /\ d' = act a c) \/
  (j <> i /\ exists d, station cs j N d /\ d' = hear (new_frames c (act a c)) d).
Proof.
  intros Hi [HN Hj]. unfold net_step in Hj. rewrite Hi, list_lookup_imap in Hj.
  destruct (cs !! j) as [d|] eqn:Hd; [|done]. simpl in Hj. injection Hj as <-.
  case_bool_decide; [by left|right]. split; [done|]. by exists d.
Qed.

Lemma station_after cs i a c j N d : cs !! i = Some c -> station cs j N d ->
  station (net_step cs (i, a)) j N (if bool_decide (j = i) then act a c else hear (new_frames c (act a c)) d).
Proof.
  intros Hi [HN Hj]. split; [done|]. unfold net_step. by rewrite Hi, list_lookup_imap, Hj.
Qed.

Lemma station_names cs j N c : station cs j N c -> N ∈ names.
Proof. intros [? _]. by eapply list_elem_of_lookup_2. Qed.

(** Frames that are no claims keep what each of them keeps. *)
Lemma hear_others (P : claimer -> Prop) fs c :
  (forall f c, is_claim (header f) = false -> P c -> P (step (in_frame f) c)) ->
  Forall (fun f => is_claim (header f) = false) fs -> P c -> P (hear fs c).
Proof. intros HP Hfs. revert c. induction Hfs as [|f fs Hf _ IH]; intros c Hc; [done|]. by apply IH, HP. Qed.

Lemma hear_holds fs c b : holds_of (hear fs c) b <-> holds_of c b.
Proof.
  revert c. induction fs as [|f fs IH]; intros c; [done|]. simpl. rewrite IH.
  apply (proj2 (frame_state f c)).
Qed.

Lemma leader_after cs i a c m M cm b : cs !! i = Some c -> station cs m M cm -> action_ok a -> unicast b ->
  member M cm -> holds_of cm b -> follows M b M cm ->
  holds_of (if bool_decide (m = i) then act a c else hear (new_frames c (act a c)) cm) b.
Proof.
  intros Hi Hm Ha Hb Hmem Hh Hf. case_bool_decide as Heq; [|by apply hear_holds].
  destruct Hm as [HM Hcm]. assert (cm = c) as -> by congruence.
  apply (leader_act a M); try done. by eapply list_elem_of_lookup_2.
Qed.

(** A step in which no address is announced. *)
Lemma silent_step cs i a T c : station cs i T c -> action_ok a -> net_inv cs ->
  Forall (fun f => is_claim (header f) = false) (new_frames c (act a c)) ->
  (forall x, holds_of (act a c) x -> holds_of c x) -> net_inv (net_step cs (i, a)).
Proof.
  intros Hi Ha [Hmem Hled] Hfs Hx. pose proof Hi as [HT Hc]. split.
  - intros j N d' Hj. destruct (after_station cs i a c j N d' Hc Hj) as [[-> ->]|(_ & d & Hd & ->)].
    + destruct Hj as [HN _]. assert (N = T) as -> by congruence.
      apply act_member; [by eapply station_names|done|by eapply Hmem].
    + apply hear_others; [|done|by eapply Hmem]. intros. by apply other_member.
  - intros b Hb. destruct (Hled b Hb) as [Hun|(m & M & cm & Hm & Hh & Hfo)]; [left|right].
    + intros j N d' Hj. destruct (after_station cs i a c j N d' Hc Hj) as [[-> ->]|(_ & d & Hd & ->)].
      * pose proof (Hun _ _ _ Hi) as Hunc. apply (act_untouched a T); [done|by apply (Hmem i)|done|].
        intros Hh. by apply (proj1 (proj2 Hunc)), Hx.
      * apply hear_others; [|done|by eapply Hun]. intros. by apply other_untouched.
    + exists m, M, (if bool_decide (m = i) then act a c else hear (new_frames c (act a c)) cm).
      split_and!; [by apply station_after|by eapply leader_after, Hfo; try done; eapply Hmem|].
      intros j N d' Hj. destruct (after_station cs i a c j N d' Hc Hj) as [[-> ->]|(_ & d & Hd & ->)].
      * destruct Hj as [HN _]. assert (N = T) as -> by congruence. pose proof (Hfo _ _ _ Hi) as Hfc.
        apply act_follows; [done|by apply (Hmem i)|done|]. intros Hh'. by apply (proj2 (proj2 (proj2 Hfc))), Hx.
      * apply hear_others; [|done|by eapply Hfo]. intros. by apply other_follows.
Qed.

Lemma holds_unique c x y : holds_of c x -> holds_of c y -> x = y.
Proof. destruct (state_machine_ c); simpl; [done|congruence..|done]. Qed.

(** A claimer weaker than the leader of [b] has it at no other address. *)
Lemma no_second_entry cs m M cm b x j N d : net_inv cs -> station cs m M cm -> holds_of cm b -> b <> x ->
  station cs j N d -> name_lt M N = true -> entry d x <> Some M.
Proof.
  intros [Hmem Hled] Hm Hh Hne Hj Hlt Hx. destruct (Hmem j N d Hj) as (_ & [_ Hag] & _).
  pose proof (ok_rev_unicast _ (proj1 (agree_table N _ _ Hag)) _ _ Hx) as Hu.
  destruct (Hled x Hu) as [Hun|(m' & M' & cm' & Hm' & Hh' & Hfo)].
  { destruct (Hun _ _ _ Hj) as [He _]. congruence. }
  destruct (Hfo _ _ _ Hj) as (Hw & He & _). specialize (He M Hx).
  destruct (name_lt M' N) eqn:Hlt'.
  - rewrite (proj1 (Hw eq_refl)) in Hx. injection Hx as <-. destruct Hm as [HM Hcm], Hm' as [HM' Hcm'].
    assert (m = m') as -> by (by apply (names_inj m m' M' M'); try apply name_lt_irrefl).
    assert (cm' = cm) as -> by congruence. by destruct Hne; apply (holds_unique cm).
  - pose proof (name_lt_false_trans M M' N He Hlt'). congruence.
Qed.

Section Announcement.
Context (cs : list claimer) (i : nat) (a : action) (T : name) (c : claimer) (f : frame) (x : Z).
Context (Hi : station cs i T c) (Ha : action_ok a) (Hinv : net_inv cs).
Context (Hfr : new_frames c (act a c) = [f]) (Hf : claims f T x) (Hx : is_uint 8 x).
Context (Hx1 : forall y, holds_of (act a c) y -> y = x) (Hx2 : unicast x -> holds_of (act a c) x).

(** A claimer after the step: the one that has acted, or one that has heard the claim. *)
Lemma after_claim j N d' : station (net_step cs (i, a)) j N d' ->
  (j = i /\ N = T /\ d' = act a c) \/
  (T <> N /\ exists d, station cs j N d /\ d' = step (in_frame f) d).
Proof.
  intros Hj. destruct Hi as [HT Hc]. destruct (after_station cs i a c j N d' Hc Hj) as [[-> ->]|(Hne & d & Hd & ->)].
  - left. destruct Hj as [HN _]. split_and!; [done|congruence|done].
  - right. split; [|exists d; by rewrite Hfr]. intros <-. destruct Hd as [HN _]. destruct Hne.
    by apply (names_inj j i T T); try apply name_lt_irrefl.
Qed.

Lemma claim_step_members j N d' : station (net_step cs (i, a)) j N d' -> member N d'.
Proof.
  intros Hj. destruct Hinv as [Hmem _]. destruct (after_claim j N d' Hj) as [(-> & -> & ->)|(Hne & d & Hd & ->)].
  - apply act_member; [by eapply station_names|done|by eapply Hmem].
  - apply (claim_member f T x); try done; [by eapply station_names|by eapply Hmem].
Qed.

(** The other addresses. *)
Lemma claim_step_other b : unicast b -> b <> x ->
  unclaimed b (net_step cs (i, a)) \/ led b (net_step cs (i, a)).
Proof.
  intros Hb Hne. pose proof Hinv as [Hmem Hled].
  assert (Hno : ~ holds_of (act a c) b) by (intros Hh; by apply Hne, Hx1).
  destruct (Hled b Hb) as [Hun|(m & M & cm & Hm & Hh & Hfo)]; [left|right].
  - intros j N d' Hj. destruct (after_claim j N d' Hj) as [(-> & -> & ->)|(_ & d & Hd & ->)].
    + apply (act_untouched a T); [done|by apply (Hmem i)|by eapply Hun|done].
    + apply (claim_untouched f T x); try done. by eapply Hun.
  - pose proof (leader_after cs i a c m M cm b (proj2 Hi) Hm Ha Hb (Hmem _ _ _ Hm) Hh (Hfo _ _ _ Hm)) as Hlead.
    assert (Hmi : m <> i) by (intros ->; by rewrite bool_decide_eq_true_2 in Hlead).
    eexists m, M, _. split_and!; [apply (station_after cs i a c m M cm (proj2 Hi) Hm)|exact Hlead|].
    intros j N d' Hj. destruct (after_claim j N d' Hj) as [(-> & -> & ->)|(_ & d & Hd & ->)].
    + apply act_follows; [done|by apply (Hmem i)|by eapply Hfo|done].
    + destruct (Hmem _ _ _ Hd) as (_ & [_ Hag] & _).
      apply (claim_follows f T x); [done..|exact (proj1 (agree_table N _ _ Hag))| | |by eapply Hfo].
      * intros Hlt. by eapply no_second_entry.
      * intros ->. destruct Hmi, Hi as [HT _], Hm as [HM _].
        by apply (names_inj m i M M); try apply name_lt_irrefl.
Qed.

(** The claimed address. *)
Lemma claim_step_own : unicast x -> led x (net_step cs (i, a)).
Proof.
  intros Hu. pose proof Hinv as [Hmem Hled]. pose proof (proj1 (proj2 (Hmem _ _ _ Hi))) as Hok.
  assert (Hnew : (forall j N d, station cs j N d ->
    untouched x d \/ exists M, follows M x N d /\ name_lt M T = false) -> led x (net_step cs (i, a))).
  { intros Hall. exists i, T, (act a c). split_and!; [|by apply Hx2|].
    - pose proof (station_after cs i a c i T c (proj2 Hi) Hi) as Hs. by rewrite bool_decide_eq_true_2 in Hs.
    - intros j N d' Hj. destruct (after_claim j N d' Hj) as [(-> & -> & ->)|(_ & d & Hd & ->)].
      + apply act_leads; [done..|]. by eapply Hall.
      + apply claim_led; [done..|]. by eapply Hall. }
  destruct (Hled x Hu) as [Hun|(m & M & cm & Hm & Hh & Hfo)].
  { apply Hnew. intros j N d Hj. left. by eapply Hun. }
  destruct (name_lt M T) eqn:HMT; [|apply Hnew; intros j N d Hj; right; exists M; split; [by eapply Hfo|done]].
  pose proof (leader_after cs i a c m M cm x (proj2 Hi) Hm Ha Hu (Hmem _ _ _ Hm) Hh (Hfo _ _ _ Hm)) as Hlead.
  eexists m, M, _. split_and!; [apply (station_after cs i a c m M cm (proj2 Hi) Hm)|exact Hlead|].
  intros j N d' Hj. destruct (after_claim j N d' Hj) as [(-> & -> & ->)|(_ & d & Hd & ->)].
  - apply act_follows; [done|done|by eapply Hfo|]. intros _. by apply name_lt_asym.
  - apply (claim_refused f T); try done. by eapply Hfo.
Qed.

Lemma claim_step : net_inv (net_step cs (i, a)).
Proof.
  split; [exact claim_step_members|]. intros b Hb.
  destruct (decide (b = x)) as [->|]; [right; by apply claim_step_own|by apply claim_step_other].
Qed.

End Announcement.

Lemma net_step_inv cs i a : length cs = length names -> action_ok a -> net_inv cs ->
  net_inv (net_step cs (i, a)).
Proof.
  intros Hlen Ha Hinv. destruct (cs !! i) as [c|] eqn:Hc; [|unfold net_step; by rewrite Hc].
  destruct (lookup_lt_is_Some_2 names i) as [T HT]; [rewrite <- Hlen; by eapply lookup_lt_Some|].
  assert (Hi : station cs i T c) by done. destruct (proj1 Hinv i T c Hi) as [Hs _].
  pose proof (proj1 (list.Forall_forall _ _) Hwf T (station_names _ _ _ _ Hi)) as HwT.
  destruct (act_announced T HwT a c Ha Hs) as [_ (fs & Hfr & Hfs)].
  assert (Hn : new_frames c (act a c) = fs).
  { unfold new_frames, cworld_of. by rewrite Hfr, drop_app_length. }
  destruct Hfs as [[Hno Hx]|(f & x & -> & Hf & Hx & Hx1 & Hx2)].
  - apply (silent_step cs i a T c); try done. by rewrite Hn.
  - by apply (claim_step cs i a T c f x).
Qed.

Lemma net_step_length cs ia : length (net_step cs ia) = length cs.
Proof. destruct ia as [i a]. unfold net_step. destruct (cs !! i); [|done]. apply length_imap. Qed.

Lemma net_run_inv ias cs : length cs = length names -> Forall (fun ia => action_ok (snd ia)) ias ->
  net_inv cs -> net_inv (net_run ias cs).
Proof.
  intros Hlen Hias. revert cs Hlen. induction Hias as [|[i a] ias Ha _ IH]; intros cs Hlen Hinv; [done|].
  cbn [net_run foldl]. apply IH; [by rewrite net_step_length|by apply net_step_inv].
Qed.

(** Claimers as their users set them up, each with a table of its own. *)
Definition fresh (N : name) (c : claimer) : Prop :=
  exists h interface, on_frame_ h = true /\ c = started N h interface.

Lemma fresh_inv cs : Forall2 fresh names cs -> net_inv cs.
Proof.
  intros Hcs. assert (Hst : forall j N c, station cs j N c -> fresh N c).
  { intros j N c [HN Hc]. by eapply Forall2_lookup_lr. }
  split; [|intros b Hb; left]; intros j N c (h & i & Hh & ->)%Hst; unfold started;
    rewrite address_claimer_initial.
  - pose proof (empty_ok (network_init i)) as Hok. split_and!; [|split; [done|]|done|by intros ? ? ?%not_elem_of_nil].
    + split; [done|]. split_and!; [done| |done]. split; [done|]. by intros h' ec ?%not_elem_of_nil.
    + split_and!; [exact Hok| |by left]. intros a Ha. cbn in Ha. by rewrite lookup_empty in Ha.
  - split_and!; [done|by intros ?|]. by intros n ?%not_elem_of_nil.
Qed.

Section Promises.
Context (cs : list claimer) (ias : list (nat * action)).
Context (Hcs : Forall2 fresh names cs) (Hias : Forall (fun ia => action_ok (snd ia)) ias).

Lemma reached_inv : net_inv (net_run ias cs).
Proof.
  apply net_run_inv; [symmetry; by eapply Forall2_length|done|by apply fresh_inv].
Qed.

(** C3.  The claimers on a bus never settle on one address.  There may be any number
    of them, new ones with well-formed NAMEs of pairwise different priority, and
    they are alone with it: each frame is heard by all the others, and what other
    stations send is no claim.  They are asked to claim whatever their users want,
    their queued tasks run in any order, and their timers expire at any time, with
    the handler running at once ([action_ok]).  If then two of them are in
    [st_has_address] with the same address, a claim that takes it away from the
    weaker one is still in its queue, and running it makes the weaker one leave
    [st_has_address]. *)
Theorem claimers_never_share i j S W s w :
  station (net_run ias cs) i S s -> station (net_run ias cs) j W w -> name_lt S W = true ->
  let a := has_address_address (deps_ w) in
  state_machine_ s = st_has_address -> state_machine_ w = st_has_address ->
  has_address_address (deps_ s) = a ->
  exists k n, context_ (cworld_of w) !! k = Some (posted_event (ev_address_claim n a)) /\
    state_machine_ (step (in_run k) w) <> st_has_address.
Proof.
  intros Hs Hw Hlt a Es Ew Ea. destruct reached_inv as [Hmem Hled].
  destruct (Hmem _ _ _ Hw) as (_ & [Hm Hag] & _). apply (pending_leaves W); [done..|].
  rewrite Ew in Hag. destruct Hag as (Hok & _ & Hu & [Hfwd|[_ Hpend]]); [exfalso|done].
  pose proof (ok_fwd_rev _ Hok _ _ Hfwd Hu) as Hrev.
  destruct (Hled a Hu) as [Hun|(m & M & cm & _ & _ & Hfo)].
  - apply (proj1 (proj2 (Hun _ _ _ Hw))). by rewrite Ew.
  - destruct (Hfo _ _ _ Hs) as (_ & _ & _ & HM), (Hfo _ _ _ Hw) as (Hin & _). unfold a in *.
    assert (HMS : name_lt S M = false) by (apply HM; by rewrite Es).
    assert (HMW : name_lt M W = true).
    { unfold name_lt in *. rewrite Z.ltb_lt, Z.ltb_ge in *. lia. }
    destruct (Hin HMW) as [Hin' _]. unfold cworld_of in Hin'. assert (M = W) as -> by congruence.
    by rewrite name_lt_irrefl in HMW.
Qed.

(** Who is the strongest to claim or hold an address leads it. *)
Lemma strongest_leads i S s x :
  station (net_run ias cs) i S s -> unicast x -> holds_of s x ->
  (forall j N c, station (net_run ias cs) j N c -> holds_of c x -> name_lt N S = false) ->
  forall j N c, station (net_run ias cs) j N c -> member N c /\ follows S x N c.
Proof.
  intros Hs Hu Hh Hbest. destruct reached_inv as [Hmem Hled].
  destruct (Hled x Hu) as [Hun|(m & M & cm & Hm & Hhm & Hfo)]; [by destruct (proj1 (proj2 (Hun _ _ _ Hs)))|].
  pose proof (Hbest _ _ _ Hm Hhm) as HMS. pose proof (proj2 (proj2 (proj2 (Hfo _ _ _ Hs))) Hh) as HSM.
  assert (m = i) as -> by (by apply (names_inj m i M S); [apply Hm|apply Hs|..]).
  assert (M = S) as -> by (destruct Hm, Hs; congruence). intros j N c Hc. split; [by eapply Hmem|by eapply Hfo].
Qed.

(** A holder with no queued claim for its address has it in its table. *)
Lemma holder_in_table i N c : station (net_run ias cs) i N c -> state_machine_ c = st_has_address ->
  let a := has_address_address (deps_ c) in
  (forall n, queued c n a -> name_lt N (Name n) = true) -> unicast a /\ get_address N (table c) = a.
Proof.
  intros Hc Hst a Hq. destruct reached_inv as [Hmem _]. destruct (Hmem _ _ _ Hc) as (_ & [_ Hag] & _).
  rewrite Hst in Hag. destruct Hag as (_ & _ & Hu & [Ha|[_ (n & Hn & Hlt)]]).
  - split; [done|]. unfold get_address, cworld_of. by rewrite Ha.
  - apply Hq in Hn. congruence.
Qed.

(** Nobody beats the strongest, not even in its queue. *)
Lemma strongest_unbeaten i S s x : station (net_run ias cs) i S s -> member S s -> follows S x S s ->
  forall n, queued s n x -> name_lt S (Name n) = true.
Proof.
  intros Hs (_ & _ & _ & Hq) (_ & _ & Fq & _) n Hn. destruct (Hq n x Hn) as [? ?].
  apply (names_total (Name n) S); try done; [by eapply station_names|by apply Fq].
Qed.

(** C7.  The strongest claimer of an address keeps it, on a bus of claimers as
    above: as long as no stronger claimer of the bus claims or holds
    the address, no action of its claimer ([action_ok]: a start, a queued task, an
    expired timer served at once, a frame that is no claim) makes it give the address
    up, and every weaker claimer has it in both maps of its table. *)
Theorem strongest_keeps_address i S s x :
  station (net_run ias cs) i S s -> unicast x -> holds_of s x ->
  (forall j N c, station (net_run ias cs) j N c -> holds_of c x -> name_lt N S = false) ->
  (forall a, action_ok a -> holds_of (act a s) x) /\
  forall j W w, station (net_run ias cs) j W w -> name_lt S W = true ->
    get_name x (table w) = Some S /\ get_address S (table w) = x.
Proof.
  intros Hs Hu Hh Hbest. pose proof (strongest_leads i S s x Hs Hu Hh Hbest) as Hlead. split.
  - intros a Ha. destruct (Hlead _ _ _ Hs). apply (leader_act a S); try done. by eapply station_names.
  - intros j W w Hw Hlt. destruct (Hlead _ _ _ Hw) as [_ [Hin _]]. destruct (Hin Hlt) as [He Ha]. split; [done|].
    unfold get_address. by rewrite Ha.
Qed.

End Promises.

End Net.
