(* ===== verification/ClaimerExamples.v ===== *)
(** * The theorems about the claimer at concrete inputs *)

From Stdlib Require Import String.
From stdpp Require Import gmap list_numbers.
From S2P Require Import Prelude J1939Type Canary Header HeaderFacts Name NameFacts Frame FrameFacts.
From S2P Require Import Network NetworkFacts NetworkSpec NetworkSearch Sml StateMachine.
From S2P Require Import StateMachineFacts AddressClaimer ClaimerFacts ClaimerBehaviour.
From S2P Require Import ClaimerLimits ClaimerBus ClaimerView ClaimerRaces ClaimerNet.

(** The NAMEs of the examples: [local] is self-configuring, [fixed] is not. *)
Definition local : name := Name (2 ^ 63 + 0xFF).
Definition fixed : name := Name 0x500.
Definition stronger : name := Name 0x10.
Definition weaker : name := Name 0xFFFF.

Definition quiet_net : network := inserted weaker 0x20 (network_init "vcan0").
Definition held_net : network := inserted local 0xAA quiet_net.

Lemma quiet_net_exact : net_exact quiet_net.
Proof.
  apply (run_ops_exact [OpInsert weaker 0x20] (network_init "vcan0"));
    [apply (empty_exact (network_init "vcan0"))|]. cbn [disciplined]. by split_and!.
Qed.

Lemma held_net_exact : net_exact held_net.
Proof.
  apply (run_ops_exact [OpInsert weaker 0x20; OpInsert local 0xAA] (network_init "vcan0"));
    [apply (empty_exact (network_init "vcan0"))|]. cbn [disciplined]. by split_and!.
Qed.

Lemma quiet_net_other b o n : n = local \/ n = fixed ->
  get_name b quiet_net = Some o -> name_eq o n = false.
Proof.
  intros Hn. unfold get_name. replace (addr_name_map_ quiet_net) with ({[0x20 := weaker]} : gmap Z name)
    by (by vm_compute).
  intros [<- <-]%lookup_singleton_Some. by destruct Hn as [-> | ->].
Qed.

Lemma held_net_other b o : get_name b held_net = Some o -> o <> local -> name_eq o local = false.
Proof.
  unfold get_name.
  replace (addr_name_map_ held_net) with (<[0xAA := local]> ({[0x20 := weaker]} : gmap Z name))
    by (by vm_compute).
  rewrite lookup_insert. case_decide; [naive_solver|].
  intros [<- <-]%lookup_singleton_Some. done.
Qed.

(** ** The state machine on a bare network *)

Lemma table_is_direct_machine_witness :
  sm_process (W := network) (fun w => w) (address_state_machine_init local) (ev_start_claim 0xAA)
    st_no_address (Deps 255 255 0 quiet_net) =
  (st_claiming, Deps 0xAA 255 0 quiet_net).
Proof.
  etrans; [apply (table_is_direct_machine (fun w : network => w) (address_state_machine_init local)
    (ev_start_claim 0xAA) st_no_address (Deps 255 255 0 quiet_net))|]. by vm_compute.
Defined.

Lemma row_order_is_irrelevant_witness :
  let self := address_state_machine_init local in
  process_event (reverse (transition_table (W := network) (fun w => w) self)) ev_timeout
    st_claiming (Deps 0xAA 255 0 quiet_net) =
  sm_process (fun w => w) self ev_timeout st_claiming (Deps 0xAA 255 0 quiet_net).
Proof.
  intros self. refine (row_order_is_irrelevant (fun w : network => w) self _ _ _ _ _).
  apply reverse_Permutation.
Defined.

(** ** The claimer *)

Lemma claimer_agrees_with_table_witness :
  let c := run (claim_run 0xAA ++ [in_frame (make_address_claim stronger 0xAA)])
    (address_claimer [] local quiet_net) in
  unicast (has_address_address (deps_ c)) /\
  ((get_address local (network_ (cworld_of c)) = has_address_address (deps_ c) /\
    get_name (has_address_address (deps_ c)) (network_ (cworld_of c)) = Some local) \/
   (get_address local (network_ (cworld_of c)) = J1939_IDLE_ADDR /\
    pending_loss local (has_address_address (deps_ c)) (context_ (cworld_of c)))).
Proof.
  destruct quiet_net_exact as [Hok Hst].
  pose proof (claimer_agrees_with_table local quiet_net
    (claim_run 0xAA ++ [in_frame (make_address_claim stronger 0xAA)]) Hok (Hst local)) as Hag.
  cbv zeta in *. rewrite bool_decide_true in Hag by (by vm_compute). apply Hag.
  - left. by vm_compute.
  - repeat constructor. intros _. by vm_compute.
Defined.

Lemma uncontested_claim_succeeds_witness :
  let c := run (claim_run 0xAA) (on_error (on_frame (address_claimer [] local quiet_net))) in
  state_machine_ c = st_has_address.
Proof.
  destruct quiet_net_exact as [Hok Hst].
  destruct (uncontested_claim_succeeds local quiet_net 0xAA Hok (Hst local))
    as (_ & _ & Hs & _); [left; by vm_compute|by vm_compute|by vm_compute| |exact Hs].
  intros b o. apply quiet_net_other. by left.
Defined.

Lemma evicted_holder_claims_another_address_witness :
  let q := [posted_event ev_timeout] in
  state_machine_ (run [in_frame (make_address_claim stronger 0xAA); in_run (length q)]
    (claimer_at local st_has_address 0xAA 0xAA held_net None q [])) = st_claiming.
Proof.
  intros q. destruct held_net_exact as [Hok Hst].
  destruct (evicted_holder_claims_another_address local held_net 0xAA 0xAA q
    (make_address_claim stronger 0xAA) stronger Hok (Hst local)) as [Hs _];
    [by vm_compute..|apply held_net_other|by vm_compute|exact Hs].
Defined.

Lemma holder_does_not_defend_witness :
  step (in_frame (make_address_claim weaker 0xAA))
    (claimer_at local st_has_address 0xAA 0xAA held_net None [] []) =
  claimer_at local st_has_address 0xAA 0xAA (registered weaker held_net) None []
    [out_error "on_frame_address_claim" address_in_use].
Proof.
  apply (holder_does_not_defend local held_net 0xAA 0xAA None [] []
    (make_address_claim weaker 0xAA) weaker (proj1 held_net_exact)); by vm_compute.
Defined.

Lemma request_during_start_delay_cancels_claim_witness :
  state_machine_ (run [in_run 0; in_run 0; in_expire false; in_run 0; in_run 0]
    (run [in_start 0xAA; in_run 0; in_frame make_global_address_request]
      (on_error (on_frame (address_claimer [] local quiet_net))))) = st_no_address.
Proof.
  rewrite asked_at by by vm_compute. set (c := claimer_at _ _ _ _ _ _ _ _).
  destruct (request_during_start_delay_cancels_claim local c 0 0xAA
    [in_run 0; in_expire false; in_run 0; in_run 0]) as [Hs _]; [done..| |done| |exact Hs].
  - by repeat constructor.
  - by repeat (constructor; [done|]).
Defined.

Lemma unknown_name_is_stuck_claiming_witness :
  let net := inserted stronger 0x30 (network_init "vcan0") in
  run (claim_run 0x30) (on_error (on_frame (address_claimer [] fixed net))) =
  claimer_at fixed st_claiming J1939_NO_ADDR J1939_NO_ADDR net None []
    [out_frame make_global_address_request; out_frame (make_address_claim fixed J1939_NO_ADDR)].
Proof.
  apply (unknown_name_is_stuck_claiming fixed (inserted stronger 0x30 (network_init "vcan0")) 0x30 stronger);
    by vm_compute.
Defined.

Lemma holder_answers_every_request_witness :
  run [in_frame make_global_address_request; in_run 0]
    (claimer_at local st_has_address 0xAA 0xAA held_net None [] []) =
  claimer_at local st_has_address 0xAA 0xAA held_net None [] [out_frame (make_address_claim local 0xAA)].
Proof.
  apply (holder_answers_every_request local held_net 0xAA 0xAA None [] [] make_global_address_request).
  split_and!; [by vm_compute..|]. right. by vm_compute.
Defined.

(** Every address is taken, the own one by a NAME with higher priority. *)
Definition losing_run : list input :=
  claim_run 0 ++
  ((fun k => in_frame (make_address_claim (Name (0x600 + k)) k)) <$> seqZ 1 253) ++
  [in_frame (make_address_claim stronger 0); in_run 253].

Lemma lost_address_is_lost_for_good_witness :
  state_machine_ (run [in_expire false; in_run 253; in_start 7; in_run 0]
    (run losing_run (address_claimer [] fixed (network_init "vcan0")))) = st_address_lost.
Proof. apply (lost_address_is_lost_for_good fixed); by vm_compute. Defined.

(** ** Two claimers on one bus *)

Definition strong_claimer : claimer := started stronger user_hooks "vcan0".
Definition weak_claimer : claimer := started local user_hooks "vcan0".

(** What a claimer holds, and what it has still to do. *)
Definition held_address (c : claimer) : option Z :=
  if bool_decide (state_machine_ c = st_has_address) then Some (has_address_address (deps_ c)) else None.
Definition idle (c : claimer) : bool :=
  match context_ (cworld_of c), timeout_timer_ (cworld_of c) with [], None => true | _, _ => false end.

(** The weaker claimer holds 0xAA; the stronger one takes it, before the weaker
    one has looked at the claim. *)
Definition taking_run : list (bool * action) :=
  (pair false <$> [act_start 0xAA; act_run 0; act_fire false; act_fire false]) ++
  (pair true <$> [act_start 0xAA; act_run 2; act_fire false; act_fire false]).

Lemma two_claimers_never_share_witness :
  let '(s, w) := bus_run taking_run (strong_claimer, weak_claimer) in
  exists k n, context_ (cworld_of w) !! k =
      Some (posted_event (ev_address_claim n (has_address_address (deps_ w)))) /\
    state_machine_ (step (in_run k) w) <> st_has_address.
Proof.
  pose proof (two_claimers_never_share stronger local ltac:(by vm_compute) eq_refl user_hooks user_hooks
    "vcan0" "vcan0" taking_run eq_refl) as Hn. fold strong_claimer weak_claimer in Hn.
  assert (Hobs : (fun '(s, w) => (state_machine_ s, has_address_address (deps_ s),
      state_machine_ w, has_address_address (deps_ w)))
    (bus_run taking_run (strong_claimer, weak_claimer)) = (st_has_address, 0xAA, st_has_address, 0xAA))
    by (by vm_compute).
  destruct (bus_run taking_run (strong_claimer, weak_claimer)) as [s w].
  injection Hobs as H1 H2 H3 H4. apply Hn; [|done|done|congruence].
  repeat apply Forall_cons_2; by try apply Forall_nil.
Defined.

(** The stronger claimer is asked for its address while its start delay runs
    out: it arms the timer of the cannot-claim message, which expires before the
    start of the claim is served.  Every queue is served in order. *)
Definition late_prefix : list (bool * action) :=
  [(true, act_start 0xAA); (true, act_run 0);
   (false, act_run 0); (false, act_start 0xAA); (false, act_run 0); (false, act_run 0);
   (true, act_expire false); (true, act_run 0); (true, act_expire false); (true, act_run 0); (false, act_run 0)].

Definition late_strong : claimer :=
  claimer_at stronger st_claiming 0xAA J1939_NO_ADDR (network_init "vcan0") (Some claim_timeout)
    [timer_done (cannot_claim_timeout stronger) no_error]
    [out_frame make_global_address_request; out_frame (make_address_claim stronger 0xAA)].

Definition late_weak : claimer :=
  claimer_at local st_no_address J1939_NO_ADDR J1939_NO_ADDR (inserted stronger 0xAA (network_init "vcan0"))
    (Some (start_claim_delay 0xAA)) [] [out_frame make_global_address_request].

(** The states in which the race begins are reached from fresh claimers. *)
Lemma late_prefix_reached : bus_run late_prefix (strong_claimer, weak_claimer) = (late_strong, late_weak).
Proof.
  destruct (bus_machines late_prefix strong_claimer weak_claimer) as [M1 M2].
  assert (Hobs : prod_map observed observed (bus_run late_prefix (strong_claimer, weak_claimer)) =
    (observed late_strong, observed late_weak)) 
    by vm_cast_no_check (@eq_refl _ (observed late_strong, observed late_weak)).
  destruct (bus_run late_prefix (strong_claimer, weak_claimer)) as [s w]. cbn [fst snd prod_map] in *.
  apply pair_eq in Hobs as [Hs Hw]. f_equal; by apply claimer_observed.
Qed.

Lemma late_cannot_claim_shares_an_address_witness :
  let '(s, w) := bus_run (late_run 0 []) (bus_run late_prefix (strong_claimer, weak_claimer)) in
  held_address s = Some 0xAA /\ held_address w = Some 0xAA /\ idle s = true /\ idle w = true.
Proof.
  rewrite late_prefix_reached. destruct (empty_exact (network_init "vcan0")) as [Hok Hst].
  destruct (late_cannot_claim_shares_an_address stronger local ltac:(by vm_compute) ltac:(by vm_compute) 0xAA 0
    J1939_NO_ADDR (network_init "vcan0") [timer_done (cannot_claim_timeout stronger) no_error]
    [out_frame make_global_address_request; out_frame (make_address_claim stronger 0xAA)]
    J1939_NO_ADDR J1939_NO_ADDR (inserted stronger 0xAA (network_init "vcan0")) []
    [out_frame make_global_address_request])
    as (netS & oS & netW & oW & E & _); [by vm_compute|by vm_compute|done|apply Hst|by left|by vm_compute|done| |by vm_compute|].
  - by apply insert_ok.
  - fold late_strong late_weak in E. rewrite E. by split_and!.
Defined.

(** The weaker claimer holds 0xAA and the stronger one claims it; the weaker one
    moves to the next address while the stronger one still waits for objections.
    At the end every queue has been served. *)
Definition evicting_run : list (bool * action) :=
  [(false, act_start 0xAA); (false, act_run 0); (false, act_fire false); (false, act_fire false);
   (true, act_run 0); (true, act_run 0);
   (true, act_start 0xAA); (true, act_run 0); (false, act_run 0); (true, act_fire false);
   (false, act_run 0); (false, act_fire false); (true, act_fire false);
   (true, act_run 0); (true, act_run 0); (true, act_run 0); (false, act_run 0)].

(** Both claimers end with an address of their own; the weaker one knows both, the
    stronger one has no address for the weaker one and takes its address for free. *)
Lemma evicting_run_forgets :
  let '(s, w) := bus_run evicting_run (strong_claimer, weak_claimer) in
  let net_s := network_ (cworld_of s) in
  let net_w := network_ (cworld_of w) in
  held_address s = Some 0xAA /\ held_address w = Some 0xAB /\ idle s = true /\ idle w = true /\
  get_address stronger net_w = 0xAA /\ get_address local net_w = 0xAB /\
  get_address local net_s = J1939_IDLE_ADDR /\ available 0xAB net_s = true.
Proof. by vm_compute. Qed.

Lemma evicting_claimer_forgets_the_evicted_witness :
  let c := run [in_frame (make_address_claim local 0xAB); in_run 0; in_expire false; in_run 0]
    (claimer_at stronger st_claiming 0xAA J1939_NO_ADDR held_net (Some claim_timeout) [] []) in
  state_machine_ c = st_has_address /\ get_address local (network_ (cworld_of c)) = J1939_IDLE_ADDR.
Proof.
  destruct (evicting_claimer_forgets_the_evicted stronger local 0xAA 0xAB (make_address_claim local 0xAB)
    J1939_NO_ADDR held_net [] [] (proj1 held_net_exact)) as (Hs & _ & _ & _ & Hg & _); [by vm_compute..|].
  exact (conj Hs Hg).
Defined.

(** ** Three claimers on one bus *)

Definition three : list name := [stronger; local; weaker].
Definition three_claimers : list claimer := (fun n => started n user_hooks "vcan0") <$> three.

(** The second claimer holds 0xAA, the first one takes it. *)
Definition three_run : list (nat * action) :=
  (pair 1%nat <$> [act_start 0xAA; act_run 0; act_fire false; act_fire false]) ++
  (pair 0%nat <$> [act_start 0xAA; act_run 2; act_fire false; act_fire false]).

Lemma three_wf : Forall name_wf three.
Proof. repeat apply Forall_cons_2; by try apply Forall_nil. Qed.

Lemma three_keys : NoDup (priority_key <$> three).
Proof. apply (bool_decide_unpack _). by vm_compute. Qed.

Lemma three_fresh : Forall2 fresh three three_claimers.
Proof.
  unfold three_claimers. rewrite Forall2_fmap_r. apply Forall_Forall2_diag, list.Forall_forall.
  intros n _. by exists user_hooks, "vcan0"%string.
Qed.

Lemma three_run_ok : Forall (fun ia => action_ok (snd ia)) three_run.
Proof. repeat apply Forall_cons_2; by try apply Forall_nil. Qed.

(** The states at the end of the run. *)
Lemma three_run_held :
  (fun c => (state_machine_ c, has_address_address (deps_ c))) <$> net_run three_run three_claimers =
    [(st_has_address, 0xAA); (st_has_address, 0xAA); (st_no_address, 0xFF)].
Proof. by vm_compute. Qed.

Lemma three_run_at j s a :
  [(st_has_address, 0xAA); (st_has_address, 0xAA); (st_no_address, 0xFF)] !! j = Some (s, a) ->
  exists c, net_run three_run three_claimers !! j = Some c /\ state_machine_ c = s /\
    has_address_address (deps_ c) = a.
Proof.
  rewrite <- three_run_held. generalize (net_run three_run three_claimers). intros cs.
  rewrite list_lookup_fmap. intros (c & Hc & [= -> ->])%fmap_Some. by exists c.
Qed.

Lemma shared_unicast : unicast 0xAA.
Proof. done. Qed.

Lemma claimers_never_share_witness :
  exists w k n, net_run three_run three_claimers !! 1%nat = Some w /\
    context_ (cworld_of w) !! k =
      Some (posted_event (ev_address_claim n (has_address_address (deps_ w)))) /\
    state_machine_ (step (in_run k) w) <> st_has_address.
Proof.
  destruct (three_run_at 0 st_has_address 0xAA eq_refl) as (s & Hs & Ss & As).
  destruct (three_run_at 1 st_has_address 0xAA eq_refl) as (w & Hw & Sw & Aw).
  destruct (claimers_never_share three three_wf three_keys three_claimers three_run three_fresh three_run_ok
    0 1 stronger local s w) as (k & n & Hk & Hl); [by split..|done|done|done|congruence|].
  exists w, k, n. exact (conj Hw (conj Hk Hl)).
Defined.

Lemma strongest_keeps_address_witness :
  exists s, net_run three_run three_claimers !! 0%nat = Some s /\
    forall a, action_ok a -> holds (state_machine_ (act a s)) (deps_ (act a s)) 0xAA.
Proof.
  destruct (three_run_at 0 st_has_address 0xAA eq_refl) as (s & Hs & Ss & As).
  assert (Hh : holds (state_machine_ s) (deps_ s) 0xAA) by (rewrite Ss; exact (eq_sym As)).
  assert (Hbest : forall j N c, station three (net_run three_run three_claimers) j N c ->
    holds (state_machine_ c) (deps_ c) 0xAA -> name_lt N stronger = false).
  { intros j N c [HN _] _. do 3 (destruct j as [|j]; [by injection HN as <-|]). done. }
  exists s. split; [exact Hs|].
  exact (proj1 (strongest_keeps_address three three_wf three_keys three_claimers three_run three_fresh three_run_ok
    0 stronger s 0xAA (conj eq_refl Hs) shared_unicast Hh Hbest)).
Defined.
