(* ===== verification/RepoTests.v ===== *)
(** * The tests of the repository ([tests/]), run on the model

    Each test of [tests/] is a script of calls and assertions that the
    definitions evaluate; the tests of the transport are in TransportExamples.v.
    Left out are the two tests of frame_test.cpp that pass a frame through a
    kernel socket.  [run_for] is replaced by the steps that the context takes in
    that time. *)

From Stdlib Require Import String.
From stdpp Require Import gmap list list_numbers.
From S2P Require Import Prelude J1939Type Canary Header Name Frame Network Sml StateMachine AddressClaimer.

(** ** name_test.cpp *)

Definition fields_of (n : name) : list Z :=
  [identity_number n; manufacturer_code n; ecu_instance n; function_instance n; function n; device_class n;
   device_class_instance n; industry_group n; self_config_address n].

Definition test_fields : list Z := [0x1AC85D; 0x4FA; 0x7; 0x1A; 0xDC; 0x12; 0x4; 0x2; 0x0].

Example Jay_Name_Create_Tests :
  let name1 := name_of_fields 0x1AC85D 0x4FA 0x7 0x1A 0xDC 0x12 0x4 0x2 0x0 in
  let name2 := set_self_config_address 0 (set_industry_group 0x2 (set_device_class_instance 0x4
    (set_device_class 0x12 (set_function 0xDC (set_function_instance 0x1A (set_ecu_instance 0x7
    (set_manufacturer_code 0x4FA (set_identity_number 0x1AC85D name_default)))))))) in
  to_name_t name_default = 0 /\ fields_of name1 = test_fields /\ fields_of name2 = test_fields /\
  name_eq name1 name2 = true /\
  fields_of (Name 0xC880808480100000) = [0x100000; 0x400; 0x4; 0x10; 0x80; 0x40; 0x8; 0x4; 0x1].
Proof. by vm_compute. Qed.

Example Jay_Name_Payload_Tests :
  let array := name_to_payload (Name 0xC880808480200000) in
  array = [0; 0; 0x20; 0x80; 0x84; 0x80; 0x80; 0xC8] /\
  name_of_payload array = Name 0xC880808480200000.
Proof. by vm_compute. Qed.

(** ** header_test.cpp *)

Definition header_values (h : frame_header) : bool * list Z :=
  (is_broadcast h, [id h; priority h; data_page h; pdu_format h; pdu_specific h; pgn h; source_address h;
                    payload_length h]).

Example Jay_Header_Getters_Tests :
  header_values (frame_header_of_fields 7 true 0xAF 0xFF 0x02 1) =
    (false, [0x1DAFFF02; 7; 1; 0xAF; 0xFF; 0x1AF00; 0x02; 1]) /\
  header_values (frame_header_of_pgn 10 0xFAF0 0x64 5) =
    (true, [0x1CFAF064; 7; 0; 0xFA; 0xF0; 0xFAF0; 0x64; 5]) /\
  header_values (frame_header_of_id 0xFDFFFFFF 0) =
    (true, [0x1DFFFFFF; 7; 1; 0xFF; 0xFF; 0x1FFFF; 0xFF; 0]).
Proof. by vm_compute. Qed.

Example Jay_Header_Setters_Tests :
  let h := set_id 0x1DE8A501 (frame_header_of_fields 7 true 0xAF 0xFF 0x02 1) in
  let h1 := set_priority 1 h in
  let h2 := set_data_page false h1 in
  let h3 := set_pdu_format 0x23 h2 in
  let h4 := set_pdu_specific 0x28 h3 in
  let h5 := set_source_address 0xFF h4 in
  let h6 := set_payload_length 8 h5 in
  [id h; priority h1; data_page h2; pdu_format h3; pdu_specific h4; source_address h5; payload_length h6] =
  [0x1DE8A501; 1; 0; 0x23; 0x28; 0xFF; 8].
Proof. by vm_compute. Qed.

Example Jay_Header_Other_Tests :
  let h := set_pdu_specific 0x97 (set_source_address 100 (frame_header_of_fields 3 false 0xBB 0xFE 0xFE 8)) in
  [id h; pdu_format h; pdu_specific h; source_address h] = [0x0CBB9764; 0xBB; 0x97; 100].
Proof. by vm_compute. Qed.

(** ** frame_test.cpp *)

Example Jay_Frame_Create_Test :
  let f := Frame (frame_header_of_fields 7 true 0xAF 0xFF 0x02 2) [0xFF; 0x00; 0; 0; 0; 0; 0; 0] in
  let addr_req := make_global_address_request in
  let cant_claim := make_cannot_claim (Name 0) in
  let claim := make_address_claim (Name 0) 0xAA in
  [id (header f); payload_length (header f); Z.of_nat (length (payload f))] = [0x1DAFFF02; 2; 8] /\
  is_request (header addr_req) = true /\
  header_values (header addr_req) =
    (false, [0x18EAFFFE; 6; 0; PF_REQUEST; J1939_NO_ADDR; J1939_PGN_REQUEST; J1939_IDLE_ADDR; 3]) /\
  take 3 (payload addr_req) = [0x00; 0xEE; 0x00] /\
  is_claim (header cant_claim) = true /\
  header_values (header cant_claim) =
    (false, [0x18EEFFFE; 6; 0; PF_ADDRESS_CLAIM; J1939_NO_ADDR; J1939_PGN_ADDRESS_CLAIMED; J1939_IDLE_ADDR; 8]) /\
  is_claim (header claim) = true /\
  header_values (header claim) =
    (false, [0x18EEFFAA; 6; 0; PF_ADDRESS_CLAIM; J1939_NO_ADDR; J1939_PGN_ADDRESS_CLAIMED; 0xAA; 8]).
Proof. by vm_compute. Qed.

(** ** network_test.cpp *)

(** A script of operations on a network, and assertions. *)
Inductive net_cmd :=
| n_insert (n : name) (a : Z) (expected : bool)
| n_release (n : name)
| n_remove (n : name)
| n_assert (p : network -> bool).

Fixpoint net_script (l : list net_cmd) (net : network) : bool :=
  match l with
  | [] => true
  | n_insert n a b :: l => Bool.eqb (fst (fst (insert n a net))) b && net_script l (inserted n a net)
  | n_release n :: l => net_script l (release n net)
  | n_remove n :: l => net_script l (remove n net)
  | n_assert p :: l => p net && net_script l net
  end.

(** The address of a NAME, and the numbers of addresses and NAMEs. *)
Definition n_address (n : name) (a : Z) : net_cmd := n_assert (fun net => get_address n net =? a).
Definition n_counts (addresses names : Z) : net_cmd :=
  n_assert (fun net => (address_count net =? addresses) && (name_count net =? names)).
Definition n_name (a : Z) (n : option name) : net_cmd := n_assert (fun net => bool_decide (get_name a net = n)).
Definition n_known (n : name) (b : bool) : net_cmd := n_assert (fun net => Bool.eqb (in_network n net) b).
Definition n_free (a : Z) (b : bool) : net_cmd := n_assert (fun net => Bool.eqb (available a net) b).

Definition controller_1 : name := Name 0xa00c81045a20021b.
Definition controller_2 : name := Name 0xa00c810c5a20021b.
Definition controller_3 : name := Name 0xa00c810c5a20021a.
Definition controller_4 : name := Name 0xa00c810c5a20021c.

Example Jay_Network_Insert_Test :
  net_script
    [n_insert controller_1 0x96 true; n_insert controller_2 0x97 true;
     n_assert (fun net => String.eqb (get_interface_name net) "vcan0");
     n_known controller_1 true; n_known controller_2 true; n_free 0x96 false; n_free 0x97 false;
     n_address controller_1 0x96; n_address controller_2 0x97;
     n_name 0x96 (Some controller_1); n_name 0x97 (Some controller_2); n_counts 2 2;
     n_release controller_1; n_known controller_1 true; n_free 0x96 true;
     n_address controller_1 J1939_IDLE_ADDR; n_name 0x96 None; n_counts 1 2;
     n_remove controller_2; n_known controller_2 false; n_free 0x97 true;
     n_address controller_2 J1939_NO_ADDR; n_name 0x97 None; n_counts 0 1;
     n_insert controller_1 0x96 true; n_address controller_1 0x96; n_counts 1 1;
     n_insert controller_2 0x96 false; n_address controller_2 J1939_IDLE_ADDR; n_counts 1 2;
     n_insert controller_2 0x97 true; n_address controller_2 0x97; n_counts 2 2;
     n_insert controller_3 0x97 true; n_address controller_3 0x97; n_address controller_2 J1939_IDLE_ADDR;
     n_counts 2 3;
     n_insert controller_4 J1939_IDLE_ADDR true; n_address controller_4 J1939_IDLE_ADDR; n_counts 2 4;
     n_insert controller_3 J1939_NO_ADDR false; n_address controller_3 0x97; n_counts 2 4]
    (network_init "vcan0") = true.
Proof. by vm_compute. Qed.

(** One NAME for each number from [from] on, at the address of the same number. *)
Definition fill (from count : Z) : list net_cmd := (fun i => n_insert (Name i) i true) <$> seqZ from count.

Example Jay_Network_Fill_Test :
  net_script ([n_assert (fun net => negb (full net))] ++ fill 0 J1939_NO_ADDR ++
    [n_counts (J1939_MAX_UNICAST_ADDR + 1) J1939_NO_ADDR; n_assert full]) (network_init "vcan0") = true.
Proof. by vm_compute. Qed.

Example Jay_Network_Search_Test :
  let name := set_self_config_address 1 (Name 0) in
  let finds start a := n_assert (fun net => find_address name start net =? a) in
  net_script ([n_assert (fun net => negb (full net))] ++
    ((fun i => n_insert (Name (100 + i)) i true) <$> seqZ 0 J1939_IDLE_ADDR) ++
    [finds 128 J1939_NO_ADDR; n_address (Name 200) 100; n_remove (Name 200); n_free 100 true;
     finds 128 100; finds 101 100; n_insert (Name 200) 100 true]) (network_init "vcan0") = true.
Proof. by vm_compute. Qed.

(** The NAMEs in any order of the map. *)
Example Jay_Network_Get_Name_Set_Test :
  net_script [n_insert (Name 1) 0x80 true; n_insert (Name 2) 0x81 true; n_insert (Name 3) 0x82 true;
     n_assert (fun net => let names := fst <$> map_to_list (name_addr_map_ net) in
       bool_decide (get_name_set names = [Name 1; Name 2; Name 3]) &&
       bool_decide (get_name_set (reverse names) = [Name 1; Name 2; Name 3]))]
    (network_init "vcan0") = true.
Proof. by vm_compute. Qed.

(** ** state_machine_test.cpp *)

(** The world of the fixture: the network and the two queues. *)
Record fixture := Fixture { fix_net : network; claim_queue : list (name * Z); cannot_claim_queue : list name }.

Definition fixture_callbacks : callbacks fixture :=
  Callbacks
    (Some (fun n a w => Fixture (inserted n a (fix_net w)) (claim_queue w) (cannot_claim_queue w)))
    (Some (fun n w => Fixture (release n (fix_net w)) (claim_queue w) (cannot_claim_queue w)))
    (Some (fun w => w))
    (Some (fun n a w => Fixture (fix_net w) (claim_queue w ++ [(n, a)]) (cannot_claim_queue w)))
    (Some (fun w => w))
    (Some (fun n w => Fixture (fix_net w) (claim_queue w) (cannot_claim_queue w ++ [n]))).

Definition local_name : name := set_self_config_address 1 (Name 0xFF).
Definition fixture_machine : address_state_machine fixture :=
  set_callbacks fixture_callbacks (address_state_machine_init local_name).

(** A script: events, [set_current_states], operations on the network and
    assertions on the state, on the queues, which are then emptied, and on the
    network. *)
Inductive sm_cmd :=
| s_event (e : ev)
| s_set (s : st)
| s_net (f : network -> network)
| s_is (s : st)
| s_claims (l : list Z)
| s_cannot (count : nat)
| s_assert (p : network -> bool).

Fixpoint sm_script (l : list sm_cmd) (s : st) (d : deps fixture) : bool :=
  match l with
  | [] => true
  | s_event e :: l => let '(s, d) := sm_process fix_net fixture_machine e s d in sm_script l s d
  | s_set s :: l => sm_script l s d
  | s_net f :: l =>
      sm_script l s (on_world (fun w => Fixture (f (fix_net w)) (claim_queue w) (cannot_claim_queue w)) d)
  | s_is s' :: l => bool_decide (s = s') && sm_script l s d
  | s_claims addresses :: l =>
      bool_decide (claim_queue (world d) = pair local_name <$> addresses) &&
      sm_script l s (on_world (fun w => Fixture (fix_net w) [] (cannot_claim_queue w)) d)
  | s_cannot k :: l =>
      bool_decide (cannot_claim_queue (world d) = replicate k local_name) &&
      sm_script l s (on_world (fun w => Fixture (fix_net w) (claim_queue w) []) d)
  | s_assert p :: l => p (fix_net (world d)) && sm_script l s d
  end.

(** The machine starts before the callbacks are set. *)
Definition run_fixture (l : list sm_cmd) : bool :=
  let d := Deps J1939_NO_ADDR J1939_NO_ADDR 0 (Fixture (network_init "vcan0") [] []) in
  let '(s, d) := sm_start fix_net (address_state_machine_init local_name) d in sm_script l s d.

Definition s_insert (n a : Z) : sm_cmd := s_net (inserted (Name n) a).
Definition s_fill (from count : Z) : list sm_cmd := (fun i => s_insert i i) <$> seqZ from count.

Example Jay_State_Machine_NoAddress_Test :
  run_fixture ([s_set st_no_address; s_is st_no_address;
    s_event (ev_address_request J1939_NO_ADDR); s_cannot 1;
    s_event ev_timeout; s_claims []; s_cannot 0;
    s_assert (fun net => (address_count net =? 0) && (name_count net =? 0));
    s_event (ev_address_claim 0xAA 0xAA); s_claims []; s_cannot 0;
    s_assert (fun net => (address_count net =? 0) && (name_count net =? 0));
    s_event (ev_start_claim 0xAA); s_is st_claiming; s_claims [0xAA];
    s_set st_no_address] ++ s_fill 0 200 ++
   [s_event (ev_start_claim 0xAA); s_is st_claiming; s_claims [200];
    s_set st_no_address] ++ s_fill 200 55 ++
   [s_assert full; s_event (ev_start_claim 0xAA); s_is st_no_address; s_cannot 1]) = true.
Proof. by vm_compute. Qed.

Example Jay_State_Machine_Claiming_Test :
  run_fixture ([s_assert (fun net => negb (full net)); s_set st_no_address] ++ s_fill 0 0xB5 ++
   [s_event (ev_start_claim 0xAA); s_is st_claiming; s_claims [0xB5];
    s_event (ev_address_claim 0 150); s_is st_claiming; s_claims [];
    s_insert 0 0xB5; s_event (ev_address_claim 0 0xB5); s_is st_claiming; s_claims [0xB6];
    s_event (ev_address_claim 0xFFFF 0xB6); s_is st_claiming; s_claims [0xB6];
    s_event (ev_address_request J1939_NO_ADDR); s_is st_claiming; s_claims [0xB6];
    s_event ev_timeout; s_is st_has_address; s_assert (in_network local_name);
    s_net (release local_name); s_set st_no_address; s_cannot 0;
    s_event (ev_start_claim 0xAA); s_is st_claiming; s_claims [0xB6]] ++
   concat ((fun i => [s_insert i i; s_event (ev_address_claim i i)]) <$> seqZ 0xB6 (J1939_IDLE_ADDR - 0xB6)) ++
   [s_claims (seqZ 0xB7 (J1939_IDLE_ADDR - 0xB6 - 1)); s_cannot 1; s_assert full; s_is st_address_lost]) = true.
Proof. by vm_compute. Qed.

Example Jay_State_Machine_HasAddress_Test :
  run_fixture ([s_set st_no_address; s_event (ev_start_claim 0xAA); s_is st_claiming; s_claims [0xAA];
    s_event ev_timeout; s_is st_has_address; s_assert (fun net => get_address local_name net =? 0xAA);
    s_event (ev_address_request J1939_NO_ADDR); s_is st_has_address; s_claims [0xAA];
    s_event (ev_address_claim 0 150); s_is st_has_address; s_claims [];
    s_insert 170 170; s_event (ev_address_claim 170 170); s_is st_claiming; s_claims [171];
    s_event ev_timeout; s_is st_has_address; s_assert (fun net => get_address local_name net =? 171);
    s_event (ev_address_claim 0xFFFF 171); s_is st_has_address; s_claims [171]] ++ s_fill 0 J1939_NO_ADDR ++
   [s_event (ev_address_claim 0 171); s_is st_address_lost; s_cannot 1]) = true.
Proof. by vm_compute. Qed.

(** ** address_claimer_test.cpp, network_manager_test.cpp, network_process_test.cpp *)

(** The claimers of a test share one network. *)
Record bench := Bench { bench_net : network; bench_claimers : list claimer }.

Definition at_claimer (i : nat) (f : claimer -> claimer) (b : bench) : bench :=
  match bench_claimers b !! i with
  | None => b
  | Some c =>
      let c := f (on_claimer_world (with_network (bench_net b)) c) in
      Bench (network_ (cworld_of c)) (<[i := c]> (bench_claimers b))
  end.

(** The context serves the queue of a claimer in order and, when it is empty, lets
    the timer expire, until nothing is left. *)
Fixpoint settle (fuel : nat) (c : claimer) : claimer :=
  match fuel, context_ (cworld_of c), timeout_timer_ (cworld_of c) with
  | O, _, _ => c
  | S fuel, _ :: _, _ => settle fuel (step (in_run 0) c)
  | S fuel, [], Some _ => settle fuel (step (in_expire false) c)
  | S _, [], None => c
  end.

(** The queue served, without letting the timer expire. *)
Fixpoint serve (fuel : nat) (c : claimer) : claimer :=
  match fuel, context_ (cworld_of c) with
  | O, _ | _, [] => c
  | S fuel, _ :: _ => serve fuel (step (in_run 0) c)
  end.

(** PDU format, PDU specific and source address of the frames sent, and the calls
    of [on_new_name], of all claimers, in their order. *)
Definition bench_outputs (b : bench) : list output := bench_claimers b ≫= (fun c => outputs (cworld_of c)).
Definition sent_frames (b : bench) : list (Z * Z * Z) :=
  omap (fun o => match o with
    | out_frame f => Some (pdu_format (header f), pdu_specific (header f), source_address (header f))
    | _ => None end) (bench_outputs b).
Definition new_names (b : bench) : list (name * Z) :=
  omap (fun o => match o with out_new_name n a => Some (n, a) | _ => None end) (bench_outputs b).
Definition no_outputs (b : bench) : bench :=
  Bench (bench_net b) ((fun c => on_claimer_world (fun w =>
    CWorld (network_ w) (timeout_timer_ w) (context_ w) (hooks_ w) []) c) <$> bench_claimers b).

Inductive bench_cmd :=
| b_op (i : nat) (f : claimer -> claimer)
| b_net (f : network -> network)
| b_assert (p : network -> bool)
| b_frames (l : list (Z * Z * Z)) (names : list (name * Z)).

Fixpoint bench_script (l : list bench_cmd) (b : bench) : bool :=
  match l with
  | [] => true
  | b_op i f :: l => bench_script l (at_claimer i f b)
  | b_net f :: l => bench_script l (Bench (f (bench_net b)) (bench_claimers b))
  | b_assert p :: l => p (bench_net b) && bench_script l b
  | b_frames frames names :: l =>
      bool_decide (sent_frames b = frames) && bool_decide (new_names b = names) && bench_script l (no_outputs b)
  end.

Definition request_frame : Z * Z * Z := (PF_REQUEST, J1939_NO_ADDR, J1939_IDLE_ADDR).
Definition claim_frame (a : Z) : Z * Z * Z := (PF_ADDRESS_CLAIM, J1939_NO_ADDR, a).
Definition cannot_frame : Z * Z * Z := claim_frame J1939_IDLE_ADDR.

(** A claimer with [on_frame] and [on_error]. *)
Definition test_claimer (n : name) (net : network) : claimer := on_error (on_frame (address_claimer [] n net)).

Definition one_claimer : bench :=
  let net := network_init "vcan0" in Bench net [test_claimer local_name net].

Example Jay_Address_Claimer_Test :
  let counts a n := b_assert (fun net => (address_count net =? a) && (name_count net =? n)) in
  let at_address a := b_assert (fun net => in_network local_name net && (get_address local_name net =? a)) in
  bench_script (
    [b_frames [] []; b_op 0 (process make_global_address_request); b_op 0 (settle 9); b_frames [cannot_frame] [];
     counts 0 0; b_op 0 (process (make_address_claim controller_1 0x10)); b_op 0 (settle 9); counts 1 1;
     b_op 0 (start_address_claim 0); b_op 0 (settle 9); b_frames [request_frame; claim_frame 0] [];
     at_address 0; b_assert (fun net => negb (available 0 net));
     b_op 0 (process make_global_address_request); b_op 0 (settle 9); b_frames [claim_frame 0] []; b_net clear] ++
    concat ((fun i =>
      let n := set_self_config_address 1 (Name i) in
      [b_net (inserted n i); b_op 0 (process (make_address_claim n i)); b_op 0 (settle 9);
       b_frames [claim_frame (i + 1)] []; at_address (i + 1)]) <$> seqZ 0 J1939_MAX_UNICAST_ADDR) ++
    [b_net (inserted (Name J1939_MAX_UNICAST_ADDR) J1939_MAX_UNICAST_ADDR);
     b_op 0 (process (make_address_claim (Name J1939_MAX_UNICAST_ADDR) J1939_MAX_UNICAST_ADDR));
     b_op 0 (settle 9); b_assert full; b_frames [cannot_frame; cannot_frame] []]) one_claimer = true.
Proof. vm_compute. reflexivity. Qed.

Definition two_test_claimers (net : network) : bench :=
  Bench net [test_claimer (Name 0xAFF) net; test_claimer (Name 0xBFF) net].

Definition both (f : claimer -> claimer) : list bench_cmd := [b_op 0 f; b_op 1 f].

Example Jay_Network_Manager_Test :
  bench_script (
    both (process make_global_address_request) ++ both (settle 9) ++
    [b_frames [cannot_frame; cannot_frame] [];
     b_op 0 (start_address_claim 0); b_op 1 (start_address_claim 1)] ++ both (settle 9) ++
    [b_frames [request_frame; claim_frame 0; request_frame; claim_frame 1] [(Name 0xAFF, 0); (Name 0xBFF, 1)]] ++
    concat ((fun i =>
      both (process (make_address_claim (Name i) i)) ++ both (settle 9) ++
      [b_frames (if i <? 2 then [claim_frame J1939_NO_ADDR; request_frame] else []) [(Name i, i)]]) <$> seqZ 0 50))
    (two_test_claimers (network_init_callback "vcan0")) = true.
Proof. vm_compute. reflexivity. Qed.

Example ManualProcess :
  bench_script (
    both (address_request J1939_NO_ADDR) ++ both (settle 9) ++ [b_frames [cannot_frame; cannot_frame] [];
     b_op 0 (start_address_claim 0x10); b_op 1 (start_address_claim 0x11)] ++
    both (serve 9) ++ both (step (in_expire false)) ++ both (serve 9) ++
    [b_frames [request_frame; claim_frame 0x10; request_frame; claim_frame 0x11] []])
    (two_test_claimers (network_init "vcan0")) = true.
Proof. vm_compute. reflexivity. Qed.
