(* ===== verification/Transport.v ===== *)
(** * [jay::transport_protocol] ([include/jay/transport_protocol.hpp])

    The transport protocol: messages of 9 to 1785 bytes in packets of seven
    bytes, broadcast (BAM) or to one peer (RTS/CTS).  The bus ([jay::bus], an
    abstract class) and the steady clock are the environment [Bus] of the
    handlers.  A handler is a computation over the object's state that returns
    a value or a [fault]: the places where the source divides by zero or copies
    outside of a buffer (undefined behaviour) are faults here.  Callbacks do not
    call back into the object; their calls act on the environment when they are
    made ([owner_called]) and are recorded in [events]. *)

From Stdlib Require Import String.
From stdpp Require Import gmap list.
From S2P Require Import Prelude J1939Type Canary Header Name Frame.

(** ** Faults and results *)

Inductive fault :=
  | division_by_zero | read_out_of_bounds | write_out_of_bounds
  | empty_optional | bad_function_call | system_error | empty_vector. (** of the connection *)

Inductive result (A : Type) := Ok (a : A) | Fault (f : fault).
Arguments Ok {A}.
Arguments Fault {A}.

Inductive tp_error_code := message_size | io_error | timed_out | aborted | fault_code.

(** Calls of the user's callbacks. *)
Inductive tp_event `{CanaryHeader} := ev_error (what : string) (ec : tp_error_code) | ev_data (d : data).

(** The virtual functions of [jay::bus] and the clock, over a state [E], and what
    the callbacks that the owner of the object has installed do to that state. *)
Class Bus `{CanaryHeader} (E : Type) := {
  bus_send : frame -> E -> bool * E;
  bus_source_address : E -> Z;
  steady_now : E -> Z * E;
  owner_called : tp_event -> E -> E
}.

Definition PGN_TP_CM : Z := 0x00EC00.
Definition PGN_TP_DT : Z := 0x00EB00.

(** Durations in nanoseconds, the unit of the clock. *)
Definition milliseconds (n : Z) : Z := n * 1000000.
Definition T1 : Z := milliseconds 750.
Definition T2 : Z := milliseconds 1250.
Definition T3 : Z := milliseconds 1250.
Definition Tr : Z := milliseconds 200.
Definition SessionCleanTimeout : Z := milliseconds (10 * 60 * 1000).

Inductive Control := RTS | CTS | EOM | BAM | ABORT.

Definition to_byte (c : Control) : Z :=
  match c with RTS => 0x10 | CTS => 0x11 | EOM => 0x13 | BAM => 0x20 | ABORT => 0xFF end.

(** [static_cast<Control>(b)], as far as the switch of [handle_cm] looks. *)
Definition control_of_byte (b : Z) : option Control :=
  if b =? 0x10 then Some RTS else if b =? 0x11 then Some CTS else if b =? 0x13 then Some EOM
  else if b =? 0x20 then Some BAM else if b =? 0xFF then Some ABORT else None.

Inductive AbortCode :=
| AlreadyInSession | ResourcesBusy | Timeout | CtsWhileDT | MaxRetransmit | UnexpectedPacket
| BadSequence | DuplicateSeq | LengthExceeded | Unspecified.

Definition abort_byte (code : AbortCode) : Z :=
  match code with
  | AlreadyInSession => 1 | ResourcesBusy => 2 | Timeout => 3 | CtsWhileDT => 4
  | MaxRetransmit => 5 | UnexpectedPacket => 6 | BadSequence => 7 | DuplicateSeq => 8
  | LengthExceeded => 9 | Unspecified => 250
  end.

Definition abort_codes : list AbortCode :=
  [AlreadyInSession; ResourcesBusy; Timeout; CtsWhileDT; MaxRetransmit; UnexpectedPacket;
   BadSequence; DuplicateSeq; LengthExceeded].

(** [to_string(code)]; [Unspecified] takes the default case. *)
Definition abort_to_string (code : AbortCode) : string :=
  match code with
  | AlreadyInSession => "already in session"
  | ResourcesBusy => "resources busy"
  | Timeout => "timeout"
  | CtsWhileDT => "cts during dt"
  | MaxRetransmit => "retransmit limit"
  | UnexpectedPacket => "unexpected packet"
  | BadSequence => "bad sequence"
  | DuplicateSeq => "duplicate seq"
  | LengthExceeded => "length exceeded"
  | Unspecified => "unspecified"
  end.

(** [static_cast<AbortCode>(b)]: a value without an enumerator prints as the
    default case does. *)
Definition abort_of_byte (b : Z) : AbortCode :=
  default Unspecified (snd <$> list_find (fun c => abort_byte c = b) abort_codes).

(** ** Sessions *)

Inductive Direction := Tx | Rx.
Inductive State := InProgress | Completed | ABorted.

Record TpSession := Session {
  dir : Direction;
  buffer : list Z;
  total_packets : Z;
  next_seq : Z;
  length_ : Z;
  window_size : Z;
  dest_sa : Z;
  src_sa : Z;
  spgn : Z;
  bam : bool;
  last_activity : Z;
  state : State
}.

(** Assignments to single members. *)
Definition set_next_seq (v : Z) (s : TpSession) : TpSession :=
  Session (dir s) (buffer s) (total_packets s) v (length_ s) (window_size s) (dest_sa s) (src_sa s)
    (spgn s) (bam s) (last_activity s) (state s).
Definition set_window_size (v : Z) (s : TpSession) : TpSession :=
  Session (dir s) (buffer s) (total_packets s) (next_seq s) (length_ s) v (dest_sa s) (src_sa s)
    (spgn s) (bam s) (last_activity s) (state s).
Definition set_buffer (v : list Z) (s : TpSession) : TpSession :=
  Session (dir s) v (total_packets s) (next_seq s) (length_ s) (window_size s) (dest_sa s) (src_sa s)
    (spgn s) (bam s) (last_activity s) (state s).
Definition set_last_activity (v : Z) (s : TpSession) : TpSession :=
  Session (dir s) (buffer s) (total_packets s) (next_seq s) (length_ s) (window_size s) (dest_sa s)
    (src_sa s) (spgn s) (bam s) v (state s).
Definition set_state (v : State) (s : TpSession) : TpSession :=
  Session (dir s) (buffer s) (total_packets s) (next_seq s) (length_ s) (window_size s) (dest_sa s)
    (src_sa s) (spgn s) (bam s) (last_activity s) v.

Section Transport.
Context `{CanaryHeader} {E : Type} `{!Bus E}.

Record transport := Transport {
  bus_ : E;
  rx_callback_ : bool;
  error_callback_ : bool;
  sessions_ : gmap (Z * Z) TpSession;
  events : list tp_event
}.

Definition transport_protocol (bus : E) : transport := Transport bus false false ∅ [].
Definition set_error_handler (t : transport) : transport :=
  Transport (bus_ t) (rx_callback_ t) true (sessions_ t) (events t).
Definition set_rx_handler (t : transport) : transport :=
  Transport (bus_ t) true (error_callback_ t) (sessions_ t) (events t).

Definition with_bus (e : E) (t : transport) : transport :=
  Transport e (rx_callback_ t) (error_callback_ t) (sessions_ t) (events t).
Definition with_sessions (m : gmap (Z * Z) TpSession) (t : transport) : transport :=
  Transport (bus_ t) (rx_callback_ t) (error_callback_ t) m (events t).
Definition add_event (e : tp_event) (t : transport) : transport :=
  Transport (owner_called e (bus_ t)) (rx_callback_ t) (error_callback_ t) (sessions_ t) (events t ++ [e]).

(** ** Computations *)

Definition M (A : Type) : Type := transport -> result (A * transport).

#[global] Instance M_ret : MRet M := fun A a t => Ok (a, t).
#[global] Instance M_bind : MBind M := fun A B k m t =>
  match m t with Ok (a, t') => k a t' | Fault f => Fault f end.

Definition fail {A} (f : fault) : M A := fun _ => Fault f.
Definition update (f : transport -> transport) : M unit := fun t => Ok (tt, f t).
Definition gets {A} (f : transport -> A) : M A := fun t => Ok (f t, t).

(** [bus_.send(fr)], [bus_.source_address()] and [steady_clock::now()]. *)
Definition send_frame (fr : frame) : M bool := fun t =>
  let '(ok, e) := bus_send fr (bus_ t) in Ok (ok, with_bus e t).
Definition source : M Z := gets (fun t => bus_source_address (bus_ t)).
Definition now : M Z := fun t =>
  let '(n, e) := steady_now (bus_ t) in Ok (n, with_bus e t).

(** [sessions_[key] = s] and [sessions_.find(key)]. *)
Definition put (key : Z * Z) (s : TpSession) : M unit :=
  update (fun t => with_sessions (<[key := s]> (sessions_ t)) t).
Definition find (key : Z * Z) : M (option TpSession) := gets (fun t => sessions_ t !! key).

Definition report_error (what : string) (ec : tp_error_code) : M unit :=
  update (fun t => if error_callback_ t then add_event (ev_error what ec) t else t).

(** [rx_callback_(...)], if installed. *)
Definition deliver (d : data) : M unit :=
  update (fun t => if rx_callback_ t then add_event (ev_data d) t else t).

(** ** Frames *)

Definition make_base_frame (pgn dst src : Z) : frame :=
  let h := set_pgn pgn frame_header_default in
  let h := set_pdu_specific dst h in
  let h := set_source_address src h in
  let h := set_payload_length 8 h in
  Frame h (replicate 8 0).

(** [fr.payload[i] = v] and [fr.payload[i]] for an index of the array. *)
Definition set_byte (i : nat) (v : Z) (fr : frame) : frame := Frame (header fr) (<[i := v]> (payload fr)).
Definition byte (i : nat) (fr : frame) : Z := nth i (payload fr) 0.

Definition make_cm_frame (ctrl : Control) (dst_sa src_sa : Z) : frame :=
  set_byte 0 (to_byte ctrl) (make_base_frame PGN_TP_CM dst_sa src_sa).

Definition make_dt_frame (s : TpSession) : frame := make_base_frame PGN_TP_DT (dest_sa s) (src_sa s).

Definition get_payload_pgn (fr : frame) : Z :=
  byte 5 fr .| (byte 6 fr .<< 8) .| (byte 7 fr .<< 16).

Definition fill_tp_payload (s : TpSession) (fr : frame) : frame :=
  let fr := set_byte 1 (length_ s .& 0xFF) fr in
  let fr := set_byte 2 (u8 (length_ s .>> 8)) fr in
  let fr := set_byte 3 (total_packets s) fr in
  let fr := set_byte 4 (window_size s) fr in
  let fr := set_byte 5 (spgn s .& 0xFF) fr in
  let fr := set_byte 6 ((spgn s .>> 8) .& 0xFF) fr in
  set_byte 7 ((spgn s .>> 16) .& 0xFF) fr.

(** A default-initialised session; the clock value of [last_activity] is the epoch. *)
Definition session_default : TpSession :=
  Session Tx [] 0 1 0 0xFF 0 0 0 false 0 InProgress.

Definition dummy_abort_session (fr : frame) (direction : Direction) : M TpSession :=
  own ← source;
  let '(d, s) := match direction with
                 | Tx => (source_address (header fr), own)
                 | Rx => (own, source_address (header fr))
                 end in
  mret (Session direction [] 0 1 0 0 d s (get_payload_pgn fr) false 0 InProgress).

(** ** Sending *)

Definition send_abort (s : TpSession) (code : AbortCode) : M bool :=
  let fr := fill_tp_payload s (make_cm_frame ABORT (src_sa s) (dest_sa s)) in
  let fr := set_byte 1 (abort_byte code) fr in
  send_frame (set_byte 2 0 (set_byte 3 0 (set_byte 4 0 fr))).

Definition send_eom_ack (s : TpSession) : M bool :=
  if bam s then mret true
  else
    let fr := set_byte 4 0xFF (fill_tp_payload s (make_cm_frame EOM (src_sa s) (dest_sa s))) in
    ok ← send_frame fr;
    if negb ok then report_error "tp send EOM" io_error;; mret false
    else mret true.

(** [std::copy_n(src + off, n, dst + doff)] *)
Definition copy_n (src : list Z) (off n : Z) (dst : list Z) (doff : Z) : M (list Z) :=
  if Z.of_nat (length src) <? off + n then fail read_out_of_bounds
  else if Z.of_nat (length dst) <? doff + n then fail write_out_of_bounds
  else mret (take (Z.to_nat doff) dst ++ take (Z.to_nat n) (drop (Z.to_nat off) src) ++
             drop (Z.to_nat (doff + n)) dst).

(** The [size_t] computations of the offset and the number of bytes of packet [seq]. *)
Definition packet_offset (seq : Z) : Z := u64 ((seq - 1) * 7).
Definition packet_avail (size seq : Z) : Z := Z.min 7 (u64 (size - packet_offset seq)).

(** The packet [next_seq] of a session. *)
Definition make_packet (s : TpSession) : M frame :=
  let fr := set_byte 0 (next_seq s) (make_dt_frame s) in
  bytes ← copy_n (buffer s) (packet_offset (next_seq s))
            (packet_avail (Z.of_nat (length (buffer s))) (next_seq s)) (payload fr) 1;
  mret (Frame (header fr) bytes).

(** The loop of [send_data_packets]: at most [count] iterations.  The boolean is
    false when the loop returned from the function. *)
Fixpoint send_data_loop (count : nat) (s : TpSession) : M (bool * TpSession) :=
  if next_seq s <=? total_packets s then
    match count with
    | O => mret (true, s)
    | S count =>
        fr ← make_packet s;
        ok ← send_frame fr;
        if negb ok then
          report_error "tp send DT" io_error;;
          _ ← send_abort s ResourcesBusy;
          mret (false, s)
        else
          n ← now;
          let s := set_last_activity n s in
          send_data_loop count (set_next_seq (u8 (next_seq s + 1)) s)
    end
  else mret (true, s).

Definition send_data_packets (s : TpSession) : M (bool * TpSession) :=
  '(ok, s) ← send_data_loop (Z.to_nat (window_size s)) s;
  if negb ok then mret (false, s)
  else if total_packets s <? next_seq s then
    _ ← send_eom_ack s;
    mret (true, set_state Completed s)
  else mret (false, s).

Definition send_bam_start (s : TpSession) : M (bool * TpSession) :=
  let fr := fill_tp_payload s (make_cm_frame BAM J1939_NO_ADDR (src_sa s)) in
  ok ← send_frame fr;
  if negb ok then
    report_error "tp send BAM" io_error;;
    _ ← send_abort s ResourcesBusy;
    mret (false, s)
  else
    n ← now;
    send_data_packets (set_last_activity n s).

Definition send_rts (s : TpSession) : M (bool * TpSession) :=
  let fr := fill_tp_payload s (make_cm_frame RTS (dest_sa s) (src_sa s)) in
  ok ← send_frame fr;
  if negb ok then
    report_error "tp send RTS" io_error;;
    _ ← send_abort s ResourcesBusy;
    mret (false, s)
  else
    n ← now;
    mret (true, set_last_activity n s).

Definition make_key (src dst : Z) : Z * Z := (src, dst).

(** A function on [sessions_[key]] by reference. *)
Definition on_session {A} (key : Z * Z) (s : TpSession) (f : TpSession -> M (A * TpSession)) : M A :=
  '(r, s) ← f s;
  put key s;;
  mret r.

Definition start_tx (data : list Z) (dest pgn : Z) : M bool :=
  let size := Z.of_nat (length data) in
  if size <=? 8 then mret false
  else if 1785 <? size then
    report_error "payload too large" message_size;;
    mret false
  else
    let use_bam := dest =? 0xFF in
    let len := u16 size in
    own ← source;
    n ← now;
    let sess := Session Tx data (u8 ((len + 6) / 7)) 1 len 0xFF dest own pgn use_bam n InProgress in
    let key := make_key (src_sa sess) (dest_sa sess) in
    put key sess;;
    if use_bam then on_session key sess send_bam_start
    else on_session key sess send_rts.

Definition send (data : list Z) (dest pgn : Z) : M bool := start_tx data dest pgn.

(** ** Receiving *)

Definition response_cts (s : TpSession) : M unit :=
  let cts := fill_tp_payload s (make_cm_frame CTS (src_sa s) (dest_sa s)) in
  let cts := set_byte 1 (window_size s) cts in
  let cts := set_byte 2 (next_seq s) cts in
  let cts := set_byte 3 0 cts in
  let cts := set_byte 4 0 cts in
  _ ← send_frame cts;
  mret tt.

(** The 16-bit length of a connection management frame. *)
Definition payload_size (fr : frame) : Z := u16 (byte 1 fr .| (byte 2 fr .<< 8)).

Definition start_rx_rts (fr : frame) : M unit :=
  own ← source;
  if negb (pdu_specific (header fr) =? own) then mret tt
  else
    n ← now;
    let len := payload_size fr in
    let dest := if is_broadcast (header fr) then J1939_NO_ADDR else pdu_specific (header fr) in
    let s := Session Rx (replicate (Z.to_nat len) 0) (byte 3 fr) 1 len (byte 4 fr) dest
               (source_address (header fr)) (get_payload_pgn fr) false n InProgress in
    put (make_key (src_sa s) (dest_sa s)) s;;
    response_cts s.

Definition handle_cts (fr : frame) : M unit :=
  own ← source;
  let key := make_key own (source_address (header fr)) in
  it ← find key;
  match it with
  | Some s =>
      let s := set_window_size (byte 1 fr) s in
      let s := set_next_seq (byte 2 fr) s in
      _ ← on_session key s send_data_packets;
      mret tt
  | None =>
      dummy ← dummy_abort_session fr Tx;
      _ ← send_abort dummy UnexpectedPacket;
      report_error "cts without session" aborted
  end.

Definition start_rx_bam (fr : frame) : M unit :=
  n ← now;
  let len := payload_size fr in
  let s := Session Rx (replicate (Z.to_nat len) 0) (byte 3 fr) 1 len 0xFF 0xFF
             (source_address (header fr)) (get_payload_pgn fr) true n InProgress in
  put (make_key (src_sa s) (dest_sa s)) s.

(** The three rejections of [handle_dt]: the session is marked, an abort is sent. *)
Definition reject_dt (key : Z * Z) (s : TpSession) (code : AbortCode) (what : string) : M unit :=
  let s := set_state ABorted s in
  put key s;;
  _ ← send_abort s code;
  report_error what fault_code.

(** The header of a delivered message. *)
Definition delivery_header (s : TpSession) : frame_header :=
  let h := set_pgn (spgn s) frame_header_default in
  let h := set_source_address (src_sa s) h in
  let h := if negb (bam s) then set_pdu_specific (dest_sa s) h else h in
  set_payload_length (Z.of_nat (length (buffer s))) h.

(** What [handle_dt] does with a packet that is the next one. *)
Definition accept_dt (key : Z * Z) (s : TpSession) (seq : Z) (fr : frame) : M unit :=
  buf ← copy_n (payload fr) 1 (packet_avail (Z.of_nat (length (buffer s))) seq)
          (buffer s) (packet_offset seq);
  n ← now;
  let s := set_last_activity n (set_next_seq (u8 (seq + 1)) (set_buffer buf s)) in
  put key s;;
  if seq =? total_packets s then
    deliver (Data (delivery_header s) (buffer s));;
    if negb (bam s) then _ ← send_eom_ack s; mret tt
    else put key (set_state Completed s)
  else if window_size s =? 0 then fail division_by_zero
  else if (seq mod window_size s =? 0) && negb (bam s) then response_cts s
  else mret tt.

Definition handle_dt (fr : frame) : M unit :=
  let key := make_key (source_address (header fr)) (pdu_specific (header fr)) in
  it ← find key;
  match it with
  | None =>
      dummy ← dummy_abort_session fr Rx;
      _ ← send_abort dummy UnexpectedPacket;
      report_error "dt without session" aborted
  | Some s =>
      let seq := byte 0 fr in
      if (seq <? 1) || (total_packets s <? seq) then reject_dt key s BadSequence "dt bad sequence"
      else if seq <? next_seq s then reject_dt key s DuplicateSeq "dt duplicate sequence"
      else if negb (seq =? next_seq s) then reject_dt key s BadSequence "dt unexpected sequence"
      else accept_dt key s seq fr
  end.

Definition handle_abort (fr : frame) : M unit :=
  own ← source;
  let key := make_key own (source_address (header fr)) in
  it ← find key;
  match it with
  | Some s =>
      put key (set_state ABorted s);;
      report_error (append "remote abort: " (abort_to_string (abort_of_byte (byte 1 fr)))) aborted
  | None => mret tt
  end.

Definition complete_rx (fr : frame) : M unit :=
  let key := make_key (source_address (header fr)) (pdu_specific (header fr)) in
  it ← find key;
  match it with
  | None =>
      dummy ← dummy_abort_session fr Rx;
      _ ← send_abort dummy UnexpectedPacket;
      report_error "eom without session" aborted
  | Some s => put key (set_state Completed s)
  end.

Definition handle_cm (fr : frame) : M unit :=
  match control_of_byte (byte 0 fr) with
  | Some RTS => start_rx_rts fr
  | Some CTS => handle_cts fr
  | Some BAM => start_rx_bam fr
  | Some EOM => complete_rx fr
  | Some ABORT => handle_abort fr
  | None => mret tt
  end.

Definition on_can_frame (fr : frame) : M unit :=
  if pgn (header fr) =? PGN_TP_CM then handle_cm fr
  else if pgn (header fr) =? PGN_TP_DT then handle_dt fr
  else mret tt.

(** ** Timeouts *)

(** One step of the loop of [tick], for the session at [key]. *)
Definition tick_session (n : Z) (key : Z * Z) : M unit :=
  it ← find key;
  match it with
  | None => mret tt
  | Some s =>
      let timeout := match dir s with Tx => T3 | Rx => T2 end in
      if timeout <? n - last_activity s then
        _ ← send_abort s Timeout;
        report_error "tp timeout" timed_out;;
        update (fun t => with_sessions (delete key (sessions_ t)) t)
      else if SessionCleanTimeout <? n - last_activity s then
        update (fun t => with_sessions (delete key (sessions_ t)) t)
      else mret tt
  end.

Fixpoint tick_loop (n : Z) (order : list (Z * Z)) : M unit :=
  match order with
  | [] => mret tt
  | key :: order => tick_session n key;; tick_loop n order
  end.

(** [tick()]: [order] is the iteration order of the unordered map. *)
Definition tick (order : list (Z * Z)) : M unit := n ← now; tick_loop n order.

End Transport.

Arguments transport {_} _.
