(* ===== verification/TransportFacts.v ===== *)
(** * Packets, frames and single steps of the transport protocol

    The packets that a session sends, as a pure function of the message; what a
    receiver reads in the frames; the handlers on a reliable bus, step by step. *)

From Stdlib Require Import String.
From stdpp Require Import gmap list list_numbers.
From S2P Require Import Prelude J1939Type Canary Header HeaderFacts Name Frame Transport.

(** ** Packets of a message *)

(** The number of packets of a message of [n] bytes. *)
Definition packets (n : Z) : Z := (n + 6) / 7.

(** The bytes of packet [k] (1, 2, ...). *)
Definition chunk (bytes : list Z) (k : Z) : list Z := take 7 (drop (Z.to_nat (7 * (k - 1))) bytes).

Definition chunk_size (n k : Z) : Z := Z.min 7 (n - 7 * (k - 1)).

Notation len l := (Z.of_nat (length l)).

Lemma packets_bounds n : 0 < n -> 7 * (packets n - 1) < n <= 7 * packets n.
Proof. intros. unfold packets. Z.div_mod_to_equations. lia. Qed.

Lemma length_chunk bytes k : 1 <= k <= packets (len bytes) -> 0 < len bytes ->
  len (chunk bytes k) = chunk_size (len bytes) k.
Proof.
  intros Hk Hn. pose proof (packets_bounds _ Hn). unfold chunk, chunk_size.
  rewrite length_take, length_drop. lia.
Qed.

(** The offset and size computations of the source, without wrap-around. *)
Lemma packet_offset_eq k : 1 <= k < 2 ^ 60 -> packet_offset k = 7 * (k - 1).
Proof. intros. unfold packet_offset. rewrite wrap_small; [lia|]. unfold is_uint. lia. Qed.

Lemma packet_avail_eq n k : 1 <= k < 2 ^ 60 -> 7 * (k - 1) <= n < 2 ^ 60 ->
  packet_avail n k = chunk_size n k.
Proof.
  intros. unfold packet_avail, chunk_size. rewrite packet_offset_eq by lia.
  rewrite wrap_small; [done|]. unfold is_uint. lia.
Qed.

(** Appending chunk [k] to the first [k - 1] chunks. *)
Lemma take_chunk bytes k : 1 <= k ->
  take (Z.to_nat (7 * (k - 1))) bytes ++ chunk bytes k = take (Z.to_nat (7 * k)) bytes.
Proof.
  intros Hk. unfold chunk. replace (Z.to_nat (7 * k)) with (Z.to_nat (7 * (k - 1)) + 7)%nat by lia.
  apply take_take_drop.
Qed.

Section Frames.
Context `{CanaryLaws}.

(** ** Headers *)

(** What a receiver reads in the header of a frame for PGN [f * 256] (PDU1). *)
Lemma base_frame_header f dst src : 0 <= f < 240 -> is_uint 8 dst -> is_uint 8 src ->
  let h := header (make_base_frame (f * 2 ^ 8) dst src) in
  pgn h = f * 2 ^ 8 /\ pdu_specific h = dst /\ source_address h = src /\ is_broadcast h = false.
Proof.
  intros Hf Hd Hs h.
  pose proof default_flags as F0. pose proof (set_id_flags _ _ F0 : j1939_flags (set_pgn (f * 2 ^ 8) _)) as F1.
  pose proof (set_id_flags _ _ F1 : j1939_flags (set_pdu_specific dst _)) as F2.
  assert (Hid : id h = fset 29 0 8 (fset 29 8 8 (fset 29 8 18 0 (wrap 18 (f * 2 ^ 8))) dst) src).
  { unfold h, make_base_frame. cbn [header]. rewrite id_set_payload_length, id_set_source_address by done.
    rewrite id_set_pdu_specific by done. by rewrite id_set_pgn, id_default. }
  assert (Hpf : fget 16 10 (id h) = f).
  { rewrite Hid, !fget_fset_other, fget_fset_inner, fget_div by lia. Z.div_mod_to_equations. lia. }
  assert (Hb : is_broadcast h = false).
  { unfold is_broadcast, PF_PDU1_MAX. rewrite pdu_format_field. apply Z.ltb_ge.
    rewrite fget_div in * by lia. Z.div_mod_to_equations. lia. }
  rewrite pgn_bits, Hb, Hpf, Z.shiftl_mul_pow2, pdu_specific_field, source_address_field by lia.
  split_and!; [done| | |done]; rewrite Hid.
  - rewrite fget_fset_other, fget_fset_same by lia. by apply wrap_small.
  - rewrite fget_fset_same by lia. by apply wrap_small.
Qed.

(** The header of a delivered broadcast message. *)
Lemma broadcast_delivery_header g src n : is_uint 18 g -> is_uint 8 src ->
  (240 <= fget 8 8 g \/ fget 0 8 g = 0) ->
  let h := set_payload_length n (set_source_address src (set_pgn g frame_header_default)) in
  pgn h = g /\ source_address h = src.
Proof.
  intros Hg Hs Hps h. pose proof default_flags as F0.
  pose proof (set_id_flags _ _ F0 : j1939_flags (set_pgn g _)) as F1.
  assert (Hid : id h = fset 29 0 8 (fset 29 8 18 0 g) src).
  { unfold h. rewrite id_set_payload_length, id_set_source_address by done.
    rewrite id_set_pgn, id_default by done. by rewrite wrap_small. }
  assert (Hpf : forall lo l, 8 <= lo -> 0 <= l -> lo + l <= 26 -> fget lo l (id h) = fget (lo - 8) l g).
  { intros. rewrite Hid, fget_fset_other by lia. rewrite <- (wrap_small 18 g) at 1 by done.
    by apply fget_fset_inner. }
  split.
  - rewrite pgn_bits. unfold is_broadcast, PF_PDU1_MAX. rewrite pdu_format_field, Hpf by lia.
    rewrite !Hpf by lia. replace (8 - 8) with 0 by lia. replace (16 - 8) with 8 by lia.
    rewrite (fget_all 18) by done. rewrite Z.shiftl_mul_pow2, !fget_div in * by lia.
    unfold is_uint in *. bool_cases; Z.div_mod_to_equations; lia.
  - rewrite source_address_field, Hid, fget_fset_same by lia. by apply wrap_small.
Qed.

(** ** Frames *)

(** The data frame with packet [k] of a message. *)
Definition dt_frame (dst src : Z) (bytes : list Z) (k : Z) : frame :=
  Frame (header (make_base_frame PGN_TP_DT dst src))
    (k :: chunk bytes k ++ replicate (7 - length (chunk bytes k)) 0).

(** ** Computations *)

Context {E : Type} `{!Bus E}.

Lemma bind_ok {A B} (m : M A) (k : A -> M B) (t t' : transport E) a :
  m t = Ok (a, t') -> (m ≫= k) t = k a t'.
Proof. intros Hm. unfold mbind, M_bind. by rewrite Hm. Qed.

Lemma copy_n_ok src off n dst doff (t : transport E) :
  off + n <= len src -> doff + n <= len dst ->
  copy_n src off n dst doff t =
    Ok (take (Z.to_nat doff) dst ++ take (Z.to_nat n) (drop (Z.to_nat off) src) ++
        drop (Z.to_nat (doff + n)) dst, t).
Proof.
  intros H1 H2. unfold copy_n.
  by rewrite (proj2 (Z.ltb_ge _ _) H1), (proj2 (Z.ltb_ge _ _) H2).
Qed.

(** The packet in the range of the message never faults. *)
Lemma make_packet_ok s (t : transport E) :
  0 < len (buffer s) < 2 ^ 60 -> 1 <= next_seq s <= packets (len (buffer s)) ->
  make_packet s t = Ok (dt_frame (dest_sa s) (src_sa s) (buffer s) (next_seq s), t).
Proof.
  intros Hn Hk. pose proof (packets_bounds (len (buffer s)) ltac:(lia)) as Hp.
  pose proof (length_chunk (buffer s) (next_seq s) Hk ltac:(lia)) as Hc.
  unfold make_packet. rewrite packet_offset_eq, packet_avail_eq by lia.
  erewrite bind_ok; [|apply copy_n_ok; unfold chunk_size; simpl; lia].
  unfold dt_frame, make_dt_frame, mret, M_ret. do 3 f_equal. simpl. f_equal.
  assert (Htake : take (Z.to_nat (chunk_size (len (buffer s)) (next_seq s)))
    (drop (Z.to_nat (7 * (next_seq s - 1))) (buffer s)) = chunk (buffer s) (next_seq s)).
  { unfold chunk, chunk_size.
    destruct (decide (len (buffer s) - 7 * (next_seq s - 1) <= 7)).
    - rewrite !take_ge; [done|rewrite length_drop; lia..].
    - by rewrite Z.min_l by lia. }
  rewrite Htake. f_equal.
  replace (Z.to_nat (1 + chunk_size (len (buffer s)) (next_seq s))) with
    (S (length (chunk (buffer s) (next_seq s)))) by (unfold chunk_size in *; lia).
  rewrite skipn_cons. change [0; 0; 0; 0; 0; 0; 0] with (replicate 7 0). apply drop_replicate.
Qed.

(** ** A reliable bus *)

(** A bus that accepts every frame and remembers it, as the mock bus of the
    repository's tests does; sending, reading the clock and the callbacks do not
    change the address, and the callbacks send nothing. *)
Class ReliableBus := {
  sent : E -> list frame;
  send_accepts f e : fst (bus_send f e) = true;
  send_records f e : sent (snd (bus_send f e)) = sent e ++ [f];
  send_address f e : bus_source_address (snd (bus_send f e)) = bus_source_address e;
  now_records e : sent (snd (steady_now e)) = sent e;
  now_address e : bus_source_address (snd (steady_now e)) = bus_source_address e;
  called_records v e : sent (owner_called v e) = sent e;
  called_address v e : bus_source_address (owner_called v e) = bus_source_address e
}.

Context `{!ReliableBus}.

(** From [t] to [t'] exactly the frames [l] were sent and nothing else changed. *)
Definition sends (l : list frame) (t t' : transport E) : Prop :=
  sent (bus_ t') = sent (bus_ t) ++ l /\
  bus_source_address (bus_ t') = bus_source_address (bus_ t) /\
  rx_callback_ t' = rx_callback_ t /\ error_callback_ t' = error_callback_ t /\
  sessions_ t' = sessions_ t /\ events t' = events t.

Lemma sends_nil t : sends [] t t.
Proof. unfold sends. by rewrite app_nil_r. Qed.

Lemma sends_app l l' t t' t'' : sends l t t' -> sends l' t' t'' -> sends (l ++ l') t t''.
Proof.
  intros (A1 & A2 & A3 & A4 & A5 & A6) (B1 & B2 & B3 & B4 & B5 & B6). unfold sends.
  rewrite B1, A1, (assoc_L app). split_and!; congruence.
Qed.

Lemma send_frame_ok fr t : exists t', send_frame fr t = Ok (true, t') /\ sends [fr] t t'.
Proof.
  unfold send_frame. destruct (bus_send fr (bus_ t)) as [ok e] eqn:Hs.
  pose proof (send_accepts fr (bus_ t)) as Ha. pose proof (send_records fr (bus_ t)) as Hr.
  pose proof (send_address fr (bus_ t)) as Hd. rewrite Hs in Ha, Hr, Hd. simpl in *. subst ok.
  eexists. split; [done|]. unfold sends. simpl. by split_and!.
Qed.

Lemma now_ok t : exists n t', now t = Ok (n, t') /\ sends [] t t'.
Proof.
  unfold now. destruct (steady_now (bus_ t)) as [n e] eqn:Hs.
  pose proof (now_records (bus_ t)) as Hr. pose proof (now_address (bus_ t)) as Hd.
  rewrite Hs in Hr, Hd. simpl in *.
  do 2 eexists. split; [done|]. unfold sends. simpl. rewrite app_nil_r. by split_and!.
Qed.

(** ** The data packets *)

Lemma send_data_loop_done count s (t : transport E) :
  next_seq s = total_packets s + 1 ->
  send_data_loop count s t =
    Ok ((true, set_next_seq (total_packets s + 1) (set_last_activity (last_activity s) s)), t).
Proof.
  intros Hend. assert (Hgt : (next_seq s <=? total_packets s) = false) by (apply Z.leb_gt; lia).
  replace (set_next_seq _ _) with s by (rewrite <- Hend; by destruct s).
  destruct count; simpl; by rewrite Hgt.
Qed.

(** One iteration: the packet [next_seq], which becomes the next one modulo 256. *)
Lemma send_data_loop_step count s t :
  0 < len (buffer s) < 2 ^ 60 -> total_packets s = packets (len (buffer s)) ->
  1 <= next_seq s <= total_packets s ->
  exists n t',
    send_data_loop (S count) s t =
      send_data_loop count (set_next_seq (u8 (next_seq s + 1)) (set_last_activity n s)) t' /\
    sends [dt_frame (dest_sa s) (src_sa s) (buffer s) (next_seq s)] t t'.
Proof.
  intros Hn Htot Hk. cbn [send_data_loop]. rewrite (proj2 (Z.leb_le _ _)) by lia.
  erewrite bind_ok by (apply make_packet_ok; lia).
  destruct (send_frame_ok (dt_frame (dest_sa s) (src_sa s) (buffer s) (next_seq s)) t) as (t1 & E1 & S1).
  erewrite bind_ok by exact E1. cbn [negb].
  destruct (now_ok t1) as (n & t2 & E2 & S2). erewrite bind_ok by exact E2.
  exists n, t2. split; [done|]. exact (sends_app [_] [] t t1 t2 S1 S2).
Qed.

(** The first [count] iterations. *)
Lemma send_data_loop_prefix count rest s t :
  0 < len (buffer s) < 2 ^ 60 -> total_packets s = packets (len (buffer s)) -> 1 <= next_seq s ->
  next_seq s + Z.of_nat count <= total_packets s + 1 -> next_seq s + Z.of_nat count <= 255 ->
  exists n t',
    send_data_loop (count + rest) s t =
      send_data_loop rest (set_next_seq (next_seq s + Z.of_nat count) (set_last_activity n s)) t' /\
    sends (dt_frame (dest_sa s) (src_sa s) (buffer s) <$> seqZ (next_seq s) (Z.of_nat count)) t t'.
Proof.
  revert s t. induction count as [|count IH]; intros s t Hn Htot Hone Hk Hmax.
  - exists (last_activity s), t. split; [|apply sends_nil].
    replace (next_seq s + Z.of_nat 0) with (next_seq s) by lia. by destruct s.
  - destruct (send_data_loop_step (count + rest) s t) as (n & t1 & E1 & S1); [lia..|].
    rewrite (wrap_small 8) in E1 by (unfold is_uint; lia).
    destruct (IH (set_next_seq (next_seq s + 1) (set_last_activity n s)) t1)
      as (n' & t2 & E2 & S2); [simpl; lia..|].
    exists n', t2. split.
    + change (S count + rest)%nat with (S (count + rest)). rewrite E1, E2.
      by replace (next_seq s + Z.of_nat (S count)) with (next_seq s + 1 + Z.of_nat count) by lia.
    + rewrite Nat2Z.inj_succ, seqZ_cons, fmap_cons, Z.pred_succ by lia. exact (sends_app [_] _ t t1 t2 S1 S2).
Qed.

(** The loop sends the packets from [next_seq] to the last one. *)
Lemma send_data_loop_ok count s t :
  0 < len (buffer s) < 2 ^ 60 -> total_packets s = packets (len (buffer s)) -> total_packets s <= 254 ->
  1 <= next_seq s <= total_packets s + 1 -> total_packets s + 1 - next_seq s <= Z.of_nat count ->
  exists n t',
    send_data_loop count s t =
      Ok ((true, set_next_seq (total_packets s + 1) (set_last_activity n s)), t') /\
    sends (dt_frame (dest_sa s) (src_sa s) (buffer s) <$>
      seqZ (next_seq s) (total_packets s + 1 - next_seq s)) t t'.
Proof.
  intros Hn Htot Hmax Hk Hc. set (m := Z.to_nat (total_packets s + 1 - next_seq s)).
  destruct (send_data_loop_prefix m (count - m) s t) as (n & t1 & E1 & S1); [lia..|].
  replace (m + (count - m))%nat with count in E1 by lia.
  replace (next_seq s + Z.of_nat m) with (total_packets s + 1) in E1 by lia.
  replace (Z.of_nat m) with (total_packets s + 1 - next_seq s) in S1 by lia.
  exists n, t1. split; [|done]. rewrite E1, send_data_loop_done by done. by destruct s.
Qed.

End Frames.
