(* ===== verification/TransportFrame.v ===== *)
(** * What an operation of the transport leaves alone

    [relates R m]: the computation [m] takes a state only to states that [R]
    relates to it.  The rules follow the structure of a computation for every
    preorder that its primitive steps respect ([Steps]); they are used here for
    the frame of an operation, and in the following files for the sessions it
    may change.

    The transport touches its bus only by sending frames, reading the clock and
    calling its callbacks, never changes its callbacks, and only appends to the calls it has
    made.  [framed R m] says so of a computation [m], for any preorder [R] on
    buses that these respect. *)

From Stdlib Require Import String.
From stdpp Require Import gmap list.
From S2P Require Import Prelude J1939Type Canary Header Name Frame Transport.

Create HintDb steps discriminated.
#[export] Hint Constants Opaque : steps.

(** The messages among the calls of the user's callbacks. *)
Definition data_of `{CanaryHeader} (e : tp_event) : option data :=
  match e with ev_data d => Some d | ev_error _ _ => None end.

Definition datas `{CanaryHeader} {E : Type} (t : transport E) : list data := omap data_of (events t).

(** ** Computations and preorders *)

Section Relates.
Context `{CanaryHeader} {E : Type} `{!Bus E}.

Definition relates {A} (R : relation (transport E)) (m : M (E := E) A) : Prop :=
  forall t a t', m t = Ok (a, t') -> R t t'.

(** What neither the sessions nor the received messages depend on. *)
Class Steps (R : relation (transport E)) : Prop := {
  steps_preorder :: PreOrder R;
  steps_send_frame fr : relates R (send_frame fr);
  steps_now : relates R now;
  steps_report_error what ec : relates R (report_error what ec)
}.

Context (R : relation (transport E)) `{!Steps R}.

Lemma relates_ret {A} (a : A) : relates R (mret a).
Proof. by intros t b t' [= -> ->]. Qed.

Lemma relates_bind {A B} (m : M A) (k : A -> M B) :
  relates R m -> (forall a, relates R (k a)) -> relates R (m ≫= k).
Proof.
  intros Hm Hk t b t' Hr. unfold mbind, M_bind in Hr.
  destruct (m t) as [[a t1]|] eqn:Hmt; [|done]. trans t1; [by apply (Hm t a)|by apply (Hk a t1 b)].
Qed.

Lemma relates_fail {A} f : relates R (@fail _ E A f).
Proof. by intros t a t' [=]. Qed.

Lemma relates_gets {A} (f : transport E -> A) : relates R (gets f).
Proof. by intros t a t' [= _ <-]. Qed.

Lemma relates_find key : relates R (find key).
Proof. apply relates_gets. Qed.

Lemma relates_source : relates R source.
Proof. apply relates_gets. Qed.

End Relates.

Lemma relates_update `{CanaryHeader} {E : Type} `{!Bus E} (R : relation (transport E)) f :
  (forall t, R t (f t)) -> relates R (update f).
Proof. intros Hf t a t' [= _ <-]. apply Hf. Qed.

Lemma relates_apply `{CanaryHeader} {E : Type} `{!Bus E} (R : relation (transport E)) {A} (m : M A) t a t' :
  m t = Ok (a, t') -> relates R m -> R t t'.
Proof. intros Hr Hm. by apply (Hm t a t'). Qed.

#[export] Hint Resolve relates_ret relates_fail relates_gets relates_find relates_source
  steps_send_frame steps_now steps_report_error : steps.
#[export] Hint Extern 0 (Steps _) => assumption : steps.
#[export] Hint Extern 1 (Steps _) => apply _ : steps.

(** Follows the structure of a computation. *)
Ltac relate_step :=
  match goal with
  | |- relates _ (_ ≫= _) => apply relates_bind; [apply _| |intros ?]
  | |- relates _ (match ?x with _ => _ end) => destruct x
  | |- relates _ _ => solve [eauto with steps]
  end.
Ltac relate := cbv zeta; repeat relate_step.

(** ** The functions that send *)

Section Sending.
Context `{CanaryHeader} {E : Type} `{!Bus E} (R : relation (transport E)) `{!Steps R}.

Lemma relates_send_abort s code : relates R (send_abort s code).
Proof. apply steps_send_frame. Qed.

Lemma relates_dummy fr d : relates R (dummy_abort_session fr d).
Proof. unfold dummy_abort_session. relate. Qed.

Lemma relates_send_eom_ack s : relates R (send_eom_ack s).
Proof. unfold send_eom_ack. relate. Qed.

Lemma relates_response_cts s : relates R (response_cts s).
Proof. unfold response_cts. relate. Qed.

Lemma relates_copy_n src off n dst doff : relates R (copy_n src off n dst doff).
Proof. unfold copy_n. relate. Qed.

Hint Resolve relates_send_abort relates_send_eom_ack relates_copy_n : steps.

Lemma relates_send_data_loop count s : relates R (send_data_loop count s).
Proof.
  revert s. induction count as [|count IH]; intros s; cbn [send_data_loop]; unfold make_packet; relate.
Qed.

Hint Resolve relates_send_data_loop : steps.

Lemma relates_send_data_packets s : relates R (send_data_packets s).
Proof. unfold send_data_packets. relate. Qed.

Hint Resolve relates_send_data_packets : steps.

Lemma relates_send_bam_start s : relates R (send_bam_start s).
Proof. unfold send_bam_start. relate. Qed.

Lemma relates_send_rts s : relates R (send_rts s).
Proof. unfold send_rts. relate. Qed.

Lemma relates_on_session {A} key s (f : TpSession -> M (A * TpSession)) :
  (forall s, relates R (f s)) -> (forall s, relates R (put key s)) -> relates R (on_session key s f).
Proof. intros Hf Hp. unfold on_session. relate. Qed.

End Sending.

#[export] Hint Resolve relates_send_abort relates_dummy relates_send_eom_ack relates_response_cts relates_copy_n
  relates_send_data_packets relates_send_bam_start relates_send_rts relates_on_session : steps.

(** ** The frame of an operation *)

(** [R] relates a bus to the bus after one of its operations. *)
Class BusStable `{CanaryHeader} {E : Type} `{!Bus E} (R : relation E) : Prop := {
  stable_preorder :: PreOrder R;
  stable_send f e : R e (snd (bus_send f e));
  stable_now e : R e (snd (steady_now e));
  stable_called v e : R e (owner_called v e)
}.

Section Framed.
Context `{CanaryHeader} {E : Type} `{!Bus E} (R : relation E) `{!BusStable R}.

(** The change of a transport that every operation respects. *)
Definition transport_le (t t' : transport E) : Prop :=
  R (bus_ t) (bus_ t') /\ rx_callback_ t' = rx_callback_ t /\
  error_callback_ t' = error_callback_ t /\ events t `prefix_of` events t'.

Definition framed {A} : M (E := E) A -> Prop := relates transport_le.

#[export] Instance transport_le_preorder : PreOrder transport_le.
Proof.
  split.
  - intros t. by split_and!.
  - intros t1 t2 t3 (A1 & B1 & C1 & D1) (A2 & B2 & C2 & D2).
    split_and!; [by etrans|congruence|congruence|by etrans].
Qed.

#[export] Instance transport_le_steps : Steps transport_le.
Proof.
  split; [apply _|..].
  - intros fr t a t'. unfold send_frame. pose proof (stable_send fr (bus_ t)) as Hs.
    destruct (bus_send fr (bus_ t)) as [ok e]. intros [= <- <-]. by split_and!.
  - intros t a t'. unfold now. pose proof (stable_now (bus_ t)) as Hs.
    destruct (steady_now (bus_ t)) as [n e]. intros [= <- <-]. by split_and!.
  - intros what ec. apply relates_update. intros t. destruct (error_callback_ t) eqn:He; [|done].
    split_and!; [apply stable_called|done..|]. simpl. by apply prefix_app_r.
Qed.

Lemma framed_deliver d : relates transport_le (deliver d).
Proof.
  apply relates_update. intros t. destruct (rx_callback_ t) eqn:He; [|done].
  split_and!; [apply stable_called|done..|]. simpl. by apply prefix_app_r.
Qed.

Lemma framed_put key s : relates transport_le (put key s).
Proof. by apply relates_update. Qed.

Lemma framed_erase key : relates transport_le (update (fun t => with_sessions (delete key (sessions_ t)) t)).
Proof. by apply relates_update. Qed.

Hint Resolve framed_deliver framed_put framed_erase : steps.

Lemma framed_send bytes dest g : framed (send bytes dest g).
Proof. unfold framed, send, start_tx. relate. Qed.

Lemma framed_on_can_frame fr : framed (on_can_frame fr).
Proof.
  unfold framed, on_can_frame, handle_cm, handle_dt, start_rx_rts, handle_cts, start_rx_bam, complete_rx,
    handle_abort, accept_dt, reject_dt. relate.
Qed.

Lemma framed_tick order : framed (tick order).
Proof.
  unfold framed, tick. relate_step; [relate|].
  induction order as [|key order IH]; cbn [tick_loop]; [relate|].
  relate_step; [|done]. unfold tick_session. relate.
Qed.

End Framed.
