(* ===== verification/TransportRoundTrip.v ===== *)
(** * Messages arrive as they were sent

    The two transfers of the transport protocol, from [send] of one object to
    the delivery by another: the broadcast (BAM) and the transfer to one peer
    (RTS/CTS), for every message of 9 to 1778 bytes. *)

From Stdlib Require Import String.
From stdpp Require Import gmap list list_numbers.
From S2P Require Import Prelude J1939Type Canary Header HeaderFacts Name Frame Transport.
From S2P Require Import TransportFacts.

Notation len l := (Z.of_nat (length l)).

(** Every frame of a list goes to [on_can_frame]. *)
Fixpoint receive `{CanaryHeader} {E} `{!Bus E} (frs : list frame) : M (E := E) unit :=
  match frs with
  | [] => mret tt
  | fr :: frs => on_can_frame fr;; receive frs
  end.

Section Receiver.
Context `{CanaryLaws} {E : Type} `{!Bus E}.

Lemma receive_app frs frs' (t : transport E) :
  receive (frs ++ frs') t = (receive frs;; receive frs') t.
Proof.
  revert t. induction frs as [|fr frs IH]; intros t; cbn [receive app]; [done|].
  unfold mbind, M_bind. destruct (on_can_frame fr t) as [[[] t']|f]; [apply IH|done].
Qed.

(** ** Assembling *)

(** The session has received the first [k - 1] packets of [bytes]. *)
Definition assembled (bytes : list Z) (k : Z) (s : TpSession) : Prop :=
  next_seq s = k /\ total_packets s = packets (len bytes) /\
  length (buffer s) = length bytes /\
  take (Z.to_nat (7 * (k - 1))) (buffer s) = take (Z.to_nat (7 * (k - 1))) bytes.

(** The buffer after packet [k]. *)
Definition with_packet (bytes : list Z) (k : Z) (buf : list Z) : list Z :=
  take (Z.to_nat (7 * k)) bytes ++ drop (Z.to_nat (7 * k)) buf.

Lemma copy_packet bytes k s dst src (t : transport E) :
  0 < len bytes < 2 ^ 60 -> 1 <= k <= packets (len bytes) -> assembled bytes k s ->
  copy_n (payload (dt_frame dst src bytes k)) 1 (packet_avail (len (buffer s)) k)
    (buffer s) (packet_offset k) t = Ok (with_packet bytes k (buffer s), t).
Proof.
  intros Hn Hk (_ & _ & Hlen & Htake).
  pose proof (packets_bounds (len bytes) ltac:(lia)) as Hp.
  pose proof (length_chunk bytes k Hk ltac:(lia)) as Hc.
  rewrite packet_offset_eq, packet_avail_eq, Hlen by lia.
  rewrite copy_n_ok; [|simpl; rewrite length_app, length_replicate; unfold chunk_size in *; lia|
    unfold chunk_size; lia].
  do 3 f_equal. unfold with_packet. rewrite Htake, <- (take_chunk bytes k) by lia.
  rewrite <- (assoc_L app). f_equal.
  change (drop (Z.to_nat 1) _) with (chunk bytes k ++ replicate (7 - length (chunk bytes k)) 0).
  rewrite take_app_length' by lia. f_equal.
  destruct (decide (7 * k <= len bytes)).
  - f_equal. unfold chunk_size. lia.
  - rewrite !drop_ge; [done| |]; unfold chunk_size; lia.
Qed.

Lemma length_with_packet bytes k buf : 0 <= k -> length buf = length bytes ->
  length (with_packet bytes k buf) = length bytes.
Proof.
  intros Hk Hl. unfold with_packet. rewrite length_app, length_take, length_drop. lia.
Qed.

Lemma take_with_packet bytes k buf : length buf = length bytes ->
  take (Z.to_nat (7 * k)) (with_packet bytes k buf) = take (Z.to_nat (7 * k)) bytes.
Proof.
  intros Hl. unfold with_packet. destruct (decide (Z.to_nat (7 * k) <= length bytes)%nat).
  - rewrite take_app_length'; [done|]. rewrite length_take. lia.
  - rewrite (drop_ge buf) by lia. by rewrite app_nil_r, take_take, Nat.min_id.
Qed.

Lemma with_last_packet bytes buf : 0 < len bytes -> length buf = length bytes ->
  with_packet bytes (packets (len bytes)) buf = bytes.
Proof.
  intros Hn Hl. pose proof (packets_bounds (len bytes) Hn). unfold with_packet.
  rewrite take_ge, drop_ge by lia. apply app_nil_r.
Qed.

(** A data frame with the expected sequence number is accepted. *)
Lemma on_dt_frame dst src bytes k s (t : transport E) :
  is_uint 8 dst -> is_uint 8 src -> sessions_ t !! (src, dst) = Some s ->
  1 <= k <= total_packets s -> next_seq s = k ->
  on_can_frame (dt_frame dst src bytes k) t = accept_dt (src, dst) s k (dt_frame dst src bytes k) t.
Proof.
  intros Hd Hs Hm Hk Hnext.
  destruct (base_frame_header 0xEB dst src) as (Hpgn & Hps & Hsa & _); [lia|done..|].
  change (0xEB * 2 ^ 8) with PGN_TP_DT in *.
  unfold on_can_frame, dt_frame. cbn [header]. rewrite Hpgn. cbn [Z.eqb].
  change (PGN_TP_DT =? PGN_TP_CM) with false. rewrite Z.eqb_refl. cbv iota.
  unfold handle_dt. cbn [header]. rewrite Hps, Hsa. unfold make_key.
  erewrite bind_ok by (unfold find, gets; by rewrite Hm). unfold byte. cbn [payload nth].
  rewrite (proj2 (Z.ltb_ge k 1)), (proj2 (Z.ltb_ge (total_packets s) k)) by lia. simpl orb.
  rewrite Hnext, Z.ltb_irrefl, Z.eqb_refl. done.
Qed.

(** ** The packets of a message *)

(** The object is receiving [bytes] in windows of [w] packets and waits for packet [k]. *)
Definition receiving_in (w : Z) (isbam : bool) (dst src g : Z) (bytes : list Z) (k : Z)
    (t : transport E) : Prop :=
  rx_callback_ t = true /\
  exists s, sessions_ t !! (src, dst) = Some s /\ assembled bytes k s /\ spgn s = g /\
    bam s = isbam /\ dest_sa s = dst /\ src_sa s = src /\ window_size s = w.

(** The window of this library's own transfers, which no message exceeds. *)
Definition receiving : bool -> Z -> Z -> Z -> list Z -> Z -> transport E -> Prop := receiving_in 0xFF.

(** Nothing has been sent: the clock has been read and callbacks have been called. *)
Definition silent : relation E := rtc (fun e e' => e' = snd (steady_now e) \/ exists v, e' = owner_called v e).

Definition calm (t t' : transport E) : Prop :=
  silent (bus_ t) (bus_ t') /\ rx_callback_ t' = rx_callback_ t /\
  error_callback_ t' = error_callback_ t /\ events t' = events t.

Lemma calm_trans t t' t'' : calm t t' -> calm t' t'' -> calm t t''.
Proof.
  intros (A1 & A2 & A3 & A4) (B1 & B2 & B3 & B4).
  split_and!; [by etrans|congruence..].
Qed.

Lemma now_calm t : exists n t', now t = Ok (n, t') /\ calm t t' /\ sessions_ t' = sessions_ t.
Proof.
  unfold now. destruct (steady_now (bus_ t)) as [n e] eqn:Hs. do 2 eexists. split; [done|].
  split; [|done]. split_and!; [|done..]. simpl. apply rtc_once. left. by rewrite Hs.
Qed.

(** A packet that is not the last one is stored; at the end of a window the
    next one is cleared. *)
Lemma store_packet w isbam dst src g bytes k t :
  is_uint 8 dst -> is_uint 8 src -> 0 < len bytes <= 1785 -> 1 <= k < packets (len bytes) -> w <> 0 ->
  receiving_in w isbam dst src g bytes k t ->
  exists s t', on_can_frame (dt_frame dst src bytes k) t =
      (if (k mod w =? 0) && negb isbam then response_cts s else mret tt) t' /\
    receiving_in w isbam dst src g bytes (k + 1) t' /\ calm t t' /\
    spgn s = g /\ dest_sa s = dst /\ src_sa s = src /\ window_size s = w /\ next_seq s = k + 1.
Proof.
  intros Hd Hs Hn Hk Hw (Hrx & s & Hm & Has & Hg & Hb & Hds & Hss & Hwin).
  pose proof (packets_bounds (len bytes) ltac:(lia)) as Hp.
  pose proof Has as (Hnext & Htot & Hlen & Htake).
  rewrite (on_dt_frame dst src bytes k s) by (done || lia). unfold accept_dt.
  erewrite bind_ok by (apply copy_packet; [lia..|done]).
  destruct (now_calm t) as (n & t1 & E1 & C1 & M1). erewrite bind_ok by exact E1.
  erewrite bind_ok by reflexivity. cbn [total_packets window_size bam set_last_activity set_next_seq set_buffer].
  rewrite Htot, Hwin, Hb, (proj2 (Z.eqb_neq k _)), (proj2 (Z.eqb_neq w 0)) by lia.
  do 2 eexists. split; [reflexivity|]. rewrite wrap_small by (unfold is_uint; lia).
  destruct C1 as (B & R & X & V). split; [|by split_and!].
  split; [simpl; congruence|]. eexists. split; [apply lookup_insert_eq|].
  split; [|done]. unfold assembled. simpl. rewrite (length_with_packet bytes k) by (done || lia).
  split_and!; try done. replace (k + 1 - 1) with k by lia. by apply take_with_packet.
Qed.

Lemma middle_packet isbam dst src g bytes k t :
  is_uint 8 dst -> is_uint 8 src -> 0 < len bytes <= 1785 -> 1 <= k < packets (len bytes) ->
  receiving isbam dst src g bytes k t ->
  exists t', on_can_frame (dt_frame dst src bytes k) t = Ok (tt, t') /\
    receiving isbam dst src g bytes (k + 1) t' /\ calm t t'.
Proof.
  intros Hd Hs Hn Hk R. pose proof (packets_bounds (len bytes) ltac:(lia)).
  destruct (store_packet 0xFF isbam dst src g bytes k t) as (s & t' & E1 & R1 & C1 & _); [done..|].
  rewrite Z.mod_small, (proj2 (Z.eqb_neq k 0)) in E1 by lia. by exists t'.
Qed.

(** All packets but the last one. *)
Lemma middle_packets isbam dst src g bytes k t :
  is_uint 8 dst -> is_uint 8 src -> 0 < len bytes <= 1785 -> 1 <= k <= packets (len bytes) ->
  receiving isbam dst src g bytes k t ->
  exists t', receive (dt_frame dst src bytes <$> seqZ k (packets (len bytes) - k)) t = Ok (tt, t') /\
    receiving isbam dst src g bytes (packets (len bytes)) t' /\ calm t t'.
Proof.
  intros Hd Hs Hn. remember (Z.to_nat (packets (len bytes) - k)) as m eqn:Hm. revert k t Hm.
  induction m as [|m IH]; intros k t Hm Hk Hr.
  - replace k with (packets (len bytes)) in * by lia. rewrite Z.sub_diag.
    exists t. by split_and!.
  - destruct (middle_packet isbam dst src g bytes k t) as (t1 & E1 & R1 & C1); [done..|lia|done|].
    destruct (IH (k + 1) t1) as (t2 & E2 & R2 & C2); [lia..|done|].
    rewrite seqZ_cons, fmap_cons by lia. cbn [receive]. erewrite bind_ok by exact E1.
    replace (Z.pred (packets (len bytes) - k)) with (packets (len bytes) - (k + 1)) by lia.
    exists t2. split_and!; [exact E2|done|by eapply calm_trans].
Qed.

(** The header with which a message is delivered. *)
Definition delivered (isbam : bool) (dst src g : Z) (bytes : list Z) : frame_header :=
  let h := set_source_address src (set_pgn g frame_header_default) in
  set_payload_length (len bytes) (if isbam then h else set_pdu_specific dst h).

(** The last packet: the message is delivered, then the session is finished. *)
Lemma last_packet w isbam dst src g bytes t :
  is_uint 8 dst -> is_uint 8 src -> 0 < len bytes <= 1785 ->
  receiving_in w isbam dst src g bytes (packets (len bytes)) t ->
  exists s t', 
    on_can_frame (dt_frame dst src bytes (packets (len bytes))) t =
      (if negb isbam then _ ← send_eom_ack s; mret tt else put (src, dst) (set_state Completed s)) t' /\
    bam s = isbam /\ dest_sa s = dst /\ src_sa s = src /\
    silent (bus_ t) (bus_ t') /\ error_callback_ t' = error_callback_ t /\
    events t' = events t ++ [ev_data (Data (delivered isbam dst src g bytes) bytes)].
Proof.
  intros Hd Hs Hn (Hrx & s & Hm & Has & Hg & Hb & Hds & Hss & Hwin).
  pose proof (packets_bounds (len bytes) ltac:(lia)) as Hp.
  pose proof Has as (Hnext & Htot & Hlen & Htake).
  rewrite (on_dt_frame dst src bytes _ s) by (done || lia). unfold accept_dt.
  erewrite bind_ok by (apply copy_packet; [lia..|done]).
  destruct (now_calm t) as (n & t1 & E1 & (C1 & C2 & C3 & C4) & M1). erewrite bind_ok by exact E1.
  erewrite bind_ok by reflexivity. cbn [total_packets bam set_last_activity set_next_seq set_buffer].
  rewrite Htot, Z.eqb_refl, (with_last_packet bytes) by (done || lia). rewrite Hb.
  erewrite bind_ok by reflexivity.
  do 2 eexists. split; [reflexivity|]. cbn [bam dest_sa src_sa set_last_activity set_next_seq set_buffer].
  split_and!; try done; cbn [rx_callback_ with_sessions]; rewrite C2, Hrx; simpl;
    [etrans; [exact C1|apply rtc_once; right; by eexists]|done|].
  rewrite C4. do 3 f_equal. unfold delivery_header, delivered. simpl. rewrite Hb, Hg, Hss, Hds.
  by destruct isbam.
Qed.

(** ** The announcement of a broadcast *)

(** A connection management frame. *)
Definition cm_frame (ctrl : Control) (dst src g n window : Z) : frame :=
  Frame (header (make_base_frame PGN_TP_CM dst src))
    [to_byte ctrl; n .& 0xFF; u8 (n .>> 8); packets n; window;
     g .& 0xFF; (g .>> 8) .& 0xFF; (g .>> 16) .& 0xFF].

Lemma fill_cm_frame ctrl dst src s :
  total_packets s = packets (length_ s) ->
  fill_tp_payload s (make_cm_frame ctrl dst src) =
    cm_frame ctrl dst src (spgn s) (length_ s) (window_size s).
Proof. intros Ht. unfold cm_frame. by rewrite <- Ht. Qed.

Lemma land_byte x : x .& 0xFF = u8 x.
Proof. change 0xFF with (Z.ones 8). by apply Z.land_ones. Qed.

Lemma cm_frame_size ctrl dst src g n w : is_uint 16 n -> payload_size (cm_frame ctrl dst src g n w) = n.
Proof.
  intros Hn. unfold payload_size, byte. cbn [payload cm_frame nth].
  rewrite land_byte, u8_shiftr, u8_id, (fget_join_low 8 8), fget_all by (done || lia).
  by apply wrap_small.
Qed.

Lemma cm_frame_pgn ctrl dst src g n w : is_uint 24 g -> get_payload_pgn (cm_frame ctrl dst src g n w) = g.
Proof.
  intros Hg. unfold get_payload_pgn, byte. cbn [payload cm_frame nth].
  rewrite !land_byte, !u8_shiftr, u8_id, (fget_join_low 8 8), (fget_join_low 16 8) by lia.
  by apply fget_all.
Qed.

(** The dispatch of a connection management frame. *)
Lemma on_cm_frame ctrl dst src g n w (t : transport E) :
  is_uint 8 dst -> is_uint 8 src ->
  let fr := cm_frame ctrl dst src g n w in
  on_can_frame fr t =
    match ctrl with
    | RTS => start_rx_rts fr | CTS => handle_cts fr | EOM => complete_rx fr
    | BAM => start_rx_bam fr | ABORT => handle_abort fr
    end t.
Proof.
  intros Hd Hs fr. destruct (base_frame_header 0xEC dst src) as (Hpgn & _); [lia|done..|].
  change (0xEC * 2 ^ 8) with PGN_TP_CM in *.
  unfold on_can_frame. replace (pgn (header fr)) with PGN_TP_CM by (symmetry; exact Hpgn).
  rewrite Z.eqb_refl. by destruct ctrl.
Qed.

Lemma cm_frame_header ctrl dst src g n w : is_uint 8 dst -> is_uint 8 src ->
  let h := header (cm_frame ctrl dst src g n w) in
  pdu_specific h = dst /\ source_address h = src /\ is_broadcast h = false.
Proof. intros Hd Hs. destruct (base_frame_header 0xEC dst src) as (_ & ?); [lia|done..]. Qed.

(** The frames of a broadcast. *)
Definition bam_frames (src g : Z) (bytes : list Z) : list frame :=
  cm_frame BAM 0xFF src g (len bytes) 0xFF ::
  (dt_frame 0xFF src bytes <$> seqZ 1 (packets (len bytes))).

Lemma packets_snoc bytes dst src : 0 < len bytes ->
  dt_frame dst src bytes <$> seqZ 1 (packets (len bytes)) =
    (dt_frame dst src bytes <$> seqZ 1 (packets (len bytes) - 1)) ++
    [dt_frame dst src bytes (packets (len bytes))].
Proof.
  intros Hn. pose proof (packets_bounds (len bytes) Hn).
  replace (packets (len bytes)) with (packets (len bytes) - 1 + 1) at 1 by lia.
  rewrite seqZ_app, fmap_app by lia.
  replace (1 + (packets (len bytes) - 1)) with (packets (len bytes)) by lia. done.
Qed.

Lemma fresh_assembled bytes s :
  next_seq s = 1 -> total_packets s = packets (len bytes) ->
  buffer s = replicate (length bytes) 0 -> assembled bytes 1 s.
Proof. intros H1 H2 H3. unfold assembled. rewrite H3, length_replicate. by split_and!. Qed.

Lemma on_bam_announcement src g bytes t :
  is_uint 8 src -> is_uint 24 g -> 0 < len bytes <= 1785 -> rx_callback_ t = true ->
  exists t', on_can_frame (cm_frame BAM 0xFF src g (len bytes) 0xFF) t = Ok (tt, t') /\
    receiving true 0xFF src g bytes 1 t' /\ calm t t'.
Proof.
  intros Hs Hg Hn Hrx. rewrite on_cm_frame by done. unfold start_rx_bam.
  destruct (now_calm t) as (n & t1 & E1 & (C1 & C2 & C3 & C4) & M1). erewrite bind_ok by exact E1.
  destruct (cm_frame_header BAM 0xFF src g (len bytes) 0xFF) as (_ & Hsa & _); [done..|].
  rewrite cm_frame_size, cm_frame_pgn, Hsa by (unfold is_uint in *; lia).
  eexists. split; [reflexivity|]. split; [|by split_and!]. split; [simpl; congruence|].
  eexists. split; [apply lookup_insert_eq|]. split; [|done].
  apply fresh_assembled; try done. simpl. by rewrite Nat2Z.id.
Qed.

(** A whole broadcast. *)
Lemma receive_bam src g bytes t :
  is_uint 8 src -> is_uint 24 g -> 0 < len bytes <= 1785 -> rx_callback_ t = true ->
  exists t', receive (bam_frames src g bytes) t = Ok (tt, t') /\
    events t' = events t ++ [ev_data (Data (delivered true 0xFF src g bytes) bytes)].
Proof.
  intros Hs Hg Hn Hrx. unfold bam_frames. rewrite packets_snoc by lia. cbn [receive].
  destruct (on_bam_announcement src g bytes t) as (t1 & E1 & R1 & C1); [done..|].
  erewrite bind_ok by exact E1. rewrite receive_app. pose proof (packets_bounds (len bytes) ltac:(lia)).
  destruct (middle_packets true 0xFF src g bytes 1 t1) as (t2 & E2 & R2 & C2); [done..|lia|done|].
  erewrite bind_ok by exact E2. cbn [receive].
  destruct (last_packet 0xFF true 0xFF src g bytes t2) as (s & t3 & E3 & _ & _ & _ & _ & _ & V3); [done..|].
  erewrite bind_ok by (rewrite E3; reflexivity). eexists. split; [reflexivity|]. simpl. rewrite V3.
  destruct C1 as (_ & _ & _ & V1), C2 as (_ & _ & _ & V2). by rewrite V2, V1.
Qed.

End Receiver.

(** ** Sending a broadcast *)

Section Sender.
Context `{CanaryLaws} {E : Type} `{!Bus E} `{!ReliableBus}.

(** The session that [start_tx] creates. *)
Definition tx_session (bytes : list Z) (dest own g n : Z) : TpSession :=
  Session Tx bytes (packets (len bytes)) 1 (len bytes) 0xFF dest own g (dest =? 0xFF) n InProgress.

Lemma packets_1778 n : 0 < n <= 1778 -> 1 <= packets n <= 254.
Proof. intros. unfold packets. Z.div_mod_to_equations. lia. Qed.



(** The frame that [send_eom_ack] sends, with source and destination of the session swapped. *)
Definition eom_frame (s : TpSession) : frame :=
  cm_frame EOM (src_sa s) (dest_sa s) (spgn s) (length_ s) 0xFF.

Lemma send_eom_ack_ok s t : total_packets s = packets (length_ s) ->
  exists t', send_eom_ack s t = Ok (true, t') /\ sends (if bam s then [] else [eom_frame s]) t t'.
Proof.
  intros Ht. unfold send_eom_ack. destruct (bam s).
  - exists t. split; [done|apply sends_nil].
  - rewrite fill_cm_frame by done. destruct (send_frame_ok (eom_frame s) t) as (t1 & E1 & S1).
    exists t1. split; [|done]. by erewrite bind_ok by exact E1.
Qed.

(** A window that reaches the last packet. *)
Lemma send_data_packets_ok s t :
  0 < len (buffer s) <= 1778 -> length_ s = len (buffer s) -> total_packets s = packets (len (buffer s)) ->
  1 <= next_seq s <= total_packets s -> total_packets s < next_seq s + window_size s ->
  exists n t',
    send_data_packets s t =
      Ok ((true, set_state Completed (set_next_seq (total_packets s + 1) (set_last_activity n s))), t') /\
    sends ((dt_frame (dest_sa s) (src_sa s) (buffer s) <$>
              seqZ (next_seq s) (packets (len (buffer s)) + 1 - next_seq s)) ++
           (if bam s then [] else [eom_frame s])) t t'.
Proof.
  intros Hn Hlen Htot Hnext Hwin. pose proof (packets_1778 _ Hn) as Hp. unfold send_data_packets.
  destruct (send_data_loop_ok (Z.to_nat (window_size s)) s t) as (n & t1 & E1 & S1); [lia..|].
  erewrite bind_ok by exact E1. cbn [negb total_packets next_seq set_next_seq set_last_activity].
  rewrite (proj2 (Z.ltb_lt _ _)) by lia.
  destruct (send_eom_ack_ok (set_next_seq (total_packets s + 1) (set_last_activity n s)) t1)
    as (t2 & E2 & S2); [simpl; congruence|].
  erewrite bind_ok by exact E2. exists n, t2. split; [reflexivity|].
  rewrite Htot in S1. exact (sends_app _ _ _ _ _ S1 S2).
Qed.

(** The session is created and handed to the first step of the transfer. *)
Lemma start_tx_session bytes dest g t : 8 < len bytes <= 1785 ->
  let own := bus_source_address (bus_ t) in
  exists n t', sends [] t t' /\
    send bytes dest g t =
      on_session (own, dest) (tx_session bytes dest own g n)
        (if dest =? 0xFF then send_bam_start else send_rts)
        (with_sessions (<[(own, dest) := tx_session bytes dest own g n]> (sessions_ t')) t').
Proof.
  intros Hn own. destruct (now_ok t) as (n & t1 & E1 & S1). exists n, t1. split; [done|].
  unfold send, start_tx. rewrite (proj2 (Z.leb_gt _ _)), (proj2 (Z.ltb_ge _ _)) by lia.
  erewrite bind_ok by reflexivity. erewrite bind_ok by exact E1.
  rewrite (wrap_small 16), (wrap_small 8) by (unfold is_uint; Z.div_mod_to_equations; lia).
  erewrite bind_ok by reflexivity. unfold tx_session. by destruct (dest =? 0xFF).
Qed.

Lemma send_bam_ok bytes g t : 8 < len bytes <= 1778 ->
  let own := bus_source_address (bus_ t) in
  exists s t', send bytes 0xFF g t = Ok (true, t') /\
    sent (bus_ t') = sent (bus_ t) ++ bam_frames own g bytes /\
    sessions_ t' !! (own, 0xFF) = Some s /\ state s = Completed /\ events t' = events t.
Proof.
  intros Hn own. destruct (start_tx_session bytes 0xFF g t) as (n & t0 & S0 & E0); [lia|].
  fold own in E0. rewrite E0. clear E0. change (0xFF =? 0xFF) with true. cbv iota.
  set (s := tx_session bytes 0xFF own g n). set (t1 := with_sessions _ t0).
  destruct (send_frame_ok (cm_frame BAM 0xFF own g (len bytes) 0xFF) t1) as (t2 & E2 & S2).
  destruct (now_ok t2) as (n' & t3 & E3 & S3).
  pose proof (packets_1778 (len bytes) ltac:(lia)).
  destruct (send_data_packets_ok (set_last_activity n' s) t3) as (n'' & t4 & E4 & S4); [simpl; (lia || done)..|].
  replace (packets _ + 1 - _) with (packets (len bytes)) in S4 by (simpl; lia).
  assert (Hstart : send_bam_start s t1 = send_data_packets (set_last_activity n' s) t3).
  { unfold send_bam_start. rewrite fill_cm_frame by done. erewrite bind_ok by exact E2.
    cbn [negb]. by erewrite bind_ok by exact E3. }
  rewrite E4 in Hstart. eexists _, _. split.
  { unfold on_session. erewrite bind_ok by exact Hstart. reflexivity. }
  destruct S0 as (A0 & _ & _ & _ & _ & V0), S2 as (A2 & _ & _ & _ & _ & V2),
    S3 as (A3 & _ & _ & _ & _ & V3), S4 as (A4 & _ & _ & _ & _ & V4).
  cbn [bus_ sessions_ events with_sessions]. rewrite lookup_insert_eq. split_and!; [|done..|].
  - rewrite A4, A3, A2. simpl. rewrite A0, !app_nil_r, <- (assoc_L app). done.
  - rewrite V4, V3, V2. exact V0.
Qed.

End Sender.

Section Broadcast.
Context `{CanaryLaws} {E E' : Type} `{!Bus E} `{!Bus E'} `{!ReliableBus (E := E)}.

(** C10.  A broadcast arrives as it was sent: for every message of 9 to 1778 bytes,
    [send] to the global address succeeds and leaves a completed session, and
    any other object that gets the sent frames in order delivers exactly the
    message, once, with the PGN and the source address of the sender. *)
Theorem bam_round_trip bytes g (t : transport E) (r : transport E') :
  9 <= len bytes <= 1778 -> is_uint 18 g -> (240 <= fget 8 8 g \/ fget 0 8 g = 0) ->
  is_uint 8 (bus_source_address (bus_ t)) -> rx_callback_ r = true ->
  exists t' frs r' h,
    send bytes 0xFF g t = Ok (true, t') /\ sent (bus_ t') = sent (bus_ t) ++ frs /\
    len frs = 1 + packets (len bytes) /\
    receive frs r = Ok (tt, r') /\ events r' = events r ++ [ev_data (Data h bytes)] /\
    pgn h = g /\ source_address h = bus_source_address (bus_ t).
Proof.
  intros Hn Hg Hps Hown Hrx. pose proof (packets_1778 (len bytes) ltac:(lia)) as Hp.
  destruct (send_bam_ok bytes g t) as (s & t' & E1 & S1 & _); [lia|].
  destruct (receive_bam (bus_source_address (bus_ t)) g bytes r) as (r' & E2 & V2);
    [done|by apply (is_uint_mono 18)|lia|done|].
  destruct (broadcast_delivery_header g (bus_source_address (bus_ t)) (len bytes)) as [Hpgn Hsa]; [done..|].
  eexists t', _, r', _. split_and!; [exact E1|exact S1| |exact E2|exact V2|exact Hpgn|exact Hsa].
  unfold bam_frames. simpl. rewrite length_fmap, length_seqZ. lia.
Qed.

End Broadcast.

(** ** The transfer to one peer *)

Section Peer.
Context `{CanaryLaws} {E : Type} `{!Bus E} `{!ReliableBus}.

Lemma silent_reliable e e' : silent e e' ->
  sent e' = sent e /\ bus_source_address e' = bus_source_address e.
Proof.
  induction 1 as [|e e1 e2 [-> |[v ->]] _ [IH1 IH2]]; [done|..]; rewrite IH1, IH2;
    by rewrite ?now_records, ?now_address, ?called_records, ?called_address.
Qed.

(** The receiver's answer to a request to send. *)
Definition cts_frame (dst src g window next : Z) : frame :=
  Frame (header (make_base_frame PGN_TP_CM dst src))
    [to_byte CTS; window; next; 0; 0; g .& 0xFF; (g .>> 8) .& 0xFF; (g .>> 16) .& 0xFF].

Lemma response_cts_ok s t : exists t', response_cts s t = Ok (tt, t') /\
  sends [cts_frame (src_sa s) (dest_sa s) (spgn s) (window_size s) (next_seq s)] t t'.
Proof.
  destruct (send_frame_ok (cts_frame (src_sa s) (dest_sa s) (spgn s) (window_size s) (next_seq s)) t)
    as (t' & E1 & S1).
  exists t'. split; [|done]. unfold response_cts. by erewrite bind_ok by exact E1.
Qed.

Lemma on_rts_frame w a g bytes t :
  let b := bus_source_address (bus_ t) in
  is_uint 8 a -> is_uint 8 b -> is_uint 24 g -> 0 < len bytes <= 1785 -> rx_callback_ t = true ->
  exists t', on_can_frame (cm_frame RTS b a g (len bytes) w) t = Ok (tt, t') /\
    receiving_in w false b a g bytes 1 t' /\
    sent (bus_ t') = sent (bus_ t) ++ [cts_frame a b g w 1] /\
    bus_source_address (bus_ t') = b /\ events t' = events t.
Proof.
  intros b Ha Hb Hg Hn Hrx. rewrite on_cm_frame by done. unfold start_rx_rts.
  destruct (cm_frame_header RTS b a g (len bytes) w) as (Hps & Hsa & Hbr); [done..|].
  erewrite bind_ok by reflexivity. fold b. rewrite Hps, Z.eqb_refl. cbn [negb].
  destruct (now_ok t) as (n & t1 & E1 & (A1 & B1 & R1 & X1 & M1 & V1)). erewrite bind_ok by exact E1.
  rewrite cm_frame_size, cm_frame_pgn, Hbr, Hsa by (unfold is_uint in *; lia).
  erewrite bind_ok by reflexivity.
  set (s := Session _ _ _ _ _ _ _ _ _ _ _ _). set (t2 := with_sessions _ t1).
  destruct (response_cts_ok s t2) as (t3 & E3 & (A3 & B3 & R3 & X3 & M3 & V3)).
  exists t3. split; [exact E3|].
  split; [|split_and!; [rewrite A3; simpl; by rewrite A1, app_nil_r|by rewrite B3|by rewrite V3]].
  split; [rewrite R3; simpl; congruence|]. exists s. rewrite M3. split; [apply lookup_insert_eq|].
  split; [|done]. apply fresh_assembled; try done. simpl. by rewrite Nat2Z.id.
Qed.

Lemma send_rts_ok bytes b g t : 8 < len bytes <= 1778 -> b <> 0xFF ->
  let a := bus_source_address (bus_ t) in
  exists n t', send bytes b g t = Ok (true, t') /\
    sent (bus_ t') = sent (bus_ t) ++ [cm_frame RTS b a g (len bytes) 0xFF] /\
    bus_source_address (bus_ t') = a /\ events t' = events t /\
    sessions_ t' !! (a, b) = Some (tx_session bytes b a g n).
Proof.
  intros Hn Hb a. destruct (start_tx_session bytes b g t) as (n & t0 & S0 & E0); [lia|].
  fold a in E0. rewrite E0. clear E0. rewrite (proj2 (Z.eqb_neq b 0xFF) Hb).
  set (s := tx_session bytes b a g n). set (t1 := with_sessions _ t0).
  destruct (send_frame_ok (cm_frame RTS b a g (len bytes) 0xFF) t1) as (t2 & E2 & (A2 & B2 & _ & _ & M2 & V2)).
  destruct (now_ok t2) as (n' & t3 & E3 & (A3 & B3 & _ & _ & M3 & V3)).
  destruct S0 as (A0 & B0 & _ & _ & M0 & V0).
  assert (Hstart : send_rts s t1 = Ok ((true, set_last_activity n' s), t3)).
  { unfold send_rts. rewrite fill_cm_frame by done. erewrite bind_ok by exact E2.
    cbn [negb]. by erewrite bind_ok by exact E3. }
  eexists n', _. split; [unfold on_session; erewrite bind_ok by exact Hstart; reflexivity|].
  cbn [bus_ sessions_ events with_sessions]. rewrite lookup_insert_eq. split_and!; [| | |done].
  - rewrite A3, A2. simpl. by rewrite A0, !app_nil_r.
  - rewrite B3, B2. simpl. by rewrite B0.
  - rewrite V3, V2. exact V0.
Qed.

(** A clear to send from a peer with a session goes to [send_data_packets]. *)
Lemma on_cts_session b g w k s t :
  let a := bus_source_address (bus_ t) in
  is_uint 8 a -> is_uint 8 b -> sessions_ t !! (a, b) = Some s ->
  on_can_frame (cts_frame a b g w k) t =
    (_ ← on_session (a, b) (set_next_seq k (set_window_size w s)) send_data_packets; mret tt) t.
Proof.
  intros a Ha Hb Hm. set (cts := cts_frame a b g w k).
  destruct (base_frame_header 0xEC a b) as (Hpgn & _ & Hsa & _); [lia|done..|].
  change (0xEC * 2 ^ 8) with PGN_TP_CM in *.
  unfold on_can_frame. replace (pgn (header cts)) with PGN_TP_CM by (symmetry; exact Hpgn).
  rewrite Z.eqb_refl. change (handle_cm cts) with (handle_cts cts).
  unfold handle_cts. erewrite bind_ok by reflexivity.
  replace (source_address (header cts)) with b by (symmetry; exact Hsa).
  fold a. unfold make_key. by erewrite bind_ok by (unfold find, gets; by rewrite Hm).
Qed.

(** The session sends [bytes] from [a] to [b]. *)
Definition offers (a b g : Z) (bytes : list Z) (s : TpSession) : Prop :=
  buffer s = bytes /\ length_ s = len bytes /\ total_packets s = packets (len bytes) /\
  dest_sa s = b /\ src_sa s = a /\ spgn s = g /\ bam s = false.

(** The object has an unfinished session that sends [bytes] to [b]. *)
Definition sending (a b g : Z) (bytes : list Z) (t : transport E) : Prop :=
  bus_source_address (bus_ t) = a /\
  exists s, sessions_ t !! (a, b) = Some s /\ offers a b g bytes s /\ state s = InProgress.

Lemma tx_session_sending bytes a b g n t : b <> 0xFF -> bus_source_address (bus_ t) = a ->
  sessions_ t !! (a, b) = Some (tx_session bytes b a g n) -> sending a b g bytes t.
Proof.
  intros Hb Ha Hm. split; [done|]. eexists. split; [exact Hm|]. split; [|done].
  split_and!; try done. by apply Z.eqb_neq.
Qed.

(** A clear to send whose window reaches the last packet; the state of the session
    is not looked at. *)
Lemma on_last_grant a b g bytes w k s0 t :
  is_uint 8 a -> is_uint 8 b -> 0 < len bytes <= 1778 -> 1 <= k <= packets (len bytes) ->
  packets (len bytes) < k + w -> bus_source_address (bus_ t) = a ->
  sessions_ t !! (a, b) = Some s0 -> offers a b g bytes s0 ->
  exists s t', on_can_frame (cts_frame a b g w k) t = Ok (tt, t') /\
    sent (bus_ t') = sent (bus_ t) ++
      (dt_frame b a bytes <$> seqZ k (packets (len bytes) + 1 - k)) ++ [cm_frame EOM a b g (len bytes) 0xFF] /\
    events t' = events t /\ sessions_ t' !! (a, b) = Some s /\ state s = Completed.
Proof.
  intros Ha Hb Hn Hk Hw Hown Hm (Hbuf & Hlen & Htot & Hds & Hss & Hg & Hbam).
  subst a. rewrite (on_cts_session b g w k s0 t) by done. set (s1 := set_next_seq _ _).
  destruct (send_data_packets_ok s1 t) as (n' & t1 & E1 & (A1 & _ & _ & _ & _ & V1));
    [simpl; rewrite ?Hbuf; (lia || done)..|].
  eexists _, _. split.
  { erewrite bind_ok; [reflexivity|]. unfold on_session. erewrite bind_ok by exact E1. reflexivity. }
  cbn [bus_ sessions_ events with_sessions]. rewrite lookup_insert_eq. split_and!; [|done..].
  rewrite A1. unfold eom_frame. simpl. by rewrite Hbuf, Hds, Hss, Hbam, Hg, Hlen.
Qed.

(** The clear to send of this library: the sender sends all packets. *)
Lemma on_cts_frame bytes b g n t :
  let a := bus_source_address (bus_ t) in
  is_uint 8 a -> is_uint 8 b -> b <> 0xFF -> 0 < len bytes <= 1778 ->
  sessions_ t !! (a, b) = Some (tx_session bytes b a g n) ->
  exists s t', on_can_frame (cts_frame a b g 0xFF 1) t = Ok (tt, t') /\
    sent (bus_ t') = sent (bus_ t) ++ (dt_frame b a bytes <$> seqZ 1 (packets (len bytes))) ++
      [cm_frame EOM a b g (len bytes) 0xFF] /\
    events t' = events t /\ sessions_ t' !! (a, b) = Some s /\ state s = Completed.
Proof.
  intros a Ha Hb Hne Hn Hm. pose proof (packets_1778 _ Hn).
  destruct (tx_session_sending bytes a b g n t) as (_ & s0 & Hm0 & Ho & _); [done..|].
  destruct (on_last_grant a b g bytes 0xFF 1 s0 t) as (s & t' & E1 & A1 & R1); [done || lia..|].
  replace (packets (len bytes) + 1 - 1) with (packets (len bytes)) in A1 by lia. by exists s, t'.
Qed.

(** An end-of-message acknowledgement from [b] to [a]. *)
Definition is_ack (fr : frame) (a b : Z) : Prop :=
  pgn (header fr) = PGN_TP_CM /\ byte 0 fr = to_byte EOM /\
  pdu_specific (header fr) = a /\ source_address (header fr) = b.

Lemma send_eom_ack_sent s t : bam s = false -> is_uint 8 (src_sa s) -> is_uint 8 (dest_sa s) ->
  exists ack t', send_eom_ack s t = Ok (true, t') /\ sends [ack] t t' /\ is_ack ack (src_sa s) (dest_sa s).
Proof.
  intros Hbam Ha Hb. unfold send_eom_ack. rewrite Hbam. set (ack := set_byte 4 0xFF _).
  destruct (send_frame_ok ack t) as (t1 & E1 & S1). exists ack, t1.
  split; [by erewrite bind_ok by exact E1|]. split; [done|].
  destruct (base_frame_header 0xEC (src_sa s) (dest_sa s)) as (Hpgn & Hps & Hsa & _); [lia|done..].
Qed.

(** The packets to a peer. *)
Lemma receive_packets a b g bytes t :
  is_uint 8 a -> is_uint 8 b -> 0 < len bytes <= 1778 -> receiving false b a g bytes 1 t ->
  exists ack t', receive (dt_frame b a bytes <$> seqZ 1 (packets (len bytes))) t = Ok (tt, t') /\
    sent (bus_ t') = sent (bus_ t) ++ [ack] /\ is_ack ack a b /\
    events t' = events t ++ [ev_data (Data (delivered false b a g bytes) bytes)].
Proof.
  intros Ha Hb Hn R0. rewrite packets_snoc, receive_app by lia.
  pose proof (packets_bounds (len bytes) ltac:(lia)).
  destruct (middle_packets false b a g bytes 1 t) as (t1 & E1 & R1 & (C1 & _ & _ & V1)); [done..|lia|lia|done|].
  erewrite bind_ok by exact E1. cbn [receive].
  destruct (last_packet 0xFF false b a g bytes t1) as (s & t2 & E2 & Hbam & Hd & Hs & C2 & _ & V2); [done..|lia|done|].
  destruct (send_eom_ack_sent s t2) as (ack & t3 & E3 & (A3 & _ & _ & _ & _ & V3) & K3); [congruence..|].
  exists ack, t3. rewrite Hd, Hs in K3.
  destruct (silent_reliable _ _ C1) as [S1 _], (silent_reliable _ _ C2) as [S2 _].
  split_and!; [| |done|].
  - erewrite bind_ok; [reflexivity|]. rewrite E2. cbn [negb]. by erewrite bind_ok by exact E3.
  - by rewrite A3, S2, S1.
  - by rewrite V3, V2, V1.
Qed.

(** The header of a message delivered to a peer. *)
Lemma peer_delivery_header a b g bytes : is_uint 8 a -> is_uint 8 b ->
  let h := delivered false b a g bytes in
  source_address h = a /\ pdu_specific h = b /\ pdu_format h = fget 8 8 g.
Proof.
  intros Ha Hb h. pose proof default_flags as F0.
  pose proof (set_id_flags _ _ F0 : j1939_flags (set_pgn g _)) as F1.
  pose proof (set_id_flags _ _ F1 : j1939_flags (set_source_address a _)) as F2.
  assert (Hid : id h = fset 29 8 8 (fset 29 0 8 (fset 29 8 18 0 (wrap 18 g)) a) b).
  { unfold h, delivered. rewrite id_set_payload_length, id_set_pdu_specific by done.
    rewrite id_set_source_address by done. by rewrite id_set_pgn, id_default. }
  rewrite source_address_field, pdu_specific_field, pdu_format_field, Hid. split_and!.
  - rewrite fget_fset_other, fget_fset_same by lia. by apply wrap_small.
  - rewrite fget_fset_same by lia. by apply wrap_small.
  - rewrite !fget_fset_other by lia. by apply (fget_fset_inner 16 8).
Qed.

(** A message to a peer arrives as it was sent: for every message of 9 to 1778
    bytes and two objects with addresses [a] and [b], the request to send, the
    clear to send and the data packets lead to exactly one delivery of the
    message at [b], acknowledged to [a], and to a completed session at [a]. *)
Theorem rts_cts_round_trip bytes g (ta tb : transport E) :
  let a := bus_source_address (bus_ ta) in
  let b := bus_source_address (bus_ tb) in
  9 <= len bytes <= 1778 -> is_uint 24 g -> is_uint 8 a -> is_uint 8 b -> b <> 0xFF ->
  rx_callback_ tb = true ->
  exists ta1 rts tb1 cts ta2 dts eom s tb2 ack h,
    send bytes b g ta = Ok (true, ta1) /\ sent (bus_ ta1) = sent (bus_ ta) ++ [rts] /\
    receive [rts] tb = Ok (tt, tb1) /\ sent (bus_ tb1) = sent (bus_ tb) ++ [cts] /\
    receive [cts] ta1 = Ok (tt, ta2) /\ sent (bus_ ta2) = sent (bus_ ta1) ++ dts ++ [eom] /\
    sessions_ ta2 !! (a, b) = Some s /\ state s = Completed /\
    receive dts tb1 = Ok (tt, tb2) /\ sent (bus_ tb2) = sent (bus_ tb1) ++ [ack] /\ is_ack ack a b /\
    events tb2 = events tb ++ [ev_data (Data h bytes)] /\
    source_address h = a /\ pdu_specific h = b /\ pdu_format h = fget 8 8 g.
Proof.
  intros a b Hn Hg Ha Hb Hne Hrx.
  destruct (send_rts_ok bytes b g ta) as (n & ta1 & E1 & A1 & B1 & V1 & M1); [lia|done|]. fold a in A1, B1, M1.
  destruct (on_rts_frame 0xFF a g bytes tb) as (tb1 & E2 & R2 & A2 & B2 & V2); [done..|lia|done|]. fold b in E2, R2, A2, B2.
  destruct (on_cts_frame bytes b g n ta1) as (s & ta2 & E3 & A3 & V3 & M3 & K3);
    [by rewrite ?B1|done|done|lia|by rewrite ?B1|]. rewrite B1 in E3, A3, M3.
  destruct (receive_packets a b g bytes tb1) as (ack & tb2 & E4 & A4 & K4 & V4); [done..|lia|done|].
  destruct (peer_delivery_header a b g bytes) as (D1 & D2 & D3); [done..|].
  eexists ta1, _, tb1, _, ta2, _, _, s, tb2, ack, _.
  split_and!; [exact E1|exact A1| |exact A2| |exact A3|exact M3|exact K3|exact E4|exact A4|exact K4| |exact D1|exact D2|exact D3].
  - cbn [receive]. by erewrite bind_ok by exact E2.
  - cbn [receive]. by erewrite bind_ok by exact E3.
  - by rewrite V4, V2.
Qed.

End Peer.
