(* ===== verification/TransportWindows.v ===== *)
(** * Transfers in windows

    A peer need not clear a whole message at once.  The sender follows every
    sequence of windows the peer grants, and the receiver clears a message
    window by window, in windows of the size the peer has asked for. *)

From stdpp Require Import gmap list list_numbers.
From S2P Require Import Prelude J1939Type Canary Header HeaderFacts Name Frame Transport.
From S2P Require Import TransportFacts TransportRoundTrip.

Section Sender.
Context `{CanaryLaws} {E : Type} `{!Bus E} `{!ReliableBus}.

(** The clears that grant the windows [ws], from packet [k] on. *)
Fixpoint grants (a b g k : Z) (ws : list Z) : list frame :=
  match ws with
  | [] => []
  | w :: ws => cts_frame a b g w k :: grants a b g (k + w) ws
  end.

(** The number of packets that the windows grant. *)
Definition granted (ws : list Z) : Z := foldr Z.add 0 ws.

Lemma granted_nonneg ws : Forall (fun v => 0 <= v) ws -> 0 <= granted ws.
Proof. induction 1; simpl; lia. Qed.

Lemma granted_snoc ws w : granted (ws ++ [w]) = granted ws + w.
Proof. unfold granted. induction ws; simpl; lia. Qed.

(** The packets of a window that ends before the last packet. *)
Lemma send_window s t :
  0 < len (buffer s) < 2 ^ 60 -> total_packets s = packets (len (buffer s)) -> total_packets s <= 254 ->
  1 <= next_seq s -> 0 <= window_size s -> next_seq s + window_size s <= total_packets s ->
  exists n t', send_data_packets s t =
      Ok ((false, set_next_seq (next_seq s + window_size s) (set_last_activity n s)), t') /\
    sends (dt_frame (dest_sa s) (src_sa s) (buffer s) <$> seqZ (next_seq s) (window_size s)) t t'.
Proof.
  intros Hn Htot Hmax Hk Hw Hle.
  destruct (send_data_loop_prefix (Z.to_nat (window_size s)) 0 s t) as (n & t1 & E1 & S1); [lia..|].
  rewrite Nat.add_0_r, Z2Nat.id in * by lia. exists n, t1. split; [|done].
  unfold send_data_packets. set (s1 := set_next_seq _ _) in *.
  assert (Hend : send_data_loop 0 s1 t1 = Ok ((true, s1), t1))
    by (cbn [send_data_loop]; by destruct (_ <=? _)).
  erewrite bind_ok by (rewrite E1; exact Hend). cbn [negb].
  by rewrite (proj2 (Z.ltb_ge (total_packets s1) (next_seq s1))) by (simpl; lia).
Qed.

(** The clear to send of such a window. *)
Lemma on_grant a b g bytes w k t :
  is_uint 8 a -> is_uint 8 b -> 0 < len bytes <= 1778 -> 1 <= k -> 0 <= w -> k + w <= packets (len bytes) ->
  sending a b g bytes t ->
  exists t', on_can_frame (cts_frame a b g w k) t = Ok (tt, t') /\ sending a b g bytes t' /\
    sent (bus_ t') = sent (bus_ t) ++ (dt_frame b a bytes <$> seqZ k w) /\ events t' = events t.
Proof.
  intros Ha Hb Hn Hk Hw Hle (Hown & s & Hm & (Hbuf & Hlen & Htot & Hds & Hss & Hg & Hbam) & Hst).
  subst a. pose proof (packets_1778 _ Hn). rewrite (on_cts_session b g w k s t) by done.
  destruct (send_window (set_next_seq k (set_window_size w s)) t) as (n & t1 & E1 & (A1 & B1 & _ & _ & _ & V1));
    [cbn; rewrite ?Hbuf; (lia || done)..|].
  eexists. split; [unfold on_session; erewrite bind_ok; [reflexivity|]; by erewrite bind_ok by exact E1|].
  split; [|by cbn in *; rewrite A1, Hbuf, Hds, Hss]. split; [exact B1|].
  eexists. split; [apply lookup_insert_eq|]. by split_and!.
Qed.

(** Windows that together end before the last packet. *)
Lemma receive_grants a b g bytes ws k t :
  is_uint 8 a -> is_uint 8 b -> 0 < len bytes <= 1778 -> 1 <= k -> Forall (fun v => 0 <= v) ws ->
  k + granted ws <= packets (len bytes) -> sending a b g bytes t ->
  exists t', receive (grants a b g k ws) t = Ok (tt, t') /\ sending a b g bytes t' /\
    sent (bus_ t') = sent (bus_ t) ++ (dt_frame b a bytes <$> seqZ k (granted ws)) /\
    events t' = events t.
Proof.
  intros Ha Hb Hn Hk Hws. revert k t Hk. induction Hws as [|v ws Hv Hws IH]; intros k t Hk Hle Hs.
  - exists t. split_and!; [done..|simpl; by rewrite app_nil_r|done].
  - cbn [grants receive granted foldr] in *. fold (granted ws) in *. pose proof (granted_nonneg ws Hws).
    destruct (on_grant a b g bytes v k t) as (t1 & E1 & S1 & A1 & V1); [done..|lia|done|].
    destruct (IH (k + v) t1) as (t2 & E2 & S2 & A2 & V2); [lia..|done|].
    exists t2. split; [by erewrite bind_ok by exact E1|]. split_and!; [done| |congruence].
    by rewrite A2, A1, <- (assoc_L app), seqZ_app, fmap_app by lia.
Qed.

(** C12.  A sender follows the windows of its peer.  The peer clears a message of 9
    to 1778 bytes for sending in consecutive windows of any sizes: each asks for the
    packet after the window before it, an empty one for the packet where that one
    stopped, and the last reaches the end of the message.  Then every packet is sent
    exactly once and in order, and the session is completed by the last window and
    not before. *)
Theorem windowed_send bytes b g ws w t :
  let a := bus_source_address (bus_ t) in
  let p := packets (len bytes) in
  9 <= len bytes <= 1778 -> is_uint 8 a -> is_uint 8 b -> b <> 0xFF ->
  Forall (fun v => 0 <= v) ws -> granted ws < p <= granted (ws ++ [w]) ->
  exists t1 rts t2 t3 eom,
    send bytes b g t = Ok (true, t1) /\ sent (bus_ t1) = sent (bus_ t) ++ [rts] /\
    receive (grants a b g 1 ws) t1 = Ok (tt, t2) /\
    sent (bus_ t2) = sent (bus_ t1) ++ (dt_frame b a bytes <$> seqZ 1 (granted ws)) /\
    state <$> sessions_ t2 !! (a, b) = Some InProgress /\
    receive [cts_frame a b g w (1 + granted ws)] t2 = Ok (tt, t3) /\
    sent (bus_ t3) = sent (bus_ t1) ++ (dt_frame b a bytes <$> seqZ 1 p) ++ [eom] /\
    state <$> sessions_ t3 !! (a, b) = Some Completed.
Proof.
  intros a p Hn Ha Hb Hne Hws [Hlt Hle]. pose proof (granted_nonneg ws Hws).
  destruct (send_rts_ok bytes b g t) as (n & t1 & E1 & A1 & B1 & V1 & M1); [lia|done|]. fold a in A1, B1, M1.
  assert (S1 : sending a b g bytes t1) by by eapply tx_session_sending.
  destruct (receive_grants a b g bytes ws 1 t1) as (t2 & E2 & S2 & A2 & _); [done..|lia|lia|done|fold p; lia|done|].
  rewrite granted_snoc in Hle.
  pose proof S2 as (O2 & s2 & M2 & R2 & K2).
  destruct (on_last_grant a b g bytes w (1 + granted ws) s2 t2) as (s & t3 & E3 & A3 & _ & M3 & K3);
    [done || (fold p; lia)..|].
  eexists t1, _, t2, t3, _. split_and!; [exact E1|exact A1|exact E2|exact A2| | | |by rewrite M3; simpl; rewrite K3].
  - rewrite M2. simpl. by f_equal.
  - cbn [receive]. by erewrite bind_ok by exact E3.
  - rewrite A3, A2, <- (assoc_L app). f_equal. rewrite (assoc_L app). f_equal.
    rewrite <- fmap_app, <- seqZ_app by (fold p; lia). do 2 f_equal. fold p. lia.
Qed.

End Sender.

(** ** The receiver *)

Section Receiver.
Context `{CanaryLaws} {E : Type} `{!Bus E} `{!ReliableBus}.

(** The multiples of [w] up to [m]. *)
Lemma multiples w m : 1 <= w -> 0 <= m ->
  filter (fun k => k mod w = 0) (seqZ 1 m) = Z.mul w <$> seqZ 1 (m / w).
Proof.
  intros Hw. revert m. apply (natlike_ind (fun m => _ = _)).
  - by rewrite Z.div_0_l by lia.
  - intros m Hm IH. pose proof (Z.div_pos m w Hm ltac:(lia)).
    rewrite <- Z.add_1_r, seqZ_app, list.filter_app, IH by lia. change (seqZ (1 + m) 1) with [1 + m].
    replace (1 + m) with (m + 1) by lia. destruct (decide ((m + 1) mod w = 0)) as [Hd|Hd].
    + rewrite filter_cons_True by done. assert (Hq : (m + 1) / w = m / w + 1) by (Z.div_mod_to_equations; nia).
      pose proof (Z.div_mod (m + 1) w ltac:(lia)). rewrite Hq, seqZ_app, fmap_app by lia. f_equal.
      change (Z.mul w <$> seqZ (1 + m / w) 1) with [w * (1 + m / w)]. f_equal. lia.
    + rewrite filter_cons_False, app_nil_r by done. do 2 f_equal. Z.div_mod_to_equations; nia.
Qed.

Lemma grants_replicate a b g k w n :
  grants a b g k (replicate n w) = (fun i => cts_frame a b g w (k + w * i)) <$> seqZ 0 (Z.of_nat n).
Proof.
  revert k. induction n as [|n IH]; intros k; [done|]. cbn [replicate grants].
  rewrite IH, Nat2Z.inj_succ, (seqZ_cons 0 (Z.succ _)), fmap_cons, Z.pred_succ by lia.
  f_equal; [f_equal; lia|]. change (Z.succ 0) with (1 + 0). rewrite <- (fmap_add_seqZ 1 0), <- list_fmap_compose.
  apply list_fmap_ext. intros i x _. simpl. f_equal. lia.
Qed.

(** The clears sent while the packets from [1] to [m] arrive. *)
Definition clears (a b g w m : Z) : list frame :=
  (fun k => cts_frame a b g w (k + 1)) <$> filter (fun k => k mod w = 0) (seqZ 1 m).

(** After the first one, the clears are windows of [w] packets. *)
Lemma clears_are_grants a b g w m : 1 <= w -> 0 <= m ->
  cts_frame a b g w 1 :: clears a b g w m = grants a b g 1 (replicate (Z.to_nat (m / w + 1)) w).
Proof.
  intros Hw Hm. pose proof (Z.div_pos m w Hm ltac:(lia)).
  unfold clears. rewrite multiples, grants_replicate, Z2Nat.id, <- list_fmap_compose by lia.
  rewrite (seqZ_cons 0), fmap_cons by lia. f_equal; [f_equal; lia|].
  replace (Z.succ 0) with 1 by lia. replace (Z.pred (m / w + 1)) with (m / w) by lia.
  apply list_fmap_ext. intros i x _. simpl. f_equal. lia.
Qed.

(** The packets before the last one. *)
Lemma receive_in_windows w a b g bytes m t :
  is_uint 8 a -> is_uint 8 b -> 0 < len bytes <= 1785 -> 1 <= w -> 0 <= m < packets (len bytes) ->
  receiving_in w false b a g bytes 1 t ->
  exists t', receive (dt_frame b a bytes <$> seqZ 1 m) t = Ok (tt, t') /\
    receiving_in w false b a g bytes (m + 1) t' /\
    sent (bus_ t') = sent (bus_ t) ++ clears a b g w m /\ events t' = events t.
Proof.
  intros Ha Hb Hn Hw [Hm Hlt] R0. revert m Hm Hlt. apply (natlike_ind (fun m => _ -> exists t', _)).
  { intros _. exists t. split_and!; [done..|by rewrite app_nil_r|done]. }
  intros m Hm IH Hlt. destruct IH as (t1 & E1 & R1 & A1 & V1); [lia|].
  rewrite <- Z.add_1_r, seqZ_app, fmap_app, receive_app by lia. erewrite bind_ok by exact E1.
  change (dt_frame b a bytes <$> seqZ (1 + m) 1) with [dt_frame b a bytes (1 + m)].
  replace (1 + m) with (m + 1) by lia. cbn [receive].
  destruct (store_packet w false b a g bytes (m + 1) t1)
    as (s & t2 & E2 & R2 & (C2 & X2 & _ & V2) & Hg & Hd & Hs & Hwin & Hnext); [done..|lia|lia|done|].
  destruct (silent_reliable _ _ C2) as [A2 _].
  unfold clears. rewrite seqZ_app, list.filter_app, fmap_app by lia.
  change (seqZ (1 + m) 1) with [1 + m]. replace (1 + m) with (m + 1) by lia.
  rewrite andb_true_r in E2. destruct (Z.eqb_spec ((m + 1) mod w) 0) as [Hz|Hz].
  - destruct (response_cts_ok s t2) as (t3 & E3 & (A3 & B3 & R3 & _ & M3 & V3)).
    exists t3. split; [|split_and!; [|rewrite A3, A2, A1, <- (assoc_L app)|congruence]].
    + erewrite bind_ok; [reflexivity|]. by rewrite E2.
    + destruct R2 as [R2 (s2 & K2)]. split; [congruence|]. exists s2. by rewrite M3.
    + by rewrite filter_cons_True, Hg, Hd, Hs, Hwin, Hnext.
  - exists t2. split; [by erewrite bind_ok by exact E2|].
    rewrite filter_cons_False, app_nil_r, A2, A1, V2 by done. by split_and!.
Qed.

(** C13.  A receiver clears a message in the windows its peer has asked for: after the
    request to send with window [w] and the first [m] packets, it has sent one
    clear for each window begun, each exactly when the window before it is
    complete; with the last packet the message is delivered, once, and
    acknowledged. *)
Theorem windowed_receive bytes a g w t :
  let b := bus_source_address (bus_ t) in
  let p := packets (len bytes) in
  let frames m := cm_frame RTS b a g (len bytes) w :: (dt_frame b a bytes <$> seqZ 1 m) in
  0 < len bytes <= 1785 -> is_uint 24 g -> is_uint 8 a -> is_uint 8 b -> 1 <= w -> rx_callback_ t = true ->
  (forall m, 0 <= m < p -> exists t', receive (frames m) t = Ok (tt, t') /\
    sent (bus_ t') = sent (bus_ t) ++ grants a b g 1 (replicate (Z.to_nat (m / w + 1)) w) /\
    events t' = events t) /\
  exists t' ack h, receive (frames p) t = Ok (tt, t') /\
    sent (bus_ t') = sent (bus_ t) ++ grants a b g 1 (replicate (Z.to_nat ((p - 1) / w + 1)) w) ++ [ack] /\
    is_ack ack a b /\ events t' = events t ++ [ev_data (Data h bytes)] /\
    source_address h = a /\ pdu_specific h = b /\ pdu_format h = fget 8 8 g.
Proof.
  intros b p frames Hn Hg Ha Hb Hw Hrx. pose proof (packets_bounds (len bytes) ltac:(lia)) as Hp. fold p in Hp.
  destruct (on_rts_frame w a g bytes t) as (t1 & E1 & R1 & A1 & B1 & V1); [done..|]. fold b in E1, R1, A1, B1.
  assert (Hpart : forall m, 0 <= m < p -> exists t', receive (frames m) t = Ok (tt, t') /\
    receiving_in w false b a g bytes (m + 1) t' /\
    sent (bus_ t') = sent (bus_ t) ++ grants a b g 1 (replicate (Z.to_nat (m / w + 1)) w) /\
    events t' = events t).
  { intros m Hm. destruct (receive_in_windows w a b g bytes m t1) as (t2 & E2 & R2 & A2 & V2); [done..|].
    exists t2. unfold frames. cbn [receive]. erewrite bind_ok by exact E1. split_and!; [done..| |congruence].
    rewrite <- clears_are_grants, A2, A1, <- (assoc_L app) by lia. done. }
  split; [intros m Hm; destruct (Hpart m Hm) as (t2 & ? & _ & ?); by exists t2|].
  destruct (Hpart (p - 1)) as (t2 & E2 & R2 & A2 & V2); [lia|]. replace (p - 1 + 1) with p in R2 by lia.
  destruct (last_packet w false b a g bytes t2) as (s & t3 & E3 & Hbam & Hd & Hs & C3 & _ & V3); [done..|].
  destruct (send_eom_ack_sent s t3) as (ack & t4 & E4 & (A4 & _ & _ & _ & _ & V4) & K4); [congruence..|].
  destruct (silent_reliable _ _ C3) as [S3 _], (peer_delivery_header a b g bytes) as (D1 & D2 & D3); [done..|].
  rewrite Hd, Hs in K4. eexists t4, ack, _.
  split_and!; [|by rewrite A4, S3, A2, <- (assoc_L app)|done|rewrite V4, V3, V2; reflexivity|done..].
  unfold frames, p. rewrite packets_snoc by lia.
  change (receive (frames (p - 1) ++ [dt_frame b a bytes p]) t = Ok (tt, t4)). rewrite receive_app.
  erewrite bind_ok by exact E2. cbn [receive]. erewrite bind_ok; [reflexivity|].
  unfold p. rewrite E3. cbn [negb]. by erewrite bind_ok by exact E4.
Qed.

End Receiver.
