(* ===== verification/TransportInterleaving.v ===== *)
(** * Several senders at once

    A receiver keeps one session for each pair of addresses.  A frame changes the
    session of its own pair only, so broadcasts of different senders arrive even
    when their frames are mixed on the bus. *)

From Stdlib Require Import String.
From stdpp Require Import gmap list list_numbers.
From S2P Require Import Prelude J1939Type Canary Header HeaderFacts Name Frame Transport.
From S2P Require Import TransportFacts TransportFrame TransportRoundTrip.

(** [frs] takes the frames of the lists [ls] one after the other, in any mixture
    that keeps the order of each list. *)
Inductive interleaving {A} : list (list A) -> list A -> Prop :=
| mix_done ls : Forall (eq []) ls -> interleaving ls []
| mix_next ls i x l frs :
    ls !! i = Some (x :: l) -> interleaving (<[i := l]> ls) frs -> interleaving ls (x :: frs).

(** ** One frame, one session *)

Section Sessions.
Context `{CanaryHeader} {E : Type} `{!Bus E}.

(** Only the session at [key] has changed, and what has been sent and reported. *)
Definition only_session (key : Z * Z) (t t' : transport E) : Prop :=
  rx_callback_ t' = rx_callback_ t /\ forall k, k <> key -> sessions_ t' !! k = sessions_ t !! k.

Definition confined {A} (key : Z * Z) : M (E := E) A -> Prop := relates (only_session key).

#[export] Instance only_session_preorder key : PreOrder (only_session key).
Proof.
  split; [by split|]. intros t1 t2 t3 [R1 S1] [R2 S2].
  split; [congruence|]. intros k Hk. by rewrite S2, S1.
Qed.

#[export] Instance only_session_steps key : Steps (only_session key).
Proof.
  split; [apply _|..].
  - intros fr t a t'. unfold send_frame. destruct (bus_send _ _). by intros [= _ <-].
  - intros t a t'. unfold now. destruct (steady_now _). by intros [= _ <-].
  - intros what ec. apply relates_update. intros t. by destruct (error_callback_ t).
Qed.

Lemma confined_put key s : relates (only_session key) (put key s).
Proof. apply relates_update. intros t. split; [done|]. intros k Hk. simpl. by rewrite lookup_insert_ne. Qed.

Lemma confined_deliver key d : relates (only_session key) (deliver d).
Proof. apply relates_update. intros t. by destruct (rx_callback_ t) eqn:?. Qed.

Hint Resolve confined_put confined_deliver : steps.

Lemma confined_handle_dt fr : confined (source_address (header fr), pdu_specific (header fr)) (handle_dt fr).
Proof. unfold confined, handle_dt, reject_dt, accept_dt, make_key. relate. Qed.

Lemma confined_start_rx_bam fr : confined (source_address (header fr), 0xFF) (start_rx_bam fr).
Proof. unfold confined, start_rx_bam, make_key. relate. Qed.

End Sessions.

#[export] Hint Resolve confined_put confined_deliver : steps.

(** ** Broadcasts of several senders *)

Section Broadcasts.
Context `{CanaryLaws} {E : Type} `{!Bus E}.

Record broadcast := Broadcast { b_src : Z; b_pgn : Z; b_bytes : list Z }.

Definition broadcast_ok (b : broadcast) : Prop :=
  is_uint 8 (b_src b) /\ is_uint 18 (b_pgn b) /\ (240 <= fget 8 8 (b_pgn b) \/ fget 0 8 (b_pgn b) = 0) /\
  0 < len (b_bytes b) <= 1785.

Definition frames_of (b : broadcast) : list frame := bam_frames (b_src b) (b_pgn b) (b_bytes b).

(** What is delivered. *)
Definition message_of (b : broadcast) : data :=
  Data (delivered true 0xFF (b_src b) (b_pgn b) (b_bytes b)) (b_bytes b).

(** What the receiver can tell of a broadcast from the message. *)
Definition broadcast_of (d : data) : broadcast :=
  Broadcast (source_address (data_header d)) (pgn (data_header d)) (data_payload d).

(** The message, if [n] of [m] frames arrive. *)
Definition outcome (b : broadcast) (n m : nat) : list data := if decide (n = m) then [message_of b] else [].

Notation session_of b t := (sessions_ t !! (b_src b, 0xFF)).

(** Of [b] the frames [l] are still to come, and with them the messages [o]. *)
Inductive progress (b : broadcast) (t : transport E) : list frame -> list data -> Prop :=
| not_started l :
    l `sublist_of` frames_of b -> session_of b t = None -> progress b t l (outcome b (length l) (length (frames_of b)))
| in_transfer k ks :
    let n := packets (len (b_bytes b)) + 1 - k in
    1 <= k <= packets (len (b_bytes b)) -> receiving true 0xFF (b_src b) (b_pgn b) (b_bytes b) k t ->
    ks `sublist_of` seqZ k n ->
    progress b t (dt_frame 0xFF (b_src b) (b_bytes b) <$> ks) (outcome b (length ks) (Z.to_nat n))
| given_up ks :
    (forall s, session_of b t = Some s -> Forall (fun k => next_seq s < k) ks) ->
    progress b t (dt_frame 0xFF (b_src b) (b_bytes b) <$> ks) [].

Lemma progress_other b t t' l o :
  rx_callback_ t' = rx_callback_ t -> session_of b t' = session_of b t -> progress b t l o -> progress b t' l o.
Proof.
  intros Hrx Hs [? ? ?|k ks n Hk (Hr & s & Hm & Hrest) Hks|ks Hks]; constructor; try done; try congruence.
  - split; [congruence|]. exists s. by rewrite Hs.
  - intros s. rewrite Hs. apply Hks.
Qed.

Lemma on_dt_frame_header src bytes k (t : transport E) : is_uint 8 src ->
  on_can_frame (dt_frame 0xFF src bytes k) t = handle_dt (dt_frame 0xFF src bytes k) t /\
  source_address (header (dt_frame 0xFF src bytes k)) = src /\ pdu_specific (header (dt_frame 0xFF src bytes k)) = 0xFF.
Proof.
  intros Hs. destruct (base_frame_header 0xEB 0xFF src) as (Hpgn & Hps & Hsa & _); [lia|done..|].
  change (0xEB * 2 ^ 8) with PGN_TP_DT in *. unfold on_can_frame, dt_frame. cbn [header]. rewrite Hpgn.
  change (PGN_TP_DT =? PGN_TP_CM) with false. by rewrite Z.eqb_refl.
Qed.

Lemma on_dt_confined src bytes k : is_uint 8 src ->
  confined (E := E) (src, 0xFF) (on_can_frame (dt_frame 0xFF src bytes k)).
Proof.
  intros Hs t a t'. destruct (on_dt_frame_header src bytes k t Hs) as (-> & Hsa & Hps).
  pose proof (confined_handle_dt (E := E) (dt_frame 0xFF src bytes k)) as Hc. rewrite Hsa, Hps in Hc. apply Hc.
Qed.

Lemma on_bam_confined src g n : is_uint 8 src ->
  confined (E := E) (src, 0xFF) (on_can_frame (cm_frame BAM 0xFF src g n 0xFF)).
Proof.
  intros Hs t a t'. rewrite on_cm_frame by done.
  pose proof (confined_start_rx_bam (E := E) (cm_frame BAM 0xFF src g n 0xFF)) as Hc.
  destruct (cm_frame_header BAM 0xFF src g n 0xFF) as (_ & Hsa & _); [done..|]. rewrite Hsa in Hc. apply Hc.
Qed.

Lemma send_frame_total fr (t : transport E) : exists ok t', send_frame fr t = Ok (ok, t') /\
  sessions_ t' = sessions_ t /\ events t' = events t /\ error_callback_ t' = error_callback_ t.
Proof. unfold send_frame. destruct (bus_send fr (bus_ t)) as [ok e]. by eexists _, _. Qed.

Lemma abort_and_report s code what ec (t : transport E) :
  exists t' evs, (_ ← send_abort s code; report_error what ec) t = Ok (tt, t') /\ sessions_ t' = sessions_ t /\
    events t' = events t ++ evs /\ omap data_of evs = [].
Proof.
  unfold send_abort. edestruct send_frame_total as (ok & t1 & E1 & S1 & V1 & C1). erewrite bind_ok by exact E1.
  eexists _, (if error_callback_ t1 then [ev_error what ec] else []). split; [reflexivity|].
  destruct (error_callback_ t1); simpl; rewrite ?app_nil_r; split_and!; congruence.
Qed.

(** A packet that is not the next one of its session is refused. *)
Lemma on_refused src bytes k (t : transport E) : is_uint 8 src ->
  (forall s, sessions_ t !! (src, 0xFF) = Some s -> next_seq s <> k) ->
  exists t' evs, on_can_frame (dt_frame 0xFF src bytes k) t = Ok (tt, t') /\
    sessions_ t' !! (src, 0xFF) = set_state ABorted <$> sessions_ t !! (src, 0xFF) /\
    events t' = events t ++ evs /\ omap data_of evs = [].
Proof.
  intros Hs Hnext. destruct (on_dt_frame_header src bytes k t Hs) as (-> & Hsa & Hps).
  unfold handle_dt, find, gets, make_key. rewrite Hsa, Hps. erewrite bind_ok by reflexivity.
  destruct (sessions_ t !! (src, 0xFF)) as [s|] eqn:Hm.
  - change (byte 0 (dt_frame 0xFF src bytes k)) with k.
    assert (Hrej : forall code what, exists t' evs, reject_dt (src, 0xFF) s code what t = Ok (tt, t') /\
      sessions_ t' !! (src, 0xFF) = Some (set_state ABorted s) /\ events t' = events t ++ evs /\ omap data_of evs = []).
    { intros code what. unfold reject_dt, put, update. erewrite bind_ok by reflexivity.
      edestruct abort_and_report as (t' & evs & -> & Hs' & Hev & Hd). exists t', evs. split_and!; [done| |done..].
      rewrite Hs'. apply lookup_insert_eq. }
    destruct (_ || _); [apply Hrej|]. destruct (_ <? next_seq s); [apply Hrej|].
    rewrite (proj2 (Z.eqb_neq k (next_seq s))); [apply Hrej|]. intros ->. by apply (Hnext s).
  - unfold dummy_abort_session, source, gets. erewrite bind_ok by (erewrite bind_ok by reflexivity; reflexivity).
    edestruct abort_and_report as (t' & evs & -> & Hs' & Hev & Hd). exists t', evs. split_and!; [done| |done..].
    by rewrite Hs', Hm.
Qed.

(** ** One frame of a broadcast *)

(** The frame [x] of [b] is handled; [l] and the rest of the messages [o] are still
    to come.  Errors are reported only when the message does not arrive. *)
Definition advances (b : broadcast) (t : transport E) (x : frame) (l : list frame) (o : list data) : Prop :=
  exists t' o1 o2 evs, on_can_frame x t = Ok (tt, t') /\ progress b t' l o2 /\ o = o1 ++ o2 /\
    only_session (b_src b, 0xFF) t t' /\ events t' = events t ++ evs /\ omap data_of evs = o1 /\
    (o <> [] -> evs = ev_data <$> o1) /\ (o1 <> [] -> l = []).

Lemma outcome_lost b n m : n <> m -> outcome b n m = [].
Proof. intros Hne. unfold outcome. by rewrite decide_False. Qed.

Lemma outcome_S b n m : outcome b (S n) (S m) = outcome b n m.
Proof. unfold outcome. do 2 destruct (decide _); done || lia. Qed.

Lemma refused_frame b t k ks : broadcast_ok b ->
  (forall s, session_of b t = Some s -> Forall (fun k => next_seq s < k) (k :: ks)) ->
  advances b t (dt_frame 0xFF (b_src b) (b_bytes b) k) (dt_frame 0xFF (b_src b) (b_bytes b) <$> ks) [].
Proof.
  intros (Hs & _) Hks. destruct (on_refused (b_src b) (b_bytes b) k t Hs) as (t' & evs & E1 & S1 & V1 & D1).
  { intros s Hm. specialize (Hks s Hm). inversion Hks. lia. }
  exists t', [], [], evs. split_and!; try done.
  - constructor. intros s. rewrite S1. intros (s0 & Hm & ->)%fmap_Some. specialize (Hks s0 Hm). by inversion Hks.
  - exact (on_dt_confined _ _ _ Hs _ _ _ E1).
Qed.

Lemma transfer_frame b t k k' ks : broadcast_ok b ->
  let n := packets (len (b_bytes b)) + 1 - k in
  1 <= k <= packets (len (b_bytes b)) -> receiving true 0xFF (b_src b) (b_pgn b) (b_bytes b) k t ->
  k' :: ks `sublist_of` seqZ k n ->
  advances b t (dt_frame 0xFF (b_src b) (b_bytes b) k') (dt_frame 0xFF (b_src b) (b_bytes b) <$> ks)
    (outcome b (S (length ks)) (Z.to_nat n)).
Proof.
  intros Hok n Hk R Hks. pose proof Hok as (Hs & Hg & _ & Hn). rewrite seqZ_cons in Hks by lia.
  apply sublist_cons_r in Hks as [Hks|(l & [= -> ->] & Hks)].
  - pose proof (sublist_length _ _ Hks) as Hlen. rewrite length_seqZ in Hlen. cbn [length] in Hlen.
    rewrite outcome_lost by lia. apply refused_frame; [done|]. intros s Hm.
    destruct R as (_ & s' & Hm' & (Hnext & _) & _). assert (s' = s) as -> by congruence.
    eapply Forall_sublist; [exact Hks|]. apply list.Forall_forall. intros x Hx%elem_of_seqZ. lia.
  - destruct (decide (k = packets (len (b_bytes b)))) as [->|Hne].
    + rewrite seqZ_nil in Hks by lia. apply sublist_nil_r in Hks as ->.
      destruct (last_packet 0xFF true 0xFF (b_src b) (b_pgn b) (b_bytes b) t)
        as (s & t1 & E1 & _ & _ & _ & _ & _ & V1); [done..|]. cbn [negb] in E1.
      eexists _, [message_of b], [], _. split_and!; [exact E1|by apply (given_up b _ [])| | |exact V1|done..].
      * unfold outcome. rewrite decide_True by (simpl; lia). done.
      * exact (on_dt_confined _ _ _ Hs _ _ _ E1).
    + destruct (middle_packet true 0xFF (b_src b) (b_pgn b) (b_bytes b) k t) as (t1 & E1 & R1 & _ & _ & _ & V1);
        [done..|lia|done|].
      exists t1, [], (outcome b (length l) (Z.to_nat (n - 1))), []. split_and!; [done| | | |by rewrite app_nil_r|done..].
      * replace (n - 1) with (packets (len (b_bytes b)) + 1 - (k + 1)) by lia. constructor; [lia|done|].
        rewrite <- Z.add_1_r in Hks. by replace (_ - (k + 1)) with (Z.pred n) by lia.
      * replace (Z.to_nat n) with (S (Z.to_nat (n - 1))) by lia. apply outcome_S.
      * exact (on_dt_confined _ _ _ Hs _ _ _ E1).
Qed.

Lemma next_frame b t x l o : broadcast_ok b -> rx_callback_ t = true -> progress b t (x :: l) o -> advances b t x l o.
Proof.
  intros Hok Hrx Hp. pose proof Hok as (Hs & Hg & _ & Hn).
  pose proof (packets_bounds (len (b_bytes b)) ltac:(lia)) as Hpk.
  inversion Hp as [l' Hl Hm Hx|k ks n Hk R Hks Hx|ks Hks Hx]; subst.
  - unfold frames_of, bam_frames in *. set (f := dt_frame 0xFF (b_src b) (b_bytes b)) in *.
    assert (Hlen : length (f <$> seqZ 1 (packets (len (b_bytes b)))) = Z.to_nat (packets (len (b_bytes b))))
      by (by rewrite length_fmap, length_seqZ).
    apply sublist_cons_r in Hl as [Hl|(l' & [= -> ->] & Hl)].
    + pose proof (sublist_length _ _ Hl) as Hle. cbn [length] in *. rewrite outcome_lost by lia.
      apply sublist_fmap_inv in Hl as ([|k ks] & Hx & _); [done|]. injection Hx as -> ->.
      apply refused_frame; [done|]. intros s. by rewrite Hm.
    + destruct (on_bam_announcement (b_src b) (b_pgn b) (b_bytes b) t) as (t1 & E1 & R1 & _ & _ & _ & V1);
        [done|by apply (is_uint_mono 18)|done..|].
      apply sublist_fmap_inv in Hl as (ks & -> & Hks). cbn [length]. rewrite outcome_S, Hlen, length_fmap.
      exists t1, [], (outcome b (length ks) (Z.to_nat (packets (len (b_bytes b)) + 1 - 1))), [].
      rewrite Z.add_simpl_r. split_and!; [done| |done|by apply (on_bam_confined _ _ _ Hs _ _ _ E1)|by rewrite app_nil_r|done..].
      rewrite <- (Z.add_simpl_r (packets (len (b_bytes b))) 1). constructor; [lia|done|]. by rewrite Z.add_simpl_r.
  - destruct ks as [|k' ks]; [done|]. injection Hx as <- <-. by apply transfer_frame.
  - destruct ks as [|k' ks]; [done|]. injection Hx as <- <-. by apply refused_frame.
Qed.

(** ** All senders *)

Definition in_progress (t : transport E) (b : broadcast) (p : list frame * list data) : Prop := progress b t p.1 p.2.

(** A frame of one sender leaves the other senders where they are. *)
Lemma progress_next bs ps i b l o (t t' : transport E) :
  NoDup (b_src <$> bs) -> bs !! i = Some b -> Forall2 (in_progress t) bs ps ->
  only_session (b_src b, 0xFF) t t' -> progress b t' l o -> Forall2 (in_progress t') bs (<[i := (l, o)]> ps).
Proof.
  intros Hnd Hb Hp [Hrx Hs] Hl. apply Forall2_same_length_lookup in Hp as [Hlen Hp].
  apply Forall2_same_length_lookup. rewrite length_insert. split; [done|].
  intros j b' p' Hb' Hp'. apply list_lookup_insert_Some in Hp' as [(-> & <- & _)|[Hne Hp']]; [by simplify_eq|].
  apply (progress_other b' t); [done| |by eapply Hp]. apply Hs. intros [= Heq]. apply Hne.
  apply (NoDup_lookup _ _ _ (b_src b) Hnd); rewrite list_lookup_fmap; [by rewrite Hb|by rewrite Hb', <- Heq].
Qed.

Lemma progress_nil b t o : broadcast_ok b -> progress b t [] o -> o = [].
Proof.
  intros (_ & _ & _ & Hn) Hp. pose proof (packets_bounds (len (b_bytes b)) ltac:(lia)).
  inversion Hp as [l Hl Hs|k ks n Hk R Hks Hx|]; subst; [by apply outcome_lost| |done].
  apply fmap_nil_inv in Hx as ->. apply outcome_lost. simpl. lia.
Qed.

(** A sender whose message arrives or who has nothing left to send. *)
Definition lossless (p : list frame * list data) : Prop := p.1 <> [] -> p.2 <> [].

Lemma receive_interleaved bs ls frs :
  NoDup (b_src <$> bs) -> Forall broadcast_ok bs -> interleaving ls frs ->
  forall t ps, ps.*1 = ls -> rx_callback_ t = true -> Forall2 (in_progress t) bs ps ->
  exists t' evs, receive frs t = Ok (tt, t') /\ events t' = events t ++ evs /\
    omap data_of evs ≡ₚ concat (ps.*2) /\ (Forall lossless ps -> evs = ev_data <$> omap data_of evs).
Proof.
  intros Hnd Hok. induction 1 as [ls Hl|ls i x l frs Hi _ IH]; intros t ps Hps Hrx Hp.
  - exists t, []. rewrite app_nil_r. split_and!; try done. subst ls.
    clear Hnd. induction Hp as [|b [l o] bs ps Hb _ IH]; [done|]. inversion Hok; inversion Hl; subst; simpl in *.
    rewrite (progress_nil b t o) by done. by apply IH.
  - subst ls. rewrite list_lookup_fmap in Hi. destruct (ps !! i) as [[xl o]|] eqn:Hpi; [|done].
    injection Hi as ->. destruct (Forall2_lookup_r _ _ _ _ _ Hp Hpi) as (b & Hb & Hb1).
    pose proof (Forall_lookup_1 _ _ _ _ Hok Hb) as Hokb.
    destruct (next_frame b t x l o Hokb Hrx Hb1) as (t1 & o1 & o2 & evs & E1 & P1 & -> & S1 & V1 & D1 & Q1 & L1).
    destruct (IH t1 (<[i := (l, o2)]> ps)) as (t2 & evs' & E2 & V2 & M2 & Q2).
    { by rewrite list_fmap_insert. } { by destruct S1 as [-> _]. } { by eapply progress_next. }
    exists t2, (evs ++ evs'). split_and!.
    + cbn [receive]. by erewrite bind_ok by exact E1.
    + by rewrite V2, V1, (assoc_L app).
    + rewrite omap_app, D1, M2, list_fmap_insert, <- (concat_insert _ i o1 o2); [done|].
      by rewrite list_lookup_fmap, Hpi.
    + intros Hll. rewrite omap_app, fmap_app, <- Q2, D1.
      * rewrite Q1; [done|]. exact (Forall_lookup_1 _ _ _ _ Hll Hpi ltac:(done)).
      * apply Forall_insert; [done|]. intros Hne. pose proof (Forall_lookup_1 _ _ _ _ Hll Hpi ltac:(done)) as Ho.
        destruct o1; [done|]. by specialize (L1 ltac:(done)).
Qed.

(** The broadcasts all of whose frames arrive. *)
Fixpoint arrived (bs : list broadcast) (ls : list (list frame)) : list broadcast :=
  match bs, ls with
  | b :: bs, l :: ls => (if decide (length l = length (frames_of b)) then [b] else []) ++ arrived bs ls
  | _, _ => []
  end.

Lemma broadcast_of_message b : broadcast_ok b -> broadcast_of (message_of b) = b.
Proof.
  destruct b as [src g bytes]. intros (Hs & Hg & Hps & Hn).
  destruct (broadcast_delivery_header g src (len bytes)) as [Hpgn Hsa]; [done..|].
  unfold message_of, broadcast_of, delivered. cbn [data_header data_payload b_src b_pgn b_bytes].
  by rewrite Hpgn, Hsa.
Qed.

(** The state before the first frame. *)
Definition starting (b : broadcast) (l : list frame) : list frame * list data :=
  (l, outcome b (length l) (length (frames_of b))).

Lemma starting_arrived bs ls : Forall broadcast_ok bs ->
  broadcast_of <$> concat ((zip_with starting bs ls).*2) = arrived bs ls.
Proof.
  intros Hok. revert ls. induction Hok as [|b bs Hb _ IH]; intros [|l ls]; [done..|].
  cbn [zip_with fmap list_fmap concat arrived starting snd]. rewrite fmap_app, IH. f_equal. unfold outcome.
  destruct (decide _); [|done]. cbn. by rewrite broadcast_of_message.
Qed.

Lemma starting_progress (r : transport E) bs ls :
  Forall (fun b => sessions_ r !! (b_src b, 0xFF) = None) bs ->
  Forall2 (fun b l => l `sublist_of` frames_of b) bs ls ->
  (zip_with starting bs ls).*1 = ls /\ Forall2 (in_progress r) bs (zip_with starting bs ls).
Proof.
  intros Hnew Hls. induction Hls as [|b l bs ls Hl _ IH]; [by split; constructor|].
  inversion Hnew; subst. destruct IH as [IH1 IH2]; [done|]. cbn [zip_with fmap list_fmap starting fst].
  split; [f_equal; exact IH1|]. constructor; [|exact IH2]. by apply not_started.
Qed.

Lemma starting_lossless bs : Forall lossless (zip_with starting bs (frames_of <$> bs)).
Proof.
  induction bs as [|b bs IH]; [constructor|]. rewrite fmap_cons. constructor; [|exact IH].
  intros _. cbn [starting snd]. unfold outcome. by rewrite decide_True.
Qed.


End Broadcasts.
