(* ===== verification/TransportSafety.v ===== *)
(** * The transport protocol does not fault on well-formed frames

    Whatever the bus does and in whatever order messages are sent, frames come
    in and ticks happen: as long as the frames announce consistent sizes, no
    handler divides by zero or copies outside of a buffer.  The condition is
    needed: frames that break it make the handlers fault. *)

From Stdlib Require Import String.
From stdpp Require Import gmap list.
From S2P Require Import Prelude J1939Type Canary Header HeaderFacts Name NameFacts Frame Transport.
From S2P Require Import TransportFacts TransportRoundTrip.

Section Safety.
Context `{CanaryHeader} {E : Type} `{!Bus E}.

(** ** The invariant of the sessions *)

Definition session_ok (s : TpSession) : Prop :=
  0 <= total_packets s <= 255 /\ 7 * (total_packets s - 1) <= len (buffer s) <= 65535 /\
  window_size s <> 0.

Definition sessions_ok (t : transport E) : Prop := map_Forall (fun _ s => session_ok s) (sessions_ t).

(** [m] returns a value with [Q] and keeps the sessions well formed. *)
Definition safe {A} (m : M (E := E) A) (Q : A -> Prop) : Prop :=
  forall t, sessions_ok t -> exists a t', m t = Ok (a, t') /\ sessions_ok t' /\ Q a.

Lemma safe_ret {A} (a : A) (Q : A -> Prop) : Q a -> safe (mret a) Q.
Proof. intros Ha t Ht. by exists a, t. Qed.

Lemma safe_bind {A B} (m : M A) (k : A -> M B) (P : A -> Prop) (Q : B -> Prop) :
  safe m P -> (forall a, P a -> safe (k a) Q) -> safe (m ≫= k) Q.
Proof.
  intros Hm Hk t Ht. destruct (Hm t Ht) as (a & t1 & E1 & Ht1 & Ha).
  erewrite bind_ok by exact E1. by apply Hk.
Qed.

Lemma safe_send_frame fr : safe (send_frame fr) (fun _ => True).
Proof. intros t Ht. unfold send_frame. destruct (bus_send fr (bus_ t)). do 2 eexists. by split_and!. Qed.

Lemma safe_now : safe now (fun _ => True).
Proof. intros t Ht. unfold now. destruct (steady_now (bus_ t)). do 2 eexists. by split_and!. Qed.

Lemma safe_source : safe source (fun _ => True).
Proof. intros t Ht. do 2 eexists. by split_and!. Qed.

Lemma safe_report_error what ec : safe (report_error what ec) (fun _ => True).
Proof.
  intros t Ht. do 2 eexists. split; [reflexivity|]. split; [|done].
  by destruct (error_callback_ t).
Qed.

Lemma safe_deliver d : safe (deliver d) (fun _ => True).
Proof.
  intros t Ht. do 2 eexists. split; [reflexivity|]. split; [|done]. by destruct (rx_callback_ t).
Qed.

Lemma safe_put key s : session_ok s -> safe (put key s) (fun _ => True).
Proof.
  intros Hs t Ht. do 2 eexists. split; [reflexivity|]. split; [|done].
  by apply map_Forall_insert_2.
Qed.

Lemma safe_erase key :
  safe (update (fun t => with_sessions (delete key (sessions_ t)) t)) (fun _ => True).
Proof.
  intros t Ht. do 2 eexists. split; [reflexivity|]. split; [|done]. by apply map_Forall_delete.
Qed.

Lemma safe_find key : safe (find key) (fun it => forall s, it = Some s -> session_ok s).
Proof.
  intros t Ht. do 2 eexists. split; [reflexivity|]. split; [done|]. intros s Hs. by apply (Ht key).
Qed.

Hint Resolve safe_send_frame safe_now safe_source safe_report_error safe_deliver safe_erase : tpsafe.

(** Discharges one computation step. *)
Ltac safe_step := eapply safe_bind; [solve [eauto with tpsafe]|intros ? ?].

Lemma safe_dummy fr d : safe (dummy_abort_session fr d) (fun _ => True).
Proof. safe_step. destruct d; by apply safe_ret. Qed.

Lemma safe_send_abort s code : safe (send_abort s code) (fun _ => True).
Proof. apply safe_send_frame. Qed.

Lemma safe_send_eom_ack s : safe (send_eom_ack s) (fun _ => True).
Proof.
  unfold send_eom_ack. destruct (bam s); [by apply safe_ret|]. safe_step.
  destruct (negb a); [safe_step|]; by apply safe_ret.
Qed.

Lemma safe_response_cts s : safe (response_cts s) (fun _ => True).
Proof. unfold response_cts. safe_step. by apply safe_ret. Qed.

Hint Resolve safe_dummy safe_send_abort safe_send_eom_ack safe_response_cts : tpsafe.

(** ** Copies *)

Lemma avail_bound n k : 1 <= k <= 255 -> 7 * (k - 1) <= n <= 65535 ->
  packet_offset k = 7 * (k - 1) /\ 0 <= packet_avail n k <= 7 /\ packet_offset k + packet_avail n k <= n.
Proof.
  intros Hk Hn. rewrite packet_offset_eq, packet_avail_eq by lia. unfold chunk_size. lia.
Qed.

Lemma safe_copy_n src off n dst doff : off + n <= len src -> doff + n <= len dst ->
  0 <= off -> 0 <= n -> 0 <= doff ->
  safe (copy_n src off n dst doff) (fun l => length l = length dst).
Proof.
  intros ????? t Ht. rewrite copy_n_ok by done. do 2 eexists. split; [done|]. split; [done|].
  rewrite !length_app, !length_take, !length_drop. lia.
Qed.

(** ** Sending *)

Lemma safe_make_packet s : session_ok s -> 1 <= next_seq s <= total_packets s ->
  safe (make_packet s) (fun _ => True).
Proof.
  intros (Ht & Hb & _) Hn. destruct (avail_bound (len (buffer s)) (next_seq s)) as (Ho & Ha & Hs); [lia..|].
  unfold make_packet. eapply safe_bind; [apply safe_copy_n; simpl; lia|]. intros l _. by apply safe_ret.
Qed.

Lemma safe_send_data_loop count s :
  session_ok s -> 1 <= next_seq s -> next_seq s + Z.of_nat count <= 256 ->
  safe (send_data_loop count s) (fun r => session_ok (snd r)).
Proof.
  revert s. induction count as [|count IH]; intros s Hs H1 H2; cbn [send_data_loop];
    (destruct (Z.leb_spec (next_seq s) (total_packets s)); [|by apply safe_ret]); [by apply safe_ret|].
  eapply safe_bind; [by apply safe_make_packet|]. intros fr _. safe_step. destruct (negb a).
  - safe_step. safe_step. by apply safe_ret.
  - safe_step. cbn [next_seq set_last_activity].
    destruct (decide (next_seq s + 1 = 256)) as [Hw|Hw].
    + assert (count = 0%nat) as -> by lia. cbn [send_data_loop next_seq total_packets set_next_seq].
      destruct (_ <=? _); by apply safe_ret.
    + apply IH; [done|simpl; rewrite wrap_small by (unfold is_uint; lia); lia..].
Qed.

Lemma safe_send_data_packets s :
  session_ok s -> 1 <= next_seq s -> next_seq s + window_size s <= 256 -> 0 <= window_size s ->
  safe (send_data_packets s) (fun r => session_ok (snd r)).
Proof.
  intros Hs H1 H2 H3. eapply safe_bind; [apply safe_send_data_loop; [done|lia..]|].
  intros [ok s'] Hs'. destruct (negb ok); [by apply safe_ret|].
  destruct (_ <? _); [|by apply safe_ret]. safe_step. by apply safe_ret.
Qed.

Lemma safe_on_session {A} key s (f : TpSession -> M (A * TpSession)) :
  safe (f s) (fun r => session_ok (snd r)) -> safe (on_session key s f) (fun _ => True).
Proof.
  intros Hf. eapply safe_bind; [exact Hf|]. intros [r s'] Hs'.
  eapply safe_bind; [by apply safe_put|]. intros _ _. by apply safe_ret.
Qed.

Lemma safe_send bytes dest g : safe (send bytes dest g) (fun _ => True).
Proof.
  unfold send, start_tx. destruct (Z.leb_spec (len bytes) 8); [by apply safe_ret|].
  destruct (Z.ltb_spec 1785 (len bytes)); [safe_step; by apply safe_ret|].
  safe_step. safe_step. rewrite (wrap_small 16), (wrap_small 8)
    by (unfold is_uint; Z.div_mod_to_equations; lia).
  set (s := Session _ _ _ _ _ _ _ _ _ _ _ _).
  assert (Hs : session_ok s) by (unfold session_ok; simpl; Z.div_mod_to_equations; lia).
  eapply safe_bind; [by apply safe_put|]. intros _ _.
  destruct (dest =? 0xFF); apply safe_on_session.
  - safe_step. destruct (negb _); [safe_step; safe_step; by apply safe_ret|]. safe_step.
    apply safe_send_data_packets; [exact Hs|simpl; lia..].
  - safe_step. destruct (negb _); [safe_step; safe_step; by apply safe_ret|]. safe_step.
    by apply safe_ret.
Qed.

(** ** Receiving *)

(** The frame announces consistent sizes: the packets of a message end at most
    where its buffer ends, at least one packet may be sent at a time, and only
    packets with the numbers 1 to 255 are asked for. *)
Definition well_formed (fr : frame) : Prop :=
  payload_ok (payload fr) /\
  (pgn (header fr) = PGN_TP_CM ->
   match control_of_byte (byte 0 fr) with
   | Some RTS => 7 * (byte 3 fr - 1) <= payload_size fr /\ byte 4 fr <> 0
   | Some BAM => 7 * (byte 3 fr - 1) <= payload_size fr
   | Some CTS => 1 <= byte 2 fr /\ byte 1 fr <> 0 /\ byte 1 fr + byte 2 fr <= 256
   | _ => True
   end).

Lemma byte_range fr i : payload_ok (payload fr) -> is_uint 8 (byte i fr).
Proof.
  intros Hp. unfold byte. destruct (nth_in_or_default i (payload fr) 0) as [Hin|Hd]; [|by rewrite Hd].
  destruct Hp as [_ Hp]. by apply (proj1 (List.Forall_forall _ _) Hp).
Qed.

Lemma payload_size_range fr : 0 <= payload_size fr <= 65535.
Proof. pose proof (wrap_range 16 (byte 1 fr .| (byte 2 fr .<< 8))) as Hr. unfold is_uint in Hr. unfold payload_size. lia. Qed.

Lemma rx_session_ok fr d w dst src b n :
  payload_ok (payload fr) -> 7 * (byte 3 fr - 1) <= payload_size fr -> w <> 0 ->
  session_ok (Session d (replicate (Z.to_nat (payload_size fr)) 0) (byte 3 fr) 1 (payload_size fr) w
    dst src (get_payload_pgn fr) b n InProgress).
Proof.
  intros Hp Hs Hw. pose proof (byte_range fr 3 Hp) as H3. pose proof (payload_size_range fr).
  unfold session_ok, is_uint in *. simpl. rewrite length_replicate. lia.
Qed.

Lemma safe_start_rx_rts fr : payload_ok (payload fr) ->
  7 * (byte 3 fr - 1) <= payload_size fr -> byte 4 fr <> 0 -> safe (start_rx_rts fr) (fun _ => True).
Proof.
  intros Hp Hs Hw. unfold start_rx_rts. safe_step. destruct (negb _); [by apply safe_ret|]. safe_step.
  eapply safe_bind; [by apply safe_put, rx_session_ok|]. intros _ _. apply safe_response_cts.
Qed.

Lemma safe_start_rx_bam fr : payload_ok (payload fr) ->
  7 * (byte 3 fr - 1) <= payload_size fr -> safe (start_rx_bam fr) (fun _ => True).
Proof. intros Hp Hs. unfold start_rx_bam. safe_step. by apply safe_put, rx_session_ok. Qed.

Lemma safe_handle_cts fr : payload_ok (payload fr) ->
  1 <= byte 2 fr -> byte 1 fr <> 0 -> byte 1 fr + byte 2 fr <= 256 -> safe (handle_cts fr) (fun _ => True).
Proof.
  intros Hp H2 H1 H12. pose proof (byte_range fr 1 Hp) as R1. unfold is_uint in R1. unfold handle_cts. safe_step.
  eapply safe_bind; [apply safe_find|]. intros [s|] Hs; [|safe_step; safe_step; apply safe_report_error].
  eapply safe_bind; [|intros _ _; by apply safe_ret]. apply safe_on_session.
  destruct (Hs s eq_refl) as (? & ? & _). apply safe_send_data_packets; [unfold session_ok; simpl; lia|simpl; lia..].
Qed.

Lemma safe_accept_dt key s seq fr : session_ok s -> payload_ok (payload fr) ->
  1 <= seq <= total_packets s -> safe (accept_dt key s seq fr) (fun _ => True).
Proof.
  intros (Ht & Hb & Hw) Hp Hseq. destruct (avail_bound (len (buffer s)) seq) as (Ho & Ha & Hs); [lia..|].
  unfold accept_dt. eapply safe_bind; [destruct Hp as [Hlen _]; apply safe_copy_n; rewrite ?Hlen; lia|].
  intros l Hl. cbv beta in Hl. safe_step.
  set (s' := set_last_activity _ _). assert (Hok : session_ok s') by (unfold session_ok; simpl; rewrite Hl; lia).
  eapply safe_bind; [by apply safe_put|]. intros _ _.
  destruct (_ =? total_packets _).
  - safe_step. destruct (negb _); [safe_step; by apply safe_ret|]. by apply safe_put.
  - simpl window_size. rewrite (proj2 (Z.eqb_neq _ _) Hw).
    destruct (_ && _); [apply safe_response_cts|by apply safe_ret].
Qed.

Lemma safe_handle_dt fr : payload_ok (payload fr) -> safe (handle_dt fr) (fun _ => True).
Proof.
  intros Hp. unfold handle_dt. eapply safe_bind; [apply safe_find|].
  intros [s|] Hs; [|safe_step; safe_step; apply safe_report_error]. specialize (Hs s eq_refl).
  assert (Hrej : forall key code what, safe (reject_dt key s code what) (fun _ => True)).
  { intros. eapply safe_bind; [by apply safe_put|]. intros _ _. safe_step. apply safe_report_error. }
  destruct (_ || _) eqn:Hr; [apply Hrej|]. destruct (_ <? next_seq s); [apply Hrej|].
  destruct (negb _); [apply Hrej|]. apply safe_accept_dt; [done..|]. bool_hyps. lia.
Qed.

Lemma safe_on_can_frame fr : well_formed fr -> safe (on_can_frame fr) (fun _ => True).
Proof.
  intros [Hp Hwf]. unfold on_can_frame. destruct (Z.eqb_spec (pgn (header fr)) PGN_TP_CM) as [Hcm|].
  - specialize (Hwf Hcm). unfold handle_cm. destruct (control_of_byte (byte 0 fr)) as [[]|];
      [| | | | |by apply safe_ret].
    + destruct Hwf. by apply safe_start_rx_rts.
    + destruct Hwf as (? & ? & ?). by apply safe_handle_cts.
    + unfold complete_rx. eapply safe_bind; [apply safe_find|].
      intros [s|] Hs; [|safe_step; safe_step; apply safe_report_error]. exact (safe_put _ (set_state Completed s) (Hs s eq_refl)).
    + by apply safe_start_rx_bam.
    + unfold handle_abort. safe_step. eapply safe_bind; [apply safe_find|].
      intros [s|] Hs; [|by apply safe_ret]. eapply safe_bind; [exact (safe_put _ (set_state ABorted s) (Hs s eq_refl))|].
      intros _ _. apply safe_report_error.
  - destruct (_ =? _); [by apply safe_handle_dt|by apply safe_ret].
Qed.

Lemma safe_tick order : safe (tick order) (fun _ => True).
Proof.
  unfold tick. safe_step. induction order as [|key order IH]; [by apply safe_ret|].
  apply (safe_bind _ _ (fun _ => True)); [|intros _ _; exact IH]. unfold tick_session.
  eapply safe_bind; [apply safe_find|]. intros [s|] _; [|by apply safe_ret].
  destruct (_ <? _); [safe_step; safe_step; apply safe_erase|].
  destruct (_ <? _); [apply safe_erase|by apply safe_ret].
Qed.

(** ** Runs *)

Inductive tp_op := op_send (bytes : list Z) (dest g : Z) | op_frame (fr : frame) | op_tick (order : list (Z * Z)).

Definition tp_run_op (o : tp_op) : M (E := E) unit :=
  match o with
  | op_send bytes dest g => _ ← send bytes dest g; mret tt
  | op_frame fr => on_can_frame fr
  | op_tick order => tick order
  end.

Fixpoint tp_run (ops : list tp_op) : M (E := E) unit :=
  match ops with
  | [] => mret tt
  | o :: ops => tp_run_op o;; tp_run ops
  end.

Definition tp_op_ok (o : tp_op) : Prop := match o with op_frame fr => well_formed fr | _ => True end.

Lemma safe_run ops : Forall tp_op_ok ops -> safe (tp_run ops) (fun _ => True).
Proof.
  induction 1 as [|o ops Ho _ IH]; [by apply safe_ret|].
  apply (safe_bind _ _ (fun _ => True)); [|intros _ _; exact IH].
  destruct o; cbn [tp_run_op]; [|by apply safe_on_can_frame|apply safe_tick].
  eapply safe_bind; [apply safe_send|]. intros _ _. by apply safe_ret.
Qed.

(** C15.  No run faults on well-formed frames: from the constructor on, any
    sequence of [send], [on_can_frame] and [tick], on any bus, with any
    message, ends without a division by zero or a copy outside of a buffer. *)
Theorem transport_never_faults_on_well_formed_frames ops (bus : E) :
  Forall tp_op_ok ops -> exists t, tp_run ops (transport_protocol bus) = Ok (tt, t) /\ sessions_ok t.
Proof.
  intros Hops. destruct (safe_run ops Hops (transport_protocol bus)) as ([] & t & E1 & Ht & _); [by apply map_Forall_empty|].
  by exists t.
Qed.

End Safety.
