(* ===== verification/TransportTypes.v ===== *)
(** * The values of the transport protocol keep their types

    The members of a session and the bytes of a frame are integers of fixed width in
    the source and elements of [Z] in the model.  In every run they stay in the range
    of their type, and every frame that reaches the bus has eight bytes and a J1939
    header, whatever messages are sent and whatever frames come in. *)

From Stdlib Require Import String.
From stdpp Require Import gmap list.
From S2P Require Import Prelude J1939Type Canary Header HeaderFacts Name NameFacts Frame Transport.
From S2P Require Import TransportFacts TransportFrame TransportRoundTrip TransportSafety.

Create HintDb typed.

Section Types.
Context `{CanaryLaws} {E : Type} `{!Bus E} `{!ReliableBus}.

(** ** The types *)

Definition session_typed (s : TpSession) : Prop :=
  Forall (is_uint 8) (buffer s) /\ is_uint 8 (total_packets s) /\ is_uint 8 (next_seq s) /\ is_uint 16 (length_ s) /\
  is_uint 8 (window_size s) /\ is_uint 8 (dest_sa s) /\ is_uint 8 (src_sa s) /\ is_uint 32 (spgn s).

Definition header_typed (h : frame_header) : Prop := j1939_flags h /\ is_uint 29 (id h).

Definition frame_typed (fr : frame) : Prop := payload_ok (payload fr) /\ header_typed (header fr).

Definition data_typed (d : data) : Prop := Forall (is_uint 8) (data_payload d) /\ header_typed (data_header d).

Definition transport_typed (t : transport E) : Prop :=
  is_uint 8 (bus_source_address (bus_ t)) /\ map_Forall (fun _ s => session_typed s) (sessions_ t) /\
  Forall frame_typed (sent (bus_ t)) /\ Forall data_typed (datas t).

(** [m] keeps the types, and what it returns satisfies [Q]. *)
Definition typing {A} (m : M (E := E) A) (Q : A -> Prop) : Prop :=
  forall t a t', transport_typed t -> m t = Ok (a, t') -> transport_typed t' /\ Q a.

(** ** The rules *)

Lemma typing_ret {A} (a : A) (Q : A -> Prop) : Q a -> typing (mret a) Q.
Proof. by intros Ha t b t' Ht [= <- <-]. Qed.

Lemma typing_bind {A B} (m : M A) (k : A -> M B) (P : A -> Prop) (Q : B -> Prop) :
  typing m P -> (forall a, P a -> typing (k a) Q) -> typing (m ≫= k) Q.
Proof.
  intros Hm Hk t b t' Ht Hr. unfold mbind, M_bind in Hr. destruct (m t) as [[a t1]|] eqn:E1; [|done].
  destruct (Hm t a t1 Ht E1) as [Ht1 Ha]. by apply (Hk a Ha t1).
Qed.

Lemma typing_fail {A} f (Q : A -> Prop) : typing (fail f) Q.
Proof. by intros t a t' _ [=]. Qed.

Lemma typing_send_frame fr : frame_typed fr -> typing (send_frame fr) (fun _ => True).
Proof.
  intros Hfr t a t' (Ho & Hs & Hf & Hd) Hr. destruct (send_frame_ok fr t) as (t1 & E1 & (A1 & B1 & _ & _ & M1 & V1)).
  rewrite E1 in Hr. injection Hr as <- <-. split; [|done]. unfold transport_typed, datas in *. rewrite A1, B1, M1, V1.
  split_and!; try done. by apply Forall_app_2; [|constructor].
Qed.

Lemma typing_now : typing now (fun _ => True).
Proof.
  intros t a t' Ht Hr. destruct (now_ok t) as (n & t1 & E1 & (A1 & B1 & _ & _ & M1 & V1)).
  rewrite E1 in Hr. injection Hr as <- <-. split; [|done]. unfold transport_typed, datas in *.
  by rewrite A1, B1, M1, V1, app_nil_r.
Qed.

Lemma typing_source : typing source (is_uint 8).
Proof. intros t a t' Ht [= <- <-]. split; [done|apply Ht]. Qed.

Lemma typing_report_error what ec : typing (report_error what ec) (fun _ => True).
Proof.
  intros t a t' Ht [= <- <-]. split; [|done]. destruct (error_callback_ t); [|done].
  unfold transport_typed, datas in *. simpl. by rewrite omap_app, app_nil_r, called_records, called_address.
Qed.

Lemma typing_deliver d : data_typed d -> typing (deliver d) (fun _ => True).
Proof.
  intros Hdt t a t' Ht [= <- <-]. split; [|done]. destruct (rx_callback_ t); [|done].
  destruct Ht as (Ho & Hs & Hf & Hd). unfold transport_typed, datas in *. simpl. rewrite omap_app, called_records, called_address.
  split_and!; try done. by apply Forall_app_2; [|constructor].
Qed.

Lemma typing_put key s : session_typed s -> typing (put key s) (fun _ => True).
Proof.
  intros Hst t a t' (Ho & Hs & Hf & Hd) [= <- <-]. split; [|done]. split_and!; try done. by apply map_Forall_insert_2.
Qed.

Lemma typing_erase key : typing (update (fun t => with_sessions (delete key (sessions_ t)) t)) (fun _ => True).
Proof.
  intros t a t' (Ho & Hs & Hf & Hd) [= <- <-]. split; [|done]. split_and!; try done. by apply map_Forall_delete.
Qed.

Lemma typing_find key : typing (find key) (fun it => forall s, it = Some s -> session_typed s).
Proof. intros t a t' Ht [= <- <-]. split; [done|]. intros s Hs. by apply (proj1 (proj2 Ht) key). Qed.

(** Goes through the first computation of a sequence. *)
Ltac keep_step := eapply typing_bind; [solve [eauto 3 with typed]|intros ? ?].

(** ** Sessions *)

Lemma set_next_seq_typed v s : is_uint 8 v -> session_typed s -> session_typed (set_next_seq v s).
Proof. unfold session_typed. simpl. tauto. Qed.

Lemma set_window_size_typed v s : is_uint 8 v -> session_typed s -> session_typed (set_window_size v s).
Proof. unfold session_typed. simpl. tauto. Qed.

Lemma set_buffer_typed l s : Forall (is_uint 8) l -> session_typed s -> session_typed (set_buffer l s).
Proof. unfold session_typed. simpl. tauto. Qed.

Lemma set_last_activity_typed n s : session_typed s -> session_typed (set_last_activity n s).
Proof. done. Qed.

Lemma set_state_typed st s : session_typed s -> session_typed (set_state st s).
Proof. done. Qed.

Lemma u8_typed v : is_uint 8 (u8 v).
Proof. by apply wrap_range. Qed.

Hint Resolve set_next_seq_typed set_window_size_typed set_buffer_typed set_last_activity_typed set_state_typed
  u8_typed : typed.

(** ** Frames *)

Lemma base_frame_typed g dst src : frame_typed (make_base_frame g dst src).
Proof.
  split; [by split; [|repeat constructor]|]. apply built_headers_are_j1939.
  apply built_set_payload_length, built_set_source_address, built_set_pdu_specific, built_set_pgn, built_default.
Qed.

Lemma set_byte_typed i v fr : is_uint 8 v -> frame_typed fr -> frame_typed (set_byte i v fr).
Proof.
  intros Hv [[Hl Hp] Hh]. split; [|done]. split; simpl; [by rewrite length_insert|by apply Forall_insert].
Qed.

Lemma cm_typed ctrl dst src : frame_typed (make_cm_frame ctrl dst src).
Proof. apply set_byte_typed; [by destruct ctrl|apply base_frame_typed]. Qed.

Lemma low_byte v : is_uint 8 (v .& 0xFF).
Proof. change 0xFF with (Z.ones 8). rewrite Z.land_ones by done. by apply (wrap_range 8). Qed.

Lemma fill_typed s fr : session_typed s -> frame_typed fr -> frame_typed (fill_tp_payload s fr).
Proof.
  intros (_ & Ht & _ & _ & Hw & _) Hfr. unfold fill_tp_payload.
  repeat (apply set_byte_typed; [first [done | apply low_byte | by apply wrap_range]|]). done.
Qed.

Hint Resolve base_frame_typed set_byte_typed cm_typed fill_typed : typed.

Lemma typing_send_abort s code : session_typed s -> typing (send_abort s code) (fun _ => True).
Proof.
  intros Hs. apply typing_send_frame. repeat (apply set_byte_typed; [by destruct code|]). auto with typed.
Qed.

Lemma typing_response_cts s : session_typed s -> typing (response_cts s) (fun _ => True).
Proof.
  intros Hs. eapply typing_bind; [apply typing_send_frame|by intros; apply typing_ret].
  repeat (apply set_byte_typed; [first [done | apply Hs]|]). auto with typed.
Qed.

Lemma typing_send_eom_ack s : session_typed s -> typing (send_eom_ack s) (fun _ => True).
Proof.
  intros Hs. unfold send_eom_ack. destruct (bam s); [by apply typing_ret|].
  eapply typing_bind; [apply typing_send_frame, set_byte_typed; [done|auto with typed]|].
  intros ok _. destruct (negb ok); [|by apply typing_ret].
  eapply typing_bind; [apply typing_report_error|]. by intros; apply typing_ret.
Qed.

Hint Resolve typing_send_frame typing_now typing_source typing_report_error typing_deliver typing_put typing_erase
  typing_send_abort typing_response_cts typing_send_eom_ack : typed.

(** ** Copies *)

(** The bytes a copy produces are bytes, and its destination keeps its length. *)
Lemma typing_copy_n src off n dst doff :
  0 <= off -> 0 <= n -> 0 <= doff -> Forall (is_uint 8) src -> Forall (is_uint 8) dst ->
  typing (copy_n src off n dst doff) (fun l => length l = length dst /\ Forall (is_uint 8) l).
Proof.
  intros Ho Hn Hdo Hs Hd. unfold copy_n. destruct (Z.ltb_spec (len src) (off + n)); [apply typing_fail|].
  destruct (Z.ltb_spec (len dst) (doff + n)); [apply typing_fail|]. apply typing_ret. split.
  - rewrite !length_app, !length_take, !length_drop. lia.
  - repeat apply Forall_app_2; auto using Forall_take, Forall_drop.
Qed.

Lemma packet_offset_pos seq : 0 <= packet_offset seq.
Proof. by apply (wrap_range 64). Qed.

Lemma packet_avail_pos n seq : 0 <= packet_avail n seq.
Proof. unfold packet_avail. pose proof (wrap_range 64 (n - packet_offset seq)) as Hw. unfold is_uint in Hw. lia. Qed.

Hint Resolve packet_offset_pos packet_avail_pos : typed.

(** ** Sending *)

Lemma typing_make_packet s : session_typed s -> typing (make_packet s) frame_typed.
Proof.
  intros Hs. unfold make_packet. set (fr := set_byte _ _ _).
  assert (Hfr : frame_typed fr) by (apply set_byte_typed; [apply Hs|apply base_frame_typed]). destruct Hfr as [[Hl Hp] Hh].
  eapply typing_bind; [apply typing_copy_n; auto with typed; [done|apply Hs]|].
  intros l [Hll Hlp]. apply typing_ret. split; [|done]. split; [|done]. simpl. congruence.
Qed.

Lemma typing_send_data_loop count s : session_typed s ->
  typing (send_data_loop count s) (fun r => session_typed (snd r)).
Proof.
  revert s. induction count as [|count IH]; intros s Hs; cbn [send_data_loop];
    (destruct (_ <=? _); [|by apply typing_ret]); [by apply typing_ret|].
  eapply typing_bind; [by apply typing_make_packet|]. intros fr Hfr. keep_step. destruct (negb a).
  - keep_step. keep_step. by apply typing_ret.
  - keep_step. apply IH. auto with typed.
Qed.

Lemma typing_send_data_packets s : session_typed s -> typing (send_data_packets s) (fun r => session_typed (snd r)).
Proof.
  intros Hs. eapply typing_bind; [by apply typing_send_data_loop|]. intros [ok s'] Hs'. simpl in Hs'.
  destruct (negb ok); [by apply typing_ret|]. destruct (_ <? _); [|by apply typing_ret].
  keep_step. apply typing_ret. by apply set_state_typed.
Qed.

Lemma typing_on_session {A} key s (f : TpSession -> M (A * TpSession)) :
  typing (f s) (fun r => session_typed (snd r)) -> typing (on_session key s f) (fun _ => True).
Proof.
  intros Hf. eapply typing_bind; [exact Hf|]. intros [r s'] Hs'. simpl in Hs'. keep_step. by apply typing_ret.
Qed.

Lemma typing_send bytes dest g : Forall (is_uint 8) bytes -> is_uint 8 dest -> is_uint 32 g ->
  typing (send bytes dest g) (fun _ => True).
Proof.
  intros Hb Hd Hg. unfold send, start_tx. destruct (_ <=? 8); [by apply typing_ret|].
  destruct (1785 <? _); [keep_step; by apply typing_ret|].
  keep_step. keep_step. set (s := Session _ _ _ _ _ _ _ _ _ _ _ _).
  assert (Hs : session_typed s) by (split_and!; first [done | by apply wrap_range]). keep_step.
  destruct (dest =? 0xFF); apply typing_on_session; (eapply typing_bind; [apply typing_send_frame; auto with typed|]);
    intros ok _; (destruct (negb ok); [keep_step; keep_step; by apply typing_ret|]); keep_step.
  - apply typing_send_data_packets. auto with typed.
  - apply typing_ret. by apply set_last_activity_typed.
Qed.

(** ** Receiving *)

Lemma payload_pgn_range fr : payload_ok (payload fr) -> is_uint 32 (get_payload_pgn fr).
Proof.
  intros Hp. apply (is_uint_mono 24); [lia|]. pose proof (byte_range fr 5 Hp). pose proof (byte_range fr 6 Hp).
  pose proof (byte_range fr 7 Hp). unfold get_payload_pgn. repeat apply lor_is_uint; try done.
  - by apply (is_uint_mono 8).
  - by apply (is_uint_mono 16), (shiftl_is_uint 8 8).
  - by apply (shiftl_is_uint 8 16).
Qed.

Lemma rx_session_typed fr d w dst b n : payload_ok (payload fr) -> is_uint 8 w -> is_uint 8 dst ->
  session_typed (Session d (replicate (Z.to_nat (payload_size fr)) 0) (byte 3 fr) 1 (payload_size fr) w
    dst (source_address (header fr)) (get_payload_pgn fr) b n InProgress).
Proof.
  intros Hp Hw Hd. split_and!; simpl; auto using byte_range, source_address_range, payload_pgn_range; try done.
  - by apply Forall_replicate.
  - by apply wrap_range.
Qed.

Lemma typing_dummy fr d : payload_ok (payload fr) -> typing (dummy_abort_session fr d) session_typed.
Proof.
  intros Hp. unfold dummy_abort_session. keep_step.
  destruct d; apply typing_ret; split_and!; simpl; auto using source_address_range, payload_pgn_range; try done; by constructor.
Qed.

Lemma delivery_typed s : session_typed s -> data_typed (Data (delivery_header s) (buffer s)).
Proof.
  intros Hs. split; [apply Hs|]. apply built_headers_are_j1939, built_set_payload_length.
  destruct (negb _); [apply built_set_pdu_specific|]; apply built_set_source_address, built_set_pgn, built_default.
Qed.

Hint Resolve typing_dummy delivery_typed byte_range : typed.

Lemma typing_start_rx_rts fr : payload_ok (payload fr) -> typing (start_rx_rts fr) (fun _ => True).
Proof.
  intros Hp. unfold start_rx_rts. keep_step. destruct (negb _); [by apply typing_ret|]. keep_step.
  assert (Hs := fun n => rx_session_typed fr Rx (byte 4 fr)
    (if is_broadcast (header fr) then J1939_NO_ADDR else pdu_specific (header fr)) false n Hp (byte_range fr 4 Hp)
    ltac:(destruct (is_broadcast _); [done|apply pdu_specific_range])).
  eapply typing_bind; [apply typing_put, Hs|]. intros _ _. apply typing_response_cts, Hs.
Qed.

Lemma typing_start_rx_bam fr : payload_ok (payload fr) -> typing (start_rx_bam fr) (fun _ => True).
Proof. intros Hp. unfold start_rx_bam. keep_step. by apply typing_put, rx_session_typed. Qed.

Lemma typing_handle_cts fr : payload_ok (payload fr) -> typing (handle_cts fr) (fun _ => True).
Proof.
  intros Hp. unfold handle_cts. keep_step. eapply typing_bind; [apply typing_find|].
  intros [s|] Hs; [|keep_step; keep_step; apply typing_report_error]. specialize (Hs s eq_refl).
  eapply typing_bind; [|intros _ _; by apply typing_ret]. apply typing_on_session, typing_send_data_packets. auto with typed.
Qed.

Lemma typing_accept_dt key s seq fr : session_typed s -> payload_ok (payload fr) ->
  typing (accept_dt key s seq fr) (fun _ => True).
Proof.
  intros Hs [Hl Hp]. unfold accept_dt. eapply typing_bind; [apply typing_copy_n; auto with typed; [done|apply Hs]|].
  intros l [_ Hb]. keep_step. set (s' := set_last_activity _ _).
  assert (Hs' : session_typed s') by (subst s'; auto with typed). keep_step. destruct (_ =? total_packets _).
  - keep_step. destruct (negb _); [keep_step; by apply typing_ret|]. auto with typed.
  - destruct (_ =? 0); [apply typing_fail|]. destruct (_ && _); [auto with typed|by apply typing_ret].
Qed.

Lemma typing_handle_dt fr : payload_ok (payload fr) -> typing (handle_dt fr) (fun _ => True).
Proof.
  intros Hp. unfold handle_dt. eapply typing_bind; [apply typing_find|].
  intros [s|] Hs; [|keep_step; keep_step; apply typing_report_error]. specialize (Hs s eq_refl).
  assert (Hrej : forall key code what, typing (reject_dt key s code what) (fun _ => True)).
  { intros. unfold reject_dt. keep_step. keep_step. apply typing_report_error. }
  repeat (destruct (_ : bool) ; [apply Hrej|]). by apply typing_accept_dt.
Qed.

Lemma typing_on_can_frame fr : payload_ok (payload fr) -> typing (on_can_frame fr) (fun _ => True).
Proof.
  intros Hp. unfold on_can_frame. destruct (_ =? PGN_TP_CM).
  - unfold handle_cm. destruct (control_of_byte (byte 0 fr)) as [[]|]; [| | | | |by apply typing_ret].
    + by apply typing_start_rx_rts.
    + by apply typing_handle_cts.
    + unfold complete_rx. eapply typing_bind; [apply typing_find|].
      intros [s|] Hs; [|keep_step; keep_step; apply typing_report_error]. auto with typed.
    + by apply typing_start_rx_bam.
    + unfold handle_abort. keep_step. eapply typing_bind; [apply typing_find|].
      intros [s|] Hs; [|by apply typing_ret]. specialize (Hs s eq_refl). keep_step. apply typing_report_error.
  - destruct (_ =? _); [by apply typing_handle_dt|by apply typing_ret].
Qed.

Lemma typing_tick order : typing (tick order) (fun _ => True).
Proof.
  unfold tick. keep_step. induction order as [|key order IH]; [by apply typing_ret|].
  apply (typing_bind _ _ (fun _ => True)); [|intros _ _; exact IH]. unfold tick_session.
  eapply typing_bind; [apply typing_find|]. intros [s|] Hs; [|by apply typing_ret]. specialize (Hs s eq_refl).
  destruct (_ <? _); [keep_step; keep_step; apply typing_erase|].
  destruct (_ <? _); [apply typing_erase|by apply typing_ret].
Qed.

(** ** Runs *)

(** The arguments have the types of the parameters of the functions. *)
Definition op_typed (o : tp_op) : Prop :=
  match o with
  | op_send bytes dest g => Forall (is_uint 8) bytes /\ is_uint 8 dest /\ is_uint 32 g
  | op_frame fr => payload_ok (payload fr)
  | op_tick _ => True
  end.

Lemma typing_run ops : Forall op_typed ops -> typing (tp_run ops) (fun _ => True).
Proof.
  induction 1 as [|o ops Ho _ IH]; [by apply typing_ret|].
  apply (typing_bind _ _ (fun _ => True)); [|intros _ _; exact IH].
  destruct o; cbn [tp_run_op op_typed] in *; [|by apply typing_on_can_frame|apply typing_tick].
  destruct Ho as (? & ? & ?). eapply typing_bind; [by apply typing_send|]. intros _ _. by apply typing_ret.
Qed.

(** C16.  The transport protocol is type sound.  Let any messages, frames and clock
    readings come in, in any order, with arguments of the types of the parameters.
    Every member of every session is then in the range of its C++ type, every frame
    on the bus has eight bytes and an extended identifier of 29 bits with the flags
    of J1939, and so has the header of every delivered message, whose payload
    consists of bytes.  If the frames are well formed moreover, the run does not fault. *)
Theorem transport_keeps_types ops t0 :
  transport_typed t0 -> Forall op_typed ops ->
  (forall t, tp_run ops t0 = Ok (tt, t) -> transport_typed t) /\
  (sessions_ok t0 -> Forall tp_op_ok ops -> exists t, tp_run ops t0 = Ok (tt, t) /\ transport_typed t).
Proof.
  intros Ht Hops. assert (Hk : forall t, tp_run ops t0 = Ok (tt, t) -> transport_typed t).
  { intros t Hr. by destruct (typing_run ops Hops t0 tt t Ht Hr). }
  split; [exact Hk|]. intros Hs Hok. destruct (safe_run ops Hok t0 Hs) as ([] & t & E1 & _).
  exists t. auto.
Qed.

End Types.
