(* ===== verification/TransportHistory.v ===== *)
(** * Delivered messages were sent

    On a bus that loses, repeats or reorders frames, among peers that do not
    follow the protocol, and with messages sent and timers served in between:
    what a receiver delivers consists of the packets of one transfer.  The
    history of a run is the list of the frames that came in; each delivered
    message comes from an announcement in it and from packets after this
    announcement, in their order, and no announcement is used twice. *)

From Stdlib Require Import String.
From stdpp Require Import gmap list list_numbers.
From S2P Require Import Prelude J1939Type Canary Header HeaderFacts Name NameFacts Frame Transport.
From S2P Require Import TransportFacts TransportFrame TransportRoundTrip TransportSafety.

(** The bus does not change its address. *)
Definition same_address {E : Type} `{Bus E} : relation E :=
  fun e e' => bus_source_address e' = bus_source_address e.

#[export] Instance reliable_address `{CanaryHeader} {E : Type} `{!Bus E} `{!ReliableBus} : BusStable (E := E) same_address.
Proof.
  split; [split; [done|]|apply send_address|apply now_address|apply called_address]. intros e1 e2 e3. unfold same_address. congruence.
Qed.

Section History.
Context `{CanaryHeader} {E : Type} `{!Bus E}.

(** ** What frames mean *)

(** The session that a frame announces to a receiver at address [own]. *)
Definition announced (own : Z) (fr : frame) : option (Z * Z) :=
  if pgn (header fr) =? PGN_TP_CM then
    match control_of_byte (byte 0 fr) with
    | Some BAM => Some (source_address (header fr), 0xFF)
    | Some RTS =>
        if pdu_specific (header fr) =? own then
          Some (source_address (header fr),
                if is_broadcast (header fr) then J1939_NO_ADDR else pdu_specific (header fr))
        else None
    | _ => None
    end
  else None.

(** The session that a data packet belongs to. *)
Definition packet_for (fr : frame) : option (Z * Z) :=
  if pgn (header fr) =? PGN_TP_CM then None
  else if pgn (header fr) =? PGN_TP_DT then Some (source_address (header fr), pdu_specific (header fr))
  else None.

(** The message of [n] bytes in the packets [ds]. *)
Definition message_bytes (n : Z) (ds : list frame) : list Z :=
  resize (Z.to_nat n) 0 (concat ((fun d => drop 1 (payload d)) <$> ds)).

(** In the history [tr] the frame [a] at position [j] is the last one to announce
    session [k], and [ds] are packets of this session after it, with the numbers
    1, 2, and so on. *)
Record collected (own : Z) (tr : list frame) (k : Z * Z) (j : nat) (a : frame) (ds : list frame) : Prop := {
  col_at : tr !! j = Some a;
  col_announced : announced own a = Some k;
  col_last : Forall (fun fr => announced own fr <> Some k) (drop (S j) tr);
  col_after : ds `sublist_of` drop (S j) tr;
  col_packets : Forall (fun d => packet_for d = Some k) ds;
  col_numbers : byte 0 <$> ds = seqZ 1 (len ds)
}.

(** The message [d] is that of the announcement at position [j], complete: as many
    packets as it announces, and the size, the parameter group and the addresses
    that it gives. *)
Definition delivered_from (own : Z) (tr : list frame) (d : data) (j : nat) : Prop :=
  exists tr0 k a ds, tr0 `prefix_of` tr /\ collected own tr0 k j a ds /\ len ds = byte 3 a /\
    data_payload d = message_bytes (payload_size a) ds /\
    data_header d =
      delivered (byte 0 a =? to_byte BAM) k.2 k.1 (get_payload_pgn a) (message_bytes (payload_size a) ds).

(** ** The invariant *)

(** The session [s] at [k] holds what the history says; it is complete if its
    announcement is one of the positions [js] of delivered messages. *)
Definition session_from (own : Z) (tr : list frame) (js : list nat) (k : Z * Z) (s : TpSession) : Prop :=
  exists j a ds, collected own tr k j a ds /\ len ds <= byte 3 a /\
    (j ∈ js -> len ds = byte 3 a) /\
    total_packets s = byte 3 a /\ next_seq s = u8 (len ds + 1) /\
    buffer s = message_bytes (payload_size a) ds /\ spgn s = get_payload_pgn a /\
    src_sa s = k.1 /\ dest_sa s = k.2 /\ bam s = (byte 0 a =? to_byte BAM).

Definition history_ok (own : Z) (tr : list frame) (js : list nat) (t : transport E) : Prop :=
  bus_source_address (bus_ t) = own /\ Forall (fun fr => payload_ok (payload fr)) tr /\ NoDup js /\
  Forall2 (delivered_from own tr) (datas t) js /\
  forall k s, k.1 <> own -> sessions_ t !! k = Some s -> session_from own tr js k s.

Lemma collected_next own tr fr k j a ds : announced own fr <> Some k ->
  collected own tr k j a ds -> collected own (tr ++ [fr]) k j a ds.
Proof.
  intros Hfr [Hj Ha Hl Hs Hp Hn]. pose proof (lookup_lt_Some _ _ _ Hj) as Hlt.
  split; [by apply lookup_app_l_Some|done| | |done..]; rewrite drop_app_le by lia.
  - by apply Forall_app_2; [|constructor].
  - by apply sublist_inserts_r.
Qed.

Lemma delivered_from_next own tr fr d j : delivered_from own tr d j -> delivered_from own (tr ++ [fr]) d j.
Proof.
  intros (tr0 & k & a & ds & Hpre & Hrest). exists tr0, k, a, ds. split; [by apply prefix_app_r|done].
Qed.

Lemma delivered_all_next own tr fr ds js :
  Forall2 (delivered_from own tr) ds js -> Forall2 (delivered_from own (tr ++ [fr])) ds js.
Proof. intros Hd. eapply Forall2_impl; [|exact Hd]. intros. by apply delivered_from_next. Qed.

Lemma delivered_from_lt own tr d j : delivered_from own tr d j -> (j < length tr)%nat.
Proof.
  intros (tr0 & k & a & ds & Hpre & [Hj _ _ _ _ _] & _).
  apply lookup_lt_Some in Hj. apply prefix_length in Hpre. lia.
Qed.

Lemma session_from_next own tr fr js k s : announced own fr <> Some k ->
  session_from own tr js k s -> session_from own (tr ++ [fr]) js k s.
Proof. intros Hfr (j & a & ds & Hc & Hrest). exists j, a, ds. split; [by apply collected_next|done]. Qed.

Lemma session_from_similar own tr js k s s' : set_state Completed s = set_state Completed s' ->
  session_from own tr js k s -> session_from own tr js k s'.
Proof.
  intros [=] (j & a & ds & Hc & Hrest). exists j, a, ds. split; [done|].
  repeat match goal with Heq : _ s = _ s' |- _ => rewrite <- Heq; clear Heq end. done.
Qed.

(** ** Steps that do not concern the messages of others *)

(** No message has been delivered, and sessions of other senders have at most been
    removed or marked. *)
Definition benign (own : Z) (t t' : transport E) : Prop :=
  bus_source_address (bus_ t) = own ->
  bus_source_address (bus_ t') = own /\ datas t' = datas t /\
  forall k s', k.1 <> own -> sessions_ t' !! k = Some s' ->
    exists s, sessions_ t !! k = Some s /\ set_state Completed s = set_state Completed s'.

Lemma benign_next own tr fr js t t' : announced own fr = None -> payload_ok (payload fr) ->
  benign own t t' -> history_ok own tr js t -> history_ok own (tr ++ [fr]) js t'.
Proof.
  intros Hfr Hp Hb (Ho & Hok & Hnd & Hd & Hs). destruct (Hb Ho) as (Ho' & Hd' & Hs').
  split_and!; [done|by apply Forall_app_2; [|constructor]|done| |].
  - rewrite Hd'. by apply delivered_all_next.
  - intros k s' Hk Hm. destruct (Hs' k s' Hk Hm) as (s & Hm' & Heq).
    apply (session_from_similar _ _ _ _ s); [done|]. apply session_from_next; [by rewrite Hfr|]. by apply Hs.
Qed.

Lemma benign_keeps own tr js t t' : benign own t t' -> history_ok own tr js t -> history_ok own tr js t'.
Proof.
  intros Hb (Ho & Hok & Hnd & Hd & Hs). destruct (Hb Ho) as (Ho' & Hd' & Hs').
  split_and!; [done..|by rewrite Hd'|].
  intros k s' Hk Hm. destruct (Hs' k s' Hk Hm) as (s & Hm' & Heq).
  apply (session_from_similar _ _ _ _ s); [done|]. by apply Hs.
Qed.

#[local] Instance benign_preorder own : PreOrder (benign own).
Proof.
  split.
  - intros t Ho. split_and!; [done..|]. intros k s _ Hm. by exists s.
  - intros t1 t2 t3 H12 H23 Ho. destruct (H12 Ho) as (O2 & D2 & S2). destruct (H23 O2) as (O3 & D3 & S3).
    split_and!; [done|congruence|]. intros k s3 Hk Hm.
    destruct (S3 k s3 Hk Hm) as (s2 & Hm2 & E2). destruct (S2 k s2 Hk Hm2) as (s1 & Hm1 & E1).
    exists s1. split; [done|congruence].
Qed.

Lemma benign_calm own t t' :
  same_address (bus_ t) (bus_ t') -> datas t' = datas t -> sessions_ t' ⊆ sessions_ t -> benign own t t'.
Proof.
  intros Ha Hd Hs Ho. split_and!; [by rewrite Ha|done|].
  intros k s _ Hm. exists s. split; [by eapply lookup_weaken|done].
Qed.

Context `{!BusStable same_address}.

#[local] Instance benign_steps own : Steps (benign own).
Proof.
  split; [apply _|..].
  - intros fr t a t'. unfold send_frame. pose proof (stable_send fr (bus_ t)) as Hs.
    destruct (bus_send _ _). intros [= _ <-]. by apply benign_calm.
  - intros t a t'. unfold now. pose proof (stable_now (bus_ t)) as Hs.
    destruct (steady_now _). intros [= _ <-]. by apply benign_calm.
  - intros what ec. apply relates_update. intros t. destruct (error_callback_ t); [|done].
    apply benign_calm; [apply stable_called| |done]. unfold datas. simpl. rewrite omap_app. apply app_nil_r.
Qed.

Lemma benign_put_own own x s : relates (benign own) (put (own, x) s).
Proof.
  apply relates_update. intros t Ho. split_and!; [done..|]. intros k s' Hk Hm. exists s'. split; [|done].
  simpl in Hm. rewrite lookup_insert_ne in Hm; [done|]. intros <-. by apply Hk.
Qed.

Lemma benign_erase own key : relates (benign own) (update (fun t => with_sessions (delete key (sessions_ t)) t)).
Proof. apply relates_update. intros t. apply benign_calm; [done..|]. apply delete_subseteq. Qed.

(** The address that a handler reads is [own]. *)
Lemma benign_source {A} own (k : Z -> M A) : relates (benign own) (k own) -> relates (benign own) (source ≫= k).
Proof. intros Hk t a t' Hr Ho. unfold source, gets, mbind, M_bind in Hr. rewrite Ho in Hr. by apply (Hk t a t'). Qed.

(** The session that a handler has found gets a new mark. *)
Lemma benign_mark own key st s t : sessions_ t !! key = Some s ->
  benign own t (with_sessions (<[key := set_state st s]> (sessions_ t)) t).
Proof.
  intros Hs Ho. split_and!; [done..|]. simpl. intros k s' _ Hl.
  destruct (decide (key = k)) as [<-|Hne].
  - rewrite lookup_insert_eq in Hl. injection Hl as <-. by exists s.
  - rewrite lookup_insert_ne in Hl by done. by exists s'.
Qed.

Hint Resolve benign_put_own benign_erase : steps.

Lemma benign_send own bytes dest g : relates (benign own) (send bytes dest g).
Proof. unfold send, start_tx. relate_step; [relate|]. relate_step; [relate|]. apply benign_source. unfold make_key. relate. Qed.

Lemma benign_tick own order : relates (benign own) (tick order).
Proof.
  unfold tick. relate_step; [relate|].
  induction order as [|key order IH]; cbn [tick_loop]; [relate|].
  relate_step; [|done]. unfold tick_session. relate.
Qed.

Lemma benign_handle_cts own fr : relates (benign own) (handle_cts fr).
Proof. apply benign_source. unfold make_key. relate. Qed.

Lemma benign_handle_abort own fr : relates (benign own) (handle_abort fr).
Proof. apply benign_source. unfold make_key. relate. Qed.

Lemma benign_complete_rx own fr : relates (benign own) (complete_rx fr).
Proof.
  intros t a t'. unfold complete_rx, find, gets. erewrite bind_ok by reflexivity.
  destruct (sessions_ t !! _) as [s|] eqn:Hs; [intros [= _ <-]; by apply benign_mark|].
  intros Hr. apply (relates_apply _ _ _ _ _ Hr). relate.
Qed.

(** A packet that is not the next one. *)
Lemma benign_reject own key s code what t a t' : sessions_ t !! key = Some s ->
  reject_dt key s code what t = Ok (a, t') -> benign own t t'.
Proof.
  intros Hs Hr. unfold reject_dt, put, update in Hr. erewrite bind_ok in Hr by reflexivity.
  etrans; [by apply (benign_mark own key ABorted s)|]. apply (relates_apply _ _ _ _ _ Hr). relate.
Qed.

Lemma now_keeps t : exists n t1, now t = Ok (n, t1) /\ same_address (bus_ t) (bus_ t1) /\
  sessions_ t1 = sessions_ t /\ rx_callback_ t1 = rx_callback_ t /\ datas t1 = datas t.
Proof.
  unfold now. pose proof (stable_now (bus_ t)) as Hs. destruct (steady_now (bus_ t)) as [n e].
  eexists _, _. split; [reflexivity|done].
Qed.

(** ** Announcements *)

(** The session that an announcement opens. *)
Definition opened (k : Z * Z) (fr : frame) (w n : Z) : TpSession :=
  Session Rx (replicate (Z.to_nat (payload_size fr)) 0) (byte 3 fr) 1 (payload_size fr) w k.2 k.1
    (get_payload_pgn fr) (byte 0 fr =? to_byte BAM) n InProgress.

Lemma control_of_byte_to b c : control_of_byte b = Some c -> b = to_byte c.
Proof. unfold control_of_byte. intros Hc. repeat case_match; simplify_eq; by apply Z.eqb_eq. Qed.

Lemma on_announcement own fr k t a t' : bus_source_address (bus_ t) = own -> announced own fr = Some k ->
  on_can_frame fr t = Ok (a, t') ->
  exists t1 w n, same_address (bus_ t) (bus_ t1) /\ datas t1 = datas t /\
    sessions_ t1 = <[k := opened k fr w n]> (sessions_ t) /\ benign own t1 t'.
Proof.
  intros Ho Ha Hr. unfold announced in Ha. unfold on_can_frame in Hr.
  destruct (pgn (header fr) =? PGN_TP_CM); [|done]. unfold handle_cm in Hr.
  destruct (control_of_byte (byte 0 fr)) as [[]|] eqn:Hc; try done;
    apply control_of_byte_to in Hc; unfold opened; rewrite Hc.
  - destruct (pdu_specific (header fr) =? own) eqn:Hd; [|done]. apply Some_inj in Ha as <-.
    unfold start_rx_rts, source, gets in Hr. erewrite bind_ok in Hr by reflexivity. rewrite Ho, Hd in Hr.
    cbn [negb] in Hr. destruct (now_keeps t) as (n & t1 & E1 & A1 & S1 & _ & D1). erewrite bind_ok in Hr by exact E1.
    unfold put, update in Hr. erewrite bind_ok in Hr by reflexivity.
    match type of Hr with _ ?st = _ => exists st, (byte 4 fr), n end.
    split_and!; [exact A1|exact D1|by rewrite <- S1|]. apply (relates_apply _ _ _ _ _ Hr). relate.
  - apply Some_inj in Ha as <-. unfold start_rx_bam in Hr.
    destruct (now_keeps t) as (n & t1 & E1 & A1 & S1 & _ & D1). erewrite bind_ok in Hr by exact E1.
    unfold put, update in Hr. injection Hr as _ <-. match goal with |- context [benign _ _ ?st] => exists st, 0xFF, n end.
    split_and!; [exact A1|exact D1|by rewrite <- S1|done].
Qed.

Lemma history_opens own tr fr js k w n t t1 : announced own fr = Some k -> payload_ok (payload fr) ->
  history_ok own tr js t -> same_address (bus_ t) (bus_ t1) -> datas t1 = datas t ->
  sessions_ t1 = <[k := opened k fr w n]> (sessions_ t) -> history_ok own (tr ++ [fr]) js t1.
Proof.
  intros Ha Hp (Ho & Hok & Hnd & Hd & Hs) Hst Hd1 Hs1.
  split_and!; [by rewrite Hst|by apply Forall_app_2; [|constructor]|done|rewrite Hd1; by apply delivered_all_next|].
  intros k' s' Hk' Hm. rewrite Hs1 in Hm. apply lookup_insert_Some in Hm as [[<- <-]|[Hne Hm]].
  - exists (length tr), fr, []. split; [|split_and!; try done].
    + split; [by apply list_lookup_middle|done|by rewrite drop_ge by (rewrite length_app; simpl; lia)..|done|done].
    + pose proof (byte_range fr 3 Hp) as Hb. unfold is_uint in Hb. simpl. lia.
    + intros Hj. apply list_elem_of_lookup in Hj as [i Hi].
      destruct (Forall2_lookup_r _ _ _ _ _ Hd Hi) as (d & _ & Hd2). apply delivered_from_lt in Hd2. lia.
    + unfold message_bytes. simpl. by rewrite resize_nil.
  - apply session_from_next; [congruence|]. by apply Hs.
Qed.

(** ** Packets *)

Lemma length_packets ds : Forall (fun fr => payload_ok (payload fr)) ds ->
  length (concat ((fun d => drop 1 (payload d)) <$> ds)) = (7 * length ds)%nat.
Proof.
  induction 1 as [|d ds [Hl _] _ IH]; [done|].
  rewrite fmap_cons. cbn [concat length]. rewrite length_app, IH, length_drop, Hl. lia.
Qed.

(** Seven bytes, or what is left of [n], after the bytes [cs]. *)
Lemma resize_packet n av (cs c : list Z) : len cs <= n -> length c = 7%nat -> av = Z.min 7 (n - len cs) ->
  take (length cs) (resize (Z.to_nat n) 0 cs) ++ take (Z.to_nat av) c ++
    drop (Z.to_nat (len cs + av)) (resize (Z.to_nat n) 0 cs) = resize (Z.to_nat n) 0 (cs ++ c).
Proof.
  intros Hn Hc ->. rewrite !resize_spec, length_app, (take_ge cs) by lia.
  rewrite take_app_length, drop_app_ge, drop_replicate, take_app, (take_ge cs), <- (assoc_L app) by lia.
  f_equal. f_equal.
  - destruct (decide (n - len cs <= 7)); [f_equal; lia|]. rewrite !take_ge by lia. done.
  - f_equal. lia.
Qed.

(** The copy of the next packet extends the message, or does not return. *)
Lemma copy_next n ds d buf (t t' : transport E) : 0 <= n <= 65535 -> len ds < 255 ->
  Forall (fun fr => payload_ok (payload fr)) ds -> payload_ok (payload d) ->
  copy_n (payload d) 1 (packet_avail n (len ds + 1)) (message_bytes n ds) (packet_offset (len ds + 1)) t = Ok (buf, t') ->
  buf = message_bytes n (ds ++ [d]) /\ t' = t.
Proof.
  intros Hn Hk Hds [Hd _]. pose proof (length_packets ds Hds) as Hc. unfold message_bytes.
  rewrite fmap_app, concat_app. cbn [fmap list_fmap concat]. rewrite app_nil_r.
  set (cs := concat _) in *. set (c := drop 1 (payload d)).
  assert (Hl : length c = 7%nat) by (subst c; rewrite length_drop; lia).
  rewrite packet_offset_eq by lia. unfold copy_n. rewrite length_resize, Hd.
  destruct (Z.ltb_spec (Z.of_nat 8) (1 + packet_avail n (len ds + 1))); [done|].
  destruct (decide (7 * len ds <= n)) as [Hle|Hgt].
  - rewrite packet_avail_eq by lia. unfold chunk_size. replace (len ds + 1 - 1) with (len ds) by lia.
    destruct (_ <? _); [done|]. intros [= <- <-]. split; [|done]. change (drop (Z.to_nat 1) (payload d)) with c.
    replace (Z.to_nat (7 * len ds)) with (length cs) by lia. replace (7 * len ds) with (len cs) by lia.
    apply resize_packet; lia.
  - assert (Ha : packet_avail n (len ds + 1) = 7).
    { unfold packet_avail, wrap. rewrite packet_offset_eq by lia. Z.div_mod_to_equations. lia. }
    rewrite Ha, (proj2 (Z.ltb_lt _ _)) by lia. done.
Qed.

(** The session after a packet with the bytes [buf] in the buffer. *)
Definition stored (s : TpSession) (seq : Z) (buf : list Z) (n : Z) : TpSession :=
  set_last_activity n (set_next_seq (u8 (seq + 1)) (set_buffer buf s)).

Lemma on_accepted own key s seq fr t a t' : accept_dt key s seq fr t = Ok (a, t') ->
  exists buf n t1,
    copy_n (payload fr) 1 (packet_avail (len (buffer s)) seq) (buffer s) (packet_offset seq) t = Ok (buf, t) /\
    same_address (bus_ t) (bus_ t1) /\ sessions_ t1 = <[key := stored s seq buf n]> (sessions_ t) /\
    datas t1 = datas t ++ (if (seq =? total_packets s) && rx_callback_ t
                           then [Data (delivery_header (stored s seq buf n)) buf] else []) /\
    benign own t1 t'.
Proof.
  intros Hr. unfold accept_dt in Hr. destruct (copy_n _ _ _ _ _ t) as [[buf t0]|] eqn:Hcopy;
    [|by unfold mbind, M_bind in Hr; rewrite Hcopy in Hr].
  assert (t0 = t) as -> by (revert Hcopy; unfold copy_n; do 2 (destruct (_ <? _); [done|]); by intros [= _ <-]).
  erewrite bind_ok in Hr by exact Hcopy.
  destruct (now_keeps t) as (n & t1 & E1 & A1 & S1 & R1 & D1). erewrite bind_ok in Hr by exact E1.
  fold (stored s seq buf n) in Hr. set (s1 := stored s seq buf n) in *.
  unfold put, update in Hr. erewrite bind_ok in Hr by reflexivity.
  set (t2 := with_sessions _ t1) in *. exists buf, n.
  change (total_packets s1) with (total_packets s) in Hr. destruct (seq =? total_packets s).
  - unfold deliver, update in Hr. erewrite bind_ok in Hr by reflexivity.
    match type of Hr with _ ?st = _ => exists st; set (t3 := st) in * end.
    assert (Hb : same_address (bus_ t) (bus_ t3) /\ sessions_ t3 = <[key := s1]> (sessions_ t)).
    { subst t3 t2. rewrite <- S1. destruct (rx_callback_ _); [|done]. split; [|done].
      etrans; [exact A1|]. apply stable_called. }
    destruct Hb as [Hb1 Hb2]. split_and!; [done..| |].
    + subst t3 t2. cbn [rx_callback_ with_sessions andb]. rewrite R1, <- D1.
      destruct (rx_callback_ t); unfold datas; simpl; [by rewrite omap_app|by rewrite app_nil_r].
    + destruct (bam s1); cbn [negb] in Hr.
      * injection Hr as _ <-. apply benign_mark. by rewrite Hb2, lookup_insert_eq.
      * apply (relates_apply _ _ _ _ _ Hr). relate.
  - exists t2. rewrite app_nil_r. split_and!; [done..|by rewrite <- S1|done|].
    apply (relates_apply _ _ _ _ _ Hr). relate.
Qed.

Lemma collected_packet own tr fr k j a ds : packet_for fr = Some k -> announced own fr = None ->
  byte 0 fr = len ds + 1 -> collected own tr k j a ds -> collected own (tr ++ [fr]) k j a (ds ++ [fr]).
Proof.
  intros Hfr Hno Hb [Hj Ha Hl Hs Hp Hn]. pose proof (lookup_lt_Some _ _ _ Hj) as Hlt.
  split; [by apply lookup_app_l_Some|done|..]; rewrite ?drop_app_le by lia.
  - apply Forall_app_2; [done|]. constructor; [by rewrite Hno|done].
  - by apply sublist_app.
  - apply Forall_app_2; [done|]. by constructor.
  - rewrite fmap_app, Hn, length_app. cbn [fmap list_fmap length]. rewrite Hb, Nat2Z.inj_add, seqZ_app by lia.
    f_equal. change (seqZ (1 + len ds) (Z.of_nat 1)) with [1 + len ds]. f_equal. lia.
Qed.

Lemma session_from_other own tr js k k' j a ds s : k <> k' -> collected own tr k j a ds ->
  session_from own tr js k' s -> session_from own tr (js ++ [j]) k' s.
Proof.
  intros Hne [Hj Ha _ _ _ _] (j' & a' & ds' & Hc & Hle & Hjs & Hrest). exists j', a', ds'.
  do 2 (split; [done|]). split; [|exact Hrest]. rewrite elem_of_app, list_elem_of_singleton. intros [?| ->]; [by apply Hjs|].
  destruct Hc as [Hj' Ha' _ _ _ _]. congruence.
Qed.

(** The next packet of a session, stored. *)
Lemma session_accepts own tr fr js k s buf (t : transport E) :
  Forall (fun fr => payload_ok (payload fr)) tr -> payload_ok (payload fr) -> session_from own tr js k s ->
  packet_for fr = Some k -> announced own fr = None ->
  1 <= byte 0 fr <= total_packets s -> byte 0 fr = next_seq s ->
  copy_n (payload fr) 1 (packet_avail (len (buffer s)) (byte 0 fr)) (buffer s) (packet_offset (byte 0 fr)) t = Ok (buf, t) ->
  exists j an ds, j ∉ js /\ collected own (tr ++ [fr]) k j an ds /\ len ds = byte 0 fr /\
    total_packets s = byte 3 an /\ buf = message_bytes (payload_size an) ds /\ spgn s = get_payload_pgn an /\
    src_sa s = k.1 /\ dest_sa s = k.2 /\ bam s = (byte 0 an =? to_byte BAM).
Proof.
  intros Hok Hp (j & an & ds & Hc & Hle & Hjs & Htot & Hn & Hbuf & Hg & Hsrc & Hdst & Hbam) Hfr Hno Hseq Hnext Hcopy.
  assert (Hb3 : byte 3 an <= 255).
  { destruct Hc as [Hj _ _ _ _ _]. apply (Forall_lookup_1 _ _ _ _ Hok) in Hj.
    pose proof (byte_range an 3 Hj) as Hb. unfold is_uint in Hb. lia. }
  assert (Hlen : byte 0 fr = len ds + 1 /\ len ds < 255).
  { destruct (decide (len ds = 255)) as [E255|]; [rewrite E255 in Hn; change (u8 (255 + 1)) with 0 in Hn; lia|].
    rewrite wrap_small in Hn by (unfold is_uint; lia). lia. }
  destruct Hlen as [Hb0 Hlt]. pose proof (payload_size_range an) as Hsz.
  assert (Hds : Forall (fun fr => payload_ok (payload fr)) ds).
  { eapply Forall_sublist; [apply (col_after _ _ _ _ _ _ Hc)|]. by apply Forall_drop. }
  assert (Hlb : len (buffer s) = payload_size an) by (rewrite Hbuf; unfold message_bytes; rewrite length_resize; lia).
  rewrite Hlb, Hbuf, Hb0 in Hcopy. destruct (copy_next _ _ _ _ _ _ Hsz Hlt Hds Hp Hcopy) as [-> _].
  exists j, an, (ds ++ [fr]). split_and!; try done.
  - intros Hj. specialize (Hjs Hj). lia.
  - by apply collected_packet.
  - rewrite length_app. simpl. lia.
Qed.

Lemma history_packet own tr fr js k s t a t' : history_ok own tr js t -> payload_ok (payload fr) ->
  packet_for fr = Some k -> announced own fr = None -> k.1 <> own -> sessions_ t !! k = Some s ->
  1 <= byte 0 fr <= total_packets s -> byte 0 fr = next_seq s -> accept_dt k s (byte 0 fr) fr t = Ok (a, t') ->
  exists js', history_ok own (tr ++ [fr]) js' t'.
Proof.
  intros (Ho & Hok & Hnd & Hd & Hs) Hp Hfr Hno Hk Hm Hseq Hnext Hr.
  destruct (on_accepted own _ _ _ _ _ _ _ Hr) as (buf & n & t1 & Hcopy & A1 & S1 & D1 & B1).
  destruct (session_accepts own tr fr js k s buf t) as (j & an & ds & Hj & Hc & Hlen & Htot & -> & Hg & Hsrc & Hdst & Hbam);
    [done|done|by apply Hs|done..|].
  exists (if (byte 0 fr =? total_packets s) && rx_callback_ t then js ++ [j] else js).
  apply (benign_keeps own _ _ t1 _ B1). split_and!; [by rewrite A1|by apply Forall_app_2; [|constructor]|..].
  - destruct (_ && _); [|done]. apply list.NoDup_app. split_and!; [done| |apply NoDup_singleton].
    intros i Hi ->%list_elem_of_singleton. by apply Hj.
  - rewrite D1. destruct (_ && _) eqn:Hlast; [|rewrite app_nil_r; by apply delivered_all_next].
    apply Forall2_app; [by apply delivered_all_next|]. constructor; [|constructor].
    exists (tr ++ [fr]), k, an, ds. split_and!; try done; [bool_hyps; lia|].
    unfold delivery_header, delivered, stored.
    cbn [data_header buffer bam spgn src_sa dest_sa set_last_activity set_next_seq set_buffer].
    rewrite Hbam, Hg, Hsrc, Hdst. destruct (byte 0 an =? to_byte BAM); reflexivity.
  - intros k' s' Hk' Hm'. rewrite S1 in Hm'. apply lookup_insert_Some in Hm' as [[<- <-]|[Hne Hm']].
    + exists j, an, ds. unfold stored. simpl. rewrite Hlen. split_and!; try done; [lia|].
      destruct (_ && _) eqn:Hlast; [bool_hyps; lia|done].
    + assert (Hsf : session_from own (tr ++ [fr]) js k' s')
        by (apply session_from_next; [by rewrite Hno|by apply Hs]).
      destruct (_ && _); [|done]. by apply (session_from_other own _ js k k' j an ds).
Qed.

(** ** Runs *)

Lemma history_dt own tr fr js k t a t' : history_ok own tr js t -> payload_ok (payload fr) ->
  packet_for fr = Some k -> k = (source_address (header fr), pdu_specific (header fr)) -> announced own fr = None ->
  k.1 <> own -> handle_dt fr t = Ok (a, t') -> exists js', history_ok own (tr ++ [fr]) js' t'.
Proof.
  intros Hh Hp Hk Hkeq Ha Hsrc Hr. unfold handle_dt, find, gets, make_key in Hr. rewrite <- Hkeq in Hr.
  erewrite bind_ok in Hr by reflexivity.
  assert (Hcalm : benign own t t' -> exists js', history_ok own (tr ++ [fr]) js' t')
    by (intros Hb; exists js; by apply (benign_next own tr fr js t t')).
  destruct (sessions_ t !! k) as [s|] eqn:Hs; [|apply Hcalm, (relates_apply _ _ _ _ _ Hr); relate].
  destruct (_ || _) eqn:Hrange; [by apply Hcalm, (benign_reject own _ _ _ _ _ _ _ Hs Hr)|].
  destruct (_ <? next_seq s) eqn:Hdup; [by apply Hcalm, (benign_reject own _ _ _ _ _ _ _ Hs Hr)|].
  destruct (negb _) eqn:Hnext; [by apply Hcalm, (benign_reject own _ _ _ _ _ _ _ Hs Hr)|]. bool_hyps.
  eapply (history_packet own tr fr js k s t a t'); try done; lia.
Qed.

Lemma history_frame own tr fr js t a t' : history_ok own tr js t -> payload_ok (payload fr) ->
  source_address (header fr) <> own -> on_can_frame fr t = Ok (a, t') ->
  exists js', history_ok own (tr ++ [fr]) js' t'.
Proof.
  intros Hh Hp Hsrc Hr. destruct (announced own fr) as [k|] eqn:Ha.
  { exists js. destruct (on_announcement own fr k t a t') as (t1 & w & n & A1 & D1 & S1 & B1); [apply Hh|done..|].
    apply (benign_keeps own _ _ t1 _ B1). by apply (history_opens own tr fr js k w n t). }
  assert (Hcalm : forall m, m t = Ok (a, t') -> relates (benign own) m ->
    exists js', history_ok own (tr ++ [fr]) js' t').
  { intros m Hm Hb. exists js. apply (benign_next own tr fr js t t'); try done. by apply (Hb t a t'). }
  unfold on_can_frame in Hr. destruct (pgn (header fr) =? PGN_TP_CM) eqn:Hcm.
  - apply (Hcalm _ Hr). unfold handle_cm. unfold announced in Ha. rewrite Hcm in Ha.
    destruct (control_of_byte (byte 0 fr)) as [[]|]; try done; [..|relate].
    + apply benign_source. destruct (_ =? own); [done|]. cbn [negb]. relate.
    + apply benign_handle_cts.
    + apply benign_complete_rx.
    + apply benign_handle_abort.
  - destruct (pgn (header fr) =? PGN_TP_DT) eqn:Hdt; [|apply (Hcalm _ Hr); relate].
    eapply history_dt; try done. unfold packet_for. by rewrite Hcm, Hdt.
Qed.

(** The frames of a run. *)
Definition heard (ops : list tp_op) : list frame := omap (fun o => if o is op_frame fr then Some fr else None) ops.

(** A frame of another station, with the eight bytes of its array. *)
Definition from_others (own : Z) (fr : frame) : Prop :=
  payload_ok (payload fr) /\ source_address (header fr) <> own.

Lemma history_run own ops tr js t t' : history_ok own tr js t -> Forall (from_others own) (heard ops) ->
  tp_run ops t = Ok (tt, t') -> exists js', history_ok own (tr ++ heard ops) js' t'.
Proof.
  revert tr js t. induction ops as [|o ops IH]; intros tr js t Hh Hf Hr.
  { injection Hr as <-. exists js. by rewrite app_nil_r. }
  cbn [tp_run] in Hr. unfold mbind, M_bind in Hr. destruct (tp_run_op o t) as [[[] t1]|] eqn:E1; [|done].
  assert (Hcalm : relates (benign own) (tp_run_op o) -> Forall (from_others own) (heard ops) ->
    exists js', history_ok own (tr ++ heard ops) js' t').
  { intros Hb Hf'. apply (IH tr js t1); [|done..]. apply (benign_keeps own _ _ t); [by apply (Hb t tt)|done]. }
  destruct o as [bytes dest g|fr|order]; cbn [tp_run_op] in *.
  - apply Hcalm; [|done]. relate_step; [apply benign_send|relate].
  - apply list.Forall_cons in Hf as [[Hp Hs] Hf]. destruct (history_frame own tr fr js t tt t1) as [js1 H1]; [done..|].
    change (heard (op_frame fr :: ops)) with ([fr] ++ heard ops). rewrite (assoc_L app). by apply (IH _ js1 t1).
  - apply Hcalm; [apply benign_tick|done].
Qed.

(** C4.  What is delivered was sent, whatever the other stations send.  In a run
    without fault of a new transport on a bus with a steady address, with any frames
    in any order whose source is not the own address ([from_others]), any messages
    sent and any timers served in between, each message that the receive handler
    gets is the message of one announcement among the frames that came in: its bytes
    are those of the announced number of packets, numbered 1, 2 and so on, that came
    after it and before the next announcement of the same session, cut to the
    announced size, and its header has the announced parameter group and the
    addresses of the session.  No announcement is delivered twice. *)
Theorem delivered_messages_were_sent ops (t0 t : transport E) :
  sessions_ t0 = ∅ -> events t0 = [] ->
  Forall (from_others (bus_source_address (bus_ t0))) (heard ops) -> tp_run ops t0 = Ok (tt, t) ->
  exists js, NoDup js /\
    Forall2 (delivered_from (bus_source_address (bus_ t0)) (heard ops)) (omap data_of (events t)) js.
Proof.
  intros Hs He Hf Hr. destruct (history_run (bus_source_address (bus_ t0)) ops [] [] t0 t) as (js & _ & _ & Hnd & Hd & _).
  - split_and!; [done|constructor|constructor|unfold datas; rewrite He; constructor|]. intros k s _. by rewrite Hs.
  - done.
  - done.
  - by exists js.
Qed.

End History.
