(* ===== verification/TransportNet.v ===== *)
(** * Stations on one bus

    Any number of stations with a transport each, and a queue of the frames that
    each has still to handle.  A frame goes to the queue of the station it is
    addressed to.  The environment chooses when messages are sent and which station
    handles its next frame: every message to a peer arrives, also when transfers
    between many stations, in both directions, run at the same time. *)

From Stdlib Require Import String.
From stdpp Require Import gmap list list_numbers.
From S2P Require Import Prelude J1939Type Canary Header HeaderFacts Name NameFacts Frame Transport.
From S2P Require Import TransportFacts TransportFrame TransportRoundTrip TransportInterleaving TransportSafety TransportHistory.

(** ** The bus *)

Section Bus.
Context `{CanaryHeader} {E : Type} `{!Bus E} `{!ReliableBus}.

Record node := Node { tp : transport E; inbox : list frame }.

Definition addressed (y : Z) (fr : frame) : Prop := pdu_specific (header fr) = y \/ pdu_specific (header fr) = 0xFF.

#[export] Instance addressed_dec y fr : Decision (addressed y fr) := ltac:(unfold addressed; apply _).

(** The frames [frs] of station [x] reach the stations they are addressed to. *)
Definition route (x : Z) (frs : list frame) (n : gmap Z node) : gmap Z node :=
  map_imap (fun y nd => Some (if decide (y = x) then nd else Node (tp nd) (inbox nd ++ filter (addressed y) frs))) n.

(** Station [x] has gone from [t] to [t'] and has still to handle [q]. *)
Definition performed (x : Z) (t t' : transport E) (q : list frame) (n : gmap Z node) : gmap Z node :=
  route x (drop (length (sent (bus_ t))) (sent (bus_ t'))) (<[x := Node t' q]> n).

Inductive net_action := act_send (x dest g : Z) (bytes : list Z) | act_handle (x : Z).

(** One action, with the number of frames it handles. *)
Definition net_act (a : net_action) (n : gmap Z node) : option (gmap Z node * nat) :=
  match a with
  | act_send x dest g bytes =>
      nd ← n !! x;
      match send bytes dest g (tp nd) with
      | Ok (_, t') => Some (performed x (tp nd) t' (inbox nd) n, 0%nat)
      | Fault _ => None
      end
  | act_handle x =>
      nd ← n !! x;
      match inbox nd with
      | [] => Some (n, 0%nat)
      | fr :: q =>
          match on_can_frame fr (tp nd) with
          | Ok (_, t') => Some (performed x (tp nd) t' q n, 1%nat)
          | Fault _ => None
          end
      end
  end.

Fixpoint net_acts (acts : list net_action) (n : gmap Z node) : option (gmap Z node * nat) :=
  match acts with
  | [] => Some (n, 0%nat)
  | a :: acts =>
      '(n1, c1) ← net_act a n;
      '(n2, c2) ← net_acts acts n1;
      Some (n2, (c1 + c2)%nat)
  end.

(** The transports after an action of station [x]. *)
Lemma performed_tp x t t' q n y : tp <$> performed x t t' q n !! y = if decide (y = x) then Some t' else tp <$> n !! y.
Proof.
  unfold performed, route. rewrite map_lookup_imap. destruct (decide (y = x)) as [->|Hne].
  - by rewrite lookup_insert_eq.
  - rewrite lookup_insert_ne by done. by destruct (n !! y).
Qed.

Lemma performed_inbox x t t' q n y out : sent (bus_ t') = sent (bus_ t) ++ out ->
  inbox <$> performed x t t' q n !! y =
    if decide (y = x) then Some q else (fun nd => inbox nd ++ filter (addressed y) out) <$> n !! y.
Proof.
  intros Hs. unfold performed, route. rewrite Hs, drop_app_length, map_lookup_imap. destruct (decide (y = x)) as [->|Hne].
  - by rewrite lookup_insert_eq.
  - rewrite lookup_insert_ne by done. by destruct (n !! y).
Qed.

End Bus.

(** ** Mixtures *)

Section Mixtures.
Context {A : Type}.

Lemma interleaving_cons (ls : list (list A)) x q : interleaving ls (x :: q) ->
  exists i l, ls !! i = Some (x :: l) /\ interleaving (<[i := l]> ls) q.
Proof. inversion 1. eauto. Qed.

Lemma interleaving_single (ls : list (list A)) i new : Forall (eq []) ls -> (i < length ls)%nat ->
  interleaving (<[i := new]> ls) new.
Proof.
  intros Hls Hi. induction new as [|x new IH]; [constructor; by apply Forall_insert|].
  apply (mix_next _ i x new); [by apply list_lookup_insert_eq|]. by rewrite list_insert_insert_eq.
Qed.

(** More elements of one list, after all others. *)
Lemma interleaving_app (ls : list (list A)) i l new q : interleaving ls q -> ls !! i = Some l ->
  interleaving (<[i := l ++ new]> ls) (q ++ new).
Proof.
  intros Hq. revert l. induction Hq as [ls Hls|ls j x l0 q Hj _ IH]; intros l Hl.
  - rewrite <- (Forall_lookup_1 _ _ _ _ Hls Hl). apply interleaving_single; [done|by eapply lookup_lt_Some].
  - pose proof (lookup_lt_Some _ _ _ Hj). simpl. destruct (decide (i = j)) as [->|Hne].
    + rewrite Hj in Hl. injection Hl as <-. apply (mix_next _ j x (l0 ++ new)); [by apply list_lookup_insert_eq|].
      rewrite list_insert_insert_eq. specialize (IH l0). rewrite list_insert_insert_eq in IH.
      by apply IH, list_lookup_insert_eq.
    + apply (mix_next _ j x l0); [by rewrite list_lookup_insert_ne|].
      rewrite list_insert_insert_ne by done. apply IH. by rewrite list_lookup_insert_ne.
Qed.

Lemma interleaving_snoc (ls : list (list A)) q : interleaving ls q -> interleaving (ls ++ [[]]) q.
Proof.
  induction 1 as [ls Hl|ls i x l q Hi _ IH]; [constructor; by apply Forall_app_2; [|repeat constructor]|].
  apply (mix_next _ i x l); [by apply lookup_app_l_Some|].
  by rewrite insert_app_l by (by eapply lookup_lt_Some).
Qed.

End Mixtures.

(** ** The steps of one transfer *)

Section Steps.
Context `{CanaryLaws} {E : Type} `{!Bus E} `{!ReliableBus}.

Record transfer := Transfer { t_from : Z; t_to : Z; t_pgn : Z; t_bytes : list Z }.

Definition key_of (tr : transfer) : Z * Z := (t_from tr, t_to tr).

Definition transfer_ok (tr : transfer) : Prop :=
  is_uint 8 (t_from tr) /\ is_uint 8 (t_to tr) /\ t_from tr <> 0xFF /\ t_to tr <> 0xFF /\ t_from tr <> t_to tr /\
  is_uint 24 (t_pgn tr) /\ 9 <= len (t_bytes tr) <= 1778.

(** What is delivered at the other end. *)
Definition message (tr : transfer) : data :=
  Data (delivered false (t_to tr) (t_from tr) (t_pgn tr) (t_bytes tr)) (t_bytes tr).

(** The sessions but the one at [key] are as they were, up to their state. *)
Definition marks (key : Z * Z) (t t' : transport E) : Prop :=
  same_address (bus_ t) (bus_ t') /\ rx_callback_ t' = rx_callback_ t /\
  forall k, k <> key -> set_state Completed <$> sessions_ t' !! k = set_state Completed <$> sessions_ t !! k.

Lemma only_session_marks fr key t t' : on_can_frame fr t = Ok (tt, t') -> only_session key t t' -> marks key t t'.
Proof.
  intros E1 [Hrx Hs]. pose proof (framed_on_can_frame same_address fr _ _ _ E1) as (Ha & _).
  split_and!; [done..|]. intros k Hk. by rewrite Hs.
Qed.

(** An abort of the transfer from [b] to [a], sent by [a]. *)
Definition is_abort (fr : frame) (a b : Z) : Prop :=
  pgn (header fr) = PGN_TP_CM /\ byte 0 fr = to_byte ABORT /\
  pdu_specific (header fr) = b /\ source_address (header fr) = a.

Lemma confined_start_rx_rts fr : is_broadcast (header fr) = false ->
  confined (E := E) (source_address (header fr), pdu_specific (header fr)) (start_rx_rts fr).
Proof. intros Hb. unfold confined, start_rx_rts, make_key. rewrite Hb. relate. Qed.

Lemma report_quiet what ec (t : transport E) : exists t', report_error what ec t = Ok (tt, t') /\
  sent (bus_ t') = sent (bus_ t) /\ same_address (bus_ t) (bus_ t') /\ sessions_ t' = sessions_ t /\ rx_callback_ t' = rx_callback_ t /\ datas t' = datas t.
Proof.
  eexists. split; [reflexivity|]. destruct (error_callback_ t); [|done].
  split_and!; try done; [apply called_records|apply called_address|].
  unfold datas. simpl. by rewrite omap_app, app_nil_r.
Qed.

(** A session gets a new state. *)
Lemma marks_state key k0 st s (t : transport E) : sessions_ t !! k0 = Some s ->
  marks key t (with_sessions (<[k0 := set_state st s]> (sessions_ t)) t).
Proof.
  intros Hs. split_and!; [done..|]. intros k _. simpl. destruct (decide (k0 = k)) as [<-|Hne].
  - by rewrite lookup_insert_eq, Hs.
  - by rewrite lookup_insert_ne.
Qed.

Section Transfer.
Context (tr : transfer) (Hok : transfer_ok tr).
Notation a := (t_from tr).
Notation b := (t_to tr).
Notation g := (t_pgn tr).
Notation bytes := (t_bytes tr).

Lemma on_request t : bus_source_address (bus_ t) = b -> rx_callback_ t = true ->
  exists t', on_can_frame (cm_frame RTS b a g (len bytes) 0xFF) t = Ok (tt, t') /\
    receiving false b a g bytes 1 t' /\ sent (bus_ t') = sent (bus_ t) ++ [cts_frame a b g 0xFF 1] /\
    events t' = events t /\ marks (a, b) t t'.
Proof.
  intros Hown Hrx. destruct Hok as (Ha & Hb & _ & _ & _ & Hg & Hn).
  destruct (on_rts_frame 0xFF a g bytes t) as (t' & E1 & R1 & A1 & _ & V1);
    [done|by rewrite Hown|done|lia|done|]. rewrite Hown in *. exists t'. split_and!; try done.
  apply (only_session_marks _ _ _ _ E1). rewrite on_cm_frame in E1 by done.
  destruct (cm_frame_header RTS b a g (len bytes) 0xFF) as (Hps & Hsa & Hbr); [done..|].
  pose proof (confined_start_rx_rts (cm_frame RTS b a g (len bytes) 0xFF) Hbr) as Hc. rewrite Hsa, Hps in Hc.
  exact (Hc _ _ _ E1).
Qed.

Lemma on_clear s t : bus_source_address (bus_ t) = a -> sessions_ t !! (a, b) = Some s -> offers a b g bytes s ->
  exists t', on_can_frame (cts_frame a b g 0xFF 1) t = Ok (tt, t') /\
    sent (bus_ t') = sent (bus_ t) ++ (dt_frame b a bytes <$> seqZ 1 (packets (len bytes))) ++
      [cm_frame EOM a b g (len bytes) 0xFF] /\
    events t' = events t /\ marks (a, b) t t'.
Proof.
  intros Hown Hm Ho. destruct Hok as (Ha & Hb & _ & _ & _ & Hg & Hn). pose proof (packets_1778 (len bytes) ltac:(lia)).
  destruct (on_last_grant a b g bytes 0xFF 1 s t) as (s' & t' & E1 & A1 & V1 & _); [done || lia..|].
  rewrite Z.add_simpl_r in A1. exists t'. split_and!; try done.
  apply (only_session_marks _ _ _ _ E1). rewrite <- Hown, (on_cts_session b g 0xFF 1 s t) in E1 by (by rewrite ?Hown).
  rewrite Hown in E1. apply (relates_apply _ _ _ _ _ E1). relate.
Qed.

Lemma on_dt_marks k t t' : on_can_frame (dt_frame b a bytes k) t = Ok (tt, t') -> marks (a, b) t t'.
Proof.
  intros E1. destruct Hok as (Ha & Hb & _). apply (only_session_marks _ _ _ _ E1).
  destruct (base_frame_header 0xEB b a) as (Hpgn & Hps & Hsa & _); [lia|done..|].
  change (0xEB * 2 ^ 8) with PGN_TP_DT in *. unfold on_can_frame, dt_frame in E1. cbn [header] in E1. rewrite Hpgn in E1.
  change (PGN_TP_DT =? PGN_TP_CM) with false in E1. rewrite Z.eqb_refl in E1. cbv iota in E1.
  pose proof (confined_handle_dt (E := E) (dt_frame b a bytes k)) as Hc. unfold dt_frame in Hc. cbn [header] in Hc.
  rewrite Hps, Hsa in Hc. exact (Hc _ _ _ E1).
Qed.

Lemma on_packet k t : 1 <= k < packets (len bytes) -> receiving false b a g bytes k t ->
  exists t', on_can_frame (dt_frame b a bytes k) t = Ok (tt, t') /\ receiving false b a g bytes (k + 1) t' /\
    sent (bus_ t') = sent (bus_ t) /\ events t' = events t /\ marks (a, b) t t'.
Proof.
  intros Hk R. pose proof Hok as (Ha & Hb & _ & _ & _ & _ & Hn).
  destruct (middle_packet false b a g bytes k t) as (t' & E1 & R1 & C1 & _ & _ & V1); [done || lia..|].
  exists t'. split_and!; try done; [by apply silent_reliable|by apply (on_dt_marks k)].
Qed.

Lemma on_last t : receiving false b a g bytes (packets (len bytes)) t ->
  exists ack t', on_can_frame (dt_frame b a bytes (packets (len bytes))) t = Ok (tt, t') /\
    sent (bus_ t') = sent (bus_ t) ++ [ack] /\ is_ack ack a b /\
    events t' = events t ++ [ev_data (message tr)] /\ marks (a, b) t t'.
Proof.
  intros R. pose proof Hok as (Ha & Hb & _ & _ & _ & _ & Hn).
  destruct (last_packet 0xFF false b a g bytes t) as (s & t1 & E1 & Hbam & Hd & Hs & C1 & _ & V1); [done || lia..|].
  destruct (send_eom_ack_sent s t1) as (ack & t2 & E2 & (A2 & _ & _ & _ & _ & V2) & K2); [congruence..|].
  rewrite Hd, Hs in K2. cbn [negb] in E1. erewrite bind_ok in E1 by exact E2.
  exists ack, t2. split_and!; [exact E1| |done|by rewrite V2, V1|by apply (on_dt_marks _ _ _ E1)].
  rewrite A2. f_equal. by apply silent_reliable.
Qed.

(** The acknowledgement, at the sender. *)
Lemma on_ack ack t key : bus_source_address (bus_ t) = a -> is_ack ack a b ->
  exists out t', on_can_frame ack t = Ok (tt, t') /\ sent (bus_ t') = sent (bus_ t) ++ out /\
    (out = [] \/ exists fr, out = [fr] /\ is_abort fr a b) /\ datas t' = datas t /\ marks key t t'.
Proof.
  intros Hown (Hpgn & Hc & Hps & Hsa). destruct Hok as (Ha & Hb & _).
  unfold on_can_frame. rewrite Hpgn, Z.eqb_refl. unfold handle_cm. rewrite Hc.
  change (control_of_byte (to_byte EOM)) with (Some EOM). cbv iota. unfold complete_rx, find, gets, make_key.
  rewrite Hsa, Hps. erewrite bind_ok by reflexivity. destruct (sessions_ t !! (b, a)) as [s|] eqn:Hm.
  - eexists [], _. split; [reflexivity|]. rewrite app_nil_r. split_and!; [done|by left|done|by apply marks_state].
  - unfold dummy_abort_session, source, gets. erewrite bind_ok by (erewrite bind_ok by reflexivity; reflexivity).
    rewrite Hown, Hsa. unfold send_abort. edestruct send_frame_ok as (t1 & E1 & (A1 & B1 & R1 & X1 & M1 & V1)).
    erewrite bind_ok by exact E1. destruct (report_quiet "eom without session" aborted t1) as (t2 & E2 & S2 & B2 & M2 & R2 & D2).
    eexists _, t2. split; [exact E2|]. rewrite S2. split; [exact A1|]. split_and!.
    + right. eexists. split; [reflexivity|]. destruct (base_frame_header 0xEC b a) as (? & ? & ? & _); [lia|done..].
    + rewrite D2. unfold datas. by rewrite V1.
    + split_and!; [by etrans|congruence|]. intros k _. by rewrite M2, M1.
Qed.

(** The abort that may follow it, at the receiver. *)
Lemma on_abort fr t key : bus_source_address (bus_ t) = b -> is_abort fr a b ->
  exists t', on_can_frame fr t = Ok (tt, t') /\ sent (bus_ t') = sent (bus_ t) /\ datas t' = datas t /\ marks key t t'.
Proof.
  intros Hown (Hpgn & Hc & Hps & Hsa).
  unfold on_can_frame. rewrite Hpgn, Z.eqb_refl. unfold handle_cm. rewrite Hc.
  change (control_of_byte (to_byte ABORT)) with (Some ABORT). cbv iota. unfold handle_abort, source, find, gets, make_key.
  erewrite bind_ok by reflexivity. rewrite Hown, Hsa. erewrite bind_ok by reflexivity.
  destruct (sessions_ t !! (b, a)) as [s|] eqn:Hm; [|by exists t].
  unfold put, update. erewrite bind_ok by reflexivity. edestruct report_quiet as (t2 & E2 & S2 & B2 & M2 & R2 & D2).
  exists t2. split; [exact E2|]. rewrite S2. split_and!; [done|by rewrite D2|].
  destruct (marks_state key (b, a) ABorted s t Hm) as (F1 & F2 & F3).
  split_and!; [exact B2|congruence|]. intros k Hk. rewrite M2. by apply F3.
Qed.

Lemma on_send t : bus_source_address (bus_ t) = a ->
  exists s t', send bytes b g t = Ok (true, t') /\
    sent (bus_ t') = sent (bus_ t) ++ [cm_frame RTS b a g (len bytes) 0xFF] /\ events t' = events t /\
    sessions_ t' !! (a, b) = Some s /\ offers a b g bytes s /\ marks (a, b) t t'.
Proof.
  intros Hown. destruct Hok as (Ha & Hb & _ & Hne & _ & _ & Hn).
  destruct (send_rts_ok bytes b g t) as (n & t' & E1 & A1 & B1 & V1 & M1); [lia|done|]. rewrite Hown in *.
  eexists _, t'. split_and!; [done..|by split_and!; [done..|apply Z.eqb_neq]|].
  destruct (start_tx_session bytes b g t) as (n0 & t0 & (_ & B0 & R0 & _ & M0 & _) & E0); [lia|]. rewrite Hown, E1 in E0.
  assert (Hos : only_session (a, b) t t').
  { etrans; [|apply (relates_apply _ _ _ _ _ (eq_sym E0)); relate]; [|by destruct (b =? 0xFF); relate].
    split; [done|]. intros k Hk. simpl. by rewrite lookup_insert_ne, M0. }
  split_and!; [by unfold same_address; rewrite B1|apply Hos|]. intros k Hk. by rewrite (proj2 Hos).
Qed.

End Transfer.
End Steps.

(** ** How far a transfer has got *)

Inductive stage `{CanaryHeader} :=
| requested                          (** the request to send is on its way *)
| cleared                            (** the clear to send is on its way *)
| transferring (k : Z)               (** the packets from [k] on are on their way *)
| acknowledged (ack : frame)         (** the acknowledgement is on its way *)
| closing (l : list frame).          (** nothing is left but an abort *)

Section Stages.
Context `{CanaryLaws} {E : Type} `{!Bus E} `{!ReliableBus}.

(** The frames of a transfer in the queues of its receiver and of its sender. *)
Definition up (tr : transfer) (s : stage) : list frame :=
  match s with
  | requested => [cm_frame RTS (t_to tr) (t_from tr) (t_pgn tr) (len (t_bytes tr)) 0xFF]
  | transferring k =>
      dt_frame (t_to tr) (t_from tr) (t_bytes tr) <$> seqZ k (packets (len (t_bytes tr)) + 1 - k)
  | closing l => l
  | _ => []
  end.

Definition down (tr : transfer) (s : stage) : list frame :=
  match s with
  | cleared => [cts_frame (t_from tr) (t_to tr) (t_pgn tr) 0xFF 1]
  | acknowledged ack => [ack]
  | _ => []
  end.

Definition flow (y : Z) (p : transfer * stage) : list frame :=
  if decide (y = t_to p.1) then up p.1 p.2 else if decide (y = t_from p.1) then down p.1 p.2 else [].

(** The message that station [y] will deliver. *)
Definition pending (y : Z) (p : transfer * stage) : list data :=
  if decide (y = t_to p.1) then
    match p.2 with requested | cleared | transferring _ => [message p.1] | _ => [] end
  else [].

(** At least the number of frames that have to be handled. *)
Definition weight (p : transfer * stage) : nat :=
  let n := packets (len (t_bytes p.1)) in
  match p.2 with
  | requested => Z.to_nat (n + 4) | cleared => Z.to_nat (n + 3) | transferring k => Z.to_nat (n + 3 - k)
  | acknowledged _ => 2 | closing l => length l
  end.

Definition offering (tr : transfer) (t : transport E) : Prop :=
  exists s, sessions_ t !! key_of tr = Some s /\ offers (t_from tr) (t_to tr) (t_pgn tr) (t_bytes tr) s.

Definition taking (tr : transfer) (k : Z) (t : transport E) : Prop :=
  receiving false (t_to tr) (t_from tr) (t_pgn tr) (t_bytes tr) k t.

Definition known (T : Z -> option (transport E)) (y : Z) (P : transport E -> Prop) : Prop :=
  exists t, T y = Some t /\ P t.

(** What the stations [T] at both ends know. *)
Definition stage_ok (T : Z -> option (transport E)) (p : transfer * stage) : Prop :=
  let tr := p.1 in
  match p.2 with
  | requested => known T (t_from tr) (offering tr)
  | cleared => known T (t_from tr) (offering tr) /\ known T (t_to tr) (taking tr 1)
  | transferring k => 1 <= k <= packets (len (t_bytes tr)) /\ known T (t_to tr) (taking tr k)
  | acknowledged ack => is_ack ack (t_from tr) (t_to tr)
  | closing l => l = [] \/ exists fr, l = [fr] /\ is_abort fr (t_from tr) (t_to tr)
  end.

Definition put_tp (T : Z -> option (transport E)) (x : Z) (t : transport E) : Z -> option (transport E) :=
  fun y => if decide (y = x) then Some t else T y.

Lemma put_tp_eq T x t : put_tp T x t x = Some t.
Proof. unfold put_tp. by rewrite decide_True. Qed.

Lemma known_here T x t (P : transport E -> Prop) : P t -> known (put_tp T x t) x P.
Proof. intros HP. exists t. by rewrite put_tp_eq. Qed.

Lemma known_elsewhere T x t y P : y <> x -> known T y P -> known (put_tp T x t) y P.
Proof. intros Hne (t0 & Ht & HP). exists t0. unfold put_tp. by rewrite decide_False. Qed.

Lemma known_put T x t t' y (P : transport E -> Prop) : T x = Some t -> (P t -> P t') ->
  known T y P -> known (put_tp T x t') y P.
Proof.
  intros Hx HP (t0 & Ht & HP0). destruct (decide (y = x)) as [->|Hne].
  - apply known_here, HP. congruence.
  - apply known_elsewhere; [done|]. by exists t0.
Qed.

(** *** Transfers of other sessions *)

Lemma marks_offering tr key t t' : key_of tr <> key -> marks key t t' -> offering tr t -> offering tr t'.
Proof.
  intros Hk (_ & _ & Hs) (s & Hm & Ho). specialize (Hs _ Hk). rewrite Hm in Hs.
  apply fmap_Some in Hs as (s' & Hm' & Heq). injection Heq as ?. exists s'. split; [done|].
  unfold offers in *. intuition congruence.
Qed.

Lemma marks_taking tr k key t t' : key_of tr <> key -> marks key t t' -> taking tr k t -> taking tr k t'.
Proof.
  intros Hk (_ & Hrx & Hs) (Hr & s & Hm & Hrest). specialize (Hs _ Hk). unfold key_of in Hs. rewrite Hm in Hs.
  apply fmap_Some in Hs as (s' & Hm' & Heq). injection Heq as ?. split; [congruence|]. exists s'. split; [done|].
  unfold assembled in *. intuition congruence.
Qed.

Lemma stage_ok_other T x t t' key p : T x = Some t -> marks key t t' -> key_of p.1 <> key ->
  stage_ok T p -> stage_ok (put_tp T x t') p.
Proof.
  intros Hx Hm Hk. pose proof (marks_offering p.1 key t t' Hk Hm) as Ho.
  pose proof (fun k => marks_taking p.1 k key t t' Hk Hm) as Ht.
  destruct p as [tr []]; unfold stage_ok; cbn [fst snd] in *; intuition eauto using known_put.
Qed.

(** *** A frame of the transfer *)

Lemma filter_addressed frs p z : Forall (fun fr => pdu_specific (header fr) = p) frs -> p <> 0xFF ->
  filter (addressed z) frs = if decide (z = p) then frs else [].
Proof.
  intros Hf Hp. induction Hf as [|fr frs Hfr _ IH]; [by destruct (decide _)|].
  rewrite filter_cons, IH. destruct (decide (z = p)) as [->|Hne].
  - by rewrite decide_True by (by left).
  - rewrite decide_False; [done|]. unfold addressed. intuition congruence.
Qed.

(** Station [y] handles the frame [x] of the transfer; [l] are its other frames there. *)
Inductive moves (T : Z -> option (transport E)) (y : Z) (t : transport E) (tr : transfer) (s : stage)
    (x : frame) (l : list frame) : Prop :=
| move t' s' out o :
    on_can_frame x t = Ok (tt, t') -> sent (bus_ t') = sent (bus_ t) ++ out -> marks (key_of tr) t t' ->
    datas t' = datas t ++ o -> pending y (tr, s) = o ++ pending y (tr, s') -> flow y (tr, s') = l ->
    (forall z, z <> y ->
      pending z (tr, s') = pending z (tr, s) /\ flow z (tr, s') = flow z (tr, s) ++ filter (addressed z) out) ->
    stage_ok (put_tp T y t') (tr, s') -> (weight (tr, s') < weight (tr, s))%nat -> moves T y t tr s x l.

Lemma flow_to tr s : flow (t_to tr) (tr, s) = up tr s.
Proof. unfold flow. by rewrite decide_True. Qed.

Lemma flow_from tr s : t_from tr <> t_to tr -> flow (t_from tr) (tr, s) = down tr s.
Proof. intros. unfold flow. by rewrite decide_False, decide_True. Qed.

Lemma pending_else y tr s : y <> t_to tr -> pending y (tr, s) = [].
Proof. intros. unfold pending. by rewrite decide_False. Qed.

Section Moves.
Context (T : Z -> option (transport E)) (tr : transfer) (Hok : transfer_ok tr).
Notation a := (t_from tr).
Notation b := (t_to tr).

(** The queues when the receiver has sent [out]. *)
Lemma from_receiver s s' out : Forall (fun fr => pdu_specific (header fr) = a) out -> down tr s' = down tr s ++ out ->
  forall z, z <> b -> pending z (tr, s') = pending z (tr, s) /\ flow z (tr, s') = flow z (tr, s) ++ filter (addressed z) out.
Proof.
  intros Hout Hd z Hz. destruct Hok as (_ & _ & Ha & _ & Hab & _). split; [by rewrite !pending_else|].
  rewrite (filter_addressed out a) by done. unfold flow. cbn [fst snd]. rewrite !(decide_False (P := z = b)) by done.
  by destruct (decide (z = a)).
Qed.

(** The queues when the sender has sent [out]. *)
Lemma from_sender s s' out : up tr s' = up tr s ++ filter (addressed b) out ->
  (forall z, z <> a -> z <> b -> filter (addressed z) out = []) -> pending b (tr, s') = pending b (tr, s) ->
  forall z, z <> a -> pending z (tr, s') = pending z (tr, s) /\ flow z (tr, s') = flow z (tr, s) ++ filter (addressed z) out.
Proof.
  intros Hu Hno Hp z Hz. destruct (decide (z = b)) as [->|Hzb]; [by rewrite !flow_to|].
  rewrite !pending_else, Hno by done. split; [done|]. unfold flow. cbn [fst]. by rewrite !decide_False.
Qed.

Lemma datas_same (t t' : transport E) : events t' = events t -> datas t' = datas t ++ [].
Proof. intros Hv. unfold datas. by rewrite Hv, app_nil_r. Qed.

Lemma known_inv y t P : T y = Some t -> known T y P -> P t.
Proof. intros Ht (t0 & Ht0 & HP). congruence. Qed.

Lemma move_requested t : T b = Some t -> bus_source_address (bus_ t) = b -> rx_callback_ t = true ->
  stage_ok T (tr, requested) -> moves T b t tr requested (cm_frame RTS b a (t_pgn tr) (len (t_bytes tr)) 0xFF) [].
Proof.
  intros Ht Hown Hrx Hs. destruct (on_request tr Hok t Hown Hrx) as (t' & E1 & R1 & A1 & V1 & M1).
  pose proof Hok as (Ha & Hb & _ & _ & Hab & _ & Hn). pose proof (packets_1778 (len (t_bytes tr)) ltac:(lia)).
  apply (move _ _ _ _ _ _ _ t' cleared [cts_frame a b (t_pgn tr) 0xFF 1] []);
    [done..|by apply datas_same|done|by rewrite flow_to| | |unfold weight; cbn [fst snd]; lia].
  - apply from_receiver; [|done]. repeat constructor. by destruct (base_frame_header 0xEC a b) as (_ & ? & _); [lia|done..|].
  - split; [by apply known_elsewhere|by apply known_here].
Qed.

Lemma move_packet t k : T b = Some t -> stage_ok T (tr, transferring k) ->
  moves T b t tr (transferring k) (dt_frame b a (t_bytes tr) k)
    (dt_frame b a (t_bytes tr) <$> seqZ (k + 1) (packets (len (t_bytes tr)) - k)).
Proof.
  intros Ht [Hk Hs]. cbn [fst] in *. pose proof (known_inv _ _ _ Ht Hs) as R. pose proof Hok as (Ha & Hb & _ & _ & Hab & _ & Hn).
  destruct (decide (k = packets (len (t_bytes tr)))) as [->|Hne].
  - destruct (on_last tr Hok t R) as (ack & t' & E1 & A1 & K1 & V1 & M1).
    apply (move _ _ _ _ _ _ _ t' (acknowledged ack) [ack] [message tr]); [done..| | |by rewrite flow_to, seqZ_nil by lia| |done|unfold weight; cbn [fst snd]; lia].
    + unfold datas. rewrite V1, omap_app. done.
    + unfold pending. cbn [fst snd]. by rewrite !decide_True by done.
    + apply from_receiver; [|done]. repeat constructor. apply K1.
  - destruct (on_packet tr Hok k t) as (t' & E1 & R1 & A1 & V1 & M1); [lia|done|].
    apply (move _ _ _ _ _ _ _ t' (transferring (k + 1)) [] []);
      [done|by rewrite app_nil_r|done|by apply datas_same|done| | | |unfold weight; cbn [fst snd]; lia].
    + rewrite flow_to. simpl. do 2 f_equal. lia.
    + by apply from_receiver; [constructor|].
    + split; [simpl; lia|by apply known_here].
Qed.

Lemma move_abort t fr : T b = Some t -> bus_source_address (bus_ t) = b -> is_abort fr a b ->
  moves T b t tr (closing [fr]) fr [].
Proof.
  intros Ht Hown Hf. destruct (on_abort tr fr t (key_of tr) Hown Hf) as (t' & E1 & A1 & V1 & M1).
  apply (move _ _ _ _ _ _ _ t' (closing []) [] []);
    [done|by rewrite app_nil_r|done|by rewrite app_nil_r|done|by rewrite flow_to| |by left|unfold weight; cbn [fst snd length]; lia].
  by apply from_receiver; [constructor|].
Qed.

Lemma move_cleared t : T a = Some t -> bus_source_address (bus_ t) = a -> stage_ok T (tr, cleared) ->
  moves T a t tr cleared (cts_frame a b (t_pgn tr) 0xFF 1) [].
Proof.
  intros Ht Hown [Hs Hr]. cbn [fst] in *. destruct (known_inv _ _ _ Ht Hs) as (s & Hm & Ho).
  destruct (on_clear tr Hok s t Hown Hm Ho) as (t' & E1 & A1 & V1 & M1).
  pose proof Hok as (Ha & Hb & Ha' & Hb' & Hab & _ & Hn). pose proof (packets_1778 (len (t_bytes tr)) ltac:(lia)).
  apply (move _ _ _ _ _ _ _ t' (transferring 1) _ [] E1 A1 M1);
    [by apply datas_same| | | | |unfold weight; cbn [fst snd]; lia].
  - by rewrite !pending_else.
  - by rewrite flow_from.
  - assert (Hdt : Forall (fun fr => pdu_specific (header fr) = b)
      (dt_frame b a (t_bytes tr) <$> seqZ 1 (packets (len (t_bytes tr))))).
    { apply Forall_fmap, Forall_true. intros k. by destruct (base_frame_header 0xEB b a) as (_ & ? & _); [lia|done..|]. }
    assert (Heom : Forall (fun fr => pdu_specific (header fr) = a) [cm_frame EOM a b (t_pgn tr) (len (t_bytes tr)) 0xFF]).
    { repeat constructor. by destruct (cm_frame_header EOM a b (t_pgn tr) (len (t_bytes tr)) 0xFF) as (? & _); [done..|]. }
    apply from_sender.
    + rewrite list.filter_app, (filter_addressed _ b), (filter_addressed [_] a), decide_True, decide_False, app_nil_r by congruence.
      cbn [up app]. do 2 f_equal. lia.
    + intros z Hza Hzb. by rewrite list.filter_app, (filter_addressed _ b), (filter_addressed [_] a), !decide_False by congruence.
    + done.
  - split; [simpl; lia|by apply known_elsewhere].
Qed.

Lemma move_ack t ack : T a = Some t -> bus_source_address (bus_ t) = a -> is_ack ack a b ->
  moves T a t tr (acknowledged ack) ack [].
Proof.
  intros Ht Hown Hack. destruct (on_ack tr Hok ack t (key_of tr) Hown Hack) as (out & t' & E1 & A1 & Hout & V1 & M1).
  pose proof Hok as (Ha & Hb & Ha' & Hb' & Hab & _ & Hn).
  assert (Hf : Forall (fun fr => pdu_specific (header fr) = b) out).
  { destruct Hout as [->|(fr & -> & Hfr)]; [constructor|]. repeat constructor. apply Hfr. }
  apply (move _ _ _ _ _ _ _ t' (closing out) out []); [done..|by rewrite app_nil_r| | | | |].
  - by rewrite !pending_else.
  - by rewrite flow_from.
  - apply from_sender; [|intros z _ Hzb|by unfold pending; destruct (decide _)].
    + by rewrite (filter_addressed _ b), decide_True by done.
    + by rewrite (filter_addressed _ b), decide_False by done.
  - exact Hout.
  - unfold weight. cbn [fst snd]. destruct Hout as [->|(fr & -> & _)]; simpl; lia.
Qed.

(** Every frame of a transfer moves it on. *)
Lemma handle_stage t y s x l : T y = Some t -> bus_source_address (bus_ t) = y -> rx_callback_ t = true ->
  stage_ok T (tr, s) -> flow y (tr, s) = x :: l -> moves T y t tr s x l.
Proof.
  intros Ht Hown Hrx Hs Hf. pose proof Hok as (_ & _ & _ & _ & Hab & _ & Hn).
  pose proof (packets_1778 (len (t_bytes tr)) ltac:(lia)). unfold flow in Hf. cbn [fst snd] in Hf.
  destruct (decide (y = b)) as [->|Hyb]; [|destruct (decide (y = a)) as [->|]; [|done]].
  - destruct s as [| |k|ack|l']; cbn [up] in Hf; try done.
    + injection Hf as <- <-. by apply move_requested.
    + destruct Hs as [Hk Hs]. cbn [fst] in Hk. rewrite seqZ_cons, fmap_cons in Hf by lia. injection Hf as <- <-.
      rewrite <- Z.add_1_r. replace (Z.pred _) with (packets (len (t_bytes tr)) - k) by lia. by apply move_packet.
    + subst l'. destruct Hs as [|(fr & [= -> ->] & Hfr)]; [done|]. by apply move_abort.
  - destruct s as [| |k|ack|l']; cbn [down] in Hf; try done; injection Hf as <- <-.
    + by apply move_cleared.
    + by apply move_ack.
Qed.

End Moves.

End Stages.
