(* ===== verification/TransportNetFacts.v ===== *)
(** * All transfers of a bus arrive

    The invariant of the stations of [TransportNet]: every queue is a mixture of
    the frames of the transfers that are under way, and each transfer is in one of
    its stages.  Each handled frame moves one transfer on. *)

From Stdlib Require Import String.
From stdpp Require Import gmap list list_numbers.
From S2P Require Import Prelude J1939Type Canary Header HeaderFacts Name NameFacts Frame Transport.
From S2P Require Import TransportFacts TransportFrame TransportRoundTrip TransportInterleaving TransportSafety TransportHistory.
From S2P Require Import TransportNet.

Section Facts.
Context `{CanaryLaws} {E : Type} `{!Bus E} `{!ReliableBus}.

Definition tps (n : gmap Z (node (E := E))) (y : Z) : option (transport E) := tp <$> n !! y.

(** The messages to station [y]. *)
Definition messages (y : Z) (trs : list transfer) : list data := message <$> filter (fun tr => t_to tr = y) trs.

(** The state of one station, which had delivered [base]. *)
Definition node_ok (base : list data) (ps : list (transfer * stage)) (y : Z) (nd : node (E := E)) : Prop :=
  bus_source_address (bus_ (tp nd)) = y /\ rx_callback_ (tp nd) = true /\
  interleaving (flow y <$> ps) (inbox nd) /\
  datas (tp nd) ++ concat (pending y <$> ps) ≡ₚ base ++ messages y ps.*1.

Record net_ok (base : Z -> list data) (ps : list (transfer * stage)) (n : gmap Z node) : Prop := {
  net_transfers : Forall (fun tr => transfer_ok tr /\ is_Some (n !! t_from tr) /\ is_Some (n !! t_to tr)) ps.*1;
  net_keys : NoDup (key_of <$> ps.*1);
  net_stages : Forall (stage_ok (tps n)) ps;
  net_nodes : forall y nd, n !! y = Some nd -> node_ok (base y) ps y nd
}.

Lemma stage_ok_ext T T' p : (forall y, T y = T' y) -> stage_ok (E := E) T p -> stage_ok T' p.
Proof. intros HT. destruct p as [tr []]; unfold stage_ok, known; cbn [fst snd]; by rewrite <- ?HT. Qed.

Lemma performed_tps x t t' q n y : tps (performed x t t' q n) y = put_tp (tps n) x t' y.
Proof. unfold tps. by rewrite performed_tp. Qed.

Lemma performed_some x t t' q n y : is_Some (n !! x) -> is_Some (performed x t t' q n !! y) <-> is_Some (n !! y).
Proof.
  intros Hx. rewrite <- (fmap_is_Some tp), performed_tp, <- (fmap_is_Some tp (n !! y)).
  destruct (decide (y = x)) as [->|]; [|done]. split; [by rewrite fmap_is_Some|by eexists].
Qed.

(** The station [y] after station [x] has sent [out]. *)
Lemma performed_inv x t t' q n y nd' out : sent (bus_ t') = sent (bus_ t) ++ out ->
  performed x t t' q n !! y = Some nd' ->
  (y = x /\ nd' = Node t' q) \/
  (y <> x /\ exists nd, n !! y = Some nd /\ nd' = Node (tp nd) (inbox nd ++ filter (addressed y) out)).
Proof.
  intros Hs Hm. pose proof (performed_tp x t t' q n y) as Ht. pose proof (performed_inbox x t t' q n y out Hs) as Hi.
  rewrite Hm in Ht, Hi. destruct nd' as [tp' in']. cbn in Ht, Hi. destruct (decide (y = x)); [left; split; congruence|].
  right. split; [done|]. destruct (n !! y) as [nd|]; [|done]. exists nd. split; [done|]. cbn in *. congruence.
Qed.

(** ** A frame is handled *)

Definition total_weight (ps : list (transfer * stage)) : nat := sum_list_with weight ps.

Lemma total_weight_insert ps i p p' : ps !! i = Some p -> (weight p' < weight p)%nat ->
  (total_weight (<[i := p']> ps) < total_weight ps)%nat.
Proof.
  intros Hi Hw. rewrite <- (take_drop_middle ps i p Hi) at 2.
  rewrite insert_take_drop by (by eapply lookup_lt_Some).
  unfold total_weight. rewrite !sum_list_with_app. cbn [sum_list_with]. lia.
Qed.

(** The stages after a frame of transfer [i] has been handled at station [x]. *)
Lemma stages_step T x t t' ps i tr s s' : Forall (stage_ok T) ps -> NoDup (key_of <$> ps.*1) ->
  ps !! i = Some (tr, s) -> T x = Some t -> marks (key_of tr) t t' -> stage_ok (put_tp T x t') (tr, s') ->
  Forall (stage_ok (put_tp T x t')) (<[i := (tr, s')]> ps).
Proof.
  intros Hst Hk Hi Hx Hm Hs'. apply Forall_lookup. intros j p Hj.
  apply list_lookup_insert_Some in Hj as [(-> & <- & _)|[Hne Hj]]; [done|].
  apply (stage_ok_other T x t t' (key_of tr)); [done..| |exact (Forall_lookup_1 _ _ _ _ Hst Hj)].
  intros Heq. apply Hne. apply (NoDup_lookup _ _ _ (key_of tr) Hk).
  - by rewrite !list_lookup_fmap, Hi.
  - rewrite !list_lookup_fmap, Hj. simpl. by rewrite Heq.
Qed.

Lemma same_transfers (ps : list (transfer * stage)) i tr s s' : ps !! i = Some (tr, s) -> (<[i:=(tr, s')]> ps).*1 = ps.*1.
Proof. intros Hi. rewrite list_fmap_insert. apply list_insert_id. by rewrite list_lookup_fmap, Hi. Qed.

(** The station that has handled the frame. *)
Lemma node_handles base ps x i tr s s' l o t t' fr q :
  ps !! i = Some (tr, s) -> node_ok base ps x (Node t (fr :: q)) -> interleaving (<[i := l]> (flow x <$> ps)) q ->
  marks (key_of tr) t t' -> datas t' = datas t ++ o -> pending x (tr, s) = o ++ pending x (tr, s') ->
  flow x (tr, s') = l -> node_ok base (<[i := (tr, s')]> ps) x (Node t' q).
Proof.
  intros Hi (Hown & Hrx & _ & Hdat) Hmix (Ha & Hr & _) Hd Hp Hf. cbn [tp inbox] in *.
  split_and!; cbn [tp inbox]; [by rewrite Ha|congruence|by rewrite list_fmap_insert, Hf|].
  rewrite (same_transfers ps i tr s s' Hi), <- Hdat, Hd, <- (assoc_L app). f_equiv.
  rewrite list_fmap_insert. symmetry. apply concat_insert. by rewrite list_lookup_fmap, Hi, <- Hp.
Qed.

(** Another station. *)
Lemma node_hears base ps y i tr s s' nd out :
  ps !! i = Some (tr, s) -> node_ok base ps y nd -> pending y (tr, s') = pending y (tr, s) ->
  flow y (tr, s') = flow y (tr, s) ++ out -> node_ok base (<[i := (tr, s')]> ps) y (Node (tp nd) (inbox nd ++ out)).
Proof.
  intros Hi (Hown & Hrx & Hmix & Hdat) Hp Hf. split_and!; cbn [tp inbox]; [done..| |].
  - rewrite list_fmap_insert, Hf. apply interleaving_app; [done|]. by rewrite list_lookup_fmap, Hi.
  - rewrite (same_transfers ps i tr s s' Hi), <- Hdat, list_fmap_insert, Hp, list_insert_id; [done|].
    by rewrite list_lookup_fmap, Hi.
Qed.

Lemma handle_step base ps n x nd fr q : net_ok base ps n -> n !! x = Some nd -> inbox nd = fr :: q ->
  exists ps' n', net_act (act_handle x) n = Some (n', 1%nat) /\ net_ok base ps' n' /\ ps'.*1 = ps.*1 /\
    (total_weight ps' < total_weight ps)%nat /\ forall y, is_Some (n' !! y) <-> is_Some (n !! y).
Proof.
  intros [Htr Hk Hst Hnd] Hx Hin. pose proof (Hnd x nd Hx) as Hndx. pose proof Hndx as (Hown & Hrx & Hmix & _).
  rewrite Hin in Hmix. apply interleaving_cons in Hmix as (i & l & Hi & Hmix). rewrite list_lookup_fmap in Hi.
  destruct (ps !! i) as [[tr s]|] eqn:Hpi; [|done]. injection Hi as Hflow.
  assert (Htri : ps.*1 !! i = Some tr) by (by rewrite list_lookup_fmap, Hpi).
  pose proof (Forall_lookup_1 _ _ _ _ Htr Htri) as (Hok & _). pose proof (Forall_lookup_1 _ _ _ _ Hst Hpi) as Hs.
  assert (HT : tps n x = Some (tp nd)) by (unfold tps; by rewrite Hx).
  destruct (handle_stage (tps n) tr Hok (tp nd) x s fr l HT Hown Hrx Hs Hflow)
    as [t' s' out o E1 A1 M1 D1 P1 F1 Z1 S1 W1].
  assert (Hsome : forall y, is_Some (performed x (tp nd) t' q n !! y) <-> is_Some (n !! y))
    by (intros; by apply performed_some).
  exists (<[i := (tr, s')]> ps), (performed x (tp nd) t' q n).
  pose proof (same_transfers ps i tr s s' Hpi) as Hfst.
  split_and!; [|split; rewrite ?Hfst|done|by eapply total_weight_insert|done].
  - unfold net_act. rewrite Hx. cbn [mbind option_bind]. by rewrite Hin, E1.
  - eapply Forall_impl; [|exact Htr]. intros tr0. by rewrite !Hsome.
  - done.
  - eapply Forall_impl; [intros p; apply stage_ok_ext; intros y; symmetry; apply performed_tps|].
    by apply (stages_step _ x (tp nd) t' ps i tr s s').
  - intros y nd' Hy. destruct (performed_inv x (tp nd) t' q n y nd' out A1 Hy) as [[-> ->]|(Hne & ndy & Hny & ->)].
    + destruct nd as [t0 in0]. cbn in *. subst in0. by eapply node_handles.
    + destruct (Z1 y Hne) as [Hp Hf]. apply (node_hears _ _ _ i tr s); [done|by apply Hnd|done..].
Qed.

(** ** A message is sent *)

Lemma messages_app y trs trs' : messages y (trs ++ trs') = messages y trs ++ messages y trs'.
Proof. unfold messages. by rewrite list.filter_app, fmap_app. Qed.

Lemma pending_requested y tr : pending y (tr, requested) = messages y [tr].
Proof.
  unfold pending, messages. cbn [fst snd]. rewrite filter_cons. destruct (decide (y = t_to tr)) as [->|].
  - by rewrite decide_True.
  - by rewrite decide_False by congruence.
Qed.

Lemma node_sends base ps y tr nd t' out : node_ok base ps y nd -> same_address (bus_ (tp nd)) (bus_ t') ->
  rx_callback_ t' = rx_callback_ (tp nd) -> datas t' = datas (tp nd) -> flow y (tr, requested) = out ->
  node_ok base (ps ++ [(tr, requested)]) y (Node t' (inbox nd ++ out)).
Proof.
  intros (Hown & Hrx & Hmix & Hdat) Ha Hr Hd Hf. split_and!; cbn [tp inbox]; [by rewrite Ha|congruence| |].
  - rewrite fmap_app. cbn [fmap list_fmap]. rewrite Hf. pose proof (interleaving_snoc _ _ Hmix) as Hs.
    apply (interleaving_app _ (length (flow y <$> ps)) [] out) in Hs; [|by apply list_lookup_middle].
    by rewrite insert_app_r_alt, Nat.sub_diag in Hs by done.
  - rewrite fmap_app, concat_app, fmap_app, messages_app. cbn [fmap list_fmap concat fst].
    rewrite app_nil_r, pending_requested, Hd, !(assoc_L app). by f_equiv.
Qed.

Lemma send_step base ps n tr : net_ok base ps n -> transfer_ok tr -> is_Some (n !! t_from tr) -> is_Some (n !! t_to tr) ->
  key_of tr ∉ (key_of <$> ps.*1) ->
  exists n', net_act (act_send (t_from tr) (t_to tr) (t_pgn tr) (t_bytes tr)) n = Some (n', 0%nat) /\
    net_ok base (ps ++ [(tr, requested)]) n' /\ forall y, is_Some (n' !! y) <-> is_Some (n !! y).
Proof.
  intros [Htr Hk Hst Hnd] Hok [nd Hx] Hto Hkey. pose proof (Hnd _ nd Hx) as Hndx. pose proof Hndx as (Hown & _).
  destruct (on_send tr Hok (tp nd) Hown) as (s & t' & E1 & A1 & V1 & M1 & O1 & K1).
  assert (Hsome : forall y, is_Some (performed (t_from tr) (tp nd) t' (inbox nd) n !! y) <-> is_Some (n !! y))
    by (intros; by apply performed_some).
  exists (performed (t_from tr) (tp nd) t' (inbox nd) n). split_and!; [|split|done].
  - unfold net_act. rewrite Hx. cbn [mbind option_bind]. by rewrite E1.
  - rewrite fmap_app. apply Forall_app_2; [|constructor; [by rewrite !Hsome|constructor]].
    eapply Forall_impl; [|exact Htr]. intros tr0. by rewrite !Hsome.
  - rewrite !fmap_app. apply list.NoDup_app. split_and!; [done| |apply NoDup_singleton].
    intros k Hin ->%list_elem_of_singleton. done.
  - eapply Forall_impl; [intros p; apply stage_ok_ext; intros y; symmetry; apply performed_tps|].
    apply Forall_app_2; [|constructor; [|constructor]]; [|apply known_here; by exists s].
    apply Forall_lookup. intros j p Hj. apply (stage_ok_other _ _ (tp nd) t' (key_of tr)); [|done| |].
    + unfold tps. by rewrite Hx.
    + intros Heq. apply Hkey. rewrite <- Heq. apply list_elem_of_fmap_2, list_elem_of_fmap_2. by eapply list_elem_of_lookup_2.
    + exact (Forall_lookup_1 _ _ _ _ Hst Hj).
  - intros y nd' Hy. destruct (performed_inv _ _ _ _ _ _ _ _ A1 Hy) as [[-> ->]|(Hne & ndy & Hny & ->)].
    + rewrite <- (app_nil_r (inbox nd)). destruct K1 as (Ka & Kr & _), Hok as (_ & _ & _ & _ & Hab & _).
      apply node_sends; [done..|unfold datas; by rewrite V1|by rewrite flow_from].
    + apply node_sends; [by apply Hnd|done..|]. destruct Hok as (Ha & Hb & _ & Hb' & _).
      rewrite (filter_addressed _ (t_to tr)); [|repeat constructor; by apply cm_frame_header|done].
      unfold flow. cbn [fst snd]. by rewrite (decide_False (P := y = t_from tr)).
Qed.

(** ** Runs *)

Definition sends_of (acts : list net_action) : list transfer :=
  omap (fun a => if a is act_send x dest g bytes then Some (Transfer x dest g bytes) else None) acts.

(** The stations of an action exist, and a message may be sent. *)
Definition act_ok (n : gmap Z (node (E := E))) (a : net_action) : Prop :=
  match a with
  | act_send x dest g bytes => transfer_ok (Transfer x dest g bytes) /\ is_Some (n !! x) /\ is_Some (n !! dest)
  | act_handle x => is_Some (n !! x)
  end.

(** The frames of a transfer. *)
Definition frames_needed (tr : transfer) : nat := Z.to_nat (packets (len (t_bytes tr)) + 4).

Lemma sends_cons a acts : sends_of (a :: acts) = sends_of [a] ++ sends_of acts.
Proof. exact (omap_app _ [a] acts). Qed.

Lemma act_step base a ps n : net_ok base ps n -> act_ok n a -> NoDup (key_of <$> ps.*1 ++ sends_of [a]) ->
  exists ps' n' c, net_act a n = Some (n', c) /\ net_ok base ps' n' /\ ps'.*1 = ps.*1 ++ sends_of [a] /\
    (c + total_weight ps' <= total_weight ps + sum_list_with frames_needed (sends_of [a]))%nat /\
    forall y, is_Some (n' !! y) <-> is_Some (n !! y).
Proof.
  intros Hn Ha Hk. destruct a as [x dest g bytes|x].
  - destruct Ha as (Hok & Hx & Hd). set (tr := Transfer x dest g bytes) in *.
    change (sends_of [act_send x dest g bytes]) with [tr] in *.
    destruct (send_step base ps n tr Hn Hok Hx Hd) as (n' & E1 & Hn1 & Hs1).
    { rewrite fmap_app in Hk. apply list.NoDup_app in Hk as (_ & Hk & _). intros Hin. apply (Hk _ Hin). by left. }
    exists (ps ++ [(tr, requested)]), n', 0%nat. split_and!; try done; [by rewrite fmap_app|].
    unfold total_weight. rewrite sum_list_with_app. unfold frames_needed. cbn [sum_list_with weight fst snd]. lia.
  - destruct Ha as [nd Hx]. change (sends_of [act_handle x]) with (@nil transfer). rewrite app_nil_r.
    destruct (inbox nd) as [|fr q] eqn:Hin.
    + exists ps, n, 0%nat. split_and!; try done; [|lia]. unfold net_act. rewrite Hx. cbn [mbind option_bind]. by rewrite Hin.
    + destruct (handle_step base ps n x nd fr q Hn Hx Hin) as (ps' & n' & E1 & Hn1 & Hp1 & Hw1 & Hs1).
      exists ps', n', 1%nat. split_and!; try done. simpl. lia.
Qed.

Lemma acts_ok base acts ps n : net_ok base ps n -> Forall (act_ok n) acts ->
  NoDup (key_of <$> ps.*1 ++ sends_of acts) ->
  exists n' ps' c, net_acts acts n = Some (n', c) /\ net_ok base ps' n' /\ ps'.*1 = ps.*1 ++ sends_of acts /\
    (c + total_weight ps' <= total_weight ps + sum_list_with frames_needed (sends_of acts))%nat /\
    forall y, is_Some (n' !! y) <-> is_Some (n !! y).
Proof.
  revert ps n. induction acts as [|a acts IH]; intros ps n Hn Hacts Hk.
  { exists n, ps, 0%nat. simpl. rewrite app_nil_r. split_and!; try done. lia. }
  inversion Hacts as [|? ? Ha Hacts']; subst. cbn [net_acts]. rewrite sends_cons, (assoc_L app) in *.
  destruct (act_step base a ps n) as (ps1 & n1 & c1 & E1 & Hn1 & Hp1 & Hw1 & Hs1); [done..| |].
  { rewrite fmap_app in Hk. by apply list.NoDup_app in Hk as (Hk & _). }
  destruct (IH ps1 n1) as (n2 & ps2 & c2 & E2 & Hn2 & Hp2 & Hw2 & Hs2); [done| |by rewrite Hp1|].
  { eapply Forall_impl; [|exact Hacts']. intros []; simpl; by rewrite ?Hs1. }
  exists n2, ps2, (c1 + c2)%nat. rewrite E1. cbn [mbind option_bind]. rewrite E2. split_and!; try done.
  - by rewrite Hp2, Hp1.
  - rewrite sum_list_with_app. lia.
  - intros y. by rewrite Hs2.
Qed.

(** No frame is left to be handled. *)
Definition quiet (n : gmap Z (node (E := E))) : Prop := forall y nd, n !! y = Some nd -> inbox nd = [].

Lemma interleaving_nil {A} (ls : list (list A)) : interleaving ls [] -> Forall (eq []) ls.
Proof. by inversion 1. Qed.

(** In a quiet net all transfers are over. *)
Lemma quiet_done base ps n y nd : net_ok base ps n -> quiet n -> n !! y = Some nd ->
  datas (tp nd) ≡ₚ base y ++ messages y ps.*1.
Proof.
  intros [Htr Hk Hst Hnd] Hq Hy. destruct (Hnd y nd Hy) as (_ & _ & _ & <-).
  assert (Hp : Forall (fun p => pending y p = []) ps).
  { apply Forall_lookup. intros i [tr s] Hi.
    assert (Htri : ps.*1 !! i = Some tr) by (by rewrite list_lookup_fmap, Hi).
    destruct (Forall_lookup_1 _ _ _ _ Htr Htri) as (Hok & [nda Ha] & [ndb Hb]).
    assert (Hflow : forall z ndz, n !! z = Some ndz -> flow z (tr, s) = []).
    { intros z ndz Hz. destruct (Hnd z ndz Hz) as (_ & _ & Hmix & _). rewrite (Hq z ndz Hz) in Hmix.
      apply interleaving_nil in Hmix. symmetry. eapply Forall_lookup_1; [exact Hmix|]. by rewrite list_lookup_fmap, Hi. }
    pose proof (Hflow _ _ Hb) as Fb. pose proof (Hflow _ _ Ha) as Fa. pose proof Hok as (_ & _ & _ & _ & Hab & _ & Hn).
    rewrite flow_to in Fb. rewrite flow_from in Fa by done. unfold pending. cbn [fst snd].
    destruct (decide _); [|done]. destruct s as [| |k|ack|l]; try done.
    destruct (Forall_lookup_1 _ _ _ _ Hst Hi) as [Hk' _]. cbn [up fst] in *. rewrite seqZ_cons in Fb by lia. done. }
  rewrite (Forall_fmap_ext_1 _ (fun _ => []) ps) by exact Hp. clear. induction ps; simpl; [by rewrite app_nil_r|done].
Qed.

(** Every station has its own address, delivers what it receives, and has no frame to handle. *)
Definition ready (n : gmap Z (node (E := E))) : Prop :=
  forall y nd, n !! y = Some nd ->
    bus_source_address (bus_ (tp nd)) = y /\ rx_callback_ (tp nd) = true /\ inbox nd = [].

(** Since [n0] every station of [n] has delivered exactly the messages of [trs] to it. *)
Definition all_delivered (n0 : gmap Z (node (E := E))) (trs : list transfer) (n : gmap Z (node (E := E))) : Prop :=
  forall y nd0 nd, n0 !! y = Some nd0 -> n !! y = Some nd -> datas (tp nd) ≡ₚ datas (tp nd0) ++ messages y trs.

Lemma quiet_ready base ps n : net_ok base ps n -> quiet n -> ready n.
Proof. intros [_ _ _ Hnd] Hq y nd Hy. destruct (Hnd y nd Hy) as (Ho & Hr & _). split_and!; [done..|by eapply Hq]. Qed.

(** Frames can be handled until the net is quiet. *)
Lemma can_finish base ps n : net_ok base ps n ->
  exists xs ps' n', net_acts (act_handle <$> xs) n = Some (n', length xs) /\ quiet n' /\
    net_ok base ps' n' /\ ps'.*1 = ps.*1.
Proof.
  remember (total_weight ps) as w eqn:Hw. revert ps n Hw. induction (lt_wf w) as [w _ IH]. intros ps n -> Hn.
  destruct (decide (map_Forall (fun _ nd => length (inbox nd) = 0%nat) n)) as [Hq|Hq].
  - exists [], ps, n. split_and!; try done. intros y nd Hy. apply nil_length_inv, (Hq y nd Hy).
  - apply map_not_Forall in Hq as (x & nd & Hx & Hne); [|apply _].
    destruct (inbox nd) as [|fr q] eqn:Hin; [done|].
    destruct (handle_step base ps n x nd fr q Hn Hx Hin) as (ps1 & n1 & E1 & Hn1 & Hp1 & Hw1 & _).
    destruct (IH _ Hw1 ps1 n1 eq_refl Hn1) as (xs & ps' & n' & E2 & Hq' & Hn' & Hp'). exists (x :: xs), ps', n'.
    split_and!; [|done|done|congruence].
    rewrite fmap_cons. cbn [net_acts]. rewrite E1. cbn [mbind option_bind]. by rewrite E2.
Qed.

(** C2.  Stations that send each other messages at the same time.  Any number of
    stations may take part, and each may send a message of 9 to 1778 bytes to each
    other one, at most one for each sender and receiver; each station handles its
    next frame when the environment lets it.  Then no handler faults, and the
    frames handled are at most four for each message besides its packets.  Handling
    can always go on until no frame is left, and when none is left each station has
    delivered exactly the messages sent to it, each once; the stations are ready for
    the next messages. *)
Theorem concurrent_transfers acts (n0 : gmap Z (node (E := E))) :
  ready n0 -> Forall (act_ok n0) acts -> NoDup (key_of <$> sends_of acts) ->
  exists n c, net_acts acts n0 = Some (n, c) /\
    (c <= sum_list_with frames_needed (sends_of acts))%nat /\
    (exists xs n', net_acts (act_handle <$> xs) n = Some (n', length xs) /\
       ready n' /\ all_delivered n0 (sends_of acts) n') /\
    (quiet n -> ready n /\ all_delivered n0 (sends_of acts) n).
Proof.
  intros Hstart Hacts Hk. set (base y := from_option (fun nd => datas (tp nd)) [] (n0 !! y)).
  assert (Hn0 : net_ok base [] n0).
  { split; [constructor..|]. intros y nd Hy. destruct (Hstart y nd Hy) as (Ho & Hr & Hi).
    split_and!; [done..|rewrite Hi; by repeat constructor|]. unfold base. by rewrite Hy. }
  destruct (acts_ok base acts [] n0 Hn0 Hacts Hk) as (n & ps & c & E1 & Hn & Hp & Hw & _).
  assert (Hdone : forall ps' n', net_ok base ps' n' -> ps'.*1 = ps.*1 -> quiet n' ->
    ready n' /\ all_delivered n0 (sends_of acts) n').
  { intros ps' n' Hn' Hp' Hq. split; [by eapply quiet_ready|]. intros y nd0 nd Hy0 Hy.
    rewrite (quiet_done base ps' n' y nd Hn' Hq Hy), Hp', Hp. unfold base. by rewrite Hy0. }
  exists n, c. split_and!; [done|simpl in Hw; lia| |by apply (Hdone ps n Hn)].
  destruct (can_finish base ps n Hn) as (xs & ps' & n' & E2 & Hq & Hn' & Hp'). exists xs, n'. split; [done|]. eauto.
Qed.

End Facts.
