(* ===== verification/TransportLimits.v ===== *)
(** * Where the transport protocol falls short

    Frames of a peer that make the handlers fault; the longest messages, whose
    transfer is reported as failed; acknowledgements and aborts that go to the
    wrong session; and what [tick] does with the sessions. *)

From Stdlib Require Import String.
From stdpp Require Import gmap list list_numbers.
From S2P Require Import Prelude J1939Type Canary Header HeaderFacts Name Frame Transport.
From S2P Require Import TransportFacts TransportRoundTrip.

Section Faults.
Context `{CanaryLaws} {E : Type} `{!Bus E}.

(** ** Malformed frames *)

(** A request to send with any announced length, packet count and window. *)
Definition raw_rts (dst src n total window : Z) : frame :=
  Frame (header (make_base_frame PGN_TP_CM dst src))
    [to_byte RTS; n .& 0xFF; u8 (n .>> 8); total; window; 0; 0; 0].

Lemma on_raw_rts a n total window (t : transport E) :
  let b := bus_source_address (bus_ t) in
  is_uint 8 a -> is_uint 8 b -> is_uint 16 n ->
  exists time t', on_can_frame (raw_rts b a n total window) t = Ok (tt, t') /\
    sessions_ t' !! (a, b) =
      Some (Session Rx (replicate (Z.to_nat n) 0) total 1 n window b a 0 false time InProgress).
Proof.
  intros b Ha Hb Hn. destruct (base_frame_header 0xEC b a) as (Hpgn & Hps & Hsa & Hbr); [lia|done..|].
  change (0xEC * 2 ^ 8) with PGN_TP_CM in *. set (fr := raw_rts b a n total window).
  assert (Hsize : payload_size fr = n) by (apply (cm_frame_size RTS b a 0 n window); done).
  unfold on_can_frame. replace (pgn (header fr)) with PGN_TP_CM by (symmetry; exact Hpgn).
  rewrite Z.eqb_refl. change (handle_cm fr) with (start_rx_rts fr). unfold start_rx_rts.
  replace (pdu_specific (header fr)) with b by (symmetry; exact Hps).
  replace (source_address (header fr)) with a by (symmetry; exact Hsa).
  replace (is_broadcast (header fr)) with false by (symmetry; exact Hbr). rewrite Hsize.
  erewrite bind_ok by reflexivity. fold b. rewrite Z.eqb_refl. cbn [negb].
  destruct (now_calm t) as (time & t1 & E1 & _). erewrite bind_ok by exact E1.
  erewrite bind_ok by reflexivity. unfold response_cts, send_frame, mbind, M_bind.
  destruct (bus_send _ _) as [ok e]. exists time. eexists. split; [reflexivity|].
  simpl. apply lookup_insert_eq.
Qed.


(** Packet 1 of a transfer into an empty buffer is accepted. *)
Lemma empty_buffer_first_packet a b time (t : transport E) :
  is_uint 8 a -> is_uint 8 b ->
  sessions_ t !! (a, b) = Some (Session Rx [] 3 1 0 0xFF b a 0 false time InProgress) ->
  exists time' t', on_can_frame (dt_frame b a (replicate 14 0) 1) t = Ok (tt, t') /\
    sessions_ t' !! (a, b) = Some (Session Rx [] 3 2 0 0xFF b a 0 false time' InProgress).
Proof.
  intros Ha Hb M1. rewrite (on_dt_frame b a _ 1 _ t Hb Ha M1) by done. unfold accept_dt.
  rewrite (bind_ok _ _ t t []) by reflexivity.
  destruct (now_calm t) as (time' & t1 & E1 & _). erewrite bind_ok by exact E1.
  erewrite bind_ok by reflexivity. exists time'. eexists. split; [reflexivity|]. apply lookup_insert_eq.
Qed.

(** Packet 0 starts before the buffer. *)
Lemma make_packet_zero s (t : transport E) : len (buffer s) <= 1785 -> next_seq s = 0 ->
  make_packet s t = Fault read_out_of_bounds.
Proof.
  intros Hl Hn. unfold make_packet. rewrite Hn. change (packet_offset 0) with (2 ^ 64 - 7).
  assert (Ha : packet_avail (len (buffer s)) 0 = 7).
  { unfold packet_avail. change (packet_offset 0) with (2 ^ 64 - 7).
    unfold wrap. Z.div_mod_to_equations. lia. }
  rewrite Ha. unfold mbind, M_bind, copy_n. by rewrite (proj2 (Z.ltb_lt _ _)) by lia.
Qed.

Lemma on_cts_packet_zero a s (t : transport E) :
  let b := bus_source_address (bus_ t) in
  is_uint 8 a -> is_uint 8 b ->
  sessions_ t !! (b, a) = Some s -> 0 <= total_packets s -> len (buffer s) <= 1785 ->
  on_can_frame (cts_frame b a 0 1 0) t = Fault read_out_of_bounds.
Proof.
  intros b Ha Hb Hs Htot Hlen. destruct (base_frame_header 0xEC b a) as (Hpgn & _ & Hsa & _); [lia|done..|].
  change (0xEC * 2 ^ 8) with PGN_TP_CM in *. set (fr := cts_frame b a 0 1 0).
  unfold on_can_frame. replace (pgn (header fr)) with PGN_TP_CM by (symmetry; exact Hpgn).
  rewrite Z.eqb_refl. change (handle_cm fr) with (handle_cts fr). unfold handle_cts.
  replace (source_address (header fr)) with a by (symmetry; exact Hsa).
  erewrite bind_ok by reflexivity. fold b. unfold make_key.
  erewrite bind_ok by (unfold find, gets; by rewrite Hs). cbv beta iota zeta.
  set (s' := set_next_seq _ _).
  assert (Hf : send_data_packets s' t = Fault read_out_of_bounds).
  { unfold send_data_packets. change (Z.to_nat (window_size s')) with 1%nat. cbn [send_data_loop].
    change (next_seq s') with 0. rewrite (proj2 (Z.leb_le 0 (total_packets s')) Htot).
    unfold mbind, M_bind. by rewrite make_packet_zero. }
  unfold on_session, mbind, M_bind. by rewrite Hf.
Qed.

(** C31.  Three frames of a peer that make the handlers fault, for any state of the
    object: after a request to send with window 0, the first data packet divides
    by zero; after a request to send three packets for an empty buffer, the
    second data packet is copied outside of the buffer; and a clear to send that
    asks for packet 0 reads outside of the buffer of the message. *)
Theorem malformed_frames_fault a (t : transport E) s :
  let b := bus_source_address (bus_ t) in
  let bytes := replicate 14 0 in
  is_uint 8 a -> is_uint 8 b ->
  receive [raw_rts b a 14 2 0; dt_frame b a bytes 1] t = Fault division_by_zero /\
  receive [raw_rts b a 0 3 0xFF; dt_frame b a bytes 1; dt_frame b a bytes 2] t = Fault write_out_of_bounds /\
  (sessions_ t !! (b, a) = Some s -> 0 <= total_packets s -> len (buffer s) <= 1785 ->
   receive [cts_frame b a 0 1 0] t = Fault read_out_of_bounds).
Proof.
  intros b bytes Ha Hb. split_and!; cbn [receive].
  - destruct (on_raw_rts a 14 2 0 t) as (time & t1 & E1 & M1); [done..|]. fold b in E1, M1.
    erewrite bind_ok by exact E1. unfold mbind at 1, M_bind at 1.
    rewrite (on_dt_frame b a bytes 1 _ t1 Hb Ha M1) by done.
    unfold accept_dt. erewrite bind_ok by reflexivity.
    destruct (now_calm t1) as (time' & t2 & E2 & _). erewrite bind_ok by exact E2.
    by erewrite bind_ok by reflexivity.
  - destruct (on_raw_rts a 0 3 0xFF t) as (time & t1 & E1 & M1); [done..|]. fold b in E1, M1.
    erewrite bind_ok by exact E1.
    destruct (empty_buffer_first_packet a b time t1) as (time' & t2 & E2 & M2); [done..|].
    erewrite bind_ok by exact E2. unfold mbind at 1, M_bind at 1.
    by rewrite (on_dt_frame b a bytes 2 _ t2 Hb Ha M2) by done.
  - intros Hs Htot Hlen. pose proof (on_cts_packet_zero a s t Ha Hb Hs Htot Hlen) as Hf.
    fold b in Hf. unfold mbind, M_bind. by rewrite Hf.
Qed.

End Faults.

(** ** The longest messages *)

Section Longest.
Context `{CanaryLaws} {E : Type} `{!Bus E} `{!ReliableBus}.

Lemma packets_255 n : 1779 <= n <= 1785 -> packets n = 255.
Proof. intros. unfold packets. Z.div_mod_to_equations. lia. Qed.

(** All 255 packets are sent, and [next_seq] is 0. *)
Lemma send_255_packets s t :
  1779 <= len (buffer s) <= 1785 -> total_packets s = 255 -> next_seq s = 1 -> window_size s = 0xFF ->
  exists n t', send_data_packets s t = Ok ((false, set_next_seq 0 (set_last_activity n s)), t') /\
    sends (dt_frame (dest_sa s) (src_sa s) (buffer s) <$> seqZ 1 255) t t'.
Proof.
  intros Hn Htot Hnext Hwin. pose proof (packets_255 _ Hn) as Hp.
  destruct (send_data_loop_prefix 254 1 s t) as (n1 & t1 & E1 & S1); [lia..|].
  rewrite Hnext in E1, S1. set (s1 := set_next_seq _ _) in E1.
  destruct (send_data_loop_step 0 s1 t1) as (n2 & t2 & E2 & S2); [simpl; lia..|].
  exists n2, t2. split.
  - unfold send_data_packets. rewrite Hwin. change (Z.to_nat 255) with (254 + 1)%nat.
    change (u8 (next_seq s1 + 1)) with 0 in E2. set (s2 := set_next_seq 0 _) in E2.
    assert (Hend : send_data_loop 0 s2 t2 = Ok ((true, s2), t2))
      by (cbn [send_data_loop]; by destruct (_ <=? _)).
    erewrite bind_ok by (rewrite E1, E2; exact Hend). cbn [negb].
    by rewrite (proj2 (Z.ltb_ge (total_packets s2) (next_seq s2))) by (simpl; lia).
  - change 255 with (254 + 1). rewrite seqZ_app, fmap_app by lia. exact (sends_app _ _ t t1 t2 S1 S2).
Qed.

(** C32.  A broadcast of 1779 to 1785 bytes, which needs 255 packets, is reported
    as failed: all its frames are sent, but the 8-bit counter [next_seq] wraps
    around to 0 after the last packet, so that [send] returns false and the
    session is never completed. *)
Theorem longest_broadcast_reports_failure bytes g t :
  1779 <= len bytes <= 1785 ->
  let own := bus_source_address (bus_ t) in
  exists s t', send bytes 0xFF g t = Ok (false, t') /\
    sent (bus_ t') = sent (bus_ t) ++ bam_frames own g bytes /\
    sessions_ t' !! (own, 0xFF) = Some s /\ state s = InProgress /\ next_seq s = 0.
Proof.
  intros Hn own. pose proof (packets_255 (len bytes) Hn) as Hp.
  destruct (start_tx_session bytes 0xFF g t) as (n & t0 & (A0 & _) & E0); [lia|].
  fold own in E0. rewrite E0. clear E0. change (0xFF =? 0xFF) with true. cbv iota.
  set (s := tx_session bytes 0xFF own g n). set (t1 := with_sessions _ t0).
  destruct (send_frame_ok (cm_frame BAM 0xFF own g (len bytes) 0xFF) t1) as (t2 & E2 & (A2 & _)).
  destruct (now_ok t2) as (n' & t3 & E3 & (A3 & _)).
  destruct (send_255_packets (set_last_activity n' s) t3) as (n4 & t4 & E4 & (A4 & _)); [done..|].
  assert (Hstart : send_bam_start s t1 = send_data_packets (set_last_activity n' s) t3).
  { unfold send_bam_start. rewrite fill_cm_frame by done. erewrite bind_ok by exact E2.
    cbn [negb]. by erewrite bind_ok by exact E3. }
  rewrite E4 in Hstart. eexists _, _. split.
  { unfold on_session. erewrite bind_ok by exact Hstart. reflexivity. }
  cbn [bus_ sessions_ with_sessions]. rewrite lookup_insert_eq. split_and!; [|done..].
  rewrite A4, A3, A2. simpl bus_. rewrite A0, !app_nil_r, <- (assoc_L app). unfold bam_frames. by rewrite Hp.
Qed.

End Longest.

(** ** Timeouts *)

Section Timeouts.
Context `{CanaryHeader} {E : Type} `{!Bus E} `{!ReliableBus}.

(** Idle for more than 1250 ms, in either direction. *)
Definition expired (n : Z) (s : TpSession) : bool := T2 <? n - last_activity s.

(** The frame that [send_abort] sends. *)
Definition abort_frame (s : TpSession) (code : AbortCode) : frame :=
  set_byte 2 0 (set_byte 3 0 (set_byte 4 0 (set_byte 1 (abort_byte code)
    (fill_tp_payload s (make_cm_frame ABORT (src_sa s) (dest_sa s)))))).

(** The aborts of the expired sessions, in iteration order. *)
Definition timeout_aborts (n : Z) (m : gmap (Z * Z) TpSession) (order : list (Z * Z)) : list frame :=
  omap (fun key => s ← m !! key; if expired n s then Some (abort_frame s Timeout) else None) order.

Lemma report_error_ok what ec t : exists t', report_error (E := E) what ec t = Ok (tt, t') /\
  sent (bus_ t') = sent (bus_ t) /\ sessions_ t' = sessions_ t.
Proof. eexists. split; [reflexivity|]. destruct (error_callback_ t); [|done]. split; [apply called_records|done]. Qed.

Lemma tick_session_ok n key t :
  exists t', tick_session n key t = Ok (tt, t') /\
    sessions_ t' = (match sessions_ t !! key with
                    | Some s => if expired n s then delete key (sessions_ t) else sessions_ t
                    | None => sessions_ t
                    end) /\
    sent (bus_ t') = sent (bus_ t) ++ timeout_aborts n (sessions_ t) [key].
Proof.
  unfold tick_session, timeout_aborts. erewrite bind_ok by reflexivity. simpl.
  destruct (sessions_ t !! key) as [s|] eqn:Hs; simpl; [|exists t; by rewrite app_nil_r].
  replace (match dir s with Tx => T3 | Rx => T2 end) with T2 by (by destruct (dir s)).
  fold (expired n s). destruct (expired n s) eqn:He.
  - destruct (send_frame_ok (abort_frame s Timeout) t) as (t1 & E1 & (A1 & _ & _ & _ & M1 & _)).
    destruct (report_error_ok "tp timeout" timed_out t1) as (t2 & E2 & A2 & M2).
    erewrite bind_ok by exact E1. erewrite bind_ok by exact E2.
    eexists. split; [reflexivity|]. simpl. by rewrite M2, M1, A2, A1.
  - assert (Hc : (SessionCleanTimeout <? n - last_activity s) = false).
    { unfold expired in He. apply Z.ltb_ge in He. apply Z.ltb_ge.
      unfold SessionCleanTimeout, T2, milliseconds in *. lia. }
    rewrite Hc. exists t. by rewrite app_nil_r.
Qed.

Lemma timeout_aborts_cons n m k order :
  timeout_aborts n m (k :: order) = timeout_aborts n m [k] ++ timeout_aborts n m order.
Proof. unfold timeout_aborts. cbn. by destruct (mbind _ (m !! k)). Qed.

Lemma timeout_aborts_ext n m m' order : (forall k, k ∈ order -> m !! k = m' !! k) ->
  timeout_aborts n m order = timeout_aborts n m' order.
Proof.
  induction order as [|k order IH]; intros Hm; [done|].
  rewrite (timeout_aborts_cons n m), (timeout_aborts_cons n m').
  rewrite IH by (intros j Hj; by apply Hm, list_elem_of_further).
  f_equal. unfold timeout_aborts. cbn. by rewrite (Hm k) by apply list_elem_of_here.
Qed.

Lemma tick_loop_ok n order t : NoDup order ->
  exists t', tick_loop n order t = Ok (tt, t') /\
    (forall k s, sessions_ t' !! k = Some s <->
       sessions_ t !! k = Some s /\ (k ∈ order -> expired n s = false)) /\
    sent (bus_ t') = sent (bus_ t) ++ timeout_aborts n (sessions_ t) order.
Proof.
  revert t. induction order as [|key order IH]; intros t Hnd.
  { exists t. rewrite app_nil_r. split_and!; [done| |done]. intros k s. split; [intros Hs; split; [done|]|by intros [? _]]. by intros ?%not_elem_of_nil. }
  inversion_clear Hnd as [|? ? Hkey Hnd'].
  destruct (tick_session_ok n key t) as (t1 & E1 & M1 & A1). destruct (IH t1 Hnd') as (t2 & E2 & M2 & A2).
  assert (Hother : forall k, k <> key -> sessions_ t1 !! k = sessions_ t !! k).
  { intros k Hk. rewrite M1. destruct (sessions_ t !! key) as [s|]; [|done].
    destruct (expired n s); [|done]. by rewrite lookup_delete_ne. }
  exists t2. cbn [tick_loop]. erewrite bind_ok by exact E1. split_and!; [exact E2| |].
  - intros k s. rewrite M2, elem_of_cons. destruct (decide (k = key)) as [->|Hk].
    + assert (Hs : sessions_ t1 !! key = Some s <-> sessions_ t !! key = Some s /\ expired n s = false).
      { rewrite M1. destruct (sessions_ t !! key) as [s'|] eqn:Hs; [|by rewrite Hs; split; [|intros []]].
        destruct (expired n s') eqn:He; [rewrite lookup_delete_eq|rewrite Hs]; split; try done.
        - intros [[= <-] ?]. congruence.
        - by intros [= <-].
        - by intros [? _]. }
      rewrite Hs. pose proof (eq_refl key). tauto.
    + rewrite (Hother k Hk). tauto.
  - rewrite A2, A1, (timeout_aborts_cons n (sessions_ t) key order), (assoc_L app). f_equal.
    apply timeout_aborts_ext. intros k Hk. apply Hother. by intros ->.
Qed.

(** C30.  [tick] removes exactly the sessions without activity for more than 1250 ms
    and sends one timeout abort for each, whatever the iteration order of the
    map and whatever the state of the session: a completed transfer is aborted
    too. *)
Theorem tick_aborts_idle_sessions order t :
  order ≡ₚ (map_to_list (sessions_ t)).*1 ->
  let n := fst (steady_now (bus_ t)) in
  exists t', tick order t = Ok (tt, t') /\
    (forall k s, sessions_ t' !! k = Some s <->
       sessions_ t !! k = Some s /\ n - last_activity s <= milliseconds 1250) /\
    sent (bus_ t') = sent (bus_ t) ++ timeout_aborts n (sessions_ t) order.
Proof.
  intros Hord n. destruct (now_ok t) as (n' & t1 & E1 & (A1 & _ & _ & _ & M1 & _)).
  assert (n' = n) as -> by (unfold now, n in *; destruct (steady_now (bus_ t)); by simplify_eq/=).
  destruct (tick_loop_ok n order t1) as (t2 & E2 & M2 & A2).
  { rewrite Hord. apply NoDup_fst_map_to_list. }
  exists t2. unfold tick. erewrite bind_ok by exact E1. split_and!; [exact E2| |].
  - intros k s. rewrite M2, M1. unfold expired. rewrite Z.ltb_ge. change T2 with (milliseconds 1250).
    split; [|by intros [Hs Ht]]. intros [Hs Ht]. split; [done|]. apply Ht. rewrite Hord.
    apply list_elem_of_fmap. exists (k, s). by rewrite elem_of_map_to_list.
  - by rewrite A2, A1, M1, app_nil_r.
Qed.


End Timeouts.

(** ** Answers to a peer *)

Section Answers.
Context `{CanaryLaws} {E : Type} `{!Bus E} `{!ReliableBus}.

Lemma ack_handled a b ack (t : transport E) : is_ack ack a b -> on_can_frame ack t = complete_rx ack t.
Proof.
  intros (Hpgn & Hb & _ & _). unfold on_can_frame. rewrite Hpgn, Z.eqb_refl. unfold handle_cm. by rewrite Hb.
Qed.


(** A clear to send for a packet after the last one, as a peer that needs a pause
    sends it (no packets, next packet 255), ends the transfer: no packet is sent,
    and the session is completed with an acknowledgement, whatever packets are
    missing. *)
Theorem hold_ends_transfer a b g bytes w k s0 (t : transport E) :
  is_uint 8 a -> is_uint 8 b -> packets (len bytes) < k -> bus_source_address (bus_ t) = a ->
  sessions_ t !! (a, b) = Some s0 -> offers a b g bytes s0 ->
  exists ack t', on_can_frame (cts_frame a b g w k) t = Ok (tt, t') /\ is_ack ack a b /\
    sent (bus_ t') = sent (bus_ t) ++ [ack] /\ state <$> sessions_ t' !! (a, b) = Some Completed.
Proof.
  intros Ha Hb Hk Hown Hm (Hbuf & Hlen & Htot & Hds & Hss & Hg & Hbam). subst a.
  rewrite (on_cts_session b g w k s0 t) by done. set (s1 := set_next_seq _ _).
  assert (E0 : send_data_loop (Z.to_nat (window_size s1)) s1 t = Ok ((true, s1), t)).
  { assert ((next_seq s1 <=? total_packets s1) = false) as Hn by (apply Z.leb_gt; simpl; congruence).
    destruct (Z.to_nat _); cbn [send_data_loop]; by rewrite Hn. }
  destruct (send_eom_ack_sent s1 t) as (ack & t1 & E1 & (A1 & _) & Hack); [simpl; congruence..|].
  assert (E2 : send_data_packets s1 t = Ok ((true, set_state Completed s1), t1)).
  { unfold send_data_packets. erewrite bind_ok by exact E0. cbn [negb].
    rewrite (proj2 (Z.ltb_lt _ _)) by (simpl; congruence). by erewrite bind_ok by exact E1. }
  eexists ack, _. split; [|split; [by simpl in Hack; rewrite <- Hss, <- Hds|]].
  { erewrite bind_ok; [reflexivity|]. unfold on_session. erewrite bind_ok by exact E2. reflexivity. }
  cbn [bus_ sessions_ with_sessions]. by rewrite lookup_insert_eq.
Qed.

Lemma abort_frame_addresses s code : is_uint 8 (src_sa s) -> is_uint 8 (dest_sa s) ->
  source_address (header (abort_frame s code)) = dest_sa s /\ pdu_specific (header (abort_frame s code)) = src_sa s.
Proof.
  intros Ha Hb. destruct (base_frame_header 0xEC (src_sa s) (dest_sa s)) as (_ & Hps & Hsa & _); [lia|done..|].
  by split.
Qed.

(** C34.  A sender impersonates its peer.  The frames that end a transfer are built
    for the receiving side: the node [a] that sends to [b] completes the transfer
    with an acknowledgement that carries the source address [b] and is addressed to
    itself, and so does the abort it sends after a timeout. *)
Theorem sender_impersonates_its_peer a b g bytes w k s n t :
  is_uint 8 a -> is_uint 8 b -> 0 < len bytes <= 1778 -> 1 <= k <= packets (len bytes) ->
  packets (len bytes) < k + w -> bus_source_address (bus_ t) = a ->
  sessions_ t !! (a, b) = Some s -> offers a b g bytes s ->
  (exists ack t', on_can_frame (cts_frame a b g w k) t = Ok (tt, t') /\ is_ack ack a b /\
     sent (bus_ t') = sent (bus_ t) ++ (dt_frame b a bytes <$> seqZ k (packets (len bytes) + 1 - k)) ++ [ack]) /\
  (milliseconds 1250 < n - last_activity s ->
   exists fr t', tick_session n (a, b) t = Ok (tt, t') /\ sent (bus_ t') = sent (bus_ t) ++ [fr] /\
     byte 0 fr = to_byte ABORT /\ source_address (header fr) = b /\ pdu_specific (header fr) = a).
Proof.
  intros Ha Hb Hn Hk Hw Hown Hm Hoff. split.
  - destruct (on_last_grant a b g bytes w k s t) as (s1 & t1 & E1 & A1 & _); [done..|].
    exists (cm_frame EOM a b g (len bytes) 0xFF), t1. split; [exact E1|]. split; [|exact A1].
    destruct (base_frame_header 0xEC a b) as (Hp & Hps & Hsa & _); [lia|done..|]. exact (conj Hp (conj eq_refl (conj Hps Hsa))).
  - intros He. destruct Hoff as (_ & _ & _ & Hds & Hss & _).
    destruct (tick_session_ok n (a, b) t) as (t1 & E1 & _ & A1). exists (abort_frame s Timeout), t1.
    assert (Hx : expired n s = true) by (by apply Z.ltb_lt).
    unfold timeout_aborts in A1. cbn in A1. rewrite Hm in A1. cbn in A1. rewrite Hx in A1.
    rewrite <- Hss in Ha. rewrite <- Hds in Hb. destruct (abort_frame_addresses s Timeout Ha Hb) as [-> ->]. by split_and!.
Qed.

Lemma reject_dt_ok key s code what (t : transport E) :
  exists t', reject_dt key s code what t = Ok (tt, t') /\
    sent (bus_ t') = sent (bus_ t) ++ [abort_frame (set_state ABorted s) code] /\
    sessions_ t' = <[key := set_state ABorted s]> (sessions_ t) /\ rx_callback_ t' = rx_callback_ t.
Proof.
  unfold reject_dt. erewrite bind_ok by reflexivity. set (t1 := with_sessions _ t).
  destruct (send_frame_ok (abort_frame (set_state ABorted s) code) t1) as (t2 & E2 & (A2 & _ & R2 & _ & M2 & _)).
  erewrite bind_ok by exact E2. eexists. split; [reflexivity|].
  destruct (error_callback_ t2); simpl; by rewrite ?called_records, A2, M2, R2.
Qed.

(** A packet out of order is answered with an abort and otherwise ignored: the
    receiver still waits for the same packet, and completes the message when it
    arrives, although it has told the sender that the transfer is aborted. *)
Theorem out_of_order_packet_is_ignored isbam dst src g bytes k j (t : transport E) :
  is_uint 8 dst -> is_uint 8 src -> 1 <= k <= packets (len bytes) -> j <> k ->
  receiving isbam dst src g bytes k t ->
  exists fr t', on_can_frame (dt_frame dst src bytes j) t = Ok (tt, t') /\
    receiving isbam dst src g bytes k t' /\
    sent (bus_ t') = sent (bus_ t) ++ [fr] /\ byte 0 fr = to_byte ABORT.
Proof.
  intros Hd Hs Hk Hj (Hrx & s & Hm & Has & Hg & Hbam & Hds & Hss & Hwin).
  destruct (base_frame_header 0xEB dst src) as (Hpgn & Hps & Hsa & _); [lia|done..|].
  change (0xEB * 2 ^ 8) with PGN_TP_DT in *. set (fr := dt_frame dst src bytes j).
  assert (Hrej : exists code what, on_can_frame fr t = reject_dt (src, dst) s code what t).
  { unfold on_can_frame. replace (pgn (header fr)) with PGN_TP_DT by (symmetry; exact Hpgn).
    change (PGN_TP_DT =? PGN_TP_CM) with false. rewrite Z.eqb_refl. cbv iota. unfold handle_dt.
    replace (pdu_specific (header fr)) with dst by (symmetry; exact Hps).
    replace (source_address (header fr)) with src by (symmetry; exact Hsa). unfold make_key.
    erewrite bind_ok by (unfold find, gets; by rewrite Hm). cbv beta iota. change (byte 0 fr) with j.
    destruct Has as (-> & _). rewrite (proj2 (Z.eqb_neq j k) Hj).
    destruct (_ || _); [by do 2 eexists|]. destruct (_ <? _); by do 2 eexists. }
  destruct Hrej as (code & what & ->).
  destruct (reject_dt_ok (src, dst) s code what t) as (t1 & E1 & A1 & M1 & R1).
  eexists _, t1. split_and!; [exact E1| |exact A1|done]. split; [congruence|].
  exists (set_state ABorted s). rewrite M1, lookup_insert_eq. by split_and!.
Qed.

End Answers.
