(* ===== verification/TransportExamples.v ===== *)
(** * The transport protocol on the buses of the repository's tests

    The mock bus and the bus that fails after its first frame
    ([tests/transport_protocol_test.cpp]), the tests as examples, and the
    theorems at concrete inputs. *)

From Stdlib Require Import String.
From stdpp Require Import gmap list list_numbers.
From S2P Require Import Prelude J1939Type Canary Header HeaderFacts Name Frame Transport.
From S2P Require Import TransportFacts TransportRoundTrip TransportFrame TransportWindows TransportInterleaving TransportSafety TransportTypes TransportHistory.
From S2P Require Import TransportNet TransportNetFacts TransportLimits.

(** [MockBus], with a clock that is set from outside. *)
Record mock := Mock { sent_frames : list frame; src_sa_ : Z; clock : Z }.

#[export] Instance mock_bus : Bus mock := {|
  bus_send fr m := (true, Mock (sent_frames m ++ [fr]) (src_sa_ m) (clock m));
  bus_source_address := src_sa_;
  steady_now m := (clock m, m);
  owner_called _ m := m
|}.

#[export] Instance mock_reliable : ReliableBus (E := mock).
Proof. by refine {| sent := sent_frames |}. Defined.

(** [FailAfterFirstBus] *)
Record failing := Failing { f_mock : mock; count_ : Z }.

#[export] Instance failing_bus : Bus failing := {|
  bus_send fr f :=
    if 1 <? count_ f + 1 then (false, Failing (f_mock f) (count_ f + 1))
    else (true, Failing (snd (bus_send fr (f_mock f))) (count_ f + 1));
  bus_source_address f := src_sa_ (f_mock f);
  steady_now f := (clock (f_mock f), f);
  owner_called _ f := f
|}.

Definition mock_tp (sa : Z) : transport mock :=
  set_rx_handler (set_error_handler (transport_protocol (Mock [] sa 0))).

(** Lets time pass. *)
Definition at_time (n : Z) (t : transport mock) : transport mock :=
  with_bus (Mock (sent_frames (bus_ t)) (src_sa_ (bus_ t)) n) t.

Definition final {A} (r : result (A * transport mock)) : option (transport mock) :=
  match r with Ok (_, t) => Some t | Fault _ => None end.

(** What the tests look at: the returned value, the frames on the bus and the
    calls of the error handler. *)
Definition error_of (e : tp_event) : option (string * tp_error_code) :=
  match e with ev_error what ec => Some (what, ec) | ev_data _ => None end.

Definition observed {E A B} (frames : E -> list frame) (obs : frame -> B)
    (r : result (A * transport E)) : option (A * list B * list (string * tp_error_code)) :=
  match r with
  | Ok (x, t) => Some (x, obs <$> frames (bus_ t), omap error_of (events t))
  | Fault _ => None
  end.

Definition message : list Z := seqZ 0 20.

(** ** The tests *)

(** [Send_BAM_Multi_Packet_Message] *)
Example test_send_bam :
  observed sent_frames (fun fr => pgn (header fr)) (send message J1939_NO_ADDR 0x1234 (mock_tp 0x80)) =
    Some (true, [PGN_TP_CM; PGN_TP_DT; PGN_TP_DT; PGN_TP_DT], []).
Proof. by vm_compute. Qed.

(** [Tx_BAM_Send_Error_Returns_False] *)
Example test_bam_send_error :
  observed (fun f => sent_frames (f_mock f)) (byte 0) (send (replicate 20 0x77) J1939_NO_ADDR 0x1234
      (set_error_handler (transport_protocol (Failing (Mock [] 0x01 0) 0)))) =
    Some (false, [to_byte BAM], [("tp send DT"%string, io_error)]).
Proof. by vm_compute. Qed.

(** [Rx_Timeout_Sends_Abort] *)
Definition test_rts : frame :=
  Frame (header (make_base_frame PGN_TP_CM 0x01 0x90)) [to_byte RTS; 8; 0; 2; 1; 0x34; 0x12; 0x00].

Definition sleep (n : Z) : M (E := mock) unit := fun t => Ok (tt, at_time n t).

Example test_rx_timeout :
  observed sent_frames (fun fr => (byte 0 fr, byte 1 fr))
    ((on_can_frame test_rts;; sleep (T2 + milliseconds 50);; tick [(0x90, 0x01)]) (mock_tp 0x01)) =
  Some (tt, [(to_byte CTS, 1); (to_byte ABORT, abort_byte Timeout)], [("tp timeout"%string, timed_out)]).
Proof. by vm_compute. Qed.

(** [Tx_CM_Remote_Abort_Stops_Send] *)
Definition test_abort : frame :=
  Frame (header (make_base_frame PGN_TP_CM 0x01 0x90)) [to_byte ABORT; 0; 0; 0; 0; 0x34; 0x12; 0x00].

Example test_remote_abort :
  observed sent_frames (byte 0)
    ((ok ← send (replicate 20 0x55) 0x90 0x1234; on_can_frame test_abort;; tick [(0x01, 0x90)];; mret ok)
      (mock_tp 0x01)) =
  Some (true, [to_byte RTS], [("remote abort: unspecified"%string, aborted)]).
Proof. by vm_compute. Qed.

(** [Tx_CM_Timeout_No_CTS] *)
Example test_tx_timeout :
  observed sent_frames (fun fr => (byte 0 fr, byte 1 fr))
    ((ok ← send (replicate 20 0x55) 0x90 0x1234; sleep (T3 + milliseconds 50);; tick [(0x01, 0x90)];; mret ok)
      (mock_tp 0x01)) =
  Some (true, [(to_byte RTS, 20); (to_byte ABORT, abort_byte Timeout)], [("tp timeout"%string, timed_out)]).
Proof. by vm_compute. Qed.

(** ** The theorems at concrete inputs *)

Lemma bam_round_trip_witness :
  exists t' frs r' h,
    send message 0xFF 0xFECA (mock_tp 0x80) = Ok (true, t') /\ sent (bus_ t') = frs /\
    receive frs (mock_tp 0x21) = Ok (tt, r') /\ events r' = [ev_data (Data h message)] /\ pgn h = 0xFECA.
Proof.
  destruct (bam_round_trip message 0xFECA (mock_tp 0x80) (mock_tp 0x21))
    as (t' & frs & r' & h & A & B & _ & C & D & G & _);
    [by vm_compute|by vm_compute|left; by vm_compute|by vm_compute|by vm_compute|].
  exists t', frs, r', h. exact (conj A (conj B (conj C (conj D G)))).
Defined.

(** Two stations send at once, the announcements first and then the packets in
    turn; the first packet of the second message is lost. *)
Definition short_message : list Z := seqZ 100 10.

Definition two_broadcasts : list broadcast :=
  [Broadcast 0x80 0xFECA message; Broadcast 0x81 0xFEE3 short_message].

Definition arriving_frames : list (list frame) :=
  [frames_of (Broadcast 0x80 0xFECA message);
   [cm_frame BAM 0xFF 0x81 0xFEE3 10 0xFF; dt_frame 0xFF 0x81 short_message 2]].

Definition mixed_frames : list frame :=
  [cm_frame BAM 0xFF 0x80 0xFECA 20 0xFF; cm_frame BAM 0xFF 0x81 0xFEE3 10 0xFF;
   dt_frame 0xFF 0x80 message 1; dt_frame 0xFF 0x81 short_message 2;
   dt_frame 0xFF 0x80 message 2; dt_frame 0xFF 0x80 message 3].

Lemma mixed_frames_interleave : interleaving arriving_frames mixed_frames.
Proof.
  apply (mix_next _ 0 _ (dt_frame 0xFF 0x80 message <$> seqZ 1 3)); [reflexivity|].
  do 5 (first [eapply (mix_next _ 0); [reflexivity|]|eapply (mix_next _ 1); [reflexivity|]]).
  by repeat constructor.
Qed.


Lemma rts_cts_round_trip_witness :
  exists ta1 rts tb1 cts,
    send message 0x21 0xEF00 (mock_tp 0x80) = Ok (true, ta1) /\ sent (bus_ ta1) = [rts] /\
    receive [rts] (mock_tp 0x21) = Ok (tt, tb1) /\ sent (bus_ tb1) = [cts].
Proof.
  destruct (rts_cts_round_trip message 0xEF00 (mock_tp 0x80) (mock_tp 0x21))
    as (ta1 & rts & tb1 & cts & ta2 & dts & eom & s & tb2 & ack & h & A & B & C & D & _);
    [by vm_compute..|].
  exists ta1, rts, tb1, cts. exact (conj A (conj B (conj C D))).
Defined.

(** The three packets of the message, two at first, then after a pause the rest. *)
Lemma windowed_send_witness :
  exists t1 t2 t3 eom,
    send message 0x21 0xEF00 (mock_tp 0x80) = Ok (true, t1) /\
    receive (grants 0x80 0x21 0xEF00 1 [2; 0]) t1 = Ok (tt, t2) /\
    receive [cts_frame 0x80 0x21 0xEF00 5 3] t2 = Ok (tt, t3) /\
    sent (bus_ t3) = sent (bus_ t1) ++ (dt_frame 0x21 0x80 message <$> seqZ 1 3) ++ [eom].
Proof.
  destruct (windowed_send message 0x21 0xEF00 [2; 0] 5 (mock_tp 0x80))
    as (t1 & rts & t2 & t3 & eom & A & _ & B & _ & _ & C & D & _); [by vm_compute..| |by vm_compute|].
  { repeat apply Forall_cons_2; by try apply Forall_nil. }
  exists t1, t2, t3, eom. exact (conj A (conj B (conj C D))).
Defined.

Lemma windowed_receive_witness :
  exists t' ack h,
    receive (cm_frame RTS 0x21 0x80 0xEF00 20 2 :: (dt_frame 0x21 0x80 message <$> seqZ 1 3)) (mock_tp 0x21) =
      Ok (tt, t') /\
    sent (bus_ t') = grants 0x80 0x21 0xEF00 1 [2; 2] ++ [ack] /\ events t' = [ev_data (Data h message)].
Proof.
  destruct (windowed_receive message 0x80 0xEF00 2 (mock_tp 0x21))
    as (_ & t' & ack & h & A & B & _ & C & _); [by vm_compute..|].
  exists t', ack, h. exact (conj A (conj B C)).
Defined.

Lemma transport_never_faults_on_well_formed_frames_witness :
  exists t, tp_run [op_frame test_rts; op_send message 0x90 0x1234; op_tick [(0x90, 0x01)]]
    (transport_protocol (Mock [] 0x01 0)) = Ok (tt, t) /\ sessions_ok t.
Proof.
  apply (transport_never_faults_on_well_formed_frames
    [op_frame test_rts; op_send message 0x90 0x1234; op_tick [(0x90, 0x01)]] (Mock [] 0x01 0)).
  constructor; [|by repeat constructor]. split; [by repeat constructor|]. intros _. by vm_compute.
Defined.

Definition sending_tp : transport mock :=
  default (mock_tp 0x01) (final (send message 0x90 0x1234 (mock_tp 0x01))).

Definition sending_session : TpSession :=
  default session_default (sessions_ sending_tp !! (0x01, 0x90)).

Lemma sender_impersonates_its_peer_witness :
  exists ack fr t1 t2,
    on_can_frame (cts_frame 0x01 0x90 0x1234 0xFF 1) sending_tp = Ok (tt, t1) /\ is_ack ack 0x01 0x90 /\
    tick_session (milliseconds 2000) (0x01, 0x90) sending_tp = Ok (tt, t2) /\ source_address (header fr) = 0x90.
Proof.
  destruct (sender_impersonates_its_peer 0x01 0x90 0x1234 message 0xFF 1 sending_session (milliseconds 2000) sending_tp)
    as [(ack & t1 & A1 & B1 & _) C]; [by vm_compute..|].
  destruct C as (fr & t2 & A2 & _ & _ & B2 & _); [by vm_compute|].
  exists ack, fr, t1, t2. exact (conj A1 (conj B1 (conj A2 B2))).
Defined.

Lemma transport_keeps_types_witness :
  exists t, tp_run [op_frame test_rts; op_send message 0x90 0x1234; op_tick [(0x90, 0x01)]] (mock_tp 0x01) = Ok (tt, t) /\
    transport_typed t.
Proof.
  destruct (transport_keeps_types [op_frame test_rts; op_send message 0x90 0x1234; op_tick [(0x90, 0x01)]] (mock_tp 0x01))
    as [_ Hrun].
  - split; [done|]. split; [by apply map_Forall_empty|]. by split; constructor.
  - repeat constructor; by vm_compute.
  - apply Hrun; [by apply map_Forall_empty|]. constructor; [|by repeat constructor].
    split; [by repeat constructor|]. intros _. by vm_compute.
Defined.

(** A message is sent, and one arrives with a packet that is repeated. *)
Definition noisy_run : list tp_op :=
  [op_send message 0x30 0xEF00; op_frame (cm_frame BAM 0xFF 0x80 0xFECA 20 0xFF); op_frame (dt_frame 0xFF 0x80 message 1);
   op_frame (dt_frame 0xFF 0x80 message 1); op_tick []; op_frame (dt_frame 0xFF 0x80 message 2);
   op_frame (dt_frame 0xFF 0x80 message 3)].

Lemma noisy_run_delivers :
  match tp_run noisy_run (mock_tp 0x21) with Ok (_, t) => (length (datas t) =? 1)%nat | Fault _ => false end = true.
Proof. by vm_compute. Qed.

Lemma delivered_messages_were_sent_witness :
  exists t js, tp_run noisy_run (mock_tp 0x21) = Ok (tt, t) /\ length (datas t) = 1%nat /\ NoDup js /\
    Forall2 (delivered_from 0x21 (heard noisy_run)) (omap data_of (events t)) js.
Proof.
  pose proof noisy_run_delivers as Hd. destruct (tp_run noisy_run (mock_tp 0x21)) as [[[] t]|] eqn:Hr; [|done].
  destruct (delivered_messages_were_sent noisy_run (mock_tp 0x21) t) as (js & A & B); [done|done| |exact Hr|].
  - repeat constructor; by vm_compute.
  - exists t, js. exact (conj eq_refl (conj (proj1 (Nat.eqb_eq _ _) Hd) (conj A B))).
Defined.

(** Three stations; two send to the third, which sends to one of them. *)
Definition three_stations : gmap Z (node (E := mock)) :=
  {[0x21 := Node (mock_tp 0x21) []; 0x80 := Node (mock_tp 0x80) []; 0x81 := Node (mock_tp 0x81) []]}.

Definition three_transfers : list net_action :=
  [act_send 0x80 0x21 0xEF00 message; act_handle 0x21; act_send 0x81 0x21 0xEF00 short_message;
   act_send 0x21 0x80 0xEF00 short_message] ++
  concat (replicate 12 [act_handle 0x80; act_handle 0x21; act_handle 0x81]).

Lemma three_transfers_end :
  match net_acts three_transfers three_stations with
  | Some (n, _) => bool_decide (map_Forall (fun _ nd => length (inbox nd) = 0%nat) n)
  | None => false
  end = true.
Proof. by vm_compute. Qed.

Lemma three_transfers_quiet n c : net_acts three_transfers three_stations = Some (n, c) -> quiet n.
Proof.
  intros Hn. pose proof three_transfers_end as Hq. rewrite Hn in Hq. apply bool_decide_eq_true in Hq.
  intros y nd Hy. apply nil_length_inv, (Hq y nd Hy).
Qed.

Lemma concurrent_transfers_witness :
  exists n c, net_acts three_transfers three_stations = Some (n, c) /\ (c <= 19)%nat /\
    forall nd, n !! 0x21 = Some nd ->
      datas (tp nd) ≡ₚ [TransportNet.message (Transfer 0x80 0x21 0xEF00 message);
                        TransportNet.message (Transfer 0x81 0x21 0xEF00 short_message)].
Proof.
  destruct (concurrent_transfers three_transfers three_stations) as (n & c & A & B & _ & D).
  - intros y nd Hy. unfold three_stations in Hy.
    do 2 (apply lookup_insert_Some in Hy as [[<- <-]|[_ Hy]]; [done|]). by apply lookup_singleton_Some in Hy as [<- <-].
  - unfold three_transfers. cbn [app concat replicate].
    repeat (apply List.Forall_cons; [first [by eexists|split; [split_and!; by vm_compute|by split; eexists]]|]).
    apply List.Forall_nil.
  - by apply (bool_decide_unpack _).
  - exists n, c. split; [exact A|]. split; [exact B|]. intros nd Hnd.
    exact (proj2 (D (three_transfers_quiet n c A)) 0x21 (Node (mock_tp 0x21) []) nd eq_refl Hnd).
Defined.

Lemma malformed_frames_fault_witness :
  receive [raw_rts 0x01 0x90 14 2 0; dt_frame 0x01 0x90 (replicate 14 0) 1] sending_tp =
    Fault division_by_zero /\
  receive [cts_frame 0x01 0x90 0 1 0] sending_tp = Fault read_out_of_bounds.
Proof.
  destruct (malformed_frames_fault 0x90 sending_tp sending_session) as (H1 & _ & H3); [by vm_compute..|].
  split; [exact H1|]. apply H3; by vm_compute.
Defined.

Lemma longest_broadcast_reports_failure_witness :
  exists t', send (replicate 1780 7) 0xFF 0xFECA (mock_tp 0x80) = Ok (false, t').
Proof.
  destruct (longest_broadcast_reports_failure (replicate 1780 7) 0xFECA (mock_tp 0x80))
    as (s & t' & A & _); [by vm_compute|]. exists t'. exact A.
Defined.

Definition finished_tp : transport mock :=
  at_time (milliseconds 2000) (default (mock_tp 0x80) (final (send message 0xFF 0xFECA (mock_tp 0x80)))).

Lemma tick_aborts_idle_sessions_witness :
  exists t', tick [(0x80, 0xFF)] finished_tp = Ok (tt, t').
Proof.
  destruct (tick_aborts_idle_sessions [(0x80, 0xFF)] finished_tp) as (t' & Hr & _); [by vm_compute|].
  by exists t'.
Defined.

(** 0x21 is sending to 0x80. *)
Definition busy_tp : transport mock :=
  default (mock_tp 0x80) (final (on_can_frame (cm_frame RTS 0x80 0x21 0xEF00 20 0xFF) (mock_tp 0x80))).
Definition busy_session : TpSession := default session_default (sessions_ busy_tp !! (0x21, 0x80)).


Definition waiting_tp : transport mock :=
  default (mock_tp 0x21) (final (on_can_frame (cm_frame BAM 0xFF 0x80 0xFECA 20 0xFF) (mock_tp 0x21))).

Lemma out_of_order_packet_is_ignored_witness :
  exists fr t', on_can_frame (dt_frame 0xFF 0x80 message 2) waiting_tp = Ok (tt, t') /\
    receiving true 0xFF 0x80 0xFECA message 1 t' /\ byte 0 fr = to_byte ABORT.
Proof.
  destruct (out_of_order_packet_is_ignored true 0xFF 0x80 0xFECA message 1 2 waiting_tp)
    as (fr & t' & A & B & _ & C); [by vm_compute..| |].
  { split; [by vm_compute|]. exists (default session_default (sessions_ waiting_tp !! (0x80, 0xFF))).
    split; [by vm_compute|]. by vm_compute. }
  exists fr, t'. exact (conj A (conj B C)).
Defined.
