(* ===== verification/Connection.v ===== *)
(** * The connection ([include/jay/j1939_connection.hpp])

    A [j1939_connection] joins a raw CAN socket, the address table and a
    transport object.  The socket and the system clock are parameters
    ([RawSocket]).  The [bus_adapter] through which the transport sends calls
    [send_raw] of the connection, so the members that [send_raw] reaches are in
    the record [adapter], which is the bus of the transport.  Calls of the
    user's callbacks are recorded in [calls], in the order in which they are
    made, and do not re-enter the object.  Dereferencing an empty optional,
    calling an empty [std::function] and indexing an empty vector are faults. *)

From Stdlib Require Import String.
From stdpp Require Import gmap list.
From S2P Require Import Prelude J1939Type Canary Header Name Frame Network Transport.

Local Open Scope string_scope.
Local Open Scope Z_scope.

(** [boost::system::error_code] *)
Inductive connection_error :=
  | invalid_argument | operation_aborted | tp_failure (ec : tp_error_code) | socket_error (n : Z).

(** The codes of the transport; its [aborted] is [boost::asio::error::operation_aborted]. *)
Definition of_tp_error (ec : tp_error_code) : connection_error :=
  match ec with aborted => operation_aborted | _ => tp_failure ec end.

Definition is_aborted (ec : connection_error) : bool :=
  match ec with operation_aborted => true | _ => false end.

(** [canary::raw::socket], [canary::get_interface_index] and the clock.  A
    missing error code is success; [socket_send] also returns the number of
    bytes written. *)
Class RawSocket `{CanaryFilter} (K : Type) := {
  get_interface_index : string -> K -> Z * option connection_error * K;
  socket_open : K -> option connection_error * K;
  socket_bind : Z -> K -> option connection_error * K;
  socket_set_option : bool -> list canary_filter -> K -> option connection_error * K;
  socket_send : frame -> K -> option connection_error * Z * K;
  sizeof_frame : Z;
  socket_clock : K -> Z * K
}.

Section Connection.
Context `{RawSocket}.

(** Calls of the user's callbacks. *)
Inductive user_call :=
  | call_start | call_destroy | call_read (fr : frame) | call_send (fr : frame)
  | call_data (d : data) | call_error (what : string) (ec : connection_error).

(** ** What the bus reaches *)

Record adapter := Adapter {
  socket_ : K;
  src_addr_ : Z;
  on_error_ : bool; (** a callback is installed *)
  on_send_ : bool;
  calls : list user_call
}.

Definition set_socket (k : K) (e : adapter) : adapter :=
  Adapter k (src_addr_ e) (on_error_ e) (on_send_ e) (calls e).
Definition set_src_addr (sa : Z) (e : adapter) : adapter :=
  Adapter (socket_ e) sa (on_error_ e) (on_send_ e) (calls e).
Definition add_call (c : user_call) (e : adapter) : adapter :=
  Adapter (socket_ e) (src_addr_ e) (on_error_ e) (on_send_ e) (calls e ++ [c]).

(** The private [on_error(what, ec)]. *)
Definition handle_error (what : string) (ec : connection_error) (e : adapter) : adapter :=
  if is_aborted ec || negb (on_error_ e) then e else add_call (call_error what ec) e.

Definition write (fr : frame) (e : adapter) : bool * adapter :=
  let '(ec, n, k) := socket_send fr (socket_ e) in
  let e := set_socket k e in
  if match ec with Some _ => true | None => negb (n =? sizeof_frame) end then
    (false, handle_error "write" (default operation_aborted ec) e)
  else (true, if on_send_ e then add_call (call_send fr) e else e).

(** The callbacks that the connection gave to the transport: the error handler
    is [handle_error], the receive handler is the user's [on_data_]. *)
Definition forward (ev : tp_event) (e : adapter) : adapter :=
  match ev with
  | ev_error what ec => handle_error what (of_tp_error ec) e
  | ev_data d => add_call (call_data d) e
  end.

#[export] Instance bus_adapter : Bus adapter := {|
  bus_send := write;
  bus_source_address := src_addr_;
  steady_now e := let '(n, k) := socket_clock (socket_ e) in (n, set_socket k e);
  owner_called := forward
|}.

(** ** The object *)

Record connection := Connection {
  tp_ : transport adapter;
  on_start_ : bool;
  on_destroy_ : bool;
  on_read_ : bool;
  on_data_ : bool;
  local_name_ : option name;
  target_name_ : option name;
  buffer_ : frame;
  out_buffer_ : frame;
  reads_ : nat;    (** pending [async_receive] operations *)
  ticking_ : bool  (** [tick_timer_] is running *)
}.

Definition j1939_connection (socket : K) (local_name target_name : option name) : connection :=
  Connection (set_error_handler (transport_protocol (Adapter socket 0xFE false false [])))
    false false false false local_name target_name frame_default frame_default 0 false.

Definition with_tp (t : transport adapter) (c : connection) : connection :=
  Connection t (on_start_ c) (on_destroy_ c) (on_read_ c) (on_data_ c) (local_name_ c) (target_name_ c)
    (buffer_ c) (out_buffer_ c) (reads_ c) (ticking_ c).
Definition with_names (l t : option name) (c : connection) : connection :=
  Connection (tp_ c) (on_start_ c) (on_destroy_ c) (on_read_ c) (on_data_ c) l t
    (buffer_ c) (out_buffer_ c) (reads_ c) (ticking_ c).
Definition with_buffer (fr : frame) (c : connection) : connection :=
  Connection (tp_ c) (on_start_ c) (on_destroy_ c) (on_read_ c) (on_data_ c) (local_name_ c) (target_name_ c)
    fr (out_buffer_ c) (reads_ c) (ticking_ c).
Definition with_out_buffer (fr : frame) (c : connection) : connection :=
  Connection (tp_ c) (on_start_ c) (on_destroy_ c) (on_read_ c) (on_data_ c) (local_name_ c) (target_name_ c)
    (buffer_ c) fr (reads_ c) (ticking_ c).
Definition with_pending (reads : nat) (ticking : bool) (c : connection) : connection :=
  Connection (tp_ c) (on_start_ c) (on_destroy_ c) (on_read_ c) (on_data_ c) (local_name_ c) (target_name_ c)
    (buffer_ c) (out_buffer_ c) reads ticking.
Definition with_handlers (start destroy read data : bool) (c : connection) : connection :=
  Connection (tp_ c) start destroy read data (local_name_ c) (target_name_ c)
    (buffer_ c) (out_buffer_ c) (reads_ c) (ticking_ c).

(** The bus of the connection. *)
Definition bus_of (c : connection) : adapter := bus_ (tp_ c).
Definition on_bus (f : adapter -> adapter) (c : connection) : connection :=
  with_tp (with_bus (f (bus_of c)) (tp_ c)) c.

(** ** Setters and getters *)

Definition on_start (c : connection) : connection :=
  with_handlers true (on_destroy_ c) (on_read_ c) (on_data_ c) c.
Definition on_close (c : connection) : connection :=
  with_handlers (on_start_ c) true (on_read_ c) (on_data_ c) c.
Definition on_read (c : connection) : connection :=
  with_handlers (on_start_ c) (on_destroy_ c) true (on_data_ c) c.
Definition on_send (c : connection) : connection :=
  on_bus (fun e => Adapter (socket_ e) (src_addr_ e) (on_error_ e) true (calls e)) c.
Definition connection_on_error (c : connection) : connection :=
  let c := on_bus (fun e => Adapter (socket_ e) (src_addr_ e) true (on_send_ e) (calls e)) c in
  with_tp (set_error_handler (tp_ c)) c.
Definition on_data (c : connection) : connection :=
  let c := with_handlers (on_start_ c) (on_destroy_ c) (on_read_ c) true c in
  with_tp (set_rx_handler (tp_ c)) c.

Definition set_local_name (n : name) (c : connection) : connection := with_names (Some n) (target_name_ c) c.
Definition set_target_name (n : name) (c : connection) : connection := with_names (local_name_ c) (Some n) c.
Definition get_local_name (c : connection) : option name := local_name_ c.
Definition get_target_name (c : connection) : option name := target_name_ c.

(** ** Computations on a connection *)

Definition C (A : Type) : Type := connection -> result (A * connection).

#[global] Instance C_ret : MRet C := fun A a c => Ok (a, c).
#[global] Instance C_bind : MBind C := fun A B k m c =>
  match m c with Ok (a, c') => k a c' | Fault f => Fault f end.

Definition throw {A} (f : fault) : C A := fun _ => Fault f.
Definition modify (f : connection -> connection) : C unit := fun c => Ok (tt, f c).
Definition asks {A} (f : connection -> A) : C A := fun c => Ok (f c, c).

(** [*opt] *)
Definition deref {A} (o : option A) : C A :=
  match o with Some a => mret a | None => throw empty_optional end.

(** [on_error_(what, invalid_argument)], [on_read_(fr)] and [on_data_(d)]: a
    call of a function that may be empty. *)
Definition invoke (installed : bool) (k : user_call) : C unit :=
  if installed then modify (on_bus (add_call k)) else throw bad_function_call.

Definition fail_with (what : string) : C bool :=
  installed ← asks (fun c => on_error_ (bus_of c));
  invoke installed (call_error what invalid_argument);;
  mret false.

(** The log of the transport is not needed any more. *)
Definition forget (t : transport adapter) : transport adapter :=
  Transport (bus_ t) (rx_callback_ t) (error_callback_ t) (sessions_ t) [].

(** An operation of [*tp_]. *)
Definition lift {A} (m : M A) : C A := fun c =>
  match m (tp_ c) with
  | Ok (a, t) => Ok (a, with_tp (forget t) c)
  | Fault f => Fault f
  end.

(** ** Opening *)

(** The branches of [open] and the setters of the filters. *)
Definition on_open_error (what : string) (ec : connection_error) (c : connection) : connection :=
  if on_error_ (bus_of c) then on_bus (add_call (call_error what ec)) c else c.

Definition open (net : network) : C bool := fun c =>
  let failed verb := verb ++ " " ++ get_interface_name net ++ " failed" in
  let '(index, ec, k) := get_interface_index (get_interface_name net) (socket_ (bus_of c)) in
  let c := on_bus (set_socket k) c in
  match ec with
  | Some ec => Ok (false, on_open_error (failed "open") ec c)
  | None =>
      let '(ec, k) := socket_open (socket_ (bus_of c)) in
      let c := on_bus (set_socket k) c in
      match ec with
      | Some ec => Ok (false, on_open_error (failed "open") ec c)
      | None =>
          let '(ec, k) := socket_bind index (socket_ (bus_of c)) in
          let c := on_bus (set_socket k) c in
          match ec with
          | Some ec => Ok (false, on_open_error (failed "bind") ec c)
          | None => Ok (true, c)
          end
      end
  end.

(** [socket_.set_option(...)] throws when the system refuses. *)
Definition set_filters (all : bool) (filters : list canary_filter) : C unit := fun c =>
  let '(ec, k) := socket_set_option all filters (socket_ (bus_of c)) in
  match ec with
  | Some _ => Fault system_error
  | None => Ok (tt, on_bus (set_socket k) c)
  end.
Definition set_filter_any : list canary_filter -> C unit := set_filters false.
Definition set_filter_all : list canary_filter -> C unit := set_filters true.

(** ** Sending *)

Definition send_raw (fr : frame) : C bool := fun c =>
  let '(ok, e) := write fr (bus_of c) in Ok (ok, on_bus (fun _ => e) c).

(** The end of [send] and [send_to]: the frame is sent from [out_buffer_]. *)
Definition send_out (fr : frame) : C bool :=
  modify (with_out_buffer fr);;
  send_raw fr.

Definition set_header (h : frame_header) (fr : frame) : frame := Frame h (payload fr).

Definition send_to (net : network) (n : name) (fr : frame) : C bool :=
  local ← asks local_name_;
  match local with
  | None => fail_with "Socket has no local name"
  | Some l =>
      let source := get_address l net in
      if source =? J1939_IDLE_ADDR then fail_with "connection has no source address"
      else
        let destination := get_address n net in
        if destination =? J1939_IDLE_ADDR then fail_with "Destination has no address"
        else send_out (set_header (set_pdu_specific destination (set_source_address source (header fr))) fr)
  end.

Definition connection_send (net : network) (fr : frame) : C bool :=
  if is_broadcast (header fr) then
    local ← asks local_name_;
    l ← deref local;
    let source := get_address l net in
    if source =? J1939_IDLE_ADDR then fail_with "connection has no source address"
    else send_out (set_header (set_source_address source (header fr)) fr)
  else
    target ← asks target_name_;
    match target with
    | None => fail_with "connection has no target name"
    | Some n => send_to net n fr
    end.

Definition send_data (net : network) (d : data) : C bool :=
  if (length (data_payload d) <=? 8)%nat then
    connection_send net (Frame (data_header d)
      (data_payload d ++ drop (length (data_payload d)) (payload frame_default)))
  else
    local ← asks local_name_;
    l ← deref local;
    let source := get_address l net in
    if source =? J1939_IDLE_ADDR then fail_with "Socket has no source address"
    else
      modify (on_bus (set_src_addr source));;
      lift (send (data_payload d) (pdu_specific (data_header d)) (pgn (data_header d))).

(** ** Receiving *)

Definition normal_pgn (g : Z) : bool :=
  negb (g =? PGN_TP_CM) && negb (g =? PGN_TP_DT) && negb (g =? J1939_PGN_REQUEST) &&
  negb (g =? J1939_PGN_ADDRESS_CLAIMED) && negb (g =? J1939_PGN_ADDRESS_COMMANDED).

Definition check_address (net : network) : C bool := fun c =>
  let h := header (buffer_ c) in
  let is_at n a := get_address n net =? a in
  match target_name_ c, local_name_ c with
  | None, None => Ok (true, c)
  | target, local =>
      let c := match local with
               | Some l => on_bus (set_src_addr (get_address l net)) c
               | None => c
               end in
      if is_broadcast h then
        Ok (match target with Some t => is_at t (source_address h) | None => true end, c)
      else
        Ok (match target, local with
            | Some t, Some l => is_at t (source_address h) && is_at l (pdu_specific h)
            | None, Some l => is_at l (pdu_specific h)
            | Some t, None => is_at t (source_address h)
            | None, None => false
            end, c)
  end.

(** [resize] and [memcpy] of the received bytes; [&d.payload[0]] of a vector
    without elements is undefined. *)
Definition frame_data (fr : frame) : C data :=
  let n := payload_length (header fr) in
  if n =? 0 then throw empty_vector
  else if Z.of_nat (length (payload fr)) <? n then throw read_out_of_bounds
  else mret (Data (header fr) (take (Z.to_nat n) (payload fr))).

Definition async_read : C unit := modify (fun c => with_pending (S (reads_ c)) (ticking_ c) c).

(** The handler that [async_read] installs; the socket has written the frame
    into [buffer_]. *)
Definition on_received (net : network) (r : connection_error + frame) : C unit :=
  modify (fun c => with_pending (pred (reads_ c)) (ticking_ c) c);;
  match r with
  | inl ec => modify (on_bus (handle_error "read" ec))
  | inr fr =>
      modify (with_buffer fr);;
      reader ← asks on_read_;
      invoke reader (call_read fr);;
      mine ← check_address net;
      (if mine : bool then
         lift (on_can_frame fr);;
         (if normal_pgn (pgn (header fr)) then
            d ← frame_data fr;
            consumer ← asks on_data_;
            invoke consumer (call_data d)
          else mret tt)
       else mret tt);;
      modify (with_buffer (Frame (set_id 0 (header fr)) (replicate 8 0)));;
      async_read
  end.

(** ** Lifetime *)

Definition start : C unit :=
  modify (fun c => if on_start_ c then on_bus (add_call call_start) c else c);;
  modify (fun c => with_pending (reads_ c) true c);;
  async_read.

(** The handler of [start_tick]'s timer. *)
Definition on_tick_timer (ec : option connection_error) (order : list (Z * Z)) : C unit :=
  match ec with
  | Some _ => modify (fun c => with_pending (reads_ c) false c)
  | None => lift (tick order)
  end.

Definition destroy (c : connection) : list user_call :=
  calls (bus_of c) ++ (if on_destroy_ c then [call_destroy] else []).

End Connection.
Arguments connection {_} K.
Arguments adapter {_} K.
