(* ===== verification/ConnectionFacts.v ===== *)
(** * Addressing of a connection

    Which frames a connection accepts ([check_address]), how it addresses the
    frames that it sends, and the exchange of a message of one frame between
    two connections. *)

From Stdlib Require Import String.
From stdpp Require Import gmap list.
From S2P Require Import Prelude J1939Type Canary Header HeaderFacts Name Frame Network Transport.
From S2P Require Import TransportFacts TransportRoundTrip Connection.

Section ConnectionFacts.
Context `{!CanaryHeader, !CanaryLaws} `{!CanaryFilter} {K : Type} `{!RawSocket K}.

Notation connection := (connection K).

(** ** Running *)

Lemma C_bind_ok {A B} (m : C A) (k : A -> C B) (c : connection) a c' :
  m c = Ok (a, c') -> (m ≫= k) c = k a c'.
Proof. intros E. unfold mbind, C_bind. by rewrite E. Qed.

Lemma asks_ok {A B} (f : connection -> A) (k : A -> C B) (c : connection) :
  (asks f ≫= k) c = k (f c) c.
Proof. done. Qed.

Lemma modify_ok {B} f (k : unit -> C B) (c : connection) : (modify f ≫= k) c = k tt (f c).
Proof. done. Qed.

Lemma invoke_ok {B} k (f : unit -> C B) (c : connection) :
  (invoke true k ≫= f) c = f tt (on_bus (add_call k) c).
Proof. done. Qed.

Lemma fail_with_ok what (c : connection) : on_error_ (bus_of c) = true ->
  fail_with what c = Ok (false, on_bus (add_call (call_error what invalid_argument)) c).
Proof. intros E. unfold fail_with. rewrite asks_ok. unfold invoke. by rewrite E. Qed.

(** ** Acceptance *)

(** The frame comes from the target, if there is one, and is for the local
    name, if there is one; a PDU2 frame is for everybody. *)
Definition meant_for (net : network) (c : connection) (h : frame_header) : Prop :=
  (forall t, target_name_ c = Some t -> get_address t net = source_address h) /\
  (forall l, local_name_ c = Some l -> is_broadcast h = false -> get_address l net = pdu_specific h).

(** The source address that the transport uses after a received frame. *)
Definition refreshed (net : network) (c : connection) : connection :=
  match local_name_ c with
  | Some l => on_bus (set_src_addr (get_address l net)) c
  | None => c
  end.

(** A received frame is accepted exactly when it comes from the target
    name's address (if a target is set) and is addressed to the local name's
    address (if a local name is set and the frame is not PDU2); the check also
    gives the transport the current address of the local name. *)
Lemma check_address_accepts net (c : connection) :
  exists b, check_address net c = Ok (b, refreshed net c) /\
    (b = true <-> meant_for net c (header (buffer_ c))).
Proof.
  unfold check_address, meant_for, refreshed. set (h := header (buffer_ c)).
  destruct (target_name_ c) as [t|], (local_name_ c) as [l|]; [| | |by exists true];
    (destruct (is_broadcast h) eqn:Hb; eexists; (split; [reflexivity|]));
    rewrite ?andb_true_iff, ?Z.eqb_eq; (split; [intros Hx|intros [Ht Hl]]); auto;
    try (split; [intros ? [= <-] | intros ? [= <-] ?]); intuition congruence.
Qed.

(** ** Addressing *)

(** [h'] is [h] from address [src] and, unless it is PDU2, to address [dst]. *)
Definition addressed (src dst : Z) (h h' : frame_header) : Prop :=
  let x := header_fields h in
  j1939_flags h' /\ payload_length h' = payload_length h /\
  header_fields h' = Fields (f_priority x) (f_reserved x) (f_data_page x) (f_pf x)
    (if is_broadcast h then f_ps x else dst) src.

Lemma payload_length_set_id v h : payload_length (set_id v h) = payload_length h.
Proof. unfold payload_length. simpl. by autorewrite with canary. Qed.

Lemma set_source_addressed src dst h : j1939_flags h -> is_uint 8 src -> is_broadcast h = true ->
  addressed src dst h (set_source_address src h).
Proof.
  intros Hh Hs Hb. split_and!; [by apply set_id_flags|apply payload_length_set_id|]. rewrite Hb.
  unfold header_fields, fields_of_id. rewrite id_set_source_address by done. simpl.
  rewrite !fget_fset_other, fget_fset_same, wrap_small by (done || lia). done.
Qed.

Lemma set_both_addressed src dst h : j1939_flags h -> is_uint 8 src -> is_uint 8 dst -> is_broadcast h = false ->
  addressed src dst h (set_pdu_specific dst (set_source_address src h)).
Proof.
  intros Hh Hs Hd Hb. assert (Hh' : j1939_flags (set_source_address src h)) by by apply set_id_flags.
  split_and!; [by apply set_id_flags| |].
  { unfold set_pdu_specific, set_source_address. by rewrite !payload_length_set_id. }
  rewrite Hb.
  unfold header_fields, fields_of_id. rewrite id_set_pdu_specific, id_set_source_address by done. simpl.
  rewrite !fget_fset_same, !fget_fset_other, fget_fset_same, !wrap_small by (done || lia). done.
Qed.

(** The getters of an addressed header. *)
Lemma addressed_getters src dst h h' : j1939_flags h -> addressed src dst h h' ->
  pgn h' = pgn h /\ is_broadcast h' = is_broadcast h /\ source_address h' = src /\
  pdu_specific h' = (if is_broadcast h then pdu_specific h else dst).
Proof.
  intros Hh (Hh' & _ & Hx). unfold header_fields, fields_of_id in Hx. simpl in Hx.
  injection Hx as _ H25 H24 H16 H8 H0'.
  assert (Hb : is_broadcast h' = is_broadcast h) by (unfold is_broadcast; by rewrite !pdu_format_field, H16).
  rewrite source_address_field, !pdu_specific_field, H8, H0'. split_and!; [|done..].
  rewrite !pgn_bits, Hb. destruct (is_broadcast h).
  - by rewrite !fget_8_18, H25, H24, H16, H8.
  - by rewrite !fget_16_10, H25, H24, H16.
Qed.

(** Where a frame goes: the source and destination addresses, or the error. *)
Definition route (net : network) (l : name) (target : option name) (h : frame_header) : string + Z * Z :=
  let known n (what : string) := if get_address n net =? J1939_IDLE_ADDR then inl what else inr (get_address n net) in
  if is_broadcast h then
    match known l "connection has no source address"%string with
    | inl what => inl what
    | inr src => inr (src, pdu_specific h)
    end
  else
    match target with
    | None => inl "connection has no target name"%string
    | Some t =>
        match known l "connection has no source address"%string, known t "Destination has no address"%string with
        | inl what, _ | _, inl what => inl what
        | inr src, inr dst => inr (src, dst)
        end
    end.

Lemma send_out_ok fr (c : connection) :
  exists c', send_out fr c = Ok (fst (write fr (bus_of c)), c') /\
    out_buffer_ c' = fr /\ bus_of c' = snd (write fr (bus_of c)).
Proof.
  unfold send_out. rewrite modify_ok. unfold send_raw, bus_of at 1. cbn [tp_ with_out_buffer].
  fold (bus_of c). destruct (write fr (bus_of c)) as [ok e]. by eexists.
Qed.


End ConnectionFacts.
