(* ===== verification/ConnectionExchange.v ===== *)
(** * Messages between two connections

    Two connections whose local and target names are each other's exchange a
    message of one frame and a message of up to 1778 bytes: the theorems about
    the transport and about addressing together, through the socket, the
    address check and the callbacks of the connection. *)

From Stdlib Require Import String.
From stdpp Require Import gmap list list_numbers.
From S2P Require Import Prelude J1939Type Canary Header HeaderFacts Name Frame Network Transport.
From S2P Require Import TransportFacts TransportFrame TransportRoundTrip Connection ConnectionFacts.

(** A socket that takes every frame, and whose clock can be read. *)
Class ReliableSocket `{CanaryHeader} `{!CanaryFilter} (K : Type) `{!RawSocket K} := {
  socket_sent : K -> list frame;
  socket_accepts fr k : fst (socket_send fr k) = (None, sizeof_frame);
  socket_records fr k : socket_sent (snd (socket_send fr k)) = socket_sent k ++ [fr];
  socket_clock_records k : socket_sent (snd (socket_clock k)) = socket_sent k
}.

(** The data of a call of [on_data_]. *)
Definition data_of `{CanaryHeader} (k : user_call) : option data :=
  match k with call_data d => Some d | _ => None end.
Definition event_data `{CanaryHeader} (e : tp_event) : option data :=
  match e with ev_data d => Some d | _ => None end.

Section Adapter.
Context `{CanaryHeader} `{!CanaryFilter} {K : Type} `{!RawSocket K}.

(** The messages that the bus's owner was given. *)
Definition given (e : adapter K) : list data := omap data_of (calls e).

Lemma given_add_call k e : given (add_call k e) = given e ++ option_list (data_of k).
Proof. unfold given. simpl. rewrite omap_app. by destruct k. Qed.

Lemma given_handle_error what ec e : given (handle_error what ec e) = given e.
Proof. unfold handle_error. destruct (_ || _); [done|]. rewrite given_add_call. apply app_nil_r. Qed.

(** No operation of the transport changes the address or the callbacks. *)
Definition same_owner (e e' : adapter K) : Prop :=
  src_addr_ e' = src_addr_ e /\ on_error_ e' = on_error_ e /\ on_send_ e' = on_send_ e.

Lemma same_owner_handle_error what ec e : same_owner e (handle_error what ec e).
Proof. unfold handle_error. by destruct (_ || _). Qed.

#[export] Instance same_owner_stable : BusStable same_owner.
Proof.
  split.
  - split; [by intros e|]. intros e1 e2 e3 (? & ? & ?) (? & ? & ?). split_and!; congruence.
  - intros fr e. simpl. unfold write. destruct (socket_send fr (socket_ e)) as [[ec n] k].
    case_match; simpl; [apply (same_owner_handle_error _ _ (set_socket k e))|].
    by destruct (on_send_ e) eqn:Hs.
  - intros e. simpl. by destruct (socket_clock (socket_ e)).
  - intros [what ec|d] e; [apply same_owner_handle_error|done].
Qed.

Lemma given_forward ev e : given (forward ev e) = given e ++ option_list (event_data ev).
Proof. destruct ev; [|apply given_add_call]. simpl. rewrite given_handle_error. by rewrite app_nil_r. Qed.

Lemma given_write fr e : given (snd (write fr e)) = given e.
Proof.
  unfold write. destruct (socket_send fr (socket_ e)) as [[ec n] k]. case_match; simpl; [by rewrite given_handle_error|].
  destruct (on_send_ e); [|done]. rewrite given_add_call. apply app_nil_r.
Qed.

(** The owner is given the messages that the transport logs, and no others. *)
Definition logged (t t' : transport (adapter K)) : Prop :=
  exists evs, events t' = events t ++ evs /\ given (bus_ t') = given (bus_ t) ++ omap event_data evs.

#[export] Instance logged_preorder : PreOrder logged.
Proof.
  split.
  - intros t. exists []. by rewrite !app_nil_r.
  - intros t1 t2 t3 (e1 & A1 & B1) (e2 & A2 & B2). exists (e1 ++ e2). by rewrite A2, A1, B2, B1, omap_app, !(assoc_L app).
Qed.

Lemma logged_silent t t' : events t' = events t -> given (bus_ t') = given (bus_ t) -> logged t t'.
Proof. intros He Hg. exists []. by rewrite !app_nil_r. Qed.

Lemma logged_add_event ev t : logged t (add_event ev t).
Proof. exists [ev]. split; [done|]. simpl. rewrite given_forward. by destruct ev. Qed.

#[export] Instance logged_steps : Steps logged.
Proof.
  split; [apply _|..].
  - intros fr t a t'. unfold send_frame. simpl. pose proof (given_write fr (bus_ t)) as Hg.
    destruct (write fr (bus_ t)). intros [= _ <-]. by apply logged_silent.
  - intros t a t'. unfold now. simpl. destruct (socket_clock (socket_ (bus_ t))). intros [= _ <-]. by apply logged_silent.
  - intros what ec. apply relates_update. intros t. destruct (error_callback_ t); [apply logged_add_event|done].
Qed.

Lemma logged_deliver d : relates logged (deliver d).
Proof. apply relates_update. intros t. destruct (rx_callback_ t); [apply logged_add_event|done]. Qed.

Lemma logged_put key s : relates logged (put key s).
Proof. apply relates_update. intros t. by apply logged_silent. Qed.

Hint Resolve logged_deliver logged_put : steps.

Lemma logged_send bytes dest g : relates logged (send bytes dest g).
Proof. unfold send, start_tx. relate. Qed.

Lemma logged_on_can_frame fr : relates logged (on_can_frame fr).
Proof.
  unfold on_can_frame, handle_cm, handle_dt, start_rx_rts, handle_cts, start_rx_bam, complete_rx,
    handle_abort, accept_dt, reject_dt. relate.
Qed.

End Adapter.

(** A reliable socket makes the adapter a reliable bus. *)
#[export] Instance adapter_reliable `{CanaryHeader} `{!CanaryFilter} {K : Type} `{!RawSocket K}
  `{!ReliableSocket K} : ReliableBus (E := adapter K).
Proof.
  refine {| sent e := socket_sent (socket_ e) |}.
  1-3: intros fr e; simpl; unfold write; pose proof (socket_accepts fr (socket_ e)) as Ha;
    pose proof (socket_records fr (socket_ e)) as Hr;
    destruct (socket_send fr (socket_ e)) as [[ec n] k]; simpl in Ha, Hr; injection Ha as -> ->;
    rewrite Z.eqb_refl; simpl; by destruct (on_send_ e).
  - intros e. simpl. pose proof (socket_clock_records (socket_ e)).
    by destruct (socket_clock (socket_ e)).
  - intros e. simpl. by destruct (socket_clock (socket_ e)).
  - intros [what ec|d] e; [|done]. simpl. unfold handle_error. by destruct (_ || _).
  - intros [what ec|d] e; [|done]. simpl. unfold handle_error. by destruct (_ || _).
Defined.

Section Exchange.
Context `{!CanaryHeader, !CanaryLaws} `{!CanaryFilter} {K : Type} `{!RawSocket K} `{!ReliableSocket K}.

Notation connection := (connection K).

(** Frames written to the socket and messages given to the user, so far. *)
Definition written (c : connection) : list frame := sent (bus_of c).
Definition received (c : connection) : list data := given (bus_of c).

(** The connection of the local name at address [a] to the target name at [b],
    with the callbacks for frames and for data installed. *)
Record linked (net : network) (a b : Z) (c : connection) : Prop := {
  linked_local : exists l, local_name_ c = Some l /\ get_address l net = a;
  linked_target : exists n, target_name_ c = Some n /\ get_address n net = b;
  linked_read : on_read_ c = true;
  linked_data : on_data_ c = true;
  linked_rx : rx_callback_ (tp_ c) = true;
  linked_drained : events (tp_ c) = []
}.

(** The transport when it is given the received frame [fr]. *)
Definition listening (a : Z) (fr : frame) (c : connection) : transport (adapter K) :=
  with_bus (set_src_addr a (add_call (call_read fr) (bus_of c))) (tp_ c).

Lemma linked_meant_for net a b c h : linked net a b c ->
  meant_for net c h <-> source_address h = b /\ (is_broadcast h = false -> pdu_specific h = a).
Proof.
  intros [(l & Hl & Ha) (n & Hn & Hb) _ _ _ _]. unfold meant_for. rewrite Hl, Hn. split.
  - intros [Ht Ho]. split; [by rewrite <- (Ht n)|]. intros Hf. by rewrite <- (Ho l).
  - intros [Hs Hp]. split; [by intros ? [= <-]; congruence|]. intros ? [= <-] Hf. rewrite Hp; congruence.
Qed.

(** ** One received frame *)

(** The connection when the handler has checked the address. *)
Definition notified (net : network) (fr : frame) (c : connection) : connection :=
  refreshed net (on_bus (add_call (call_read fr))
    (with_buffer fr (with_pending (pred (reads_ c)) (ticking_ c) c))).

(** The rest of the handler. *)
Definition rearmed (fr : frame) (c : connection) : connection :=
  let c := with_buffer (Frame (set_id 0 (header fr)) (replicate 8 0)) c in
  with_pending (S (reads_ c)) (ticking_ c) c.

Lemma on_received_frame net fr (c : connection) : on_read_ c = true ->
  exists mine, (mine = true <-> meant_for net c (header fr)) /\
    on_received net (inr fr) c =
      ((if mine : bool then
          lift (on_can_frame fr);;
          (if normal_pgn (pgn (header fr)) then
             d ← frame_data fr;
             consumer ← asks on_data_;
             invoke consumer (call_data d)
           else mret tt)
        else mret tt);; modify (rearmed fr)) (notified net fr c).
Proof.
  intros Hr. unfold on_received. rewrite !modify_ok, asks_ok. cbn [on_read_ with_buffer with_pending].
  rewrite Hr, invoke_ok.
  set (c1 := on_bus _ _). destruct (check_address_accepts net c1) as (mine & E1 & Hm).
  exists mine. split; [exact Hm|]. by erewrite C_bind_ok by exact E1.
Qed.

Lemma linked_notified net a b fr c : linked net a b c -> tp_ (notified net fr c) = listening a fr c.
Proof.
  intros [(l & Hl & Ha) _ _ _ _ _]. unfold notified, refreshed. cbn [local_name_ on_bus with_tp with_buffer with_pending].
  rewrite Hl. simpl. by rewrite Ha.
Qed.

(** Names and callbacks do not change. *)
Lemma linked_with_tp net a b c c' t' : linked net a b c -> tp_ c' = t' ->
  local_name_ c' = local_name_ c -> target_name_ c' = target_name_ c ->
  on_read_ c' = on_read_ c -> on_data_ c' = on_data_ c ->
  rx_callback_ t' = true -> events t' = [] -> linked net a b c'.
Proof. intros [Hl Ht Hr Hd _ _] <- E1 E2 E3 E4 ??. split; by rewrite ?E1, ?E2, ?E3, ?E4. Qed.

Lemma notified_keeps net fr c :
  let c' := notified net fr c in
  local_name_ c' = local_name_ c /\ target_name_ c' = target_name_ c /\
  on_read_ c' = on_read_ c /\ on_data_ c' = on_data_ c.
Proof. intros c'. unfold c', notified, refreshed. by case_match. Qed.

(** A transport frame from the target to the local name goes to the transport. *)
Lemma on_transport_frame net a b fr c t' : linked net a b c ->
  source_address (header fr) = b -> pdu_specific (header fr) = a ->
  normal_pgn (pgn (header fr)) = false -> on_can_frame fr (listening a fr c) = Ok (tt, t') ->
  exists c', on_received net (inr fr) c = Ok (tt, c') /\ linked net a b c' /\
    written c' = sent (bus_ t') /\ sessions_ (tp_ c') = sessions_ t' /\
    received c' = received c ++ omap event_data (events t').
Proof.
  intros Hc Hs Hp Hn Ht. destruct (on_received_frame net fr c (linked_read _ _ _ _ Hc)) as (mine & Hm & ->).
  rewrite (proj2 Hm) by (apply (linked_meant_for net a b); [done|split; [done|by intros _]]).
  pose proof (framed_on_can_frame same_owner fr _ _ _ Ht) as (_ & Hrx & _).
  destruct (logged_on_can_frame fr _ _ _ Ht) as (evs & Hev & Hg). simpl in Hev.
  rewrite (linked_drained _ _ _ _ Hc) in Hev. simpl in Hev.
  rewrite Hn. unfold lift. erewrite C_bind_ok
    by (unfold mbind, C_bind; by rewrite (linked_notified _ _ _ _ _ Hc), Ht).
  eexists. split; [reflexivity|]. destruct (notified_keeps net fr c) as (K1 & K2 & K3 & K4). split.
  - eapply linked_with_tp; [exact Hc|reflexivity|done..| |done]. simpl. rewrite Hrx. apply (linked_rx _ _ _ _ Hc).
  - split_and!; [done..|]. unfold received, bus_of. simpl. rewrite Hg, Hev. simpl. f_equal.
    change (given (add_call (call_read fr) (bus_of c)) = received c). rewrite given_add_call. apply app_nil_r.
Qed.

(** A frame from somebody else changes nothing. *)
Lemma on_foreign_frame net a b fr c : linked net a b c -> source_address (header fr) <> b ->
  exists c', on_received net (inr fr) c = Ok (tt, c') /\ linked net a b c' /\
    written c' = written c /\ sessions_ (tp_ c') = sessions_ (tp_ c) /\ received c' = received c.
Proof.
  intros Hc Hs. destruct (on_received_frame net fr c (linked_read _ _ _ _ Hc)) as ([] & Hm & ->).
  - by destruct (proj1 (linked_meant_for net a b c _ Hc) (proj1 Hm eq_refl)) as [? _].
  - pose proof (linked_notified net a b fr c Hc) as Htp.
    destruct (notified_keeps net fr c) as (K1 & K2 & K3 & K4).
    eexists. split; [reflexivity|]. split.
    + eapply linked_with_tp; [exact Hc|reflexivity|done..| |]; simpl; rewrite Htp; apply Hc.
    + unfold written, received, bus_of. simpl. rewrite Htp. split_and!; [done..|].
      change (given (add_call (call_read fr) (bus_of c)) = received c). rewrite given_add_call. apply app_nil_r.
Qed.

(** ** A long message *)

(** The frames of a list, one after the other. *)
Fixpoint receive_all (net : network) (frs : list frame) : C (K := K) unit :=
  match frs with
  | [] => mret tt
  | fr :: frs => on_received net (inr fr);; receive_all net frs
  end.

Lemma receive_all_app net frs frs' (c : connection) :
  receive_all net (frs ++ frs') c = (receive_all net frs;; receive_all net frs') c.
Proof.
  revert c. induction frs as [|fr frs IH]; intros c; cbn [receive_all app]; [done|].
  unfold mbind, C_bind. destruct (on_received net (inr fr) c) as [[[] c1]|]; [apply IH|done].
Qed.

Lemma receive_one net fr (c c' : connection) : on_received net (inr fr) c = Ok (tt, c') ->
  receive_all net [fr] c = Ok (tt, c').
Proof. intros E1. cbn [receive_all]. by erewrite C_bind_ok by exact E1. Qed.

(** The transport frames of this library are for the address they name. *)
Lemma transport_frame_header f dst src : f = 0xEC \/ f = 0xEB -> is_uint 8 dst -> is_uint 8 src ->
  let h := header (make_base_frame (f * 2 ^ 8) dst src) in
  source_address h = src /\ pdu_specific h = dst /\ normal_pgn (pgn h) = false /\ is_broadcast h = false.
Proof.
  intros Hf Hd Hs h. destruct (base_frame_header f dst src) as (Hg & Hp & Ha & Hb); [lia|done..|].
  split_and!; [done..| |done]. unfold h. rewrite Hg. by destruct Hf as [-> | ->].
Qed.

Lemma receiving_listening a b g bytes k fr c : receiving false a b g bytes k (tp_ c) ->
  receiving false a b g bytes k (listening a fr c).
Proof. done. Qed.

Lemma receive_middle net a b g bytes k c :
  is_uint 8 a -> is_uint 8 b -> 0 < len bytes <= 1785 -> 1 <= k <= packets (len bytes) ->
  linked net a b c -> receiving false a b g bytes k (tp_ c) ->
  exists c', receive_all net (dt_frame a b bytes <$> seqZ k (packets (len bytes) - k)) c = Ok (tt, c') /\
    linked net a b c' /\ receiving false a b g bytes (packets (len bytes)) (tp_ c') /\
    written c' = written c /\ received c' = received c.
Proof.
  intros Ha Hb Hn Hk. remember (Z.to_nat (packets (len bytes) - k)) as m eqn:Hm.
  revert k c Hm Hk. induction m as [|m IH]; intros k c Hm Hk Hc Hr.
  - replace k with (packets (len bytes)) in * by lia. rewrite Z.sub_diag. by exists c.
  - rewrite seqZ_cons by lia. cbn [fmap list_fmap receive_all].
    destruct (middle_packet false a b g bytes k (listening a (dt_frame a b bytes k) c))
      as (t' & E1 & Hr1 & (Hclk & _ & _ & Hev)); [done..|lia|done|].
    destruct (transport_frame_header 0xEB a b) as (D1 & D2 & D3 & _); [by right|done..|].
    destruct (on_transport_frame net a b (dt_frame a b bytes k) c t' Hc D1 D2 D3 E1) as (c1 & E2 & Hc1 & W1 & S1 & G1).
    destruct (IH (Z.succ k) c1) as (c2 & E3 & Hc2 & Hr2 & W2 & G2); [lia..|done| |].
    { replace (Z.succ k) with (k + 1) by lia. destruct Hr1 as [_ Hs]. rewrite <- S1 in Hs.
      split; [apply (linked_rx _ _ _ _ Hc1)|exact Hs]. }
    exists c2. erewrite C_bind_ok by exact E2.
    replace (Z.pred (packets (len bytes) - k)) with (packets (len bytes) - Z.succ k) by lia.
    split_and!; [exact E3|done|done| |].
    + rewrite W2, W1. destruct (silent_reliable _ _ Hclk) as [-> _]. done.
    + rewrite G2, G1, Hev. simpl. rewrite (linked_drained _ _ _ _ Hc). apply app_nil_r.
Qed.

(** All packets: the message is given to the user, once, and acknowledged. *)
Lemma receive_message net a b g bytes c :
  is_uint 8 a -> is_uint 8 b -> 0 < len bytes <= 1778 ->
  linked net a b c -> receiving false a b g bytes 1 (tp_ c) ->
  exists ack c', receive_all net (dt_frame a b bytes <$> seqZ 1 (packets (len bytes))) c = Ok (tt, c') /\
    linked net a b c' /\ written c' = written c ++ [ack] /\ is_ack ack b a /\
    received c' = received c ++ [Data (delivered false a b g bytes) bytes].
Proof.
  intros Ha Hb Hn Hc Hr. rewrite packets_snoc, receive_all_app by lia.
  pose proof (packets_bounds (len bytes) ltac:(lia)) as Hp.
  destruct (receive_middle net a b g bytes 1 c) as (c1 & E1 & Hc1 & Hr1 & W1 & G1); [done..|lia|lia|done|done|].
  set (fr := dt_frame a b bytes (packets (len bytes))).
  destruct (last_packet 0xFF false a b g bytes (listening a fr c1))
    as (s & t1 & E2 & Hbam & Hds & Hss & Hclk & _ & Hev); [done..|lia|done|].
  destruct (send_eom_ack_sent s t1 Hbam) as (ack & t2 & E3 & (A3 & _ & _ & _ & _ & V3) & Hack); [by rewrite ?Hss, ?Hds..|].
  rewrite Hss, Hds in Hack. destruct (silent_reliable _ _ Hclk) as [Hsent _].
  destruct (transport_frame_header 0xEB a b) as (D1 & D2 & D3 & _); [by right|done..|].
  assert (E4 : on_can_frame fr (listening a fr c1) = Ok (tt, t2)).
  { unfold fr at 1. rewrite E2. cbn [negb]. by erewrite (bind_ok _ _ t1) by exact E3. }
  destruct (on_transport_frame net a b fr c1 t2 Hc1 D1 D2 D3 E4) as (c2 & E5 & Hc2 & W2 & _ & G2).
  exists ack, c2. erewrite C_bind_ok by exact E1. split_and!; [by apply receive_one|done| |done|].
  - rewrite W2, A3, Hsent, <- W1. done.
  - rewrite G2, G1, V3, Hev. simpl. by rewrite (linked_drained _ _ _ _ Hc1).
Qed.

(** The header that a peer delivers has the PGN of the message. *)
Lemma peer_delivery_pgn a b h bytes : j1939_flags h -> is_broadcast h = false -> is_uint 8 a -> is_uint 8 b ->
  pgn (delivered false b a (pgn h) bytes) = pgn h.
Proof.
  intros Hh Hb Ha Hb'. pose proof (pgn_range h) as Hg. set (d := delivered false b a (pgn h) bytes).
  pose proof default_flags as F0. pose proof (set_id_flags _ _ F0 : j1939_flags (set_pgn (pgn h) _)) as F1.
  pose proof (set_id_flags _ _ F1 : j1939_flags (set_source_address a _)) as F2.
  assert (Hid : id d = fset 29 8 8 (fset 29 0 8 (fset 29 8 18 0 (wrap 18 (pgn h))) a) b).
  { unfold d, delivered. rewrite id_set_payload_length, id_set_pdu_specific by done.
    rewrite id_set_source_address by done. by rewrite id_set_pgn, id_default. }
  assert (Hin : forall l, 0 <= l <= 10 -> fget 16 l (id d) = fget 16 l (id h)).
  { intros l Hl. rewrite Hid, !fget_fset_other, fget_fset_inner by lia. rewrite (pgn_bits h), Hb.
    bitwise i. replace (i + (16 - 8) - 8) with i by lia. bit_cases. }
  assert (Hd : is_broadcast d = false).
  { rewrite <- Hb. unfold is_broadcast. by rewrite !pdu_format_field, Hin by lia. }
  rewrite (pgn_bits d), Hd, Hin by lia. by rewrite (pgn_bits h), Hb.
Qed.

Lemma linked_send net a b d c : linked net a b c -> a <> J1939_IDLE_ADDR -> 8 < len (data_payload d) ->
  send_data net d c =
    lift (send (data_payload d) (pdu_specific (data_header d)) (pgn (data_header d)))
      (on_bus (set_src_addr a) c).
Proof.
  intros [(l & Hl & Ha) _ _ _ _ _] Hi Hn. unfold send_data.
  destruct (Nat.leb_spec (length (data_payload d)) 8) as [?|_]; [lia|].
  rewrite asks_ok, Hl. cbn [deref]. erewrite C_bind_ok by reflexivity.
  rewrite Ha, (proj2 (Z.eqb_neq a J1939_IDLE_ADDR) Hi). by rewrite modify_ok.
Qed.

Lemma forget_quiet (t : transport (adapter K)) : events t = [] -> forget t = t.
Proof. intros Hev. destruct t. simpl in *. by subst. Qed.

(** An operation of the transport that reports nothing. *)
Lemma lift_quiet {A} net a b (m : M A) x t' c : linked net a b c ->
  m (tp_ (on_bus (set_src_addr a) c)) = Ok (x, t') -> framed same_owner m -> relates logged m -> events t' = [] ->
  exists c', lift m (on_bus (set_src_addr a) c) = Ok (x, c') /\ linked net a b c' /\
    tp_ c' = t' /\ received c' = received c.
Proof.
  intros Hc Hm Hf Hl Hev. unfold lift. rewrite Hm. destruct (Hf _ _ _ Hm) as (_ & Hrx & Herr & _).
  destruct (Hl _ _ _ Hm) as (evs & He & Hg). rewrite Hev in He. apply (eq_sym (A := list _)), app_nil in He as [_ ->].
  rewrite app_nil_r in Hg. eexists. split; [reflexivity|]. rewrite (forget_quiet t' Hev). split_and!; [|done|exact Hg].
  eapply linked_with_tp; [exact Hc|reflexivity|done..| |done]. simpl. rewrite Hrx.
  apply (linked_rx _ _ _ _ Hc).
Qed.

(** The request of the sender. *)
Lemma exchange_request net a b d c :
  linked net a b c -> a <> J1939_IDLE_ADDR -> b <> J1939_NO_ADDR ->
  pdu_specific (data_header d) = b -> 8 < len (data_payload d) <= 1778 ->
  let bytes := data_payload d in let g := pgn (data_header d) in
  exists n c', send_data net d c = Ok (true, c') /\ linked net a b c' /\
    written c' = written c ++ [cm_frame RTS b a g (len bytes) 0xFF] /\ received c' = received c /\
    sessions_ (tp_ c') !! (a, b) = Some (tx_session bytes b a g n).
Proof.
  intros Hc Hia Hnb Hps Hn bytes g. rewrite (linked_send net a b) by (done || lia). rewrite Hps.
  destruct (send_rts_ok bytes b g (tp_ (on_bus (set_src_addr a) c)))
    as (n & t1 & E1 & W1 & B1 & V1 & M1); [done..|]. simpl in V1. rewrite (linked_drained _ _ _ _ Hc) in V1.
  destruct (lift_quiet net a b _ _ _ c Hc E1 (framed_send _ _ _ _) (logged_send _ _ _) V1) as (c1 & F1 & Hc1 & T1 & G1).
  exists n, c1. split_and!; [exact F1|done| |done|by rewrite T1]. unfold written, bus_of. by rewrite T1.
Qed.

(** The answer of the target. *)
Lemma exchange_answer net a b g bytes c :
  linked net b a c -> is_uint 8 a -> is_uint 8 b -> is_uint 24 g -> 0 < len bytes <= 1778 ->
  exists c', receive_all net [cm_frame RTS b a g (len bytes) 0xFF] c = Ok (tt, c') /\ linked net b a c' /\
    written c' = written c ++ [cts_frame a b g 0xFF 1] /\ received c' = received c /\
    receiving false b a g bytes 1 (tp_ c').
Proof.
  intros Hc Ua Ub Hg Hn. set (rts := cm_frame RTS b a g (len bytes) 0xFF).
  destruct (on_rts_frame 0xFF a g bytes (listening b rts c)) as (t2 & E2 & R2 & W2 & B2 & V2);
    [done..|lia|apply (linked_rx _ _ _ _ Hc)|].
  destruct (transport_frame_header 0xEC b a) as (D1 & D2 & D3 & _); [by left|done..|].
  destruct (on_transport_frame net b a rts c t2 Hc D1 D2 D3 E2) as (c2 & F2 & Hc2 & X2 & S2 & G2).
  exists c2. split_and!; [by apply receive_one|done|by rewrite X2, W2| |].
  - rewrite G2, V2. simpl. rewrite (linked_drained _ _ _ _ Hc). apply app_nil_r.
  - split; [apply (linked_rx _ _ _ _ Hc2)|]. rewrite S2. apply R2.
Qed.

(** The packets of the sender, with the acknowledgement that it also writes. *)
Lemma exchange_packets net a b g n bytes c :
  linked net a b c -> is_uint 8 a -> is_uint 8 b -> b <> J1939_NO_ADDR -> 0 < len bytes <= 1778 ->
  sessions_ (tp_ c) !! (a, b) = Some (tx_session bytes b a g n) ->
  exists c', receive_all net [cts_frame a b g 0xFF 1] c = Ok (tt, c') /\ received c' = received c /\
    written c' = written c ++ (dt_frame b a bytes <$> seqZ 1 (packets (len bytes))) ++
      [cm_frame EOM a b g (len bytes) 0xFF].
Proof.
  intros Hc Ua Ub Hnb Hn Hm. set (cts := cts_frame a b g 0xFF 1).
  destruct (on_cts_frame bytes b g n (listening a cts c)) as (s & t3 & E3 & W3 & V3 & M3 & _); [done..|].
  destruct (transport_frame_header 0xEC a b) as (D1 & D2 & D3 & _); [by left|done..|].
  destruct (on_transport_frame net a b cts c t3 Hc D1 D2 D3 E3) as (c3 & F3 & _ & X3 & _ & G3).
  exists c3. split_and!; [by apply receive_one| |by rewrite X3, W3].
  rewrite G3, V3. simpl. rewrite (linked_drained _ _ _ _ Hc). apply app_nil_r.
Qed.


(** ** A message of one frame *)

(** The frame of a message of at most eight bytes. *)
Definition single_frame (h : frame_header) (bytes : list Z) : frame :=
  Frame h (bytes ++ drop (length bytes) (replicate 8 0)).

Lemma linked_send_single net a b d c :
  linked net a b c -> a <> J1939_IDLE_ADDR -> b <> J1939_IDLE_ADDR -> is_uint 8 a -> is_uint 8 b ->
  j1939_flags (data_header d) -> (length (data_payload d) <= 8)%nat ->
  exists h c', addressed a b (data_header d) h /\ send_data net d c = Ok (true, c') /\
    written c' = written c ++ [single_frame h (data_payload d)].
Proof.
  intros [(l & Hl & Ha) (n & Hn & Hb) _ _ _ _] Hia Hib Ua Ub Hh Hlen. unfold send_data.
  rewrite (proj2 (Nat.leb_le _ _) Hlen). unfold connection_send. cbn [header].
  assert (Hout : forall h, exists c', send_out (single_frame h (data_payload d)) c = Ok (true, c') /\
    written c' = written c ++ [single_frame h (data_payload d)]).
  { intros h. destruct (send_out_ok (single_frame h (data_payload d)) c) as (c' & Hs & _ & He). exists c'.
    pose proof (send_accepts (E := adapter K) (single_frame h (data_payload d)) (bus_of c)) as Hok.
    simpl in Hok. rewrite Hok in Hs. split; [done|]. unfold written. rewrite He. 
    exact (send_records (E := adapter K) (single_frame h (data_payload d)) (bus_of c)). }
  destruct (is_broadcast (data_header d)) eqn:Hbr.
  - rewrite asks_ok, Hl. cbn [deref]. erewrite C_bind_ok by reflexivity. rewrite Ha, (proj2 (Z.eqb_neq _ _) Hia).
    edestruct Hout as (c' & Hs & Hw). eexists _, c'. split; [by apply set_source_addressed|]. by split.
  - rewrite asks_ok, Hn. unfold send_to. rewrite asks_ok, Hl, Ha, Hb.
    rewrite (proj2 (Z.eqb_neq _ _) Hia), (proj2 (Z.eqb_neq _ _) Hib).
    edestruct Hout as (c' & Hs & Hw). eexists _, c'. split; [by apply set_both_addressed|]. by split.
Qed.

(** The transport ignores a frame that is not one of its own. *)
Lemma lift_normal_frame fr (c : connection) : events (tp_ c) = [] -> normal_pgn (pgn (header fr)) = true ->
  lift (on_can_frame fr) c = Ok (tt, with_tp (tp_ c) c).
Proof.
  intros Hev Hn. unfold lift, on_can_frame. unfold normal_pgn in Hn.
  do 3 (apply andb_true_iff in Hn as [Hn _]). apply andb_true_iff in Hn as [N1 N2].
  apply negb_true_iff in N1, N2. rewrite N1, N2. unfold mret, M_ret. by rewrite (forget_quiet _ Hev).
Qed.

Lemma frame_data_ok fr (c : connection) : payload_length (header fr) <= len (payload fr) ->
  frame_data fr c =
    if payload_length (header fr) =? 0 then Fault empty_vector
    else Ok (Data (header fr) (take (Z.to_nat (payload_length (header fr))) (payload fr)), c).
Proof. intros Hl. unfold frame_data. rewrite (proj2 (Z.ltb_ge _ _) Hl). by destruct (_ =? 0). Qed.

Lemma on_normal_frame net fr (c : connection) :
  on_read_ c = true -> on_data_ c = true -> events (tp_ c) = [] ->
  normal_pgn (pgn (header fr)) = true -> payload_length (header fr) <= len (payload fr) ->
  let d := Data (header fr) (take (Z.to_nat (payload_length (header fr))) (payload fr)) in
  exists mine : bool, (mine = true <-> meant_for net c (header fr)) /\
    on_received net (inr fr) c =
      if mine && (payload_length (header fr) =? 0) then Fault empty_vector
      else Ok (tt, rearmed fr
        (if mine then on_bus (add_call (call_data d)) (notified net fr c) else notified net fr c)).
Proof.
  intros Hr Hd Hev Hn Hl d. destruct (on_received_frame net fr c Hr) as (mine & Hm & ->).
  exists mine. split; [done|]. destruct mine; [|done]. rewrite Hn.
  assert (Hev' : events (tp_ (notified net fr c)) = []) by (unfold notified, refreshed; by case_match).
  destruct (notified_keeps net fr c) as (_ & _ & _ & K4).
  unfold mbind at 1, C_bind at 1. erewrite C_bind_ok by (by apply lift_normal_frame).
  unfold mbind at 1, C_bind at 1. rewrite frame_data_ok by done. cbn [andb]. destruct (_ =? 0); [done|].
  rewrite asks_ok. cbn [on_data_ with_tp]. by rewrite K4, Hd.
Qed.

Lemma calls_on_bus k fr (c : connection) :
  calls (bus_of (rearmed fr (on_bus (add_call k) c))) = calls (bus_of c) ++ [k].
Proof. done. Qed.

Lemma calls_notified net fr (c : connection) :
  calls (bus_of (notified net fr c)) = calls (bus_of c) ++ [call_read fr].
Proof. unfold notified, refreshed. by case_match. Qed.

(** C23.  Every received frame is given to [on_read_]; a frame that is not one of the
    protocol's own is given to [on_data_], with the announced number of bytes,
    exactly when it comes from the target's address (if a target name is set)
    and is for the local name's address (if a local name is set and the frame
    is not PDU2).  The transport sees nothing of it and the next read is
    started.  An accepted frame of this kind without bytes is the one exception:
    the handler indexes an empty vector. *)
Theorem received_frames_are_filtered net fr (c : connection) :
  on_read_ c = true -> on_data_ c = true -> events (tp_ c) = [] ->
  normal_pgn (pgn (header fr)) = true -> payload_length (header fr) <= len (payload fr) ->
  exists mine, (mine = true <-> meant_for net c (header fr)) /\
    if mine && (payload_length (header fr) =? 0) then on_received net (inr fr) c = Fault empty_vector
    else exists c',
      on_received net (inr fr) c = Ok (tt, c') /\
      calls (bus_of c') = calls (bus_of c) ++ call_read fr ::
        (if mine : bool
         then [call_data (Data (header fr) (take (Z.to_nat (payload_length (header fr))) (payload fr)))] else []) /\
      sessions_ (tp_ c') = sessions_ (tp_ c) /\ reads_ c' = S (pred (reads_ c)).
Proof.
  intros Hr Hd Hev Hn Hl. destruct (on_normal_frame net fr c Hr Hd Hev Hn Hl) as (mine & Hm & E1).
  exists mine. split; [exact Hm|]. destruct (mine && _); [done|]. eexists. split_and!; [exact E1| | |].
  - pose proof (calls_notified net fr c) as Hcalls. destruct mine; [|exact Hcalls].
    etrans; [by apply calls_on_bus|]. by rewrite Hcalls, <- app_assoc.
  - destruct mine; simpl; unfold notified, refreshed; by case_match.
  - destruct mine; simpl; unfold notified, refreshed; by case_match.
Qed.

(** A frame that is not one of the protocol's own is given to the user. *)
Lemma on_meant_frame net h bytes (c : connection) :
  on_read_ c = true -> on_data_ c = true -> events (tp_ c) = [] -> meant_for net c h ->
  normal_pgn (pgn h) = true -> (0 < length bytes <= 8)%nat -> payload_length h = len bytes ->
  exists c', on_received net (inr (single_frame h bytes)) c = Ok (tt, c') /\
    received c' = received c ++ [Data h bytes].
Proof.
  intros Hr Hd Hev Hmf Hn Hlen Hl. set (fr := single_frame h bytes).
  destruct (on_normal_frame net fr c) as (mine & Hm & E1); [done..| |].
  { simpl. rewrite Hl, length_app. lia. }
  rewrite (proj2 Hm) in E1 by done. cbn [header single_frame fr andb] in E1.
  rewrite (proj2 (Z.eqb_neq _ _)) in E1 by (rewrite Hl; lia). eexists. split; [exact E1|]. unfold received, given. rewrite calls_on_bus, calls_notified, !omap_app, <- app_assoc. simpl.
  by rewrite Hl, Nat2Z.id, take_app_length.
Qed.

Lemma on_data_frame net a b h bytes c : linked net a b c ->
  source_address h = b -> (is_broadcast h = false -> pdu_specific h = a) -> normal_pgn (pgn h) = true ->
  (0 < length bytes <= 8)%nat -> payload_length h = len bytes ->
  exists c', on_received net (inr (single_frame h bytes)) c = Ok (tt, c') /\
    received c' = received c ++ [Data h bytes].
Proof.
  intros Hc Hs Hp. apply on_meant_frame; [apply Hc..|]. by apply (linked_meant_for net a b).
Qed.

(** A message of one to eight bytes that a connection sends arrives at its
    target in one frame, from the address of the sender's name and, unless it is
    PDU2, to the address of the target's name, with PGN and bytes unchanged. *)
Theorem single_frame_exchange netA netB a b d (cA cB : connection) :
  linked netA a b cA -> linked netB b a cB -> is_uint 8 a -> is_uint 8 b ->
  a <> J1939_IDLE_ADDR -> b <> J1939_IDLE_ADDR -> j1939_flags (data_header d) ->
  normal_pgn (pgn (data_header d)) = true ->
  1 <= len (data_payload d) <= 8 -> payload_length (data_header d) = len (data_payload d) ->
  exists cA1 fr cB1,
    send_data netA d cA = Ok (true, cA1) /\ written cA1 = written cA ++ [fr] /\
    receive_all netB [fr] cB = Ok (tt, cB1) /\
    received cB1 = received cB ++ [Data (header fr) (data_payload d)] /\
    pgn (header fr) = pgn (data_header d) /\ source_address (header fr) = a /\
    pdu_specific (header fr) = if is_broadcast (data_header d) then pdu_specific (data_header d) else b.
Proof.
  intros HA HB Ua Ub Hia Hib Hh Hn Hlen Hl.
  destruct (linked_send_single netA a b d cA) as (h & cA1 & Hadr & E1 & W1); [done..|lia|].
  destruct (addressed_getters _ _ _ _ Hh Hadr) as (Hg & Hbr & Hs & Hp).
  destruct (on_data_frame netB b a h (data_payload d) cB) as (cB1 & E2 & G2); [done|done| |by rewrite Hg|lia| |].
  - intros Hf. rewrite Hp. rewrite Hbr in Hf. by rewrite Hf.
  - destruct Hadr as (_ & Hpl & _). by rewrite Hpl.
  - eexists cA1, _, cB1. split_and!; [exact E1|exact W1|by apply receive_one|exact G2|exact Hg|exact Hs|exact Hp].
Qed.

End Exchange.
