(* ===== verification/ConnectionSafety.v ===== *)
(** * A connection with its callbacks does not fault

    Once a local name and the callbacks for errors, frames and data are set,
    no sequence of sends, received frames and timer ticks dereferences an empty
    optional, calls an empty function, divides by zero or copies outside of a
    buffer, whatever the socket and the address table do, as long as received
    frames announce consistent sizes.  The one fault left is the index into an
    empty vector, on data frames without bytes. *)

From Stdlib Require Import String.
From stdpp Require Import gmap list.
From S2P Require Import Prelude J1939Type Canary Header HeaderFacts Name NameFacts Frame Network Transport.
From S2P Require Import TransportFacts TransportFrame TransportRoundTrip TransportSafety.
From S2P Require Import Connection ConnectionFacts ConnectionExchange.

Section ConnectionSafety.
Context `{!CanaryHeader, !CanaryLaws} `{!CanaryFilter} {K : Type} `{!RawSocket K}.

Notation connection := (connection K).

(** A local name and the three callbacks are set, and the sessions are consistent. *)
Definition conn_ok (c : connection) : Prop :=
  sessions_ok (tp_ c) /\ is_Some (local_name_ c) /\ on_error_ (bus_of c) = true /\
  on_read_ c = true /\ on_data_ c = true.

Section Faults.
Context (F : fault -> Prop).

(** The connection is in order, or the fault is one of [F]. *)
Definition outcome_ok {A} (r : result (A * connection)) : Prop :=
  match r with Ok (_, c') => conn_ok c' | Fault f => F f end.

(** [m] returns a value and keeps the connection in order, or has a fault of [F]. *)
Definition csafe {A} (m : C (K := K) A) : Prop := forall c, conn_ok c -> outcome_ok (m c).

Lemma csafe_ret {A} (a : A) : csafe (mret a).
Proof. by intros c Hc. Qed.

Lemma csafe_throw {A} f : F f -> csafe (@throw _ K A f).
Proof. by intros Hf c Hc. Qed.

Lemma csafe_bind {A B} (m : C A) (k : A -> C B) : csafe m -> (forall a, csafe (k a)) -> csafe (m ≫= k).
Proof.
  intros Hm Hk c Hc. specialize (Hm c Hc). unfold mbind, C_bind. destruct (m c) as [[a c1]|]; [by apply Hk|done].
Qed.

Lemma csafe_modify f : (forall c, conn_ok c -> conn_ok (f c)) -> csafe (modify f).
Proof. intros Hf c Hc. by apply Hf. Qed.

(** What is read may be used for the rest. *)
Lemma csafe_asks {A B} (f : connection -> A) (k : A -> C B) :
  (forall c, conn_ok c -> outcome_ok (k (f c) c)) -> csafe (asks f ≫= k).
Proof. intros Hk c Hc. rewrite asks_ok. by apply Hk. Qed.

Lemma conn_ok_on_bus f (c : connection) :
  (forall e, on_error_ (f e) = on_error_ e) -> conn_ok c -> conn_ok (on_bus f c).
Proof. intros Hf (? & ? & He & ? & ?). split_and!; try done. unfold bus_of. simpl. by rewrite Hf. Qed.

Lemma csafe_invoke_data d : csafe (consumer ← asks on_data_; invoke consumer (call_data d)).
Proof.
  apply csafe_asks. intros c Hc. destruct Hc as (? & ? & ? & ? & Hd) eqn:Eq. rewrite Hd.
  by apply conn_ok_on_bus.
Qed.

Lemma csafe_fail_with what : csafe (fail_with what).
Proof.
  intros c Hc. rewrite fail_with_ok by apply Hc. by apply conn_ok_on_bus.
Qed.

(** The operations of the transport. *)
Lemma csafe_lift {A} (m : M A) Q : safe m Q -> framed same_owner m -> csafe (lift m).
Proof.
  intros Hm Hf c (Hs & Hl & He & Hr & Hd). destruct (Hm _ Hs) as (a & t & E1 & Ht & _).
  unfold lift. rewrite E1. split_and!; try done.
  destruct (Hf _ _ _ E1) as ((_ & He' & _) & _). unfold bus_of. simpl. by rewrite He'.
Qed.

Lemma csafe_send_raw fr : csafe (send_raw fr).
Proof.
  intros c (Hs & Hl & He & Hr & Hd). unfold send_raw.
  pose proof (stable_send (R := same_owner) fr (bus_of c)) as (_ & He' & _). simpl in He'.
  destruct (write fr (bus_of c)) as [ok e].
  split_and!; try done. unfold bus_of. simpl. by rewrite <- He.
Qed.

Lemma csafe_send_out fr : csafe (send_out fr).
Proof. apply csafe_bind; [by apply csafe_modify|intros _; apply csafe_send_raw]. Qed.

Lemma csafe_send_to net n fr : csafe (send_to net n fr).
Proof.
  apply csafe_bind; [by intros c Hc|]. intros [l|]; [|apply csafe_fail_with].
  cbv zeta. repeat case_match; auto using csafe_fail_with, csafe_send_out.
Qed.

Lemma csafe_local (k : name -> C bool) :
  (forall l, csafe (k l)) -> csafe (local ← asks local_name_; l ← deref local; k l).
Proof.
  intros Hk. apply csafe_asks. intros c Hc. destruct Hc as (? & [l Hl] & ?) eqn:Eq. rewrite Hl. by apply Hk.
Qed.

Lemma csafe_connection_send net fr : csafe (connection_send net fr).
Proof.
  unfold connection_send. destruct (is_broadcast (header fr)).
  - apply csafe_local. intros l. cbv zeta. case_match; auto using csafe_fail_with, csafe_send_out.
  - apply csafe_bind; [by intros c Hc|].
    intros [n|]; auto using csafe_fail_with, csafe_send_to.
Qed.

Lemma csafe_send_data net d : csafe (send_data net d).
Proof.
  unfold send_data. case_match; [apply csafe_connection_send|]. apply csafe_local. intros l. cbv zeta.
  case_match; [apply csafe_fail_with|]. apply csafe_bind.
  - apply csafe_modify. intros c. by apply conn_ok_on_bus.
  - intros _. eapply csafe_lift; [apply safe_send|apply framed_send, _].
Qed.

(** ** Received frames *)

(** The socket never announces more bytes than it wrote. *)
Definition frame_ok (fr : frame) : Prop :=
  well_formed fr /\ payload_length (header fr) <= len (payload fr).

Lemma csafe_check_address net : csafe (check_address net).
Proof.
  intros c Hc. destruct (check_address_accepts net c) as (b & -> & _). cbn. unfold refreshed. case_match; [|done]. by apply conn_ok_on_bus.
Qed.

(** A frame for the user has bytes. *)
Definition carries_data (fr : frame) : Prop :=
  normal_pgn (pgn (header fr)) = true -> payload_length (header fr) <> 0.

Lemma csafe_on_received net r :
  (forall fr, r = inr fr -> frame_ok fr /\ (carries_data fr \/ F empty_vector)) -> csafe (on_received net r).
Proof.
  intros Hr. unfold on_received. apply csafe_bind; [by apply csafe_modify|]. intros _. destruct r as [ec|fr].
  - apply csafe_modify. intros c. apply conn_ok_on_bus. intros e. unfold handle_error. by destruct (_ || _).
  - destruct (Hr fr eq_refl) as [[Hwf Hlen] Hdata]. apply csafe_bind; [by apply csafe_modify|]. intros _.
    apply csafe_asks. intros c Hc. rewrite (proj1 (proj2 (proj2 (proj2 Hc)))).
    rewrite invoke_ok. revert c Hc. enough (Hk : csafe (mine ← check_address net;
      (if mine : bool then lift (on_can_frame fr);; (if normal_pgn (pgn (header fr)) then
         d ← frame_data fr; consumer ← asks on_data_; invoke consumer (call_data d) else mret tt) else mret tt);;
      modify (with_buffer (Frame (set_id 0 (header fr)) (replicate 8 0)));; async_read)).
    { intros c Hc. apply Hk. by apply conn_ok_on_bus. }
    apply csafe_bind; [apply csafe_check_address|]. intros mine. apply csafe_bind.
    + destruct mine; [|apply csafe_ret]. apply csafe_bind.
      * eapply csafe_lift; [by apply safe_on_can_frame|apply framed_on_can_frame, _].
      * intros _. case_match eqn:Hn; [|apply csafe_ret]. apply csafe_bind; [|apply csafe_invoke_data].
        unfold frame_data. rewrite (proj2 (Z.ltb_ge _ _) Hlen).
        destruct (Z.eqb_spec (payload_length (header fr)) 0); [|apply csafe_ret].
        apply csafe_throw. destruct Hdata as [Hd|?]; [by destruct (Hd Hn)|done].
    + intros _. apply csafe_bind; [by apply csafe_modify|]. intros _. by apply csafe_modify.
Qed.

(** ** Runs *)

(** Each operation sees the address table of its moment. *)
Inductive conn_op :=
  | op_send_data (net : network) (d : data)
  | op_send_frame (net : network) (fr : frame)
  | op_send_to (net : network) (n : name) (fr : frame)
  | op_received (net : network) (r : connection_error + frame)
  | op_tick_timer (ec : option connection_error) (order : list (Z * Z)).

Definition conn_run_op (o : conn_op) : C (K := K) unit :=
  match o with
  | op_send_data net d => _ ← send_data net d; mret tt
  | op_send_frame net fr => _ ← connection_send net fr; mret tt
  | op_send_to net n fr => _ ← send_to net n fr; mret tt
  | op_received net r => on_received net r
  | op_tick_timer ec order => on_tick_timer ec order
  end.

Fixpoint conn_run (ops : list conn_op) : C (K := K) unit :=
  match ops with [] => mret tt | o :: ops => conn_run_op o;; conn_run ops end.

Definition conn_op_ok (o : conn_op) : Prop :=
  match o with op_received _ (inr fr) => frame_ok fr | _ => True end.

Definition op_carries_data (o : conn_op) : Prop :=
  match o with op_received _ (inr fr) => carries_data fr | _ => True end.

Lemma csafe_conn_run_op o : conn_op_ok o -> op_carries_data o \/ F empty_vector -> csafe (conn_run_op o).
Proof.
  intros Ho Hd. destruct o as [net d|net fr|net n fr|net r|ec order]; cbn [conn_run_op].
  1-3: apply csafe_bind; [auto using csafe_send_data, csafe_connection_send, csafe_send_to|intros _; apply csafe_ret].
  - apply csafe_on_received. by intros fr ->.
  - destruct ec; [by apply csafe_modify|]. eapply csafe_lift; [apply safe_tick|apply framed_tick, _].
Qed.

Lemma csafe_conn_run ops : Forall (fun o => conn_op_ok o /\ (op_carries_data o \/ F empty_vector)) ops ->
  csafe (conn_run ops).
Proof.
  induction 1 as [|o ops [Ho Hd] _ IH]; cbn [conn_run]; [apply csafe_ret|].
  apply csafe_bind; [by apply csafe_conn_run_op|done].
Qed.

End Faults.

(** C14.  A connection with a local name and with callbacks for errors, frames and
    data never dereferences an empty optional, calls an empty function, divides by
    zero or copies out of bounds, for every sequence of sends, received
    well-formed frames, read errors and ticks, on any socket and with any address
    tables: the only fault there can be is the index into an empty vector.  If all
    data frames have bytes, the sequence runs to its end. *)
Theorem connection_never_faults ops socket l target :
  Forall conn_op_ok ops ->
  let c := on_data (on_read (connection_on_error (j1939_connection socket (Some l) target))) in
  outcome_ok (fun f => f = empty_vector) (conn_run ops c) /\
  (Forall op_carries_data ops -> exists c', conn_run ops c = Ok (tt, c') /\ conn_ok c').
Proof.
  intros Hops c. assert (Hc : conn_ok c).
  { split_and!; [by apply map_Forall_empty|by exists l|done..]. }
  clearbody c. split.
  - apply (csafe_conn_run (fun f => f = empty_vector)); [|done]. eapply Forall_impl; [|exact Hops]. by auto.
  - intros Hd. pose proof (csafe_conn_run (fun _ => False) ops) as Hsafe.
    assert (Hr : outcome_ok (fun _ => False) (conn_run ops c)).
    { apply Hsafe; [|done]. apply List.Forall_and; [done|]. eapply Forall_impl; [|exact Hd]. by auto. }
    destruct (conn_run ops c) as [[[] c']|]; [by exists c'|done].
Qed.

End ConnectionSafety.
