(* ===== verification/ConnectionLimits.v ===== *)
(** * What a connection does not do

    Messages to everybody never reach a connection with a local name, an
    unknown local name sends from the global address, an abort of the peer is
    not reported, and a connection without [on_data_] does not survive its
    first data frame. *)

From Stdlib Require Import String.
From stdpp Require Import gmap list list_numbers.
From S2P Require Import Prelude J1939Type Canary Header HeaderFacts Name Frame Network Transport.
From S2P Require Import TransportFacts TransportFrame TransportRoundTrip.
From S2P Require Import Connection ConnectionFacts ConnectionExchange.

Section ConnectionLimits.
Context `{!CanaryHeader, !CanaryLaws} `{!CanaryFilter} {K : Type} `{!RawSocket K}.

Notation connection := (connection K).

(** A frame that is not accepted is only given to [on_read_]. *)
Lemma on_rejected_frame net fr (c : connection) : on_read_ c = true -> ~ meant_for net c (header fr) ->
  exists c', on_received net (inr fr) c = Ok (tt, c') /\
    sessions_ (tp_ c') = sessions_ (tp_ c) /\ calls (bus_of c') = calls (bus_of c) ++ [call_read fr].
Proof.
  intros Hr Hm. destruct (on_received_frame net fr c Hr) as (mine & Hmine & ->).
  destruct mine; [by destruct Hm; apply Hmine|]. eexists. split; [reflexivity|].
  split; [|apply (calls_notified net fr c)]. simpl. unfold notified, refreshed. by case_match.
Qed.

(** The frames of a broadcast are addressed to everybody. *)
Lemma bam_frame_header src g bytes fr : is_uint 8 src -> fr ∈ bam_frames src g bytes ->
  pdu_specific (header fr) = J1939_NO_ADDR /\ is_broadcast (header fr) = false.
Proof.
  intros Hs Hfr. unfold bam_frames in Hfr. apply elem_of_cons in Hfr as [->|Hfr].
  - by destruct (cm_frame_header BAM 0xFF src g (len bytes) 0xFF) as (? & _ & ?).
  - apply list_elem_of_fmap in Hfr as (k & -> & _).
    by destruct (transport_frame_header 0xEB 0xFF src) as (_ & ? & _ & ?); [by right|..].
Qed.

(** C40.  A connection with a local name whose address is not the global one, as
    for every NAME in the table, never receives a broadcast message: the address
    check compares the global destination of every frame of a BAM transfer with
    the connection's own address, so that no session is opened and nothing but
    [on_read_] is called. *)
Theorem broadcasts_never_reach_a_named_connection net l src g bytes fr (c : connection) :
  local_name_ c = Some l -> get_address l net <> J1939_NO_ADDR -> on_read_ c = true ->
  is_uint 8 src -> fr ∈ bam_frames src g bytes ->
  exists c', on_received net (inr fr) c = Ok (tt, c') /\
    sessions_ (tp_ c') = sessions_ (tp_ c) /\ calls (bus_of c') = calls (bus_of c) ++ [call_read fr].
Proof.
  intros Hl Ha Hr Hs Hfr. destruct (bam_frame_header src g bytes fr Hs Hfr) as [Hp Hb].
  apply on_rejected_frame; [done|]. intros [_ Hm]. apply Ha. rewrite <- Hp. by apply Hm.
Qed.

(** A connection whose local name is not in the address table sends its PDU2
    frames from the global address 255: the check for a missing address only
    knows the idle address 254. *)
Theorem unknown_local_name_sends_from_the_global_address net l fr (c : connection) :
  local_name_ c = Some l -> name_addr_map_ net !! l = None ->
  j1939_flags (header fr) -> is_broadcast (header fr) = true ->
  exists out c', connection_send net fr c = Ok (fst (write out (bus_of c)), c') /\
    bus_of c' = snd (write out (bus_of c)) /\ payload out = payload fr /\
    pgn (header out) = pgn (header fr) /\ source_address (header out) = 0xFF.
Proof.
  intros Hl Hn Hh Hb. assert (Ha : get_address l net = 0xFF) by (unfold get_address; by rewrite Hn).
  unfold connection_send. rewrite Hb, asks_ok, Hl. cbn [deref]. erewrite C_bind_ok by reflexivity.
  rewrite Ha. change (0xFF =? J1939_IDLE_ADDR) with false. cbv iota.
  edestruct send_out_ok as (c' & Hs & _ & He). eexists _, c'.
  pose proof (set_source_addressed 0xFF 0 (header fr) Hh ltac:(done) Hb) as Hadr.
  destruct (addressed_getters _ _ _ _ Hh Hadr) as (Hg & _ & Hsa & _).
  split_and!; [exact Hs|exact He|done|exact Hg|exact Hsa].
Qed.

(** An abort marks the session of the transfer; the transport reports it with the
    code [operation_aborted], which the connection drops. *)
Lemma on_abort_frame fr s (t : transport (adapter K)) :
  let key := (src_addr_ (bus_ t), source_address (header fr)) in
  pgn (header fr) = PGN_TP_CM -> byte 0 fr = to_byte ABORT -> sessions_ t !! key = Some s ->
  exists t', on_can_frame fr t = Ok (tt, t') /\ bus_ t' = bus_ t /\
    sessions_ t' = <[key := set_state ABorted s]> (sessions_ t).
Proof.
  intros key Hg Hctl Hs. unfold on_can_frame. rewrite Hg, Z.eqb_refl. unfold handle_cm. rewrite Hctl.
  change (control_of_byte (to_byte ABORT)) with (Some ABORT). cbv iota. unfold handle_abort.
  erewrite bind_ok by reflexivity. change (make_key _ _) with key.
  erewrite bind_ok by (unfold find, gets; by rewrite Hs). cbv iota.
  erewrite bind_ok by reflexivity. eexists. split; [reflexivity|].
  cbn [error_callback_ with_sessions]. by destruct (error_callback_ t).
Qed.

(** A peer's abort of a transfer is never reported: the transport reports it
    with [operation_aborted], which the connection filters out as a cancelled
    operation; the session is only marked. *)
Theorem remote_abort_is_not_reported net l t fr s (c : connection) :
  local_name_ c = Some l -> target_name_ c = Some t -> on_read_ c = true -> events (tp_ c) = [] ->
  get_address l net = pdu_specific (header fr) -> get_address t net = source_address (header fr) ->
  pgn (header fr) = PGN_TP_CM -> byte 0 fr = to_byte ABORT ->
  sessions_ (tp_ c) !! (get_address l net, get_address t net) = Some s ->
  exists c', on_received net (inr fr) c = Ok (tt, c') /\
    sessions_ (tp_ c') !! (get_address l net, get_address t net) = Some (set_state ABorted s) /\
    calls (bus_of c') = calls (bus_of c) ++ [call_read fr].
Proof.
  intros Hl Ht Hr Hev Ha Hb Hg Hctl Hs. destruct (on_received_frame net fr c Hr) as (mine & Hm & ->).
  rewrite (proj2 Hm) by (split; [intros n; rewrite Ht|intros n; rewrite Hl]; by intros [= <-]).
  rewrite Hg. change (normal_pgn PGN_TP_CM) with false. cbv iota.
  set (c1 := notified net fr c).
  assert (Htp : tp_ c1 = with_bus (set_src_addr (get_address l net) (add_call (call_read fr) (bus_of c))) (tp_ c)).
  { unfold c1, notified, refreshed. cbn [local_name_ on_bus with_tp with_buffer with_pending]. by rewrite Hl. }
  destruct (on_abort_frame fr s (tp_ c1)) as (t' & E1 & B1 & M1); [done|done| |].
  { rewrite Htp. simpl. by rewrite <- Hb. }
  unfold lift. erewrite C_bind_ok by (unfold mbind, C_bind; by rewrite E1).
  eexists. split; [reflexivity|]. rewrite Htp in B1, M1. simpl in B1, M1. rewrite <- Hb in M1. simpl.
  split; [by rewrite M1, lookup_insert_eq|]. unfold bus_of. simpl. by rewrite B1.
Qed.

(** A connection whose user has not installed [on_data_] does not survive the
    first data frame that it accepts: the handler calls the empty function. *)
Theorem data_without_callback_faults net fr (c : connection) :
  on_read_ c = true -> on_data_ c = false -> events (tp_ c) = [] -> meant_for net c (header fr) ->
  normal_pgn (pgn (header fr)) = true -> 1 <= payload_length (header fr) <= len (payload fr) ->
  on_received net (inr fr) c = Fault bad_function_call.
Proof.
  intros Hr Hd Hev Hm Hn [Hpos Hl]. destruct (on_received_frame net fr c Hr) as (mine & Hmine & ->).
  rewrite (proj2 Hmine Hm), Hn. destruct (notified_keeps net fr c) as (_ & _ & _ & K4).
  assert (Hev' : events (tp_ (notified net fr c)) = []) by (unfold notified, refreshed; by case_match).
  pose proof (lift_normal_frame fr (notified net fr c) Hev' Hn) as E1.
  unfold mbind at 1, C_bind at 1. erewrite C_bind_ok by exact E1.
  unfold mbind at 1, C_bind at 1. rewrite frame_data_ok, (proj2 (Z.eqb_neq _ 0)) by lia. rewrite asks_ok. cbn [on_data_ with_tp]. by rewrite K4, Hd.
Qed.

End ConnectionLimits.
