(* ===== verification/ClaimerConnection.v ===== *)
(** * Claimers and connections together

    An address claimer keeps the table of its node up to date; the connections of
    the node address their frames by it.  Here the claimers of ClaimerNet.v and
    the connections of Connection.v share the tables: what the weaker node sends
    to the stronger one arrives. *)

From Stdlib Require Import String.
From stdpp Require Import gmap list.
From S2P Require Import Prelude J1939Type Canary Header HeaderFacts Name NameFacts Frame Network NetworkFacts.
From S2P Require Import Sml StateMachine AddressClaimer ClaimerFacts ClaimerBus ClaimerView ClaimerNet.
From S2P Require Import Transport TransportFacts Connection ConnectionFacts ConnectionExchange.

Section ClaimerConnection.
Context `{!CanaryHeader, !CanaryLaws} `{SmlLaws} `{!CanaryFilter} {K : Type} `{!RawSocket K} `{!ReliableSocket K}.
Context (names : list name) (Hwf : Forall name_wf names) (Hkeys : NoDup (priority_key <$> names)).
Context (cs : list claimer) (ias : list (nat * action)).
Context (Hcs : Forall2 fresh names cs) (Hias : Forall (fun ia => action_ok (snd ia)) ias).
Notation table c := (network_ (cworld_of c)).
Notation holds_of c := (holds (state_machine_ c) (deps_ c)).
Notation station := (station names (net_run ias cs)).

(** A connection with its names and its callbacks, between two operations. *)
Record ready (l t : option name) (c : connection K) : Prop := {
  ready_local : local_name_ c = l;
  ready_target : target_name_ c = t;
  ready_read : on_read_ c = true;
  ready_data : on_data_ c = true;
  ready_rx : rx_callback_ (tp_ c) = true;
  ready_drained : events (tp_ c) = []
}.

Lemma ready_linked net l t c : ready (Some l) (Some t) c ->
  linked net (get_address l net) (get_address t net) c.
Proof. intros [? ? ? ? ? ?]. split; try done; by eexists. Qed.

(** The holder [S] of [x] that nobody beats, seen by itself and by a weaker [W]. *)
Lemma strongest_known i S s x j W w :
  station i S s -> state_machine_ s = st_has_address -> has_address_address (deps_ s) = x ->
  (forall k N c, station k N c -> holds_of c x -> name_lt N S = false) ->
  station j W w -> name_lt S W = true ->
  unicast x /\ get_address S (table s) = x /\ get_address S (table w) = x.
Proof.
  intros Hs Hst Hx Hbest Hw Hlt. assert (Hh : holds_of s x) by (by rewrite Hst).
  assert (Hu : unicast x).
  { destruct (reached_inv names Hwf Hkeys cs ias Hcs Hias) as [Hmem _]. destruct (Hmem _ _ _ Hs) as (_ & [_ Hag] & _).
    rewrite Hst in Hag. destruct Hag as (_ & _ & Hu & _). by rewrite <- Hx. }
  pose proof (strongest_leads names Hwf Hkeys cs ias Hcs Hias i S s x Hs Hu Hh Hbest) as Hlead.
  destruct (Hlead _ _ _ Hs) as [Ms Fs], (Hlead _ _ _ Hw) as [_ [Fw _]].
  split; [done|]. split.
  - rewrite <- Hx. apply (holder_in_table names Hwf Hkeys cs ias Hcs Hias i S s Hs Hst). rewrite Hx.
    by apply (strongest_unbeaten names Hkeys cs ias i).
  - unfold get_address. by rewrite (proj2 (Fw Hlt)).
Qed.


End ClaimerConnection.
