(* ===== verification/Node.v ===== *)
(** * The example program ([examples/main.cpp])

    One process with an address table for the interface [vcan0], a connection
    without names and an address claimer.  The connection's [on_read] passes
    every frame to the claimer, the claimer's [on_frame] sends its frames
    through the connection.  [main] sets them up; then the event loop serves
    one [node_input] at a time.  What the callbacks print and how the signal
    handler ends the program are in Program.v. *)

From Stdlib Require Import String.
From stdpp Require Import gmap list.
From S2P Require Import Prelude J1939Type Canary Header Name Frame Network Sml StateMachine AddressClaimer.
From S2P Require Import Transport Connection.

Section Node.
Context `{CanaryHeader} `{Sml} `{!CanaryFilter} {K : Type} `{!RawSocket K}.

Record node := Node { conn : connection K; addr_mngr : claimer }.

Definition example_name : name := Name 0x7758.
Definition vcan0_network : network := network_init "vcan0".

(** The claimer's [on_frame] callback, for the calls of one operation. *)
Fixpoint send_outputs (outs : list output) : C (K := K) unit :=
  match outs with
  | [] => mret tt
  | out_frame f :: outs => _ ← send_raw f; send_outputs outs
  | _ :: outs => send_outputs outs
  end.

(** An operation of the claimer, with the calls of its callbacks. *)
Definition with_claimer (f : claimer -> claimer) (n : node) : result node :=
  let m := f (addr_mngr n) in
  let before := outputs (cworld_of (addr_mngr n)) in
  match send_outputs (drop (length before) (outputs (cworld_of m))) (conn n) with
  | Ok (_, c) => Ok (Node c m)
  | Fault e => Fault e
  end.

Definition with_connection (m : network -> C (K := K) unit) (n : node) : result node :=
  match m (network_ (cworld_of (addr_mngr n))) (conn n) with
  | Ok (_, c) => Ok (Node c (addr_mngr n))
  | Fault e => Fault e
  end.

(** What the event loop serves: a completed read, a task or the timer of the
    claimer, the timer of the transport. *)
Inductive node_input :=
  | node_received (r : connection_error + frame)
  | node_run (k : nat)
  | node_expire (failed : bool)
  | node_tick (ec : option connection_error) (order : list (Z * Z)).

Definition node_step (i : node_input) (n : node) : result node :=
  match i with
  | node_received (inl ec) => with_connection (fun net => on_received net (inl ec)) n
  | node_received (inr fr) =>
      match with_claimer (process fr) n with
      | Ok n => with_connection (fun net => on_received net (inr fr)) n
      | Fault e => Fault e
      end
  | node_run k => with_claimer (step (in_run k)) n
  | node_expire failed => with_claimer (step (in_expire failed)) n
  | node_tick ec order => with_connection (fun _ => on_tick_timer ec order) n
  end.

Fixpoint node_steps (l : list node_input) (n : node) : result node :=
  match l with
  | [] => Ok n
  | i :: l => match node_step i n with Ok n => node_steps l n | Fault e => Fault e end
  end.

(** The objects of [main] with their callbacks. *)
Definition setup (k : K) : node :=
  let c := j1939_connection k None None in
  let m := address_claimer [] example_name vcan0_network in
  let c := connection_on_error (on_send (on_read (on_close (on_start c)))) in
  let m := on_error (on_frame (on_address_lost (on_address_claimed m))) in
  Node c m.

(** [main] up to [io_layer.run()]; [None] is the return value -1. *)
Definition main (k : K) : result (option node) :=
  let '(Node c m) := setup k in
  match open vcan0_network c with
  | Ok (true, c) =>
      match start c with
      | Ok (_, c) =>
          match with_claimer (start_address_claim 0x44) (Node c m) with
          | Ok n => Ok (Some n)
          | Fault e => Fault e
          end
      | Fault e => Fault e
      end
  | Ok (false, _) => Ok None
  | Fault e => Fault e
  end.

(** The nodes that the program can be in. *)
Inductive reachable (k : K) : node -> Prop :=
  | reachable_main n : main k = Ok (Some n) -> reachable k n
  | reachable_step i n n' : reachable k n -> node_step i n = Ok n' -> reachable k n'.

End Node.

Arguments node {_} K.
