(* ===== verification/Program.v ===== *)
(** * What the example program prints and how it ends ([examples/main.cpp])

    Node.v has the objects of the program and its event loop.  Here the callbacks
    print their lines, in the order in which they run, and the handler of SIGINT
    and SIGTERM stops the loop.  The text of an error code
    ([error_code::message()]) is a parameter. *)

From Stdlib Require Import String Ascii.
From stdpp Require Import gmap list.
From S2P Require Import Prelude J1939Type Canary Header Name Frame Network Sml StateMachine AddressClaimer.
From S2P Require Import Transport Connection Node.

Section Program.
Context `{CanaryHeader} `{Sml} `{!CanaryFilter} {K : Type} `{!RawSocket K}.
Context (claimer_message : error_code -> string) (connection_message : connection_error -> string).

(** [std::cout << c] for an [unsigned char]: the character, not the number. *)
Definition character (c : Z) : string := String (ascii_of_N (Z.to_N c)) EmptyString.

(** ** The lines of the callbacks *)

(** The callbacks of [addr_mngr]. *)
Definition claimer_line (o : output) : list string :=
  match o with
  | out_address n address =>
      [append (hex (to_name_t n)) (append " local ctrl gained address: " (character address))]
  | out_lose_address n => [append (hex (to_name_t n)) " local ctrl lost address"]
  | out_frame f => [append "Output frame: " (frame_to_string f)]
  | out_error what ec => [append what (append " " (claimer_message ec))]
  | out_new_name _ _ => []
  end.

(** The callbacks of [conn]; [on_read] passes the frame on and prints nothing. *)
Definition connection_line (c : user_call) : list string :=
  match c with
  | call_start => ["Listening for can messages..."%string]
  | call_destroy => ["J1939 Connection closed"%string]
  | call_send f => [append "Sent frame: " (frame_to_string f)]
  | call_error what ec => [append what (append " " (connection_message ec))]
  | call_read _ | call_data _ => []
  end.

(** The lines of the calls that [conn] has made since [before]. *)
Definition new_lines (before : connection K) (now : list user_call) : list string :=
  concat (connection_line <$> drop (length (calls (bus_of before))) now).

(** The lines of a sequence of calls of the claimer: [on_frame] prints before it
    sends. *)
Fixpoint print_outputs (outs : list output) (c : connection K) : list string :=
  match outs with
  | [] => []
  | o :: outs =>
      claimer_line o ++
      match o with
      | out_frame f =>
          match send_raw f c with
          | Ok (_, c') => new_lines c (calls (bus_of c')) ++ print_outputs outs c'
          | Fault _ => []
          end
      | _ => print_outputs outs c
      end
  end.

Definition print_claimer (f : claimer -> claimer) (n : node K) : list string :=
  print_outputs (drop (length (outputs (cworld_of (addr_mngr n)))) (outputs (cworld_of (f (addr_mngr n)))))
    (conn n).

Definition print_connection (m : network -> C (K := K) unit) (n : node K) : list string :=
  match m (network_ (cworld_of (addr_mngr n))) (conn n) with
  | Ok (_, c) => new_lines (conn n) (calls (bus_of c))
  | Fault _ => []
  end.

(** The lines of one step of the loop. *)
Definition print_step (i : node_input) (n : node K) : list string :=
  match i with
  | node_received (inl ec) => print_connection (fun net => on_received net (inl ec)) n
  | node_received (inr fr) =>
      print_claimer (process fr) n ++
      match with_claimer (process fr) n with
      | Ok n => print_connection (fun net => on_received net (inr fr)) n
      | Fault _ => []
      end
  | node_run k => print_claimer (step (in_run k)) n
  | node_expire failed => print_claimer (step (in_expire failed)) n
  | node_tick ec order => print_connection (fun _ => on_tick_timer ec order) n
  end.

(** ** The program *)

(** The program in its loop, with the wait for a signal that may be pending, or
    its return value; and what it has printed. *)
Inductive program :=
| running (n : node K) (waiting : bool) (out : list string)
| returned (code : Z) (out : list string).

(** The end of [main]: [conn] is destroyed. *)
Definition leave_main (code : Z) (c : connection K) (out : list string) : program :=
  returned code (out ++ new_lines c (destroy c)).

(** [main] up to [io_layer.run()], or up to its first [return]. *)
Definition program_main (k : K) : result program :=
  let '(Node c0 m) := setup k in
  match open vcan0_network c0 with
  | Ok (true, c) =>
      match start c with
      | Ok (_, c) =>
          match with_claimer (start_address_claim 0x44) (Node c m) with
          | Ok n =>
              Ok (running n true (new_lines c0 (calls (bus_of c)) ++
                                  print_claimer (start_address_claim 0x44) (Node c m)))
          | Fault e => Fault e
          end
      | Fault e => Fault e
      end
  | Ok (false, c) => Ok (leave_main (-1) c (new_lines c0 (calls (bus_of c))))
  | Fault e => Fault e
  end.

(** A signal, or an error of the wait for it; or an input of the other objects. *)
Inductive program_input :=
| on_signal (ec : option connection_error)
| in_loop (i : node_input).

(** The handler of [signals.async_wait], which waits only once: without an error
    it stops the context, [run] returns and so does [main]. *)
Definition signal_handler (ec : option connection_error) (n : node K) (out : list string) : program :=
  match ec with
  | None => leave_main 0 (conn n) out
  | Some _ => running n false out
  end.

Definition program_step (i : program_input) (p : program) : result program :=
  match p, i with
  | returned _ _, _ => Ok p
  | running n true out, on_signal ec => Ok (signal_handler ec n out)
  | running n false out, on_signal _ => Ok p
  | running n waiting out, in_loop i =>
      match node_step i n with
      | Ok n' => Ok (running n' waiting (out ++ print_step i n))
      | Fault e => Fault e
      end
  end.

Fixpoint program_steps (l : list program_input) (p : program) : result program :=
  match l with
  | [] => Ok p
  | i :: l => match program_step i p with Ok p => program_steps l p | Fault e => Fault e end
  end.

(** ** What it does *)

Lemma new_lines_none (c : connection K) : new_lines c (calls (bus_of c)) = [].
Proof. unfold new_lines. by rewrite drop_all. Qed.

(** The program reaches its loop exactly when [main] of Node.v does. *)
Lemma program_main_running k n :
  main k = Ok (Some n) -> exists out, program_main k = Ok (running n true out).
Proof.
  unfold main, program_main. destruct (setup k) as [c0 m].
  destruct (open vcan0_network c0) as [[[] c1]|]; [|done..].
  destruct (start c1) as [[[] c2]|]; [|done].
  destruct (with_claimer _ _); [|done]. intros [= ->]. by eexists.
Qed.

(** Without signals it is the loop of Node.v. *)
Lemma program_loop is_ n waiting out n' :
  node_steps is_ n = Ok n' ->
  exists out', program_steps (in_loop <$> is_) (running n waiting out) = Ok (running n' waiting out').
Proof.
  revert n out. induction is_ as [|i l IH]; intros n out; cbn.
  - intros [= ->]. by eexists.
  - destruct (node_step i n) as [n1|]; [|done]. intros Hl.
    destruct waiting; cbn; destruct (IH _ (out ++ print_step i n) Hl) as [out' ->]; by eexists.
Qed.

Lemma program_steps_app l l' p p' :
  program_steps l p = Ok p' -> program_steps (l ++ l') p = program_steps l' p'.
Proof.
  revert p. induction l as [|i l IH]; intros p; cbn; [by intros [= ->]|].
  destruct (program_step i p); [apply IH|done].
Qed.

Lemma returned_stays l code out : program_steps l (returned code out) = Ok (returned code out).
Proof. by induction l. Qed.

End Program.
