(* ===== verification/NodeFacts.v ===== *)
(** * What the example program does

    On a quiet bus it claims address 0x44 for its NAME; in every state it can
    reach, the first data frame on the bus ends it. *)

From Stdlib Require Import String.
From stdpp Require Import gmap list.
From S2P Require Import Prelude J1939Type Canary Header HeaderFacts Name Frame Network Sml StateMachine.
From S2P Require Import StateMachineFacts AddressClaimer ClaimerFacts ClaimerBus Transport TransportFacts TransportFrame.
From S2P Require Import Connection ConnectionFacts ConnectionExchange ConnectionLimits Node Program.

Section NodeInvariant.
Context `{!CanaryHeader, !CanaryLaws} `{!Sml} `{!CanaryFilter} {K : Type} `{!RawSocket K}.

Notation connection := (connection K).

(** ** The connection of the program: no names, no [on_data] *)

Definition wired (c : connection) : Prop :=
  local_name_ c = None /\ target_name_ c = None /\ on_destroy_ c = true /\ on_read_ c = true /\ on_data_ c = false /\
  events (tp_ c) = [].

Definition keeps {A} (m : C (K := K) A) : Prop :=
  forall c a c', wired c -> m c = Ok (a, c') -> wired c'.

Lemma keeps_ret {A} (a : A) : keeps (mret a).
Proof. intros c b c' Hc [= -> ->]. done. Qed.

Lemma keeps_bind {A B} (m : C A) (k : A -> C B) : keeps m -> (forall a, keeps (k a)) -> keeps (m ≫= k).
Proof.
  intros Hm Hk c b c' Hc Hr. unfold mbind, C_bind in Hr.
  destruct (m c) as [[a c1]|] eqn:Hmc; [|done]. by eapply Hk, Hr; eapply Hm.
Qed.

Lemma keeps_modify f : (forall c, wired c -> wired (f c)) -> keeps (modify f).
Proof. intros Hf c a c' Hc [= <-]. subst. auto. Qed.

Lemma keeps_asks {A} (f : connection -> A) : keeps (asks f).
Proof. intros c a c' Hc [= _ <-]. done. Qed.

Lemma keeps_throw {A} f : keeps (@throw _ K A f).
Proof. by intros c a c' _ [=]. Qed.

Lemma keeps_invoke b k : keeps (invoke b k).
Proof. destruct b; [by apply keeps_modify|apply keeps_throw]. Qed.

Lemma keeps_lift {A} (m : M A) : keeps (lift m).
Proof.
  intros c a c' (? & ? & ? & ? & ? & _). unfold lift. destruct (m (tp_ c)) as [[x t]|]; [|done].
  intros [= <- <-]. by split_and!.
Qed.

Lemma keeps_send_raw fr : keeps (send_raw fr).
Proof. intros c a c' Hc. unfold send_raw. destruct (write fr (bus_of c)). by intros [= <- <-]. Qed.

Lemma keeps_on_received net r : keeps (on_received net r).
Proof.
  unfold on_received. apply keeps_bind; [by apply keeps_modify|]. intros _. destruct r as [ec|fr].
  - apply keeps_modify. by intros c.
  - apply keeps_bind; [by apply keeps_modify|]. intros _. apply keeps_bind; [apply keeps_asks|]. intros reader.
    apply keeps_bind; [apply keeps_invoke|]. intros _. apply keeps_bind.
    { intros c b c' Hc. destruct (check_address_accepts net c) as (b' & -> & _). intros [= _ <-].
      unfold refreshed. by case_match. }
    intros mine. apply keeps_bind; [|intros _; apply keeps_bind; [by apply keeps_modify|]; intros _; by apply keeps_modify].
    destruct mine; [|apply keeps_ret]. apply keeps_bind; [apply keeps_lift|]. intros _.
    case_match; [|apply keeps_ret]. apply keeps_bind.
    + unfold frame_data. case_match; [apply keeps_throw|]. case_match; [apply keeps_throw|apply keeps_ret].
    + intros d. apply keeps_bind; [apply keeps_asks|]. intros b. apply keeps_invoke.
Qed.

Lemma keeps_send_outputs outs : keeps (send_outputs outs).
Proof.
  induction outs as [|[] outs IH]; cbn [send_outputs]; try done; [apply keeps_ret|].
  apply keeps_bind; [apply keeps_send_raw|done].
Qed.

Lemma with_claimer_wired f n n' : wired (conn n) -> with_claimer f n = Ok n' -> wired (conn n').
Proof.
  intros Hc. unfold with_claimer. destruct (send_outputs _ (conn n)) as [[u c]|] eqn:Hs; [|done].
  intros [= <-]. by eapply keeps_send_outputs, Hs.
Qed.

Lemma with_connection_wired m n n' : (forall net, keeps (m net)) ->
  wired (conn n) -> with_connection m n = Ok n' -> wired (conn n').
Proof.
  intros Hm Hc. unfold with_connection. destruct (m _ (conn n)) as [[u c]|] eqn:Hs; [|done].
  intros [= <-]. by eapply Hm, Hs.
Qed.

Lemma node_step_wired i n n' : wired (conn n) -> node_step i n = Ok n' -> wired (conn n').
Proof.
  intros Hc. destruct i as [[ec|fr]|j|failed|ec order]; cbn [node_step].
  - apply with_connection_wired; [|done]. intros net. apply keeps_on_received.
  - destruct (with_claimer (process fr) n) as [n1|] eqn:Hp; [|done].
    apply with_connection_wired; [|by eapply with_claimer_wired]. intros net. apply keeps_on_received.
  - by apply with_claimer_wired.
  - by apply with_claimer_wired.
  - apply with_connection_wired; [|done]. intros _. destruct ec; [by apply keeps_modify|apply keeps_lift].
Qed.

Lemma open_wired net : keeps (open net).
Proof.
  intros c a c' Hc. unfold open, on_open_error.
  repeat case_match; intros [= <- <-]; done.
Qed.

Lemma reachable_wired k n : reachable k n -> wired (conn n).
Proof.
  induction 1 as [n Hm|i n n' _ IH Hs]; [|by eapply node_step_wired]. unfold main, setup in Hm.
  set (c0 := connection_on_error _) in Hm. assert (Hc0 : wired c0) by done.
  destruct (open vcan0_network c0) as [[[] c1]|] eqn:E1; [|done..].
  pose proof (open_wired _ _ _ _ Hc0 E1) as Hc1. cbv beta iota in Hm.
  destruct (start c1) as [[u c2]|] eqn:E2; [|done].
  assert (Hc2 : wired c2) by (unfold start in E2; injection E2 as _ <-; by destruct (on_start_ c1)).
  destruct (with_claimer _ _) as [n1|] eqn:E3; [|done]. injection Hm as <-. by eapply with_claimer_wired, E3.
Qed.

(** A frame that is neither a claim nor a request does not concern the claimer. *)
Lemma with_claimer_other fr n : is_claim (header fr) = false -> is_request (header fr) = false ->
  with_claimer (process fr) n = Ok n.
Proof.
  intros Hc Hr. unfold with_claimer, process. rewrite Hc, Hr, drop_all. by destruct n.
Qed.

(** In every state that the example program can reach, the first data frame
    that arrives on the bus ends it: the program installs no [on_data]
    callback, and a connection without names accepts every frame. *)
Theorem example_ends_on_first_data_frame k n fr :
  reachable k n -> is_claim (header fr) = false -> is_request (header fr) = false ->
  normal_pgn (pgn (header fr)) = true -> 1 <= payload_length (header fr) <= Z.of_nat (length (payload fr)) ->
  node_step (node_received (inr fr)) n = Fault bad_function_call.
Proof.
  intros Hn Hc Hr Hg Hl. destruct (reachable_wired k n Hn) as (W1 & W2 & _ & W3 & W4 & W5).
  cbn [node_step]. rewrite with_claimer_other by done. unfold with_connection.
  rewrite data_without_callback_faults; [done..| |done|done].
  split; intros ?; [by rewrite W2|by rewrite W1].
Qed.

Lemma reachable_steps k is_ n n' : reachable k n -> node_steps is_ n = Ok n' -> reachable k n'.
Proof.
  revert n. induction is_ as [|i l IH]; intros n Hn; cbn; [by intros [= <-]|].
  destruct (node_step i n) as [n1|] eqn:E; [|done]. apply IH. by eapply reachable_step.
Qed.

(** A signal ends the example program: whatever has happened before in its
    event loop, the program returns 0 after it has closed the connection, and
    nothing that was still queued is served. *)
Theorem signal_ends_the_program messages messages' k n is_ n' rest :
  main k = Ok (Some n) -> node_steps is_ n = Ok n' ->
  exists p out, program_main messages messages' k = Ok p /\
    program_steps messages messages' ((in_loop <$> is_) ++ on_signal None :: rest) p =
      Ok (returned 0 (out ++ ["J1939 Connection closed"%string])).
Proof.
  intros Hm Hs. destruct (program_main_running messages messages' k n Hm) as [out Hp].
  destruct (program_loop messages messages' is_ n true out n' Hs) as [out' Hl].
  exists (running n true out), out'. split; [done|].
  rewrite (program_steps_app _ _ _ _ _ _ Hl). cbn. unfold leave_main. rewrite returned_stays.
  destruct (reachable_wired k n') as (_ & _ & Hd & _); [by eapply reachable_steps; [by apply reachable_main|]|].
  unfold new_lines, destroy. by rewrite drop_app_length, Hd.
Qed.

End NodeInvariant.

(** ** A quiet bus *)

Section QuietBus.
Context `{!CanaryHeader, !CanaryLaws} `{SmlLaws} `{!CanaryFilter} {K : Type} `{!RawSocket K} `{!ReliableSocket K}.

Lemma send_outputs_ok outs (c : connection K) :
  exists c', send_outputs outs c = Ok (tt, c') /\ written c' = written c ++ omap output_frame outs.
Proof.
  revert c. induction outs as [|o outs IH]; intros c; cbn [send_outputs omap list_omap].
  - exists c. by rewrite app_nil_r.
  - destruct o as [f| | | |]; simpl; try apply IH.
    pose proof (send_records (E := adapter K) f (bus_of c)) as Hr. simpl in Hr.
    destruct (write f (bus_of c)) as [ok e] eqn:Hw. simpl in Hr.
    destruct (IH (on_bus (fun _ => e) c)) as (c' & E1 & W1). exists c'. split.
    + erewrite C_bind_ok by (unfold send_raw; by rewrite Hw). done.
    + rewrite W1. change (written (on_bus (fun _ => e) c)) with (socket_sent (socket_ e)). rewrite Hr.
      by rewrite <- app_assoc.
Qed.

(** A step of the claimer sends the frames it outputs. *)
Lemma with_claimer_ok f n outs :
  outputs (cworld_of (f (addr_mngr n))) = outputs (cworld_of (addr_mngr n)) ++ outs ->
  exists c, with_claimer f n = Ok (Node c (f (addr_mngr n))) /\
    written c = written (conn n) ++ omap output_frame outs.
Proof.
  intros Ho. unfold with_claimer. rewrite Ho, drop_app_length.
  destruct (send_outputs_ok outs (conn n)) as (c & -> & W1). by exists c.
Qed.

Lemma node_claimer_step i c m m' outs : step i m = m' ->
  outputs (cworld_of m') = outputs (cworld_of m) ++ outs ->
  exists c', with_claimer (step i) (Node c m) = Ok (Node c' m') /\
    written c' = written c ++ omap output_frame outs.
Proof. intros <- Ho. exact (with_claimer_ok (step i) (Node c m) outs Ho). Qed.

(** The claimer of the program. *)
Definition example_claimer (s : st) (claiming has : Z) (net : network) (timer : option handler)
    (q : list task) (o : list output) : claimer :=
  Claimer (machine example_name) s (Deps claiming has 0 (CWorld net timer q (Hooks true true true true) o)).

Lemma example_event e s ca ha net t q o :
  claimer_event e (example_claimer s ca ha net t q o) =
    let '(s', d') := direct network_ (machine example_name) e s
      (Deps ca ha 0 (CWorld net t q (Hooks true true true true) o)) in Claimer (machine example_name) s' d'.
Proof. by rewrite (claimer_event_direct example_name). Qed.

Lemma example_initial :
  on_error (on_frame (on_address_lost (on_address_claimed (address_claimer [] example_name vcan0_network)))) =
    example_claimer st_no_address J1939_NO_ADDR J1939_NO_ADDR vcan0_network None [] [].
Proof. by rewrite address_claimer_initial. Qed.

(** The five steps of a run in which nothing arrives. *)
Lemma example_restart t o :
  step (in_run 0) (example_claimer st_no_address J1939_NO_ADDR J1939_NO_ADDR vcan0_network t
    [posted_event ev_restart] o) =
  example_claimer st_no_address J1939_NO_ADDR J1939_NO_ADDR vcan0_network t []
    (o ++ [out_frame make_global_address_request]).
Proof.
  change (step _ _) with (claimer_event ev_restart
    (example_claimer st_no_address J1939_NO_ADDR J1939_NO_ADDR vcan0_network t [] o)).
  by rewrite example_event.
Qed.

Lemma example_expire s ca ha net h o :
  step (in_expire false) (example_claimer s ca ha net (Some h) [] o) =
    example_claimer s ca ha net None [timer_done h no_error] o.
Proof. done. Qed.

Lemma example_start_claim o :
  step (in_run 0) (example_claimer st_no_address J1939_NO_ADDR J1939_NO_ADDR vcan0_network None
    [timer_done (start_claim_delay 0x44) no_error] o) =
  example_claimer st_claiming 0x44 J1939_NO_ADDR vcan0_network (Some claim_timeout) []
    (o ++ [out_frame (make_address_claim example_name 0x44)]).
Proof.
  change (step _ _) with (claimer_event (ev_start_claim 0x44)
    (example_claimer st_no_address J1939_NO_ADDR J1939_NO_ADDR vcan0_network None [] o)).
  rewrite example_event. cbn [direct]. change (full (dep_network network_ _)) with false. cbv iota.
  assert (Hf : find_address example_name 0x44 vcan0_network = 0x44) by (by vm_compute).
  unfold enter_claiming, begin_claiming_address, claim_address, set_pref_address. simpl. unfold dep_network. simpl.
  by rewrite Hf.
Qed.

(** The table after the claim. *)
Definition claimed_network : network := snd (fst (insert example_name 0x44 vcan0_network)).

Lemma example_timeout o :
  step (in_run 0) (example_claimer st_claiming 0x44 J1939_NO_ADDR vcan0_network None
    [timer_done claim_timeout no_error] o) =
  example_claimer st_has_address 0x44 0x44 claimed_network None [] (o ++ [out_address example_name 0x44]).
Proof.
  change (step _ _) with (claimer_event ev_timeout
    (example_claimer st_claiming 0x44 J1939_NO_ADDR vcan0_network None [] o)).
  rewrite example_event. cbn [direct].
  assert (Hc : claimable 0x44 example_name vcan0_network = true) by (by vm_compute).
  unfold dep_network; cbn [world network_ claiming_address]. change (sm_name_ (machine example_name)) with example_name.
  by rewrite Hc.
Qed.

(** [open] and [start] on a socket whose system calls succeed. *)
Lemma main_ok k i k1 k2 k3 :
  get_interface_index "vcan0" k = (i, None, k1) -> socket_open k1 = (None, k2) -> socket_bind i k2 = (None, k3) ->
  exists n, main k = Ok (Some n) /\ written (conn n) = socket_sent k3 /\
    addr_mngr n = example_claimer st_no_address J1939_NO_ADDR J1939_NO_ADDR vcan0_network
      (Some (start_claim_delay 0x44)) [posted_event ev_restart] [].
Proof.
  intros E1 E2 E3. unfold main, setup. rewrite example_initial. set (c0 := connection_on_error _).
  assert (Hopen : exists c1, open vcan0_network c0 = Ok (true, c1) /\ written c1 = socket_sent k3).
  { unfold open. simpl. rewrite E1. simpl. rewrite E2. simpl. rewrite E3. by eexists. }
  destruct Hopen as (c1 & -> & W1). cbv beta iota.
  assert (Hstart : exists c2, start c1 = Ok (tt, c2) /\ written c2 = written c1).
  { eexists. split; [reflexivity|]. unfold written, bus_of. simpl. by destruct (on_start_ c1). }
  destruct Hstart as (c2 & -> & W2).
  set (m0 := example_claimer _ _ _ _ _ _ _).
  destruct (with_claimer_ok (start_address_claim 0x44) (Node c2 m0) []) as (c3 & -> & W3); [done|].
  eexists. split; [reflexivity|]. simpl. split; [by rewrite W3, app_nil_r; simpl; rewrite W2|done].
Qed.

(** Nothing arrives; the queue is served and the two timers expire. *)
Definition quiet_run : list node_input :=
  [node_run 0; node_expire false; node_run 0; node_expire false; node_run 0].

(** C29.  On a quiet bus the example program gets its address: [main] opens the
    socket and starts; once the request and the two delays are over, exactly
    the request for the addresses of the others and the claim of 0x44 have been
    written, the claimer has the address and the table the NAME. *)
Theorem example_claims_its_address k i k1 k2 k3 :
  get_interface_index "vcan0" k = (i, None, k1) -> socket_open k1 = (None, k2) -> socket_bind i k2 = (None, k3) ->
  exists n n', main k = Ok (Some n) /\ node_steps quiet_run n = Ok n' /\
    written (conn n') = socket_sent k3 ++ [make_global_address_request; make_address_claim example_name 0x44] /\
    state_machine_ (addr_mngr n') = st_has_address /\
    get_address example_name (network_ (cworld_of (addr_mngr n'))) = 0x44 /\
    out_address example_name 0x44 ∈ outputs (cworld_of (addr_mngr n')).
Proof.
  intros E1 E2 E3. destruct (main_ok k i k1 k2 k3 E1 E2 E3) as ([c m] & Hmain & W0 & Hm). simpl in W0, Hm. subst m.
  set (o1 := [out_frame make_global_address_request]).
  set (o2 := o1 ++ [out_frame (make_address_claim example_name 0x44)]).
  destruct (node_claimer_step (in_run 0) c _ _ _ (example_restart (Some (start_claim_delay 0x44)) []) eq_refl)
    as (c1 & S1 & W1). change ([] ++ _) with o1 in S1.
  destruct (node_claimer_step (in_expire false) c1 _ _ []
    (example_expire st_no_address J1939_NO_ADDR J1939_NO_ADDR vcan0_network (start_claim_delay 0x44) o1)
    (eq_sym (app_nil_r _))) as (c2 & S2 & W2).
  destruct (node_claimer_step (in_run 0) c2 _ _ _ (example_start_claim o1) eq_refl) as (c3 & S3 & W3).
  fold o2 in S3.
  destruct (node_claimer_step (in_expire false) c3 _ _ []
    (example_expire st_claiming 0x44 J1939_NO_ADDR vcan0_network claim_timeout o2)
    (eq_sym (app_nil_r _))) as (c4 & S4 & W4).
  destruct (node_claimer_step (in_run 0) c4 _ _ _ (example_timeout o2) eq_refl) as (c5 & S5 & W5).
  eexists _, _. split; [exact Hmain|]. split.
  { unfold quiet_run. cbn [node_steps node_step]. rewrite S1, S2, S3, S4, S5. reflexivity. }
  split_and!; [|done|by vm_compute|].
  - cbn [conn]. rewrite W5, W4, W3, W2, W1, W0. simpl. rewrite !app_nil_r, <- app_assoc. done.
  - simpl. by do 2 apply list_elem_of_further; apply list_elem_of_here.
Qed.

End QuietBus.
