(* ===== verification/ConnectionExamples.v ===== *)
(** * Connections and the example program on a concrete socket

    A socket that records what is written to it, two connections on it whose
    names are each other's target, and the theorems at concrete inputs. *)

From Stdlib Require Import String.
From stdpp Require Import gmap list list_numbers.
From S2P Require Import Prelude J1939Type Canary Header HeaderFacts Name Frame Network Sml StateMachine.
From S2P Require Import AddressClaimer Transport TransportFacts TransportRoundTrip TransportSafety.
From S2P Require Import Connection ConnectionFacts ConnectionExchange ConnectionSafety ConnectionLimits.
From S2P Require Import ClaimerFacts ClaimerBus ClaimerView ClaimerNet ClaimerExamples ClaimerConnection.
From S2P Require Import Node Program NodeFacts.

(** ** The socket *)

Record can_socket := CanSocket { frames_ : list frame; filters_ : list canary_filter; time_ : Z }.

#[export] Instance recording_socket : RawSocket can_socket := {|
  get_interface_index _ k := (3, None, k);
  socket_open k := (None, k);
  socket_bind _ k := (None, k);
  socket_set_option _ fs k := (None, CanSocket (frames_ k) fs (time_ k));
  socket_send fr k := (None, 16, CanSocket (frames_ k ++ [fr]) (filters_ k) (time_ k));
  sizeof_frame := 16;
  socket_clock k := (time_ k, k)
|}.

#[export] Instance recording_reliable : ReliableSocket can_socket.
Proof. by refine {| socket_sent := frames_ |}. Defined.

Definition fresh_socket : can_socket := CanSocket [] [] 0.

(** ** Two connections *)

Definition name_a : name := Name 0xA00.
Definition name_b : name := Name 0xB00.

(** [name_a] has address 0x80, [name_b] address 0x21. *)
Definition two_names : network :=
  snd (fst (insert name_b 0x21 (snd (fst (insert name_a 0x80 (network_init "vcan0")))))).

Definition with_callbacks (c : connection can_socket) : connection can_socket :=
  on_data (on_read (connection_on_error c)).
Definition conn_a : connection can_socket :=
  with_callbacks (j1939_connection fresh_socket (Some name_a) (Some name_b)).
Definition conn_b : connection can_socket :=
  with_callbacks (j1939_connection fresh_socket (Some name_b) (Some name_a)).

Lemma linked_a : linked two_names 0x80 0x21 conn_a.
Proof. split; [exists name_a|exists name_b|done..]; (split; [done|by vm_compute]). Qed.

Lemma linked_b : linked two_names 0x21 0x80 conn_b.
Proof. split; [exists name_b|exists name_a|done..]; (split; [done|by vm_compute]). Qed.

(** A message of 20 bytes for address 0x21, and a PDU2 frame. *)
Definition long_data : data := Data (frame_header_of_fields 6 false 0xEF 0x21 0x80 8) (seqZ 0 20).
Definition short_data : data := Data (frame_header_of_fields 6 false 0xEF 0x21 0x80 3) [1; 2; 3].
Definition pdu2_frame : frame := Frame (frame_header_of_fields 6 false 0xFE 0xCA 0x80 8) (replicate 8 7).

Definition message_of (r : result (unit * connection can_socket)) : option (list (list Z)) :=
  match r with Ok (_, c) => Some (data_payload <$> received c) | Fault _ => None end.

(** The whole exchange, run. *)
Example exchange_runs :
  (match send_data two_names long_data conn_a with
   | Ok (_, a1) => match receive_all two_names (written a1) conn_b with
     | Ok (_, b1) => match receive_all two_names (written b1) a1 with
       | Ok (_, a2) => message_of (receive_all two_names (drop 1 (written a2)) b1)
       | Fault _ => None end
     | Fault _ => None end
   | Fault _ => None end) = Some [seqZ 0 20].
Proof. by vm_compute. Qed.

(** ** The theorems at concrete inputs *)


Lemma single_frame_exchange_witness :
  exists cA1 fr cB1, send_data two_names short_data conn_a = Ok (true, cA1) /\
    receive_all two_names [fr] conn_b = Ok (tt, cB1) /\
    received cB1 = received conn_b ++ [Data (header fr) [1; 2; 3]].
Proof.
  destruct (single_frame_exchange two_names two_names 0x80 0x21 short_data conn_a conn_b linked_a linked_b)
    as (cA1 & fr & cB1 & E1 & _ & E2 & G & _); [by vm_compute..|].
  exists cA1, fr, cB1. exact (conj E1 (conj E2 G)).
Defined.

Lemma received_frames_are_filtered_witness :
  exists mine c', (mine = true <-> meant_for two_names conn_b (header pdu2_frame)) /\
    on_received two_names (inr pdu2_frame) conn_b = Ok (tt, c').
Proof.
  destruct (received_frames_are_filtered two_names pdu2_frame conn_b) as (mine & Hm & E1);
    [done|done|done|by vm_compute|by vm_compute|].
  replace (payload_length (header pdu2_frame) =? 0) with false in E1 by (by vm_compute).
  rewrite andb_false_r in E1. destruct E1 as (c' & E1 & _). exists mine, c'. exact (conj Hm E1).
Defined.


Lemma connection_never_faults_witness :
  exists c', conn_run [op_send_data two_names long_data; op_received two_names (inr pdu2_frame)]
    (on_data (on_read (connection_on_error (j1939_connection fresh_socket (Some name_a) None)))) = Ok (tt, c') /\
    conn_ok c'.
Proof.
  destruct (connection_never_faults [op_send_data two_names long_data; op_received two_names (inr pdu2_frame)]
    fresh_socket name_a None) as [_ Hrun].
  - constructor; [done|]. constructor; [|done]. split; [|by vm_compute].
    split; [by repeat constructor|]. intros Hg. by vm_compute in Hg.
  - apply Hrun. constructor; [done|]. constructor; [|done]. intros _. by vm_compute.
Defined.

Lemma broadcasts_never_reach_a_named_connection_witness :
  exists c', on_received two_names (inr (cm_frame BAM 0xFF 0x21 0xFECA 20 0xFF)) conn_a = Ok (tt, c') /\
    sessions_ (tp_ c') = sessions_ (tp_ conn_a).
Proof.
  destruct (broadcasts_never_reach_a_named_connection two_names name_a 0x21 0xFECA (seqZ 0 20)
    (cm_frame BAM 0xFF 0x21 0xFECA 20 0xFF) conn_a) as (c' & E1 & S1 & _);
    [done|by vm_compute|done|done|apply list_elem_of_here|]. exists c'. exact (conj E1 S1).
Defined.

Lemma unknown_local_name_sends_from_the_global_address_witness :
  exists out c', connection_send (network_init "vcan0") pdu2_frame conn_a =
      Ok (fst (write out (bus_of conn_a)), c') /\ source_address (header out) = 0xFF.
Proof.
  destruct (unknown_local_name_sends_from_the_global_address (network_init "vcan0") name_a pdu2_frame conn_a)
    as (out & c' & E1 & _ & _ & _ & S1); [done|done|by vm_compute|by vm_compute|].
  exists out, c'. exact (conj E1 S1).
Defined.

(** [conn_a] with a transfer to [conn_b] under way, and the abort of the peer. *)
Definition sending_a : connection can_socket :=
  match send_data two_names long_data conn_a with Ok (_, c) => c | Fault _ => conn_a end.
Definition peer_abort : frame :=
  Frame (header (make_base_frame PGN_TP_CM 0x80 0x21)) [to_byte ABORT; 2; 0; 0; 0; 0; 0xEF; 0].
Definition sending_session_a : TpSession :=
  default session_default (sessions_ (tp_ sending_a) !! (0x80, 0x21)).

Lemma remote_abort_is_not_reported_witness :
  exists c', on_received two_names (inr peer_abort) sending_a = Ok (tt, c') /\
    calls (bus_of c') = calls (bus_of sending_a) ++ [call_read peer_abort].
Proof.
  assert (Hs : sessions_ (tp_ sending_a) !! (get_address name_a two_names, get_address name_b two_names) =
    Some sending_session_a) by (by vm_compute).
  destruct (remote_abort_is_not_reported two_names name_a name_b peer_abort sending_session_a sending_a)
    as (c' & E1 & _ & G1); [done|done|done|done|by vm_compute|by vm_compute|by vm_compute|done|exact Hs|].
  exists c'. exact (conj E1 G1).
Defined.

(** The node that [main] sets up. *)
Definition example_node : node can_socket :=
  match main fresh_socket with
  | Ok (Some n) => n
  | _ => Node conn_a (address_claimer [] example_name vcan0_network)
  end.

Lemma example_ends_on_first_data_frame_witness :
  node_step (node_received (inr pdu2_frame)) example_node = Fault bad_function_call.
Proof.
  apply (example_ends_on_first_data_frame fresh_socket example_node pdu2_frame);
    [apply reachable_main; reflexivity|by vm_compute..].
Defined.

Lemma example_claims_its_address_witness :
  exists n n', main fresh_socket = Ok (Some n) /\ node_steps quiet_run n = Ok n' /\
    get_address example_name (network_ (cworld_of (addr_mngr n'))) = 0x44.
Proof.
  destruct (example_claims_its_address fresh_socket 3 fresh_socket fresh_socket fresh_socket)
    as (n & n' & E1 & E2 & _ & _ & G1 & _); [done..|]. exists n, n'. exact (conj E1 (conj E2 G1)).
Defined.

(** ** What the example program prints *)

Definition no_message {A} (_ : A) : string := "".

Definition printed_by (l : list program_input) (k : can_socket) : option (Z * list string) :=
  match program_main no_message no_message k with
  | Ok p =>
      match program_steps no_message no_message l p with
      | Ok (returned code out) => Some (code, out)
      | _ => None
      end
  | Fault _ => None
  end.

(** On a quiet bus, until a signal arrives.  The address is printed as the
    character with its number, [D] for 0x44. *)
Lemma example_prints :
  printed_by ((in_loop <$> quiet_run) ++ [on_signal None]) fresh_socket =
    Some (0, ["Listening for can messages...";
              "Output frame: 18eafffe:0'ee'0'0'0'0'0'0'";
              "Sent frame: 18eafffe:0'ee'0'0'0'0'0'0'";
              "Output frame: 18eeff44:58'77'0'0'0'0'0'0'";
              "Sent frame: 18eeff44:58'77'0'0'0'0'0'0'";
              "7758 local ctrl gained address: D";
              "J1939 Connection closed"]%string).
Proof. by vm_compute. Qed.

Lemma signal_ends_the_program_witness :
  exists n' p out, node_steps quiet_run example_node = Ok n' /\
    program_main no_message no_message fresh_socket = Ok p /\
    program_steps no_message no_message ((in_loop <$> quiet_run) ++ [on_signal None; on_signal None]) p =
      Ok (returned 0 (out ++ ["J1939 Connection closed"%string])).
Proof.
  assert (Hok : match node_steps quiet_run example_node with Ok _ => true | Fault _ => false end = true)
    by (by vm_compute).
  destruct (node_steps quiet_run example_node) as [n'|e] eqn:E; [clear Hok|discriminate Hok].
  destruct (signal_ends_the_program no_message no_message fresh_socket example_node quiet_run n' [on_signal None])
    as (p & out & Hp & Hs); [reflexivity|exact E|]. exists n', p, out. exact (conj eq_refl (conj Hp Hs)).
Defined.

(** ** Claimers and connections *)

(** [stronger] claims 0xAA, then [local] claims 0x20. *)
Definition talking_run : list (nat * action) :=
  (pair 0%nat <$> [act_start 0xAA; act_run 0; act_fire false; act_fire false]) ++
  (pair 1%nat <$> [act_start 0x20; act_run 2; act_fire false; act_fire false]).

Lemma talking_run_ok : Forall (fun ia => action_ok (snd ia)) talking_run.
Proof. repeat apply Forall_cons_2; by try apply Forall_nil. Qed.

(** The addresses of the claims that a claimer has still to look at. *)
Definition claims_to_see (c : claimer) : list Z :=
  omap (fun t => match t with posted_event (ev_address_claim _ a) => Some a | _ => None end)
    (context_ (cworld_of c)).

Lemma talking_run_held :
  (fun c => (state_machine_ c, has_address_address (deps_ c), claims_to_see c))
    <$> net_run talking_run three_claimers =
  [(st_has_address, 0xAA, [0x20]); (st_has_address, 0x20, [0xAA]); (st_no_address, 0xFF, [0xAA; 0x20])].
Proof. by vm_compute. Qed.

Lemma talking_run_at j s a l :
  [(st_has_address, 0xAA, [0x20]); (st_has_address, 0x20, [0xAA]); (st_no_address, 0xFF, [0xAA; 0x20])] !! j
    = Some (s, a, l) ->
  exists c, net_run talking_run three_claimers !! j = Some c /\ state_machine_ c = s /\
    has_address_address (deps_ c) = a /\ claims_to_see c = l.
Proof.
  rewrite <- talking_run_held. generalize (net_run talking_run three_claimers). intros cs.
  rewrite list_lookup_fmap. intros (c & Hc & [= -> -> ->])%fmap_Some. by exists c.
Qed.

Lemma not_to_see n a c : a ∉ claims_to_see c -> posted_event (ev_address_claim n a) ∉ context_ (cworld_of c).
Proof. intros Ha Hin. apply Ha, list_elem_of_omap. by eexists. Qed.

Definition conn_weak : connection can_socket :=
  with_callbacks (j1939_connection fresh_socket (Some local) (Some stronger)).
Definition conn_strong : connection can_socket :=
  with_callbacks (j1939_connection fresh_socket (Some stronger) None).

Lemma strongest_of_three cs j N c : station three cs j N c -> name_lt N stronger = false.
Proof. intros [HN _]. do 3 (destruct j as [|j]; [by injection HN as <-|]). done. Qed.

Lemma ready_weak : ready (Some local) (Some stronger) conn_weak.
Proof. by split. Qed.

Lemma ready_strong : ready (Some stronger) None conn_strong.
Proof. by split. Qed.

Lemma short_data_ok : j1939_flags (data_header short_data) /\ normal_pgn (pgn (data_header short_data)) = true /\
  1 <= Z.of_nat (length (data_payload short_data)) <= 8 /\
  payload_length (data_header short_data) = Z.of_nat (length (data_payload short_data)).
Proof. split_and!; by vm_compute. Qed.

